(* ===== verification/_CoqProject ===== *)
-Q . S2P
Prelude.v
Mem.v
CString.v
Frames.v
Pmm.v
Heap.v
Vmm.v
Machine.v
Io.v
Keyboard.v
Editor.v
Block.v
Fat16.v
Fat16Table.v
Fat16Data.v
Fat16Dir.v
Fat16Proofs.v
Fat16Demo.v
Lisp.v
LispParse.v
LispEval.v
LispProofs.v
TarFs.v
Shell.v
Vga.v
AddrSpace.v
Process.v
Layout.v
Loader.v
LoaderDemo.v
Syscall.v
SyscallProofs.v
SyscallDemo.v
Cpu.v
Ata.v
AtaDisk.v
Fat16Ports.v
Fat16PortsDemo.v
Pci.v
Acpi.v
System.v
Faults.v
Initrd.v
Boot.v
SystemDemo.v
UserProg.v
Hello.v
HelloDemo.v
FaultsDemo.v
Files.v
FilesDemo.v
EditorRun.v
EditorDemo.v
LispRun.v
LispDemo.v
Console.v
Typed.v
TypedDemo.v
