(* ===== verification/Prelude.v ===== *)
(** A verification development for LISP-DOS (src/), a 64-bit kernel with its
    drivers, a FAT16 file system, a loader, and two user programs, an editor and
    a Lisp interpreter.

    * The program and its parts

    At boot [_start] (kernel/main.c) initialises the processor's tables
    (hal/gdt.c, hal/idt.c, hal/pic.c), the page allocator (kernel/pmm.c), the
    page maps (kernel/vmm.c), the heap (kernel/heap.c), the archive of drive C
    (kernel/tarfs.c), the disk of drive A (kernel/fat16.c over hal/ata.c), the bus
    scan (hal/pci.c) and the power management (hal/acpi.c), and then runs a
    command loop. A command that names a program goes to the loader
    (kernel/process.c), which copies its segments into a page map of its own; the
    program calls the kernel through kernel/syscall.c with the stubs of
    tools/syscalls.h until it exits. All parts write to the screen (hal/vga.c).

    * Files of the development

    Shared:
    - Prelude.v: C integers, loops, tactics; Mem.v: byte memory; CString.v
      (kernel/string.c) with the memory and string routines and their laws.

    Memory:
    - Frames.v: the interface of the page allocator, the class [PageAllocator] with
      [PageAllocatorLaws]: a set of free frames, and what allocating, freeing and
      storing do to it. Pmm.v (kernel/pmm.c) is the bitmap allocator; its state
      lies in the memory it manages, and it discharges the laws. Heap.v
      (kernel/heap.c) and Vmm.v (kernel/vmm.c) are proved against the interface.
      Machine.v applies their theorems to eight concrete frames.
    - AddrSpace.v: the invariant [space] of a process's page map and what building
      and giving it back does to the frames.

    Devices:
    - Io.v: the class [Ports] of port instructions (hal/io.h), byte arrays.
    - Keyboard.v (hal/keyboard.c): the interrupt handler and the reader of the ring
      it fills, with their interleavings.
    - Vga.v (hal/vga.c, hal/font8x8_basic.h): the frame buffer as an array.
    - Ata.v (hal/ata.c), Pci.v (hal/pci.c, hal/usb.c, hal/serial.c), Acpi.v
      (hal/acpi.c), Cpu.v (hal/gdt.c, hal/idt.c, hal/pic.c, the registers set in
      kernel/syscall.c and kernel/main.c). The other side of each protocol, as its
      standard defines it, is a class of laws with an instance: the drive
      ([AtaLaws]), the configuration space ([PciLaws]), the interrupt controllers
      ([PicLaws]), the reading of descriptors ([seg_base], [gate_offset], ...).

    Files:
    - Block.v: the contract of a block device, [DiskLaws]; AtaDisk.v discharges it
      with the driver of Ata.v, and shows that no client of the driver can tell it
      from an abstract disk. Fat16.v
      (kernel/fat16.c) has the operations; Fat16Table.v (the table and its
      chains), Fat16Data.v (clusters), Fat16Dir.v (the directory) and
      Fat16Proofs.v (the invariant [fs_ok] of a volume and the theorems) prove
      them against it; Fat16Demo.v has small volumes. Fat16Ports.v has the
      routines again as sequences of sector requests and runs them through the
      driver; Fat16PortsDemo.v, on a concrete drive.
    - TarFs.v (kernel/tarfs.c): the read-only archive in memory.

    Programs:
    - Editor.v (tools/editor.c): the editor refines a text with a cursor.
    - Lisp.v (tools/lisp.c) has the interpreter in a state monad with undefined
      behaviour as a value; LispParse.v, LispEval.v and LispProofs.v prove
      the reader, the evaluator and whole scripts.

    Kernel services and their composition:
    - Process.v (kernel/process.c, kernel/elf.h); Layout.v, what a program file asks
      of the loader: its pages, the frames they take, and the conditions the code
      does not check; Loader.v (the loader's theorems), LoaderDemo.v.
    - Syscall.v (kernel/syscall.c, tools/syscalls.h), SyscallProofs.v, SyscallDemo.v.
    - Shell.v (kernel/main.c, the command loop) over the class [Services].
    - System.v: the instance of [Services] by the operations above, and sessions;
      Boot.v ([_start]); SystemDemo.v.
    - UserProg.v: what the memory of a process answers to the pointers it passes.
      Hello.v (test/test.c), a program from its file to the screen, HelloDemo.v;
      EditorRun.v (tools/editor.c), the editor as a process whose calls go through
      the dispatcher, from its file to the text on the disk, EditorDemo.v;
      LispRun.v (tools/lisp.c), the interpreter as a process, from the script on the
      disk to the screen, LispDemo.v.
    - Faults.v: programs that end in an exception (hal/idt.c) instead of sys_exit,
      FaultsDemo.v.
    - Files.v: the disk under all of this refines a map from names to contents, by
      the trace of a session; FilesDemo.v. Initrd.v: the archive of drive C over a
      session.
    - Console.v: the command loop over the ring of the keyboard, which it shares
      with the programs it starts. Typed.v: a program typed at the keyboard, through
      all the parts above at once; TypedDemo.v, with the witnesses of Initrd.v
      and Console.v.

    How the state corresponds: the static variables of a source file are a record
    of its component ([pmm], [heap], [kbd], [vga], [vol], [tarfs], [acpi],
    [gdt_state], [st] of the interpreter); an operation takes the record and gives
    it back. What a routine prints is its result, or goes to the [screen]. CR3, the
    model-specific registers and the ports are arguments and results.

    * What the theorems show

    - The allocator is next-fit over its free frames, keeps its invariant, and its
      initialisation is exact; where the bitmap does not fill pages it is not.
    - Page maps: mapping changes one translation, freeing gives back exactly the
      frames held, the checks of user pointers and strings accept exactly what
      the process may access. Heap blocks are fresh and disjoint.
    - The keyboard is a queue; the editor's key bindings refine a text editor.
    - FAT16: a sound volume stays sound, writing then reading gives the content,
      other files do not change, every failure has its reason; a chain that is a
      circle still terminates.
    - Lisp: the reader inverts the printer and always ends; evaluation has the
      meaning of 32-bit arithmetic, of definitions and calls; well-formed code
      never leaves its objects; a script's output is that of its forms in order.
    - Drivers: each does to the standard device what its contract says, and ends.
      The file routines, run through the ports of the disk driver, do to the drive
      what they do to an abstract disk, sector for sector, and end; the drive takes no
      command and moves no data while it is busy, and reports no errors.
    - Loader and system calls: a started program sees its segments and arguments
      and nothing else; a refused one leaves no trace, whether its file is at fault
      or the frames run out; a system call changes only memory the process may
      write and, with the cursor on the screen, words of the frame buffer; sys_exit
      gives back all frames.
    - The whole: from boot on, across a session, CR3 and the free frames between
      commands are those of the start. What a session may be is said in each
      theorem: the lines typed ([run_lines]); programs that exit or crash and never
      set the cursor outside the screen ([exits_on_grid], [ends_on_grid]), for the
      next character would be painted over other memory ([set_cursor_unbounded]);
      and program files that are absent or that the loader handles ([lines_fit],
      of [placeable] and [fits]), for beyond these it maps pages into the kernel's
      half (process.c:105) or takes physical page 0 for a table (vmm.c:58). Boot
      needs a bitmap that fills whole pages ([boot_map_ok]), for otherwise its last
      bytes are given out ([pmm_init_exposes_bitmap]). The test program prints its string; the
      text typed into the editor is the content of its file once it has ended,
      whatever the editor then prints; a script of well-formed forms prints what the
      forms mean. Each of these programs is started whenever enough frames are
      free, a run of twice its file's pages less one among them, so that none of the
      statements leaves room for a refusal. What is typed at the command loop, in
      the editor and again at the command loop ends as a file on the disk and as
      the answer of the interpreter on the screen. The archive answers in such a
      session what it answered at boot; a program that crashes costs its frames, which are never given
      back, and nothing else; the files are the initial ones with the session's writes and removals applied.

    * Bounds and fuel

    Integers are [Z] with their wrap-around written out ([u8] to [u64], [s8],
    [s32]). A loop of the source that recursion on the data does not cover is
    [while] with binary fuel, chosen above the number of turns the code can make:
    2^64 for loops over addresses or archive offsets (they advance by at least
    one in 64 bits), 2^36 for pages below the user limit, 2^24 for cluster chains
    (entries have 16 bits), 2^16 program headers. The lemmas show that the fuel is
    enough, so no result is "out of fuel" where the code returns. Loops that poll
    hardware have no bound in the code: there the fuel is an argument, and the
    theorems assume that the device gets ready within it. The
    editor's key loop as a process has a turn for every scancode to come and every
    character that waits ([key_fuel]). The interpreter's [eval]
    takes its recursion depth; theorems say how much is enough.

    * Not modelled

    - The assembly (hal/interrupts.S, kernel/syscall_asm.S, the inline [lgdt],
      [lidt], [ltr], [sti], [hlt]): the register contents they pass are arguments
      and results ([usermode], [registers], [syscall_entry]).
    - limine.h is the boot protocol's header; its responses are arguments.
    - hal/xhci.h declares a structure and a function nothing defines.
    - The fragments dump.c, dump_limine.c, patch.c and test_edit.c in the root are
      not complete C and no part of the system.
    - Interrupts arriving inside a kernel routine, apart from the keyboard's; the
      caches and the TLB (CR3 is reloaded where the code relies on it).
    - What a store beyond the frame buffer hits: its words are an array of their
      own, in which such a store is visible ([draws_inside] says that there is none);
      the theorems on sessions hold for programs that cause none.
    - Errors the drive reports.
    - The size of the user stack, one page (process.c:150): the recursion of the
      interpreter is bounded by the depth [ef] given to it, and that so many C
      frames fit is not shown. *)

(** ** Prelude: what every component file shares.

    - machine integers: the C unsigned and signed types as [Z] with their
      wrap-around written out ([u8], [u16], [u32], [u64], [s8], [s32]);
    - loops: [for_each], [for_loop] (a counted loop, with and without early
      exit) and [while] (a loop with binary fuel), with their reasoning rules;
    - the hint databases [cint] (rewriting of in-range wrap-arounds) and
      [bits] (bit tests), and the tactics used across the development. *)

From Stdlib Require Export ZArith Lia.
From stdpp Require Export base numbers list gmap option.

#[export] Set Default Goal Selector "!".
#[export] Set Warnings "-clear-no-such-hyp".
Open Scope Z_scope.

(** ** Notations of C bit operators *)

Declare Scope c_scope.
Delimit Scope c_scope with c.
Infix ".&" := Z.land (at level 40, left associativity) : c_scope.
Infix ".|" := Z.lor (at level 42, left associativity) : c_scope.
Infix "<<" := Z.shiftl (at level 38, left associativity) : c_scope.
Infix ">>" := Z.shiftr (at level 38, left associativity) : c_scope.
Notation "~~ x" := (Z.lnot x) (at level 35, right associativity) : c_scope.
Open Scope c_scope.

(** ** Machine integers *)

Definition u8 (x : Z) : Z := x mod 2 ^ 8.
Definition u16 (x : Z) : Z := x mod 2 ^ 16.
Definition u32 (x : Z) : Z := x mod 2 ^ 32.
Definition u64 (x : Z) : Z := x mod 2 ^ 64.

(** Two's complement reading of the low [w] bits. *)
Definition signed (w : Z) (x : Z) : Z :=
  let y := x mod 2 ^ w in if y <? 2 ^ (w - 1) then y else y - 2 ^ w.
Definition s8 (x : Z) : Z := signed 8 x.
Definition s32 (x : Z) : Z := signed 32 x.

Create HintDb cint.
Create Rewrite HintDb bits.

Lemma u8_range x : 0 ≤ u8 x < 2 ^ 8.
Proof. apply Z.mod_pos_bound; lia. Qed.
Lemma u16_range x : 0 ≤ u16 x < 2 ^ 16.
Proof. apply Z.mod_pos_bound; lia. Qed.
Lemma u32_range x : 0 ≤ u32 x < 2 ^ 32.
Proof. apply Z.mod_pos_bound; lia. Qed.
Lemma u64_range x : 0 ≤ u64 x < 2 ^ 64.
Proof. apply Z.mod_pos_bound; lia. Qed.

Lemma u8_small x : 0 ≤ x < 2 ^ 8 → u8 x = x.
Proof. apply Z.mod_small. Qed.
Lemma u16_small x : 0 ≤ x < 2 ^ 16 → u16 x = x.
Proof. apply Z.mod_small. Qed.
Lemma u32_small x : 0 ≤ x < 2 ^ 32 → u32 x = x.
Proof. apply Z.mod_small. Qed.
Lemma u64_small x : 0 ≤ x < 2 ^ 64 → u64 x = x.
Proof. apply Z.mod_small. Qed.

Lemma pow2_half w : 0 < w → 2 ^ w = 2 * 2 ^ (w - 1).
Proof. intros Hw. rewrite <- Z.pow_succ_r by lia. f_equal; lia. Qed.

Lemma signed_range w x : 0 < w → - 2 ^ (w - 1) ≤ signed w x < 2 ^ (w - 1).
Proof.
  intros Hw. unfold signed. pose proof (pow2_half w Hw).
  pose proof (Z.mod_pos_bound x (2 ^ w) ltac:(lia)).
  destruct (Z.ltb_spec (x mod 2 ^ w) (2 ^ (w - 1))); lia.
Qed.

Lemma signed_small w x : 0 < w → 0 ≤ x < 2 ^ (w - 1) → signed w x = x.
Proof.
  intros Hw Hx. unfold signed. pose proof (pow2_half w Hw).
  rewrite Z.mod_small by lia.
  destruct (Z.ltb_spec x (2 ^ (w - 1))); lia.
Qed.

(** Congruence modulo the word size: wrapping at the end is wrapping at every
    step, for sums, differences and products. *)
Definition cong (w x y : Z) : Prop := x mod 2 ^ w = y mod 2 ^ w.

#[export] Instance cong_equiv w : Equivalence (cong w).
Proof. split; red; unfold cong; congruence. Qed.
#[export] Instance cong_add w : Proper (cong w ==> cong w ==> cong w) Z.add.
Proof. intros a b Hab c d Hcd. unfold cong in *. by rewrite Zplus_mod, Hab, Hcd, <- Zplus_mod. Qed.
#[export] Instance cong_sub w : Proper (cong w ==> cong w ==> cong w) Z.sub.
Proof. intros a b Hab c d Hcd. unfold cong in *. by rewrite Zminus_mod, Hab, Hcd, <- Zminus_mod. Qed.
#[export] Instance cong_mul w : Proper (cong w ==> cong w ==> cong w) Z.mul.
Proof. intros a b Hab c d Hcd. unfold cong in *. by rewrite Zmult_mod, Hab, Hcd, <- Zmult_mod. Qed.
#[export] Instance cong_opp w : Proper (cong w ==> cong w) Z.opp.
Proof. intros a b Hab. rewrite <- !Z.sub_0_l. by rewrite Hab. Qed.

Lemma signed_cong w x : 0 < w → cong w (signed w x) x.
Proof.
  intros Hw. unfold cong, signed. destruct (_ <? _).
  - by rewrite Z.mod_mod by lia.
  - rewrite Zminus_mod, Z.mod_same, Z.sub_0_r, !Z.mod_mod by lia. done.
Qed.

Lemma cong_signed w x y : cong w x y → signed w x = signed w y.
Proof. unfold cong, signed. by intros ->. Qed.

Lemma signed_id w x : 0 < w → - 2 ^ (w - 1) ≤ x < 2 ^ (w - 1) → signed w x = x.
Proof.
  intros Hw Hx. destruct (Z_lt_le_dec x 0) as [Hn|]; [|apply signed_small; lia].
  unfold signed. pose proof (pow2_half w Hw).
  assert (x mod 2 ^ w = x + 2 ^ w) as -> by (symmetry; apply Z.mod_unique_pos with (-1); lia).
  destruct (Z.ltb_spec (x + 2 ^ w) (2 ^ (w - 1))); lia.
Qed.

(** Wrapping a value that is in range is the identity: the side condition
    goes to [lia]. *)
Ltac wrap_small :=
  repeat first
    [ rewrite -> u64_small by lia | rewrite -> u32_small by lia
    | rewrite -> u16_small by lia | rewrite -> u8_small by lia ].

(** [lia] with the defining equations of division and remainder. *)
Ltac dlia := Z.div_mod_to_equations; lia.
Ltac dnia := Z.div_mod_to_equations; nia.

(** Case split on the boolean comparisons in goal and context. *)
Ltac bcase :=
  repeat match goal with
  | |- context [Z.eqb ?a ?b] => destruct (Z.eqb_spec a b)
  | |- context [Z.ltb ?a ?b] => destruct (Z.ltb_spec a b)
  | |- context [Z.leb ?a ?b] => destruct (Z.leb_spec a b)
  | H : context [Z.eqb ?a ?b] |- _ => destruct (Z.eqb_spec a b)
  | H : context [Z.ltb ?a ?b] |- _ => destruct (Z.ltb_spec a b)
  | H : context [Z.leb ?a ?b] |- _ => destruct (Z.leb_spec a b)
  end.

(** ** Bit facts *)

Lemma testbit_pow2_land x k :
  0 ≤ k → negb (x .& (1 << k) =? 0) = Z.testbit x k.
Proof.
  intros Hk. rewrite Z.shiftl_1_l.
  destruct (Z.testbit x k) eqn:Hb.
  - apply negb_true_iff, Z.eqb_neq. intros H0.
    assert (Z.testbit (x .& 2 ^ k) k = false) as H1 by (rewrite H0; apply Z.bits_0).
    rewrite Z.land_spec, Hb, Z.pow2_bits_true in H1; [done|lia].
  - apply negb_false_iff, Z.eqb_eq. apply Z.bits_inj'. intros n Hn.
    rewrite Z.land_spec, Z.bits_0, Z.pow2_bits_eqb by lia.
    destruct (Z.eqb_spec k n) as [->|]; [by rewrite Hb|by rewrite andb_false_r].
Qed.

Lemma testbit_small x n k : 0 ≤ x < 2 ^ n → n ≤ k → Z.testbit x k = false.
Proof.
  intros [H0 Hx] Hk.
  destruct (Z.eq_dec x 0) as [->|]; [apply Z.bits_0|].
  apply Z.bits_above_log2; [lia|].
  apply Z.lt_le_trans with n; [|done].
  apply Z.log2_lt_pow2; lia.
Qed.

(** A number is below [2^n] when no bit from [n] on is set. *)
Lemma bits_bound x n :
  0 ≤ n → 0 ≤ x → (∀ k, n ≤ k → Z.testbit x k = false) → x < 2 ^ n.
Proof.
  intros Hn H0 Hb.
  destruct (Z.eq_dec x 0) as [->|Hx]; [apply Z.pow_pos_nonneg; lia|].
  apply Z.log2_lt_pow2; [lia|].
  destruct (Z.lt_ge_cases (Z.log2 x) n) as [|Hge]; [done|].
  pose proof (Hb _ Hge) as Hf. rewrite Z.bit_log2 in Hf; [done|lia].
Qed.

(** Clearing the low [n] bits rounds down to a multiple of [2^n]. *)
Lemma land_lnot_ones x n : 0 ≤ n → x .& ~~ (Z.ones n) = x - x mod 2 ^ n.
Proof.
  intros Hn. rewrite <- Z.ldiff_land, Z.ldiff_ones_r, Z.shiftl_mul_pow2,
    Z.shiftr_div_pow2 by done.
  pose proof (Z.div_mod x (2 ^ n)). lia.
Qed.

(** Keeping the low [n] bits is the remainder by [2^n]. *)
Lemma land_ones_mod x n : 0 ≤ n → x .& Z.ones n = x mod 2 ^ n.
Proof. apply Z.land_ones. Qed.

Lemma land_aligned_small x y n :
  0 ≤ n → x mod 2 ^ n = 0 → 0 ≤ y < 2 ^ n → x .& y = 0.
Proof.
  intros Hn Hx Hy. apply Z.bits_inj'. intros k Hk.
  rewrite Z.land_spec, Z.bits_0. destruct (Z.lt_ge_cases k n).
  - rewrite <- (Z.mod_pow2_bits_low x n) by lia. by rewrite Hx, Z.bits_0.
  - rewrite (testbit_small y n) by lia. apply andb_false_r.
Qed.

(** An aligned number and a small one occupy disjoint bits. *)
Lemma lor_aligned x y n :
  0 ≤ n → x mod 2 ^ n = 0 → 0 ≤ y < 2 ^ n → x .| y = x + y.
Proof.
  intros Hn Hx Hy. pose proof (land_aligned_small x y n Hn Hx Hy) as H0.
  rewrite <- Z.lxor_lor by done. symmetry. by apply Z.add_nocarry_lxor.
Qed.

#[export] Hint Rewrite Z.land_spec Z.lor_spec Z.lxor_spec Z.bits_0 : bits.

(** ** Loops

    [for_each n i f s] is [for (k = i; k < i + n; k++) s = f(k, s)].
    [for_loop] lets the body leave the loop: [inl] goes on with a new state,
    [inr] leaves with a result. *)

Section ForLoops.
Context {St R : Type}.

Fixpoint for_each (n : nat) (i : Z) (f : Z → St → St) (s : St) : St :=
  match n with
  | O => s
  | S n' => for_each n' (i + 1) f (f i s)
  end.

Fixpoint for_loop (n : nat) (i : Z) (body : Z → St → St + R) (s : St) : St + R :=
  match n with
  | O => inl s
  | S n' =>
      match body i s with
      | inl s' => for_loop n' (i + 1) body s'
      | inr r => inr r
      end
  end.

(** Loop invariant of a loop without exit. *)
Lemma for_each_ind (P : Z → St → Prop) n i f s :
  P i s →
  (∀ j s', i ≤ j < i + Z.of_nat n → P j s' → P (j + 1) (f j s')) →
  P (i + Z.of_nat n) (for_each n i f s).
Proof.
  revert i s. induction n as [|n IH]; intros i s Hi Hstep; cbn [for_each].
  - by rewrite Z.add_0_r.
  - replace (i + Z.of_nat (S n)) with ((i + 1) + Z.of_nat n) by lia.
    apply IH; [apply Hstep; [lia|done]|].
    intros j s' Hj. apply Hstep. lia.
Qed.

(** Loop invariant and exit condition of a loop with early exit. *)
Lemma for_loop_ind (P : Z → St → Prop) (Q : R → Prop) n i body s :
  P i s →
  (∀ j s', i ≤ j < i + Z.of_nat n → P j s' →
     match body j s' with inl s'' => P (j + 1) s'' | inr r => Q r end) →
  match for_loop n i body s with
  | inl s' => P (i + Z.of_nat n) s'
  | inr r => Q r
  end.
Proof.
  revert i s. induction n as [|n IH]; intros i s Hi Hstep; cbn [for_loop].
  - by rewrite Z.add_0_r.
  - pose proof (Hstep i s ltac:(lia) Hi) as Hb.
    destruct (body i s) as [s'|r]; [|done].
    replace (i + Z.of_nat (S n)) with ((i + 1) + Z.of_nat n) by lia.
    apply IH; [done|]. intros j s'' Hj. apply Hstep. lia.
Qed.

Lemma for_each_app n m i f s :
  for_each (n + m) i f s = for_each m (i + Z.of_nat n) f (for_each n i f s).
Proof.
  revert i s. induction n as [|n IH]; intros i s; cbn [for_each Nat.add].
  - by rewrite Z.add_0_r.
  - rewrite IH. f_equal. lia.
Qed.

Lemma for_loop_app n m i body s :
  for_loop (n + m) i body s =
  match for_loop n i body s with
  | inl s' => for_loop m (i + Z.of_nat n) body s'
  | inr r => inr r
  end.
Proof.
  revert i s. induction n as [|n IH]; intros i s; cbn [for_loop Nat.add].
  - by rewrite Z.add_0_r.
  - destruct (body i s); [|done]. rewrite IH.
    by replace (i + Z.of_nat (S n)) with (i + 1 + Z.of_nat n) by lia.
Qed.

Lemma for_each_ext n i f g s :
  (∀ j s', i ≤ j < i + Z.of_nat n → f j s' = g j s') →
  for_each n i f s = for_each n i g s.
Proof.
  revert i s. induction n as [|n IH]; intros i s H; cbn [for_each]; [done|].
  rewrite H by lia. apply IH. intros j s' Hj. apply H. lia.
Qed.

Lemma for_loop_ext n i f g s :
  (∀ j s', i ≤ j < i + Z.of_nat n → f j s' = g j s') → for_loop n i f s = for_loop n i g s.
Proof.
  revert i s. induction n as [|n IH]; intros i s H; cbn [for_loop]; [done|].
  rewrite H by lia. destruct (g i s); [|done]. apply IH. intros j s' Hj. apply H. lia.
Qed.

Lemma for_loop_shift n i k body s :
  for_loop n i (λ j s, body (k + j) s) s = for_loop n (k + i) body s.
Proof.
  revert i s. induction n as [|n IH]; intros i s; cbn [for_loop]; [done|].
  destruct (body (k + i) s); [|done]. rewrite IH. f_equal. lia.
Qed.

(** Two nested loops are one loop over the pairs in order. *)
Lemma for_loop_flat n m i body s :
  for_loop n i (λ a s, for_loop m 0 (λ b s, body (Z.of_nat m * a + b) s) s) s =
  for_loop (m * n) (Z.of_nat m * i) body s.
Proof.
  revert i s. induction n as [|n IH]; intros i s; cbn [for_loop].
  - by rewrite Nat.mul_0_r.
  - rewrite for_loop_shift, Z.add_0_r. replace (m * S n)%nat with (m + m * n)%nat by lia.
    rewrite for_loop_app. destruct (for_loop m _ body s); [|done]. rewrite IH. f_equal. lia.
Qed.
End ForLoops.

(** Two loops whose bodies leave at the same time, with results related by
    [P]. *)
Definition same_exit {St R R'} (P : R → R' → Prop) (x : St + R) (y : St + R') : Prop :=
  match x, y with inl a, inl b => a = b | inr r, inr r' => P r r' | _, _ => False end.

Lemma for_loop_rel {St R R'} (P : R → R' → Prop) n i (f : Z → St → St + R) (g : Z → St → St + R') s :
  (∀ j s', same_exit P (f j s') (g j s')) → same_exit P (for_loop n i f s) (for_loop n i g s).
Proof.
  intros Hrel. revert i s. induction n as [|n IH]; intros i s; cbn [for_loop]; [done|].
  pose proof (Hrel i s) as Hb. destruct (f i s), (g i s); cbn in Hb; try done. subst. apply IH.
Qed.

(** A linear search: the body leaves at the first index that passes [test]. *)
Section Search.
Context {St R : Type} (test : Z → bool) (hit : Z → R) (s : St).

Definition search (n : nat) (i : Z) : St + R :=
  for_loop n i (λ j s', if test j then inr (hit j) else inl s') s.

Lemma search_cases n i :
  (search n i = inl s ∧ ∀ j, i ≤ j < i + Z.of_nat n → test j = false) ∨
  (∃ j, i ≤ j < i + Z.of_nat n ∧ test j = true ∧ search n i = inr (hit j) ∧
        ∀ k, i ≤ k < j → test k = false).
Proof.
  unfold search. revert i. induction n as [|n IH]; intros i; cbn [for_loop].
  - left. split; [done|]. lia.
  - destruct (test i) eqn:Hi.
    { right. exists i. repeat split; [lia..|done|lia]. }
    destruct (IH (i + 1)) as [[Heq Hno]|(j & Hj & Ht & Heq & Hno)].
    + left. split; [done|]. intros j Hj.
      destruct (Z.eq_dec i j) as [->|]; [done|apply Hno; lia].
    + right. exists j. repeat split; [lia..|done|done|].
      intros k Hk. destruct (Z.eq_dec i k) as [->|]; [done|apply Hno; lia].
Qed.
End Search.

(** [while fuel body s] runs [body] until it leaves with [inr], at most [fuel]
    times; [inl] means that the fuel ran out. The fuel is binary, so a bound
    such as 2^35 can be written and an early exit costs what it runs. *)
Section While.
Context {St R : Type} (body : St → St + R).

Fixpoint while (fuel : positive) (s : St) : St + R :=
  match fuel with
  | xH => body s
  | xO p => match while p s with inl s' => while p s' | inr r => inr r end
  | xI p =>
      match body s with
      | inl s' => match while p s' with inl s'' => while p s'' | inr r => inr r end
      | inr r => inr r
      end
  end.

Fixpoint steps (n : nat) (s : St) : St + R :=
  match n with
  | O => inl s
  | S n' => match body s with inl s' => steps n' s' | inr r => inr r end
  end.

Lemma steps_app n m s :
  steps (n + m) s = match steps n s with inl s' => steps m s' | inr r => inr r end.
Proof.
  revert s. induction n as [|n IH]; intros s; cbn [steps Nat.add]; [done|].
  destruct (body s); [apply IH|done].
Qed.

Lemma while_steps fuel s : while fuel s = steps (Pos.to_nat fuel) s.
Proof.
  revert s. induction fuel as [p IH|p IH|]; intros s; cbn [while].
  - rewrite Pos2Nat.inj_xI. cbn [steps]. destruct (body s) as [s'|]; [|done].
    replace (2 * Pos.to_nat p)%nat with (Pos.to_nat p + Pos.to_nat p)%nat by lia.
    rewrite steps_app, IH. by destruct (steps _ _).
  - rewrite Pos2Nat.inj_xO.
    replace (2 * Pos.to_nat p)%nat with (Pos.to_nat p + Pos.to_nat p)%nat by lia.
    rewrite steps_app, IH. by destruct (steps _ _).
  - change (Pos.to_nat 1) with 1%nat. cbn [steps]. by destruct (body s).
Qed.

(** Invariant rule: what holds of every exit from an invariant state. *)
Lemma while_inv (I : St → Prop) (Q : R → Prop) fuel s :
  I s →
  (∀ s', I s' → match body s' with inl s'' => I s'' | inr r => Q r end) →
  match while fuel s with inl s' => I s' | inr r => Q r end.
Proof.
  intros Hs Hstep. rewrite while_steps. generalize (Pos.to_nat fuel) as n.
  intros n. revert s Hs. induction n as [|n IH]; intros s Hs; cbn [steps]; [done|].
  pose proof (Hstep s Hs) as Hb. destruct (body s); [by apply IH|done].
Qed.

(** Termination rule: a non-negative measure that decreases under the
    invariant and starts below the fuel makes the loop leave. *)
Lemma while_terminates (I : St → Prop) (μ : St → Z) fuel s :
  I s →
  (∀ s' s'', I s' → body s' = inl s'' → I s'' ∧ 0 ≤ μ s'' < μ s') →
  μ s < Zpos fuel →
  ∃ r, while fuel s = inr r.
Proof.
  intros Hs Hstep Hfuel. rewrite while_steps.
  assert (μ s < Z.of_nat (Pos.to_nat fuel)) as Hn by lia.
  assert (0 < Pos.to_nat fuel)%nat as Hpos by lia.
  revert Hn Hpos. clear Hfuel. generalize (Pos.to_nat fuel) as n. intros n.
  revert s Hs. induction n as [|n IH]; intros s Hs Hn Hpos; [lia|]. cbn [steps].
  destruct (body s) as [s'|r] eqn:Hb; [|by exists r].
  destruct (Hstep _ _ Hs Hb) as [Hs' Hμ].
  apply IH; [done|lia..].
Qed.

(** Total correctness: the two rules together. *)
Lemma while_total (I : St → Prop) (Q : R → Prop) (μ : St → Z) fuel s :
  I s →
  (∀ s', I s' → match body s' with
                | inl s'' => I s'' ∧ 0 ≤ μ s'' < μ s'
                | inr r => Q r
                end) →
  μ s < Zpos fuel →
  ∃ r, while fuel s = inr r ∧ Q r.
Proof.
  intros Hs Hstep Hfuel.
  destruct (while_terminates I μ fuel s Hs) as [r Hr]; [|done|].
  { intros s' s'' Hs' Hb. pose proof (Hstep s' Hs') as H. by rewrite Hb in H. }
  exists r. split; [done|].
  pose proof (while_inv I Q fuel s Hs) as Hinv. rewrite Hr in Hinv. apply Hinv.
  intros s' Hs'. pose proof (Hstep s' Hs') as H1. destruct (body s'); [by destruct H1|done].
Qed.

(** More fuel does not change a result. *)
Lemma steps_mono n m s r : steps n s = inr r → (n ≤ m)%nat → steps m s = inr r.
Proof.
  intros H Hle. replace m with (n + (m - n))%nat by lia.
  by rewrite steps_app, H.
Qed.

Lemma while_mono p q s r :
  while p s = inr r → (p ≤ q)%positive → while q s = inr r.
Proof. rewrite !while_steps. intros H Hle. eapply steps_mono; [done|lia]. Qed.

(** One turn of the loop. *)
Lemma while_unfold p s :
  while (Pos.succ p) s =
  match body s with inl s' => while p s' | inr r => inr r end.
Proof. rewrite while_steps, Pos2Nat.inj_succ. cbn [steps]. destruct (body s); [|done].
  by rewrite while_steps. Qed.
End While.

(** Leaving an [option] or a [sum] by cases, and splitting conjunctions. *)
Ltac destruct_result :=
  repeat match goal with
  | H : _ ∧ _ |- _ => destruct H
  | H : ∃ _, _ |- _ => destruct H
  | _ => progress simplify_eq
  end; try discriminate.

(** ** Lists *)

Lemma seqZ_snoc i n : 0 ≤ n → seqZ i (n + 1) = seqZ i n ++ [i + n].
Proof.
  intros Hn. rewrite seqZ_app by lia. by rewrite (seqZ_cons (i + n)) by lia.
Qed.

(** Checking a range number by number. *)
Lemma forall_range (P : Z → bool) lo n i :
  forallb P (seqZ lo n) = true → lo ≤ i < lo + n → P i = true.
Proof.
  rewrite forallb_forall. intros HP Hi. by apply HP, list_elem_of_In, elem_of_seqZ.
Qed.
