(* ===== verification/Mem.v ===== *)
(** Memory: the byte-addressed memory the kernel sees.

    A [mem] maps an address to a byte; an address with no entry holds 0.
    Kernel code reaches all of physical memory through the higher-half direct
    map, so the addresses are the kernel's virtual ones (physical address plus
    [hhdm_offset]). Multi-byte accesses are little-endian, as on x86-64. *)

From S2P Require Export Prelude.

Abbreviation mem := (gmap Z Z).

Definition rd8 (m : mem) (a : Z) : Z := u8 (default 0 (m !! a)).
Definition wr8 (m : mem) (a v : Z) : mem := <[a := u8 v]> m.

(** [n]-byte little-endian load and store. *)
Fixpoint rd_le (n : nat) (m : mem) (a : Z) : Z :=
  match n with
  | O => 0
  | S n' => rd8 m a + 2 ^ 8 * rd_le n' m (a + 1)
  end.

Fixpoint wr_le (n : nat) (m : mem) (a v : Z) : mem :=
  match n with
  | O => m
  | S n' => wr_le n' (wr8 m a v) (a + 1) (v / 2 ^ 8)
  end.

Definition rd16 := rd_le 2.
Definition rd32 := rd_le 4.
Definition rd64 := rd_le 8.
Definition wr16 := wr_le 2.
Definition wr32 := wr_le 4.
Definition wr64 := wr_le 8.

(** The [n] bytes from [a] on, and the store of a list of bytes. *)
Fixpoint rd_bytes (n : nat) (m : mem) (a : Z) : list Z :=
  match n with
  | O => []
  | S n' => rd8 m a :: rd_bytes n' m (a + 1)
  end.

Fixpoint wr_bytes (m : mem) (a : Z) (l : list Z) : mem :=
  match l with
  | [] => m
  | b :: l' => wr_bytes (wr8 m a b) (a + 1) l'
  end.

(** [m] and [m'] agree outside the [n] bytes from [a] on. *)
Definition same_outside (a n : Z) (m m' : mem) : Prop :=
  ∀ x, (x < a ∨ a + n ≤ x) → rd8 m' x = rd8 m x.

Lemma rd8_range m a : 0 ≤ rd8 m a < 2 ^ 8.
Proof. apply u8_range. Qed.

Lemma rd8_wr8 m a b v : rd8 (wr8 m a v) b = if decide (a = b) then u8 v else rd8 m b.
Proof.
  unfold rd8, wr8. case_decide; subst.
  - rewrite lookup_insert_eq. cbn. apply u8_small, u8_range.
  - by rewrite lookup_insert_ne.
Qed.

Lemma rd8_wr8_eq m a v : rd8 (wr8 m a v) a = u8 v.
Proof. rewrite rd8_wr8. by rewrite decide_True. Qed.

Lemma rd8_wr8_ne m a b v : a ≠ b → rd8 (wr8 m a v) b = rd8 m b.
Proof. intros. rewrite rd8_wr8. by rewrite decide_False. Qed.

Lemma rd_le_range n m a : 0 ≤ rd_le n m a < 2 ^ (8 * Z.of_nat n).
Proof.
  revert a. induction n as [|n IH]; intros a; cbn [rd_le]; [lia|].
  pose proof (IH (a + 1)). pose proof (rd8_range m a).
  replace (8 * Z.of_nat (S n)) with (8 + 8 * Z.of_nat n) by lia.
  rewrite Z.pow_add_r by lia. nia.
Qed.

Lemma rd_le_ext n m m' a b :
  (∀ i, 0 ≤ i < Z.of_nat n → rd8 m' (b + i) = rd8 m (a + i)) →
  rd_le n m' b = rd_le n m a.
Proof.
  revert a b. induction n as [|n IH]; intros a b H; cbn [rd_le]; [done|].
  rewrite (IH (a + 1) (b + 1)).
  - pose proof (H 0 ltac:(lia)) as H0. rewrite !Z.add_0_r in H0. by rewrite H0.
  - intros i Hi. pose proof (H (i + 1) ltac:(lia)).
    by replace (b + 1 + i) with (b + (i + 1)) by lia;
       replace (a + 1 + i) with (a + (i + 1)) by lia.
Qed.

Lemma wr_le_outside n m a v : same_outside a (Z.of_nat n) m (wr_le n m a v).
Proof.
  revert m a v. induction n as [|n IH]; intros m a v x Hx; cbn [wr_le]; [done|].
  rewrite (IH _ _ _ x) by lia. apply rd8_wr8_ne. lia.
Qed.

(** A number determines its bytes. *)
Lemma rd_le_inj n m m' a :
  rd_le n m' a = rd_le n m a → ∀ x, a ≤ x < a + Z.of_nat n → rd8 m' x = rd8 m x.
Proof.
  revert a. induction n as [|n IH]; intros a Heq x Hx; [lia|]. cbn [rd_le] in Heq.
  pose proof (rd8_range m a). pose proof (rd8_range m' a).
  destruct (Z.eq_dec x a) as [->|]; [lia|]. apply (IH (a + 1)); lia.
Qed.

Lemma rd_le_wr_le_ne n k m a b v :
  a + Z.of_nat n ≤ b ∨ b + Z.of_nat k ≤ a → rd_le k (wr_le n m a v) b = rd_le k m b.
Proof.
  intros H. apply rd_le_ext. intros i Hi. apply wr_le_outside. lia.
Qed.

Lemma rd_le_wr_le_eq n m a v : rd_le n (wr_le n m a v) a = v mod 2 ^ (8 * Z.of_nat n).
Proof.
  revert m a v. induction n as [|n IH]; intros m a v; cbn [rd_le wr_le].
  { by rewrite Z.mod_1_r. }
  rewrite IH, wr_le_outside, rd8_wr8_eq by lia. unfold u8.
  replace (8 * Z.of_nat (S n)) with (8 + 8 * Z.of_nat n) by lia.
  rewrite Z.pow_add_r by lia. rewrite Z.rem_mul_r; lia.
Qed.

Lemma rd64_range m a : 0 ≤ rd64 m a < 2 ^ 64.
Proof. apply (rd_le_range 8). Qed.
Lemma rd32_range m a : 0 ≤ rd32 m a < 2 ^ 32.
Proof. apply (rd_le_range 4). Qed.
Lemma rd16_range m a : 0 ≤ rd16 m a < 2 ^ 16.
Proof. apply (rd_le_range 2). Qed.

Lemma rd64_wr64_eq m a v : 0 ≤ v < 2 ^ 64 → rd64 (wr64 m a v) a = v.
Proof. intros. unfold rd64, wr64. rewrite rd_le_wr_le_eq. by apply Z.mod_small. Qed.

Lemma rd64_wr64_ne m a b v :
  a + 8 ≤ b ∨ b + 8 ≤ a → rd64 (wr64 m a v) b = rd64 m b.
Proof. apply (rd_le_wr_le_ne 8 8). Qed.

Lemma rd64_ext m m' a :
  (∀ x, a ≤ x < a + 8 → rd8 m' x = rd8 m x) → rd64 m' a = rd64 m a.
Proof. intros H. apply rd_le_ext. intros i Hi. apply H. lia. Qed.

Lemma rd64_zero m a : (∀ x, a ≤ x < a + 8 → rd8 m x = 0) → rd64 m a = 0.
Proof.
  intros H. transitivity (rd64 ∅ a); [|vm_compute rd64 at 1; done].
  apply rd64_ext. intros x Hx. by rewrite H.
Qed.

Lemma length_rd_bytes n m a : length (rd_bytes n m a) = n.
Proof. revert a. induction n; intros a; cbn; auto. Qed.

Lemma rd_bytes_lookup n m a i :
  (i < n)%nat → rd_bytes n m a !! i = Some (rd8 m (a + Z.of_nat i)).
Proof.
  revert a i. induction n as [|n IH]; intros a i Hi; [lia|]. destruct i as [|i]; cbn.
  - by rewrite Z.add_0_r.
  - rewrite IH by lia. do 2 f_equal. lia.
Qed.

Lemma wr_bytes_outside m a l : same_outside a (Z.of_nat (length l)) m (wr_bytes m a l).
Proof.
  revert m a. induction l as [|b l IH]; intros m a x Hx; cbn [wr_bytes]; [done|].
  cbn [length] in Hx. rewrite (IH _ _ x) by lia. apply rd8_wr8_ne. lia.
Qed.

Lemma wr_bytes_inside m a l i v :
  l !! i = Some v → rd8 (wr_bytes m a l) (a + Z.of_nat i) = u8 v.
Proof.
  revert m a i. induction l as [|b l IH]; intros m a i Hi; [done|].
  destruct i as [|i]; cbn [wr_bytes].
  - injection Hi as ->. rewrite wr_bytes_outside by lia. rewrite Z.add_0_r. apply rd8_wr8_eq.
  - replace (a + Z.of_nat (S i)) with (a + 1 + Z.of_nat i) by lia. by apply IH.
Qed.

(** Agreement outside a range is an equivalence for each range, and rewriting
    a memory by an equivalent one is rewriting every load outside it. *)
#[export] Instance same_outside_equivalence a n : Equivalence (same_outside a n).
Proof.
  split.
  - by intros m x _.
  - intros m m' H x Hx. by rewrite H.
  - intros m1 m2 m3 H1 H2 x Hx. by rewrite H2, H1.
Qed.

Lemma same_outside_mono a n a' n' m m' :
  same_outside a n m m' → a' ≤ a → a + n ≤ a' + n' → same_outside a' n' m m'.
Proof. intros H ?? x Hx. apply H. lia. Qed.

Lemma same_outside_rd64 a n m m' b :
  same_outside a n m m' → b + 8 ≤ a ∨ a + n ≤ b → rd64 m' b = rd64 m b.
Proof. intros H Hb. apply rd64_ext. intros x Hx. apply H. lia. Qed.

#[export] Hint Resolve rd8_range rd16_range rd32_range rd64_range : cint.
