(* ===== verification/CString.v ===== *)
(** The kernel's C library routines (src/kernel/string.c).

    Pointers are addresses of a [mem]. The loops that stop at a NUL byte run
    with a fuel of 2^64, the size of the address space: [inl] is the case in
    which no NUL exists, where the C function has no defined result. *)

From S2P Require Export Mem.

Definition addr_fuel : positive := 18446744073709551616.

Definition memset (m : mem) (s c n : Z) : mem :=
  for_each (Z.to_nat n) 0 (λ i m, wr8 m (s + i) c) m.

Definition memcpy (m : mem) (dest src n : Z) : mem :=
  for_each (Z.to_nat n) 0 (λ i m, wr8 m (dest + i) (rd8 m (src + i))) m.

Definition memcmp (m : mem) (s1 s2 n : Z) : Z :=
  match
    for_loop (Z.to_nat n) 0
      (λ i (u : unit), if rd8 m (s1 + i) =? rd8 m (s2 + i) then inl u
             else inr (rd8 m (s1 + i) - rd8 m (s2 + i))) ()
  with inl _ => 0 | inr r => r end.

Definition strlen (m : mem) (s : Z) : unit + Z :=
  match
    while (λ len, if rd8 m (s + len) =? 0 then inr len else inl (len + 1)) addr_fuel 0
  with inl _ => inl () | inr r => inr r end.

Definition strcmp (m : mem) (s1 s2 : Z) : unit + Z :=
  match
    while (λ i, if negb (rd8 m (s1 + i) =? 0) && (rd8 m (s1 + i) =? rd8 m (s2 + i))
                then inl (i + 1)
                else inr (rd8 m (s1 + i) - rd8 m (s2 + i))) addr_fuel 0
  with inl _ => inl () | inr r => inr r end.

Definition strncmp (m : mem) (s1 s2 n : Z) : Z :=
  match
    for_loop (Z.to_nat n) 0
      (λ i (u : unit), if negb (rd8 m (s1 + i) =? rd8 m (s2 + i))
             then inr (rd8 m (s1 + i) - rd8 m (s2 + i))
             else if rd8 m (s1 + i) =? 0 then inr 0 else inl u) ()
  with inl _ => 0 | inr r => r end.

(** ** Reference definitions *)

(** The NUL-terminated string [l] lies at [p]. *)
Definition cstr (m : mem) (p : Z) (l : list Z) : Prop :=
  Forall (λ c, 0 < c < 2 ^ 8) l ∧
  (∀ i c, l !! i = Some c → rd8 m (p + Z.of_nat i) = c) ∧
  rd8 m (p + Z.of_nat (length l)) = 0.

(** Difference of the first bytes that differ, a missing byte counting 0. *)
Fixpoint bytes_cmp (l1 l2 : list Z) : Z :=
  match l1, l2 with
  | [], [] => 0
  | [], d :: _ => - d
  | c :: _, [] => c
  | c :: l1', d :: l2' => if c =? d then bytes_cmp l1' l2' else c - d
  end.

(** Byte [i] of a C string held as a list: NUL from the end on. *)
Definition char_at (l : list Z) (i : nat) : Z := nth i l 0.

Lemma char_at_lookup l i c : l !! i = Some c → char_at l i = c.
Proof. intros H. unfold char_at. rewrite nth_lookup, H. done. Qed.

Lemma char_at_end l i : (length l ≤ i)%nat → char_at l i = 0.
Proof. intros H. unfold char_at. by apply nth_overflow. Qed.

Lemma cstr_char m p l i :
  cstr m p l → (i ≤ length l)%nat → rd8 m (p + Z.of_nat i) = char_at l i.
Proof.
  intros (_ & Hin & Hend) Hi.
  destruct (decide (i = length l)) as [->|Hne].
  - by rewrite Hend, char_at_end.
  - destruct (lookup_lt_is_Some_2 l i ltac:(lia)) as [c Hc].
    by rewrite (Hin _ _ Hc), (char_at_lookup _ _ _ Hc).
Qed.

Lemma cstr_char_pos m p l i :
  cstr m p l → (i < length l)%nat → char_at l i ≠ 0.
Proof.
  intros (Hpos & _) Hi. destruct (lookup_lt_is_Some_2 l i Hi) as [c Hc].
  rewrite (char_at_lookup _ _ _ Hc).
  pose proof (Forall_lookup_1 _ _ _ _ Hpos Hc). cbn in *. lia.
Qed.

Lemma cstr_charZ m p l i :
  cstr m p l → 0 ≤ i ≤ Z.of_nat (length l) → rd8 m (p + i) = char_at l (Z.to_nat i).
Proof.
  intros Hs Hi. rewrite <- (cstr_char m p l) by (done || lia). f_equal. lia.
Qed.

Lemma char_at_nz l i : char_at l i ≠ 0 → (i < length l)%nat.
Proof.
  intros H. destruct (decide (i < length l)%nat); [done|].
  by rewrite char_at_end in H by lia.
Qed.

Lemma bytes_cmp_zero l1 l2 :
  Forall (λ c, 0 < c < 2 ^ 8) l1 → Forall (λ c, 0 < c < 2 ^ 8) l2 →
  bytes_cmp l1 l2 = 0 ↔ l1 = l2.
Proof.
  revert l2. induction l1 as [|c l1 IH]; intros [|d l2] H1 H2; cbn [bytes_cmp].
  - done.
  - inversion H2; subst. split; [lia|done].
  - inversion H1; subst. split; [lia|done].
  - inversion H1; inversion H2; subst. destruct (Z.eqb_spec c d) as [->|Hne].
    + rewrite IH by done. split; [by intros ->|by intros [=]].
    + split; [lia|intros [=]; lia].
Qed.

Lemma bytes_cmp_drop l1 l2 i :
  (i ≤ length l1)%nat → (i ≤ length l2)%nat → take i l1 = take i l2 →
  bytes_cmp l1 l2 = bytes_cmp (drop i l1) (drop i l2).
Proof.
  revert l1 l2. induction i as [|i IH]; intros l1 l2 H1 H2 Heq; [done|].
  destruct l1 as [|c l1], l2 as [|d l2]; cbn in *; [done|lia|lia|].
  injection Heq as -> Heq. rewrite Z.eqb_refl. apply IH; [lia..|done].
Qed.

(** The comparison at the first index where the strings differ or end. *)
Lemma bytes_cmp_at l1 l2 i :
  Forall (λ c, 0 < c < 2 ^ 8) l1 → Forall (λ c, 0 < c < 2 ^ 8) l2 →
  (i ≤ length l1)%nat → (i ≤ length l2)%nat → take i l1 = take i l2 →
  (char_at l1 i = 0 ∨ char_at l1 i ≠ char_at l2 i) →
  bytes_cmp l1 l2 = char_at l1 i - char_at l2 i.
Proof.
  intros F1 F2 H1 H2 Heq Hstop. rewrite (bytes_cmp_drop _ _ i) by done.
  assert (∀ l : list Z, char_at l i = char_at (drop i l) 0) as Hd.
  { intros l. unfold char_at. rewrite !nth_lookup, lookup_drop. by rewrite Nat.add_0_r. }
  rewrite (Hd l1), (Hd l2) in Hstop. rewrite (Hd l1), (Hd l2).
  pose proof (Forall_drop _ i _ F1) as G1. pose proof (Forall_drop _ i _ F2) as G2.
  destruct (drop i l1) as [|c l1'], (drop i l2) as [|d l2']; cbn in *; [lia..|].
  inversion G1; inversion G2; subst. destruct (Z.eqb_spec c d); lia.
Qed.

Lemma take_S_eq (l1 l2 : list Z) i :
  (i < length l1)%nat → (i < length l2)%nat →
  take i l1 = take i l2 → char_at l1 i = char_at l2 i →
  take (S i) l1 = take (S i) l2.
Proof.
  intros H1 H2 Heq Hc.
  destruct (lookup_lt_is_Some_2 l1 i H1) as [c Hc1].
  destruct (lookup_lt_is_Some_2 l2 i H2) as [d Hd2].
  rewrite (take_S_r l1 i c), (take_S_r l2 i d) by done.
  rewrite (char_at_lookup _ _ _ Hc1), (char_at_lookup _ _ _ Hd2) in Hc. congruence.
Qed.

(** ** Loads after a block operation *)

Lemma rd8_memset m s c n x :
  0 ≤ n →
  rd8 (memset m s c n) x = if decide (s ≤ x < s + n) then u8 c else rd8 m x.
Proof.
  intros Hn. unfold memset.
  pose proof (for_each_ind
    (λ i m', ∀ x, rd8 m' x = if decide (s ≤ x < s + i) then u8 c else rd8 m x)
    (Z.to_nat n) 0 (λ i m, wr8 m (s + i) c) m) as H.
  rewrite Z2Nat.id in H by done. apply H.
  - intros y. by rewrite decide_False by lia.
  - intros j m' Hj Hm y. rewrite rd8_wr8, Hm.
    repeat case_decide; try lia; done.
Qed.

Lemma memset_outside m s c n : 0 ≤ n → same_outside s n m (memset m s c n).
Proof. intros Hn x Hx. rewrite rd8_memset by done. by rewrite decide_False by lia. Qed.

Lemma rd64_memset_zero m s n a :
  0 ≤ n → s ≤ a → a + 8 ≤ s + n → rd64 (memset m s 0 n) a = 0.
Proof.
  intros. apply rd64_zero. intros x Hx.
  rewrite rd8_memset by done. by rewrite decide_True by lia.
Qed.

(** Whatever is copied, and from where, only the destination changes. *)
Lemma memcpy_outside m d s n : 0 ≤ n → same_outside d n m (memcpy m d s n).
Proof.
  intros Hn. unfold memcpy.
  pose proof (for_each_ind (λ i m', i ≤ n → same_outside d i m m')
    (Z.to_nat n) 0 (λ i m, wr8 m (d + i) (rd8 m (s + i))) m) as H.
  rewrite Z2Nat.id in H by done. apply H; [by intros _ x _| |done].
  intros j m' Hj Hm Hjn x Hx. rewrite rd8_wr8_ne by lia. apply Hm; lia.
Qed.

Lemma rd8_memcpy m d s n x :
  0 ≤ n → d ≤ s ∨ s + n ≤ d →
  rd8 (memcpy m d s n) x =
    if decide (d ≤ x < d + n) then rd8 m (s + (x - d)) else rd8 m x.
Proof.
  intros Hn Hov. unfold memcpy.
  pose proof (for_each_ind
    (λ i m', i ≤ n ∧ ∀ x, rd8 m' x =
       if decide (d ≤ x < d + i) then rd8 m (s + (x - d)) else rd8 m x)
    (Z.to_nat n) 0 (λ i m, wr8 m (d + i) (rd8 m (s + i))) m) as H.
  rewrite Z2Nat.id in H by done. apply H.
  - split; [done|]. intros y. by rewrite decide_False by lia.
  - intros j m' Hj [Hjn Hm]. split; [lia|]. intros y. rewrite rd8_wr8.
    case_decide as Hy; [subst|rewrite Hm; repeat case_decide; try lia; done].
    rewrite decide_True by lia. rewrite u8_small by auto with cint.
    rewrite Hm. rewrite decide_False by lia. f_equal. lia.
Qed.

(** ** Correctness of the string routines *)

(** [strlen] of a NUL-terminated string is its length. *)
Lemma strlen_cstr m p l :
  cstr m p l → Z.of_nat (length l) < 2 ^ 64 → strlen m p = inr (Z.of_nat (length l)).
Proof.
  intros Hs Hlen. unfold strlen.
  edestruct (while_total
    (λ len, if rd8 m (p + len) =? 0 then inr len else inl (len + 1))
    (λ i, 0 ≤ i ≤ Z.of_nat (length l)) (λ r, r = Z.of_nat (length l))
    (λ i, Z.of_nat (length l) - i) addr_fuel 0) as (r & -> & ->); [lia| |unfold addr_fuel; lia|done].
  intros i Hi. rewrite (cstr_charZ m p l) by (done || lia).
  destruct (Z.eqb_spec (char_at l (Z.to_nat i)) 0) as [H0|H0].
  - destruct (decide (Z.to_nat i < length l)%nat) as [Hlt|]; [|lia].
    by pose proof (cstr_char_pos _ _ _ _ Hs Hlt).
  - apply char_at_nz in H0. lia.
Qed.

(** [strcmp] on two strings is the byte-wise comparison. *)
Lemma strcmp_cstr m p1 p2 l1 l2 :
  cstr m p1 l1 → cstr m p2 l2 → Z.of_nat (length l1) < 2 ^ 64 - 1 →
  strcmp m p1 p2 = inr (bytes_cmp l1 l2).
Proof.
  intros Hs1 Hs2 Hlen. unfold strcmp.
  edestruct (while_total
    (λ i, if negb (rd8 m (p1 + i) =? 0) && (rd8 m (p1 + i) =? rd8 m (p2 + i))
          then inl (i + 1) else inr (rd8 m (p1 + i) - rd8 m (p2 + i)))
    (λ i, 0 ≤ i ≤ Z.of_nat (length l1) ∧ i ≤ Z.of_nat (length l2) ∧
          take (Z.to_nat i) l1 = take (Z.to_nat i) l2) (λ r, r = bytes_cmp l1 l2)
    (λ i, Z.of_nat (length l1) - i + 1) addr_fuel 0) as (r & -> & ->);
    [split_and!; [lia..|done]| |unfold addr_fuel; lia|done].
  intros i (Hi1 & Hi2 & Heq).
  rewrite (cstr_charZ m p1 l1), (cstr_charZ m p2 l2) by (done || lia).
  destruct Hs1 as [F1 _], Hs2 as [F2 _].
  destruct (Z.eqb_spec (char_at l1 (Z.to_nat i)) 0) as [H0|H0];
    [cbn; symmetry; apply bytes_cmp_at; auto; lia|].
  destruct (Z.eqb_spec (char_at l1 (Z.to_nat i)) (char_at l2 (Z.to_nat i))) as [He|He];
    [cbn|cbn; symmetry; apply bytes_cmp_at; auto; lia].
  pose proof (char_at_nz _ _ H0). rewrite He in H0. pose proof (char_at_nz _ _ H0).
  split_and!; [lia..| |lia|lia].
  replace (Z.to_nat (i + 1)) with (S (Z.to_nat i)) by lia. by apply take_S_eq.
Qed.

Lemma char_at_take l n i : (i < n)%nat → char_at (take n l) i = char_at l i.
Proof. intros. unfold char_at. by rewrite !nth_lookup, lookup_take_lt. Qed.

Lemma bytes_cmp_refl l : bytes_cmp l l = 0.
Proof. induction l as [|c l IH]; cbn; [done|]. by rewrite Z.eqb_refl. Qed.

(** [strncmp] compares the first [n] bytes of each string. *)
Lemma strncmp_cstr m p1 p2 l1 l2 n :
  cstr m p1 l1 → cstr m p2 l2 → 0 ≤ n →
  strncmp m p1 p2 n = bytes_cmp (take (Z.to_nat n) l1) (take (Z.to_nat n) l2).
Proof.
  intros Hs1 Hs2 Hn. unfold strncmp. set (N := Z.to_nat n).
  set (body := λ (i : Z) (u : unit), if negb _ then _ else _).
  pose proof (for_loop_ind
    (λ i (_ : unit), i ≤ Z.of_nat (length l1) ∧ i ≤ Z.of_nat (length l2) ∧
       take (Z.to_nat i) l1 = take (Z.to_nat i) l2)
    (λ r, r = bytes_cmp (take N l1) (take N l2)) N 0 body ()) as H.
  rewrite Z.add_0_l, Nat2Z.id in H.
  destruct (for_loop N 0 body ()) as [u|r]; [destruct H as (_ & _ & ->)|apply H].
  1,4: split_and!; [lia..|done].
  2: by rewrite bytes_cmp_refl.
  all: intros i [] Hi (H1 & H2 & Heq); unfold body;
    rewrite (cstr_charZ m p1 l1), (cstr_charZ m p2 l2) by (done || lia).
  all: destruct Hs1 as [F1 _], Hs2 as [F2 _].
  all: pose proof (bytes_cmp_at (take N l1) (take N l2) (Z.to_nat i)) as Hat.
  all: rewrite !char_at_take, !take_take, Nat.min_l in Hat by lia.
  all: destruct (Z.eqb_spec (char_at l1 (Z.to_nat i)) (char_at l2 (Z.to_nat i))) as [He|He]; cbn;
    [|symmetry; apply Hat; auto using Forall_take; rewrite length_take; lia].
  all: destruct (Z.eqb_spec (char_at l1 (Z.to_nat i)) 0) as [H0|H0];
    [rewrite Hat; [lia|auto using Forall_take; rewrite ?length_take; lia..]|].
  all: pose proof (char_at_nz _ _ H0); rewrite He in H0; pose proof (char_at_nz _ _ H0).
  all: split_and!; [lia..|]; replace (Z.to_nat (i + 1)) with (S (Z.to_nat i)) by lia;
    by apply take_S_eq.
Qed.

(** [memcmp] returns zero exactly on equal blocks. *)
Lemma memcmp_zero m s1 s2 n :
  0 ≤ n →
  memcmp m s1 s2 n = 0 ↔ ∀ i, 0 ≤ i < n → rd8 m (s1 + i) = rd8 m (s2 + i).
Proof.
  intros Hn. unfold memcmp.
  pose proof (for_loop_ind
    (λ i (_ : unit), ∀ j, 0 ≤ j < i → rd8 m (s1 + j) = rd8 m (s2 + j))
    (λ r, r ≠ 0 ∧ ∃ j, 0 ≤ j < n ∧ rd8 m (s1 + j) ≠ rd8 m (s2 + j)) (Z.to_nat n) 0
    (λ i (u : unit), if rd8 m (s1 + i) =? rd8 m (s2 + i) then inl u
             else inr (rd8 m (s1 + i) - rd8 m (s2 + i))) ()) as H.
  rewrite Z2Nat.id in H by done. destruct (for_loop _ _ _ _) as [u|r].
  - split; [|done]. intros _. apply H; [lia|]. intros j [] Hj Hinv.
    destruct (Z.eqb_spec (rd8 m (s1 + j)) (rd8 m (s2 + j))) as [He|Hne].
    + intros k Hk. destruct (Z.eq_dec k j) as [->|]; [done|apply Hinv; lia].
    + split; [lia|]. exists j. split; [lia|done].
  - destruct H as [Hr (j & Hj & Hne)]; [lia| |].
    + intros j [] Hj Hinv.
      destruct (Z.eqb_spec (rd8 m (s1 + j)) (rd8 m (s2 + j))) as [He|Hne].
      * intros k Hk. destruct (Z.eq_dec k j) as [->|]; [done|apply Hinv; lia].
      * split; [lia|]. exists j. split; [lia|done].
    + split; [done|]. intros Hall. by destruct Hne; apply Hall.
Qed.
