(* ===== verification/Frames.v ===== *)
(** The physical-page allocator as its clients see it.

    [PageAllocator] lists what the heap, the virtual memory manager and the
    program loader call (src/kernel/pmm.h): the allocation routines, the
    direct-map offset behind [phystokv] and the memory itself.
    [PageAllocatorLaws] is the contract: a set of free frames that allocation
    shrinks and freeing grows, and a range of memory the allocator keeps for
    itself, which no frame it hands out meets. Pmm.v discharges the laws for
    the bitmap allocator; Heap.v and Vmm.v are proved against them. *)

From S2P Require Export CString.

Definition PAGE_SIZE : Z := 4096.

(** [x] lies in the page of frame [i], seen through the direct map. *)
Definition in_page (hhdm i x : Z) : Prop :=
  hhdm + i * PAGE_SIZE ≤ x < hhdm + (i + 1) * PAGE_SIZE.

Class PageAllocator (St : Type) := {
  hhdm : St → Z;
  ram : St → mem;
  set_ram : St → mem → St;
  alloc_page : St → Z * St;
  alloc_pages : St → Z → Z * St;
  free_page : St → Z → St;
  (* the abstract view *)
  alloc_wf : St → Prop;
  frames : St → Z;
  free_set : St → gset Z;
  private : St → Z → Prop;
}.

Section Interface.
Context {St : Type} `{PageAllocator St}.

(** The parts of the state that no operation changes. *)
Definition same_layout (s s' : St) : Prop :=
  hhdm s' = hhdm s ∧ frames s' = frames s ∧ ∀ x, private s' x ↔ private s x.

(** Frame [i] exists, is not frame 0, and is outside the allocator's data. *)
Definition usable (s : St) (i : Z) : Prop :=
  0 < i < frames s ∧ ∀ x, in_page (hhdm s) i x → ¬ private s x.

(** Memory outside the allocator's own data is untouched. *)
Definition ram_kept (s s' : St) : Prop :=
  ∀ x, ¬ private s x → rd8 (ram s') x = rd8 (ram s) x.

(** Somewhere [n] frames in a row are free. *)
Definition free_run (s : St) (n : Z) : Prop := ∃ i, ∀ k, i ≤ k < i + n → k ∈ free_set s.

Definition phystokv (s : St) (phys : Z) : Z := u64 (phys + hhdm s).

#[export] Instance same_layout_equivalence : Equivalence same_layout.
Proof.
  split.
  - by intros s.
  - intros s s' (?&?&Hp). split_and!; [done..|]. intros x. by rewrite Hp.
  - intros s1 s2 s3 (?&?&Hp) (?&?&Hq). split_and!; [congruence..|].
    intros x. by rewrite Hq, Hp.
Qed.

#[export] Instance usable_proper : Proper (same_layout ==> eq ==> iff) usable.
Proof.
  intros s s' (Hh & Hf & Hp) i ? <-. unfold usable. rewrite Hh, Hf. by setoid_rewrite Hp.
Qed.
Lemma usable_mono (s s' : St) i : same_layout s s' → usable s i → usable s' i.
Proof. intros Hl. by rewrite Hl. Qed.
End Interface.

Class PageAllocatorLaws (St : Type) `{PageAllocator St} := {
  (* the direct map covers every frame without wrapping *)
  hhdm_bounds s : alloc_wf s → 0 ≤ hhdm s ∧ hhdm s + frames s * PAGE_SIZE ≤ 2 ^ 64;
  free_set_usable s i : alloc_wf s → i ∈ free_set s → usable s i;
  ram_set_ram s m : ram (set_ram s m) = m;
  (* a client's store keeps the allocator's state *)
  set_ram_layout s m : same_layout s (set_ram s m);
  set_ram_wf s m :
    alloc_wf s → (∀ x, private s x → rd8 m x = rd8 (ram s) x) →
    alloc_wf (set_ram s m) ∧ free_set (set_ram s m) = free_set s;
  alloc_page_law s p s' :
    alloc_wf s → alloc_page s = (p, s') →
    alloc_wf s' ∧ same_layout s s' ∧ ram_kept s s' ∧
    ((p = 0 ∧ free_set s = ∅ ∧ free_set s' = ∅) ∨
     (∃ i, p = i * PAGE_SIZE ∧ i ∈ free_set s ∧ free_set s' = free_set s ∖ {[i]}));
  alloc_pages_law s n p s' :
    alloc_wf s → 0 ≤ n → alloc_pages s n = (p, s') →
    alloc_wf s' ∧ same_layout s s' ∧ ram_kept s s' ∧
    (* a run of [n] that lies across the allocator's cursor is not found; of a
       longer run enough lies on one side *)
    ((p = 0 ∧ free_set s' = free_set s ∧ (0 < n → ¬ free_run s (2 * n - 1))) ∨
     (∃ i, p = i * PAGE_SIZE ∧ 0 < n ∧ (∀ k, i ≤ k < i + n → k ∈ free_set s) ∧
        ∀ k, k ∈ free_set s' ↔ k ∈ free_set s ∧ ¬ (i ≤ k < i + n)));
  free_page_law s i :
    alloc_wf s → usable s i →
    alloc_wf (free_page s (i * PAGE_SIZE)) ∧
    same_layout s (free_page s (i * PAGE_SIZE)) ∧
    ram_kept s (free_page s (i * PAGE_SIZE)) ∧
    free_set (free_page s (i * PAGE_SIZE)) = {[i]} ∪ free_set s;
}.

Section Derived.
Context {St : Type} `{PageAllocatorLaws St}.

Lemma phystokv_small s i :
  alloc_wf s → 0 ≤ i < frames s → phystokv s (i * PAGE_SIZE) = hhdm s + i * PAGE_SIZE.
Proof.
  intros Hwf Hi. destruct (hhdm_bounds s Hwf). unfold phystokv, PAGE_SIZE in *.
  rewrite u64_small; lia.
Qed.

(** Two frames are the same or their pages do not meet. *)
Lemma in_page_inj h i j x : in_page h i x → in_page h j x → i = j.
Proof. unfold in_page, PAGE_SIZE. lia. Qed.

(** A store to the page of a usable frame keeps the allocator's state. *)
Lemma set_ram_in_page s m i :
  alloc_wf s → usable s i →
  same_outside (hhdm s + i * PAGE_SIZE) PAGE_SIZE (ram s) m →
  alloc_wf (set_ram s m) ∧ free_set (set_ram s m) = free_set s.
Proof.
  intros Hwf [Hi Hpriv] Hout. apply set_ram_wf; [done|]. intros x Hx.
  apply Hout. destruct (decide (in_page (hhdm s) i x)) as [Hin|Hnot].
  - by destruct (Hpriv x Hin).
  - unfold in_page in Hnot. lia.
Qed.
End Derived.
