(* ===== verification/Pmm.v ===== *)
(** The physical memory manager (src/kernel/pmm.c): one bit per 4 KiB frame,
    1 = in use, in a bitmap that itself lives in managed memory.

    Section order: the state and the operations; what one bit operation does
    to the bit tests; the allocator's invariant; the contract of Frames.v as
    an [Instance]; the initialisation from the boot loader's memory map. *)

From S2P Require Export Frames.

Record pmm := mk_pmm {
  hhdm_offset : Z;
  pmm_bitmap : Z;                 (* address of the bitmap; 0 is NULL *)
  pmm_free_memory : Z;
  pmm_highest_page : Z;
  pmm_last_allocated_index : Z;
  pmm_ram : mem;
}.

Definition pmm_set_ram (s : pmm) (m : mem) : pmm :=
  mk_pmm (hhdm_offset s) (pmm_bitmap s) (pmm_free_memory s) (pmm_highest_page s)
    (pmm_last_allocated_index s) m.
Definition set_last (s : pmm) (i : Z) : pmm :=
  mk_pmm (hhdm_offset s) (pmm_bitmap s) (pmm_free_memory s) (pmm_highest_page s)
    i (pmm_ram s).
Definition set_free_memory (s : pmm) (f : Z) : pmm :=
  mk_pmm (hhdm_offset s) (pmm_bitmap s) f (pmm_highest_page s)
    (pmm_last_allocated_index s) (pmm_ram s).

(** ** Bitmap operations *)

Definition bitmap_set (s : pmm) (bit : Z) : pmm :=
  let a := pmm_bitmap s + bit / 8 in
  pmm_set_ram s (wr8 (pmm_ram s) a (rd8 (pmm_ram s) a .| (1 << (bit mod 8)))).

Definition bitmap_clear (s : pmm) (bit : Z) : pmm :=
  let a := pmm_bitmap s + bit / 8 in
  pmm_set_ram s (wr8 (pmm_ram s) a (rd8 (pmm_ram s) a .& ~~ (1 << (bit mod 8)))).

Definition bitmap_test (s : pmm) (bit : Z) : bool :=
  negb (rd8 (pmm_ram s) (pmm_bitmap s + bit / 8) .& (1 << (bit mod 8)) =? 0).

(** ** Allocation *)

(** The body of the [if (!bitmap_test(i))] branch of [pmm_alloc_page]. *)
Definition take_page (s : pmm) (i : Z) : Z * pmm :=
  let s := bitmap_set s i in
  let s := set_last s i in
  let s := set_free_memory s (u64 (pmm_free_memory s - PAGE_SIZE)) in
  (u64 (i * PAGE_SIZE), s).

Definition pmm_alloc_page (s : pmm) : Z * pmm :=
  let last := pmm_last_allocated_index s in
  let free i := negb (bitmap_test s i) in
  match search free (take_page s) s (Z.to_nat (pmm_highest_page s - last)) last with
  | inr r => r
  | inl s =>
      match search free (take_page s) s (Z.to_nat last) 0 with
      | inr r => r
      | inl s => (0, s)
      end
  end.

(** The body of [if (contiguous == count)] of [pmm_alloc_pages]. *)
Definition take_run (s : pmm) (start_index count : Z) : Z * pmm :=
  let s := for_each (Z.to_nat count) 0 (λ j s, bitmap_set s (start_index + j)) s in
  let s := set_last s (start_index + count) in
  let s := set_free_memory s (u64 (pmm_free_memory s - PAGE_SIZE * count)) in
  (u64 (start_index * PAGE_SIZE), s).

(** One turn of the search for [count] free frames in a row; the loop state
    is ([contiguous], [start_index]). *)
Definition run_step (s : pmm) (count i : Z) (st : Z * Z) : Z * Z + Z * pmm :=
  let '(contiguous, start_index) := st in
  if negb (bitmap_test s i) then
    let start_index := if contiguous =? 0 then i else start_index in
    let contiguous := contiguous + 1 in
    if contiguous =? count then inr (take_run s start_index count)
    else inl (contiguous, start_index)
  else inl (0, start_index).

Definition pmm_alloc_pages (s : pmm) (count : Z) : Z * pmm :=
  if count =? 0 then (0, s)
  else if count =? 1 then pmm_alloc_page s
  else
    let last := pmm_last_allocated_index s in
    match for_loop (Z.to_nat (pmm_highest_page s - last)) last (run_step s count) (0, last) with
    | inr r => r
    | inl (_, start_index) =>
        match for_loop (Z.to_nat last) 0 (run_step s count) (0, start_index) with
        | inr r => r
        | inl _ => (0, s)
        end
    end.

Definition pmm_free_page (s : pmm) (page : Z) : pmm :=
  let bit := page / PAGE_SIZE in
  if bitmap_test s bit then
    let s := bitmap_clear s bit in
    set_free_memory s (u64 (pmm_free_memory s + PAGE_SIZE))
  else s.

(** ** Initialisation *)

Definition LIMINE_MEMMAP_USABLE : Z := 0.

Record limine_memmap_entry := mk_entry { base : Z; length_ : Z; type : Z }.

Definition usable_entry (e : limine_memmap_entry) : bool := type e =? LIMINE_MEMMAP_USABLE.

(** First loop: the highest address of a usable entry. *)
Definition highest_address (mmap : list limine_memmap_entry) : Z :=
  fold_left (λ h e,
    if usable_entry e then
      let top := u64 (base e + length_ e) in if h <? top then top else h
    else h) mmap 0.

(** Second loop: the first usable entry that can hold the bitmap gives it its
    first bytes. The result is the bitmap's physical base (if one was found)
    and the entries as the loop leaves them. *)
Fixpoint place_bitmap (bitmap_size : Z) (mmap : list limine_memmap_entry)
  : option Z * list limine_memmap_entry :=
  match mmap with
  | [] => (None, [])
  | e :: rest =>
      if usable_entry e && (bitmap_size <=? length_ e) then
        (Some (base e),
         mk_entry (u64 (base e + bitmap_size)) (u64 (length_ e - bitmap_size)) (type e) :: rest)
      else let '(b, rest') := place_bitmap bitmap_size rest in (b, e :: rest')
  end.

(** Third loop: the inner loop over [j] runs ⌈length / PAGE_SIZE⌉ times. *)
Definition free_entry (s : pmm) (e : limine_memmap_entry) : pmm :=
  if usable_entry e then
    for_each (Z.to_nat ((length_ e + (PAGE_SIZE - 1)) / PAGE_SIZE)) 0
      (λ k s, let j := k * PAGE_SIZE in
              let s := bitmap_clear s (u64 (base e + j) / PAGE_SIZE) in
              set_free_memory s (u64 (pmm_free_memory s + PAGE_SIZE))) s
  else s.

(** [None]: the boot loader gave no direct map or no memory map and the
    machine halts. [m] is the memory at boot. *)
Definition pmm_init (hhdm_response : option Z)
    (memmap_response : option (list limine_memmap_entry)) (m : mem) : option pmm :=
  match hhdm_response, memmap_response with
  | Some offset, Some mmap =>
      let pmm_highest_page := highest_address mmap / PAGE_SIZE in
      let bitmap_size :=
        if pmm_highest_page / 8 =? 0 then 1 else pmm_highest_page / 8 in
      let '(b, mmap) := place_bitmap bitmap_size mmap in
      let bitmap := match b with Some phys => u64 (phys + offset) | None => 0 end in
      let m := memset m bitmap 255 bitmap_size in
      Some (fold_left free_entry mmap (mk_pmm offset bitmap 0 pmm_highest_page 0 m))
  | _, _ => None
  end.

(** ** Effect of the bit operations *)

Lemma bitmap_test_spec s i :
  0 ≤ i →
  bitmap_test s i = Z.testbit (rd8 (pmm_ram s) (pmm_bitmap s + i / 8)) (i mod 8).
Proof. intros Hi. apply testbit_pow2_land. dlia. Qed.

Lemma rd8_testbit_set b k n :
  0 ≤ b < 2 ^ 8 → 0 ≤ k < 8 → 0 ≤ n →
  Z.testbit (u8 (b .| (1 << k))) n = Z.testbit b n || (k =? n).
Proof.
  intros Hb Hk Hn. rewrite Z.shiftl_1_l. unfold u8.
  destruct (Z.lt_ge_cases n 8).
  - rewrite Z.mod_pow2_bits_low, Z.lor_spec, Z.pow2_bits_eqb by lia. done.
  - rewrite Z.mod_pow2_bits_high, (testbit_small b 8) by lia.
    destruct (Z.eqb_spec k n); [lia|done].
Qed.

Lemma rd8_testbit_clear b k n :
  0 ≤ b < 2 ^ 8 → 0 ≤ k < 8 → 0 ≤ n →
  Z.testbit (u8 (b .& ~~ (1 << k))) n = Z.testbit b n && negb (k =? n).
Proof.
  intros Hb Hk Hn. rewrite Z.shiftl_1_l. unfold u8.
  destruct (Z.lt_ge_cases n 8).
  - rewrite Z.mod_pow2_bits_low, Z.land_spec, Z.lnot_spec, Z.pow2_bits_eqb by lia. done.
  - rewrite Z.mod_pow2_bits_high, (testbit_small b 8) by lia. done.
Qed.

Lemma bit_index_eqb i j :
  0 ≤ i → 0 ≤ j → (i =? j) = (i / 8 =? j / 8) && (i mod 8 =? j mod 8).
Proof.
  intros. pose proof (Z.div_mod i 8). pose proof (Z.div_mod j 8).
  bcase; cbn; try done; subst; lia.
Qed.

Lemma bitmap_test_set s i j :
  0 ≤ i → 0 ≤ j → bitmap_test (bitmap_set s i) j = bitmap_test s j || (i =? j).
Proof.
  intros Hi Hj. rewrite !bitmap_test_spec, (bit_index_eqb i j) by done. cbn.
  rewrite rd8_wr8. case_decide as Ha.
  - assert (i / 8 = j / 8) as -> by lia.
    rewrite rd8_testbit_set by (auto using rd8_range; dlia).
    by rewrite Z.eqb_refl.
  - destruct (Z.eqb_spec (i / 8) (j / 8)); [lia|]. by rewrite orb_false_r.
Qed.

Lemma bitmap_test_clear s i j :
  0 ≤ i → 0 ≤ j → bitmap_test (bitmap_clear s i) j = bitmap_test s j && negb (i =? j).
Proof.
  intros Hi Hj. rewrite !bitmap_test_spec, (bit_index_eqb i j) by done. cbn.
  rewrite rd8_wr8. case_decide as Ha.
  - assert (i / 8 = j / 8) as -> by lia.
    rewrite rd8_testbit_clear by (auto using rd8_range; dlia).
    by rewrite Z.eqb_refl.
  - destruct (Z.eqb_spec (i / 8) (j / 8)); [lia|]. by rewrite andb_true_r.
Qed.

(** The bit tests depend on the memory of the bitmap only. *)
Definition in_bitmap (s : pmm) (x : Z) : Prop :=
  pmm_bitmap s ≤ x < pmm_bitmap s + (pmm_highest_page s + 7) / 8.

Lemma bitmap_test_ext s m i :
  0 ≤ i < pmm_highest_page s →
  (∀ x, in_bitmap s x → rd8 m x = rd8 (pmm_ram s) x) →
  bitmap_test (pmm_set_ram s m) i = bitmap_test s i.
Proof.
  intros Hi H. rewrite !bitmap_test_spec by lia. cbn. rewrite H; [done|].
  unfold in_bitmap. dlia.
Qed.

(** ** Abstract view and invariant *)

Definition free_frames (s : pmm) : gset Z :=
  filter (λ i, bitmap_test s i = false) (list_to_set (seqZ 0 (pmm_highest_page s))).

Lemma elem_of_free_frames s i :
  i ∈ free_frames s ↔ 0 ≤ i < pmm_highest_page s ∧ bitmap_test s i = false.
Proof.
  unfold free_frames. rewrite elem_of_filter, elem_of_list_to_set, elem_of_seqZ.
  naive_solver lia.
Qed.

Record pmm_wf (s : pmm) : Prop := {
  wf_hhdm : 0 ≤ hhdm_offset s;
  wf_top : hhdm_offset s + pmm_highest_page s * PAGE_SIZE ≤ 2 ^ 64;
  wf_last : 0 ≤ pmm_last_allocated_index s ≤ pmm_highest_page s;
  (* frame 0 and the frames that hold the bitmap are never free *)
  wf_page0 : 0 ∉ free_frames s;
  wf_reserved i x : i ∈ free_frames s → in_page (hhdm_offset s) i x → ¬ in_bitmap s x;
  (* the counter counts the free frames *)
  wf_free_memory : pmm_free_memory s = PAGE_SIZE * Z.of_nat (size (free_frames s));
}.

(** Everything but the bits, the cursor and the counter is the same. *)
Definition same_config (s s' : pmm) : Prop :=
  hhdm_offset s' = hhdm_offset s ∧ pmm_bitmap s' = pmm_bitmap s ∧
  pmm_highest_page s' = pmm_highest_page s.

Definition bits_kept_outside (s s' : pmm) : Prop :=
  ∀ x, ¬ in_bitmap s x → rd8 (pmm_ram s') x = rd8 (pmm_ram s) x.

#[export] Instance same_config_preorder : PreOrder same_config.
Proof.
  split; [by intros s|]. intros s1 s2 s3 (?&?&?) (?&?&?). unfold same_config. split_and!; congruence.
Qed.

Lemma in_bitmap_config s s' x : same_config s s' → in_bitmap s' x ↔ in_bitmap s x.
Proof. intros (?&Hb&Hh). unfold in_bitmap. by rewrite Hb, Hh. Qed.

Lemma bits_kept_trans s1 s2 s3 :
  same_config s1 s2 → bits_kept_outside s1 s2 → bits_kept_outside s2 s3 →
  bits_kept_outside s1 s3.
Proof.
  intros Hc H1 H2 x Hx. rewrite H2, H1; [done..|]. by rewrite in_bitmap_config.
Qed.

Lemma bitmap_byte s i : 0 ≤ i < pmm_highest_page s → in_bitmap s (pmm_bitmap s + i / 8).
Proof. intros. unfold in_bitmap. dlia. Qed.

Lemma bitmap_set_kept s i :
  0 ≤ i < pmm_highest_page s → bits_kept_outside s (bitmap_set s i).
Proof.
  intros Hi x Hx. cbn. apply rd8_wr8_ne. intros <-. by apply Hx, bitmap_byte.
Qed.

Lemma bitmap_clear_kept s i :
  0 ≤ i < pmm_highest_page s → bits_kept_outside s (bitmap_clear s i).
Proof.
  intros Hi x Hx. cbn. apply rd8_wr8_ne. intros <-. by apply Hx, bitmap_byte.
Qed.

Lemma free_frames_set s i :
  0 ≤ i → free_frames (bitmap_set s i) = free_frames s ∖ {[i]}.
Proof.
  intros Hi. apply set_eq. intros j.
  rewrite elem_of_difference, elem_of_singleton, !elem_of_free_frames.
  change (pmm_highest_page (bitmap_set s i)) with (pmm_highest_page s).
  split.
  - intros [Hj Hb]. rewrite bitmap_test_set in Hb by lia.
    apply orb_false_elim in Hb as [Hb Hne]. apply Z.eqb_neq in Hne.
    split; [done|congruence].
  - intros [[Hj Hb] Hne]. split; [done|].
    rewrite bitmap_test_set, Hb by lia. by apply Z.eqb_neq.
Qed.

Lemma free_frames_clear s i :
  0 ≤ i < pmm_highest_page s → free_frames (bitmap_clear s i) = {[i]} ∪ free_frames s.
Proof.
  intros Hi. apply set_eq. intros j.
  rewrite elem_of_union, elem_of_singleton, !elem_of_free_frames.
  change (pmm_highest_page (bitmap_clear s i)) with (pmm_highest_page s).
  split.
  - intros [Hj Hb]. rewrite bitmap_test_clear in Hb by lia.
    apply andb_false_iff in Hb as [Hb|Hne]; [by right|].
    apply negb_false_iff, Z.eqb_eq in Hne. by left.
  - intros [->|[Hj Hb]]; split; try done; rewrite bitmap_test_clear by lia.
    + by rewrite Z.eqb_refl, andb_false_r.
    + by rewrite Hb.
Qed.

(** Neither the cursor nor the counter is part of the abstract view. *)
Lemma free_frames_set_last s i : free_frames (set_last s i) = free_frames s.
Proof. done. Qed.
Lemma free_frames_set_free_memory s f : free_frames (set_free_memory s f) = free_frames s.
Proof. done. Qed.

(** ** Sizes: the counter never wraps *)

Definition all_frames (s : pmm) : gset Z := list_to_set (seqZ 0 (pmm_highest_page s)).

Lemma size_all_frames s : Z.of_nat (size (all_frames s)) = Z.max 0 (pmm_highest_page s).
Proof.
  unfold all_frames. rewrite size_list_to_set by apply NoDup_seqZ.
  rewrite length_seqZ. lia.
Qed.

Lemma free_frames_subseteq s : free_frames s ⊆ all_frames s.
Proof. intros i. unfold free_frames. rewrite elem_of_filter. by intros [_ ?]. Qed.

Lemma free_frames_size s :
  Z.of_nat (size (free_frames s)) ≤ Z.max 0 (pmm_highest_page s).
Proof.
  pose proof (subseteq_size _ _ (free_frames_subseteq s)).
  rewrite <- size_all_frames. lia.
Qed.

Lemma free_frames_size_lt s :
  0 ∉ free_frames s → 0 < pmm_highest_page s →
  Z.of_nat (size (free_frames s)) < pmm_highest_page s.
Proof.
  intros H0 Hp. pose proof (free_frames_size s).
  destruct (Z.eq_dec (Z.of_nat (size (free_frames s))) (pmm_highest_page s)); [|lia].
  exfalso. apply H0. rewrite (set_subseteq_size_eq _ _ (free_frames_subseteq s)).
  - unfold all_frames. rewrite elem_of_list_to_set, elem_of_seqZ. lia.
  - pose proof (size_all_frames s). lia.
Qed.

Lemma size_remove (X : gset Z) i :
  i ∈ X → Z.of_nat (size (X ∖ {[i]})) = Z.of_nat (size X) - 1.
Proof.
  intros Hi. rewrite size_difference by set_solver. rewrite size_singleton.
  assert (size X ≠ 0)%nat by (rewrite size_non_empty_iff; set_solver). lia.
Qed.

Lemma size_add (X : gset Z) i :
  i ∉ X → Z.of_nat (size ({[i]} ∪ X)) = Z.of_nat (size X) + 1.
Proof.
  intros Hi. rewrite size_union by set_solver. rewrite size_singleton. lia.
Qed.

Section Accounting.
Context (s : pmm) (Hwf : pmm_wf s).

Lemma free_memory_range : 0 ≤ pmm_free_memory s < 2 ^ 64.
Proof.
  destruct Hwf. pose proof (free_frames_size s). unfold PAGE_SIZE in *.
  rewrite wf_free_memory0.
  assert (size (free_frames s) = 0%nat ∨ 0 < pmm_highest_page s) as [H0|Hp] by lia;
    [rewrite H0; lia|].
  pose proof (free_frames_size_lt s wf_page1 Hp). lia.
Qed.

(** The invariant survives taking one free frame. *)
Lemma take_page_spec i p s' :
  i ∈ free_frames s → take_page s i = (p, s') →
  p = i * PAGE_SIZE ∧ pmm_wf s' ∧ same_config s s' ∧ bits_kept_outside s s' ∧
  free_frames s' = free_frames s ∖ {[i]} ∧ pmm_last_allocated_index s' = i.
Proof.
  intros Hi [= <- <-]. pose proof (proj1 (elem_of_free_frames s i) Hi) as [Hr _].
  pose proof free_memory_range as Hfm. destruct Hwf as [Hh Ht Hl H0 Hres Hfree].
  pose proof (size_remove _ _ Hi) as Hsz.
  assert (free_frames (take_page s i).2 = free_frames s ∖ {[i]}) as Hset.
  { unfold take_page. cbn [snd].
    rewrite free_frames_set_free_memory, free_frames_set_last.
    apply free_frames_set. lia. }
  unfold take_page in Hset. cbn [snd] in Hset. unfold PAGE_SIZE in *.
  split_and!.
  - apply u64_small. lia.
  - split; cbn -[free_frames] in *; [done|done|lia| | |].
    + rewrite Hset. set_solver.
    + rewrite Hset. intros k x [Hk _]%elem_of_difference. by apply Hres.
    + rewrite Hset, Hsz, Hfree. unfold PAGE_SIZE.
      assert (Z.of_nat (size (free_frames s)) ≠ 0).
      { assert (size (free_frames s) ≠ 0)%nat; [|lia].
        rewrite size_non_empty_iff. set_solver. }
      rewrite u64_small by lia. lia.
  - done.
  - by apply bitmap_set_kept.
  - exact Hset.
  - done.
Qed.
End Accounting.

(** ** [pmm_alloc_page] *)

(** [i] is the next free frame from the cursor on, wrapping around. *)
Definition next_fit (s : pmm) (i : Z) : Prop :=
  i ∈ free_frames s ∧
  (pmm_last_allocated_index s ≤ i ∧
     (∀ k, pmm_last_allocated_index s ≤ k < i → k ∉ free_frames s) ∨
   (∀ k, k ∈ free_frames s → i ≤ k < pmm_last_allocated_index s)).

Lemma pmm_alloc_page_spec s p s' :
  pmm_wf s → pmm_alloc_page s = (p, s') →
  (p = 0 ∧ s' = s ∧ free_frames s = ∅) ∨
  (∃ i, next_fit s i ∧ take_page s i = (p, s')).
Proof.
  intros Hwf. unfold pmm_alloc_page.
  set (free i := negb (bitmap_test s i)). pose proof (wf_last s Hwf) as Hl.
  assert (∀ j, 0 ≤ j < pmm_highest_page s → free j = true → j ∈ free_frames s) as Hin.
  { intros j Hj Hf. apply elem_of_free_frames. by apply negb_true_iff in Hf. }
  assert (∀ j, free j = false → j ∉ free_frames s) as Hout.
  { intros j Hf [_ Hb]%elem_of_free_frames. unfold free in Hf. by rewrite Hb in Hf. }
  destruct (search_cases free (take_page s) s
    (Z.to_nat (pmm_highest_page s - pmm_last_allocated_index s))
    (pmm_last_allocated_index s)) as [[-> Hno1]|(j & Hj & Hf & -> & Hmin)].
  2: { intros Heq. right. exists j. split; [|done]. split; [apply Hin; [lia|done]|].
       left. split; [lia|]. intros k Hk. by apply Hout, Hmin. }
  assert (∀ k, k ∈ free_frames s → k < pmm_last_allocated_index s) as Hlow.
  { intros k Hk. pose proof (proj1 (elem_of_free_frames s k) Hk) as [Hr _].
    destruct (Z.lt_ge_cases k (pmm_last_allocated_index s)); [done|].
    exfalso. apply (Hout k); [apply Hno1; lia|done]. }
  destruct (search_cases free (take_page s) s
    (Z.to_nat (pmm_last_allocated_index s)) 0) as [[-> Hno2]|(j & Hj & Hf & -> & Hmin)].
  2: { intros Heq. right. exists j. split; [|done]. split; [apply Hin; [lia|done]|].
       right. intros k Hk. split; [|by apply Hlow].
       destruct (Z.lt_ge_cases k j); [|done]. exfalso.
       pose proof (proj1 (elem_of_free_frames s k) Hk) as [Hr _].
       apply (Hout k); [apply Hmin; lia|done]. }
  intros [= <- <-]. left. split_and!; [done..|]. apply set_eq. intros j.
  split; [|set_solver]. intros Hj. exfalso.
  pose proof (proj1 (elem_of_free_frames s j) Hj) as [Hr _].
  apply (Hout j); [apply Hno2; pose proof (Hlow j Hj); lia|done].
Qed.

(** ** [pmm_alloc_pages] *)

Definition run_free (s : pmm) (start count : Z) : Prop :=
  ∀ k, start ≤ k < start + count → bitmap_test s k = false.

(** What the search knows after looking at [lo .. i): the last [c] frames are
    free, the one before them is not, and no run of [count] free frames ended. *)
Definition scan_inv (s : pmm) (count lo i : Z) (st : Z * Z) : Prop :=
  let '(c, start) := st in
  0 ≤ c < count ∧ lo ≤ i - c ∧ (c ≠ 0 → start = i - c) ∧ run_free s (i - c) c ∧
  (i - c = lo ∨ bitmap_test s (i - c - 1) = true) ∧
  ∀ a, lo ≤ a → a + count ≤ i → ¬ run_free s a count.

Lemma run_free_not s a count k :
  a ≤ k < a + count → bitmap_test s k = true → ¬ run_free s a count.
Proof. intros Hk Hb Hr. by rewrite (Hr k Hk) in Hb. Qed.

Lemma run_free_snoc s i c :
  run_free s (i - c) c → bitmap_test s i = false → run_free s (i + 1 - (c + 1)) (c + 1).
Proof.
  intros Hr Hb k Hk. destruct (Z.eq_dec k i) as [->|]; [done|]. apply Hr. lia.
Qed.

Lemma run_step_inv s count lo i st :
  1 < count → lo ≤ i → scan_inv s count lo i st →
  match run_step s count i st with
  | inl st' => scan_inv s count lo (i + 1) st'
  | inr r => ∃ start, lo ≤ start ∧ start + count = i + 1 ∧ run_free s start count ∧
                      r = take_run s start count
  end.
Proof.
  intros Hc Hlo. destruct st as [c start]. intros (Hcr & Hlc & Hst & Hrun & Hmax & Hno).
  unfold run_step. destruct (bitmap_test s i) eqn:Hb; cbn [negb].
  - split_and!; [lia..|done| | |].
    + intros k Hk. lia.
    + right. by replace (i + 1 - 0 - 1) with i by lia.
    + intros a Ha Hle. destruct (Z.eq_dec (a + count) (i + 1)).
      * apply (run_free_not _ _ _ i); [lia|done].
      * apply Hno; lia.
  - set (start' := if c =? 0 then i else start).
    assert (start' = i - c) as Hs' by (unfold start'; destruct (Z.eqb_spec c 0); lia).
    pose proof (run_free_snoc _ _ _ Hrun Hb) as Hrun'.
    destruct (Z.eqb_spec (c + 1) count) as [Heq|Hne].
    + exists start'. split_and!; [lia..| |done]. rewrite Heq in Hrun'.
      by replace (i + 1 - count) with start' in Hrun' by lia.
    + split_and!; [lia..|done| |].
      * by replace (i + 1 - (c + 1)) with (i - c) by lia.
      * intros a Ha Hle. destruct (Z.eq_dec (a + count) (i + 1)); [|apply Hno; lia].
        destruct Hmax as [|Hu]; [lia|]. apply (run_free_not _ _ _ (i - c - 1)); [lia|done].
Qed.

Lemma scan_cases s count lo n start :
  1 < count →
  match for_loop n lo (run_step s count) (0, start) with
  | inl _ => ∀ a, lo ≤ a → a + count ≤ lo + Z.of_nat n → ¬ run_free s a count
  | inr r => ∃ a, lo ≤ a ∧ a + count ≤ lo + Z.of_nat n ∧ run_free s a count ∧
                  r = take_run s a count
  end.
Proof.
  intros Hc.
  assert (scan_inv s count lo lo (0, start)) as Hinit.
  { split_and!; [done|lia..|intros k Hk; lia|lia|intros a; lia]. }
  pose proof (for_loop_ind (λ i st, lo ≤ i ∧ scan_inv s count lo i st)
    (λ r, ∃ a, lo ≤ a ∧ a + count ≤ lo + Z.of_nat n ∧ run_free s a count ∧
               r = take_run s a count)
    n lo (run_step s count) (0, start) (conj (Z.le_refl lo) Hinit)) as H.
  match type of H with ?A → _ => assert A as Hstep end.
  { intros i st Hi [Hlo Hinv]. pose proof (run_step_inv _ _ _ _ _ Hc Hlo Hinv) as Hs.
    destruct (run_step _ _ _ _); [split; [lia|done]|].
    destruct Hs as (a & ? & ? & ? & ->). exists a. split_and!; [lia..|done|done]. }
  specialize (H Hstep). destruct (for_loop _ _ _ _) as [[c st]|r]; [|done].
  by destruct H as (_ & _ & _ & _ & _ & _ & Hno).
Qed.

(** The two searches of [pmm_alloc_pages] together. *)
Lemma pmm_alloc_pages_cases s count :
  1 < count → 0 ≤ pmm_last_allocated_index s ≤ pmm_highest_page s →
  (pmm_alloc_pages s count = (0, s) ∧
     (∀ a, pmm_last_allocated_index s ≤ a → a + count ≤ pmm_highest_page s →
           ¬ run_free s a count) ∧
     (∀ a, 0 ≤ a → a + count ≤ pmm_last_allocated_index s → ¬ run_free s a count)) ∨
  (∃ a, 0 ≤ a ∧ a + count ≤ pmm_highest_page s ∧ run_free s a count ∧
        pmm_alloc_pages s count = take_run s a count).
Proof.
  intros Hc Hl. unfold pmm_alloc_pages.
  destruct (Z.eqb_spec count 0); [lia|]. destruct (Z.eqb_spec count 1); [lia|].
  set (last := pmm_last_allocated_index s) in *.
  pose proof (scan_cases s count last (Z.to_nat (pmm_highest_page s - last)) last Hc) as H1.
  destruct (for_loop _ last _ _) as [[c st]|r].
  2: { destruct H1 as (a & ? & ? & ? & ->). right. exists a. split_and!; [lia..|done|done]. }
  pose proof (scan_cases s count 0 (Z.to_nat last) st Hc) as H2.
  destruct (for_loop _ 0 _ _) as [[c' st']|r].
  2: { destruct H2 as (a & ? & ? & ? & ->). right. exists a. split_and!; [lia..|done|done]. }
  left. split_and!; [done| |].
  - intros a Ha Hle. apply H1; lia.
  - intros a Ha Hle. apply H2; lia.
Qed.

(** Setting a run of bits one after the other. *)
Lemma set_run_spec s start n :
  0 ≤ start → start + Z.of_nat n ≤ pmm_highest_page s →
  let s' := for_each n 0 (λ j s, bitmap_set s (start + j)) s in
  same_config s s' ∧ bits_kept_outside s s' ∧ pmm_free_memory s' = pmm_free_memory s ∧
  ∀ k, k ∈ free_frames s' ↔ k ∈ free_frames s ∧ ¬ (start ≤ k < start + Z.of_nat n).
Proof.
  intros Hst Hle. cbn zeta.
  pose proof (for_each_ind (λ j s', same_config s s' ∧ bits_kept_outside s s' ∧
    pmm_free_memory s' = pmm_free_memory s ∧
    ∀ k, k ∈ free_frames s' ↔ k ∈ free_frames s ∧ ¬ (start ≤ k < start + j))
    n 0 (λ j s, bitmap_set s (start + j)) s) as H.
  rewrite Z.add_0_l in H. apply H.
  - split_and!; [done|by intros x|done|]. intros k.
    split; [intros; split; [done|lia]|by intros []].
  - intros j s' Hj (Hcfg & Hkept & Hfm & Hset). split_and!.
    + etransitivity; [exact Hcfg|]. done.
    + eapply bits_kept_trans; [done..|]. apply bitmap_set_kept.
      destruct Hcfg as (_ & _ & ->). lia.
    + done.
    + intros k. rewrite free_frames_set, elem_of_difference, elem_of_singleton, Hset by lia.
      split; [intros [[??]?]|intros [??]]; split_and?; done || lia.
Qed.

Lemma size_run (X Y : gset Z) start n :
  (∀ k, start ≤ k < start + Z.of_nat n → k ∈ X) →
  (∀ k, k ∈ Y ↔ k ∈ X ∧ ¬ (start ≤ k < start + Z.of_nat n)) →
  Z.of_nat (size Y) = Z.of_nat (size X) - Z.of_nat n.
Proof.
  intros Hin HY. set (Rn := list_to_set (seqZ start (Z.of_nat n)) : gset Z).
  assert (∀ k, k ∈ Rn ↔ start ≤ k < start + Z.of_nat n) as HR.
  { intros k. unfold Rn. by rewrite elem_of_list_to_set, elem_of_seqZ. }
  assert (Rn ⊆ X) as Hsub by (intros k Hk; apply Hin, HR, Hk).
  assert (Y = X ∖ Rn) as ->.
  { apply set_eq. intros k. by rewrite elem_of_difference, HY, HR. }
  rewrite size_difference by done.
  pose proof (subseteq_size _ _ Hsub) as Hs. revert Hs. unfold Rn.
  rewrite size_list_to_set, length_seqZ by apply NoDup_seqZ. lia.
Qed.

Lemma take_run_spec s start count p s' :
  pmm_wf s → 0 < count → 0 ≤ start → start + count ≤ pmm_highest_page s →
  run_free s start count → take_run s start count = (p, s') →
  p = start * PAGE_SIZE ∧ pmm_wf s' ∧ same_config s s' ∧ bits_kept_outside s s' ∧
  (∀ k, start ≤ k < start + count → k ∈ free_frames s) ∧
  (∀ k, k ∈ free_frames s' ↔ k ∈ free_frames s ∧ ¬ (start ≤ k < start + count)).
Proof.
  intros Hwf Hc Hst Hle Hrun [= <- <-].
  pose proof (set_run_spec s start (Z.to_nat count) Hst ltac:(lia)) as (Hcfg & Hkept & Hfm & Hset).
  rewrite Z2Nat.id in Hset by lia.
  set (s1 := for_each _ _ _ s) in *.
  assert (∀ k, start ≤ k < start + count → k ∈ free_frames s) as Hin.
  { intros k Hk. apply elem_of_free_frames. split; [lia|by apply Hrun]. }
  pose proof (size_run (free_frames s) (free_frames s1) start (Z.to_nat count)) as Hsz.
  rewrite Z2Nat.id in Hsz by lia. specialize (Hsz Hin Hset).
  pose proof (free_memory_range s Hwf) as Hr. destruct Hwf as [Hh Ht Hl H0 Hres Hfree].
  destruct Hcfg as (C1 & C2 & C3). unfold PAGE_SIZE in *.
  split_and!; [apply u64_small; lia| |by split_and!|done|done|done].
  split; cbn -[free_frames].
  - by rewrite C1.
  - by rewrite C1, C3.
  - rewrite C3. lia.
  - change (0 ∉ free_frames s1). rewrite Hset. naive_solver.
  - change (∀ i x, i ∈ free_frames s1 → in_page (hhdm_offset s1) i x → ¬ in_bitmap s1 x).
    intros i x [Hi _]%Hset. rewrite C1, (in_bitmap_config s s1) by done. by apply Hres.
  - change (u64 (pmm_free_memory s1 - 4096 * count) = 4096 * Z.of_nat (size (free_frames s1))).
    rewrite Hfm, u64_small by lia. lia.
Qed.

(** ** [pmm_free_page] *)

Lemma pmm_free_page_spec s i :
  pmm_wf s → 0 < i < pmm_highest_page s →
  (∀ x, in_page (hhdm_offset s) i x → ¬ in_bitmap s x) →
  let s' := pmm_free_page s (i * PAGE_SIZE) in
  pmm_wf s' ∧ same_config s s' ∧ bits_kept_outside s s' ∧
  free_frames s' = {[i]} ∪ free_frames s.
Proof.
  intros Hwf Hi Hpriv. unfold pmm_free_page. cbn zeta.
  rewrite (Z.div_mul i PAGE_SIZE) by done. destruct (bitmap_test s i) eqn:Hb.
  2: { split_and!; [done..|by intros x|]. apply set_eq. intros k.
       rewrite elem_of_union, elem_of_singleton. split; [auto|].
       intros [->|]; [|done]. apply elem_of_free_frames. split; [lia|done]. }
  pose proof (free_frames_clear s i ltac:(lia)) as Hset.
  assert (i ∉ free_frames s) as Hni.
  { intros [_ Hf]%elem_of_free_frames. by rewrite Hf in Hb. }
  pose proof (size_add _ _ Hni) as Hsz.
  pose proof (free_frames_size (bitmap_clear s i)) as Hmax. rewrite Hset, Hsz in Hmax.
  change (pmm_highest_page (bitmap_clear s i)) with (pmm_highest_page s) in Hmax.
  destruct Hwf as [Hh Ht Hl H0 Hres Hfree]. unfold PAGE_SIZE in *.
  split_and!; [|done|by apply bitmap_clear_kept; lia|exact Hset].
  assert (0 ∉ free_frames (bitmap_clear s i)) as H0' by (rewrite Hset; set_solver by lia).
  pose proof (free_frames_size_lt (bitmap_clear s i) H0') as Hlt.
  rewrite Hset, Hsz in Hlt. cbn in Hlt.
  split; cbn -[free_frames]; [done|done|lia|exact H0'| |].
  - change (∀ k x, k ∈ free_frames (bitmap_clear s i) →
      in_page (hhdm_offset s) k x → ¬ in_bitmap s x).
    rewrite Hset. intros k x [->%elem_of_singleton|Hk]%elem_of_union; [apply Hpriv|by apply Hres].
  - change (u64 (pmm_free_memory s + 4096) =
      4096 * Z.of_nat (size (free_frames (bitmap_clear s i)))).
    rewrite Hset, Hsz, u64_small by lia. lia.
Qed.

(** ** The contract of Frames.v *)

#[export] Instance pmm_allocator : PageAllocator pmm := {
  hhdm := hhdm_offset;
  ram := pmm_ram;
  set_ram := pmm_set_ram;
  alloc_page := pmm_alloc_page;
  alloc_pages := pmm_alloc_pages;
  free_page := pmm_free_page;
  alloc_wf := pmm_wf;
  frames := pmm_highest_page;
  free_set := free_frames;
  private := in_bitmap;
}.

Lemma same_config_layout s s' : same_config s s' → same_layout s s'.
Proof.
  intros Hc. pose proof Hc as (? & _ & ?). split_and!; [done..|].
  intros x. by apply in_bitmap_config.
Qed.

Lemma pmm_alloc_page_law s p s' :
  pmm_wf s → pmm_alloc_page s = (p, s') →
  pmm_wf s' ∧ same_config s s' ∧ bits_kept_outside s s' ∧
  ((p = 0 ∧ free_frames s = ∅ ∧ free_frames s' = ∅) ∨
   (∃ i, p = i * PAGE_SIZE ∧ i ∈ free_frames s ∧ free_frames s' = free_frames s ∖ {[i]})).
Proof.
  intros Hwf Heq. destruct (pmm_alloc_page_spec _ _ _ Hwf Heq) as [(-> & -> & He)|(i & [Hi _] & Ht)].
  - split_and!; [done..|by intros x|]. by left.
  - destruct (take_page_spec s Hwf _ _ _ Hi Ht) as (-> & ? & ? & ? & ? & _).
    split_and!; [done..|]. right. by exists i.
Qed.

(** A run of [2 n - 1] free frames has one of [n] on one side of the cursor. *)
Lemma no_long_run s n :
  0 < n →
  (∀ a, pmm_last_allocated_index s ≤ a → a + n ≤ pmm_highest_page s → ¬ run_free s a n) →
  (∀ a, 0 ≤ a → a + n ≤ pmm_last_allocated_index s → ¬ run_free s a n) →
  ¬ ∃ i, ∀ k, i ≤ k < i + (2 * n - 1) → k ∈ free_frames s.
Proof.
  intros Hn Hafter Hbefore (i & Hi). set (last := pmm_last_allocated_index s) in *.
  assert (∀ k, i ≤ k < i + (2 * n - 1) → 0 ≤ k < pmm_highest_page s ∧ bitmap_test s k = false) as Hfree.
  { intros k Hk. specialize (Hi k Hk). apply elem_of_free_frames in Hi as [? ?]. done. }
  pose proof (proj1 (Hfree i ltac:(lia))). pose proof (proj1 (Hfree (i + (2 * n - 2)) ltac:(lia))).
  destruct (decide (i + n ≤ last)).
  - apply (Hbefore i); [lia|lia|]. intros k Hk. by apply Hfree; lia.
  - apply (Hafter (Z.max i last)); [lia|lia|]. intros k Hk. by apply Hfree; lia.
Qed.

Lemma pmm_alloc_pages_law s n p s' :
  pmm_wf s → 0 ≤ n → pmm_alloc_pages s n = (p, s') →
  pmm_wf s' ∧ same_config s s' ∧ bits_kept_outside s s' ∧
  ((p = 0 ∧ free_frames s' = free_frames s ∧
      (0 < n → ¬ ∃ i, ∀ k, i ≤ k < i + (2 * n - 1) → k ∈ free_frames s)) ∨
   (∃ i, p = i * PAGE_SIZE ∧ 0 < n ∧ (∀ k, i ≤ k < i + n → k ∈ free_frames s) ∧
      ∀ k, k ∈ free_frames s' ↔ k ∈ free_frames s ∧ ¬ (i ≤ k < i + n))).
Proof.
  intros Hwf Hn Heq.
  destruct (decide (n = 0)) as [->|H0];
    [injection Heq as <- <-; split_and!; [done..|by intros x|left; by split_and!]|].
  destruct (decide (n = 1)) as [->|H1].
  - destruct (pmm_alloc_page_law _ _ _ Hwf Heq)
      as (? & ? & ? & [(-> & He & He')|(i & -> & Hi & Hset)]); split_and!; try done.
    + left. rewrite He, He'. split_and!; [done..|]. intros _ (i & Hi).
      exact (not_elem_of_empty (C := gset Z) i (Hi i ltac:(lia))).
    + right. exists i. split_and!; [done..| |].
      * intros k Hk. by assert (k = i) as -> by lia.
      * intros k. rewrite Hset, elem_of_difference, elem_of_singleton.
        split; intros [? ?]; (split; [done|lia]).
  - destruct (pmm_alloc_pages_cases s n ltac:(lia) (wf_last s Hwf))
      as [(Hz & Hn1 & Hn2)|(a & Ha & Hle & Hrun & Ht)]; rewrite Heq in *; simplify_eq.
    + split_and!; [done..|by intros x|left]. split_and!; [done..|]. intros Hpos. eapply no_long_run; [exact Hpos|exact Hn1|exact Hn2].
    + symmetry in Ht.
      destruct (take_run_spec s a n p s' Hwf ltac:(lia) Ha Hle Hrun Ht)
        as (-> & ? & ? & ? & ? & ?).
      split_and!; [done..|]. right. exists a. split_and!; [done|lia|done|done].
Qed.

#[export] Instance pmm_allocator_laws : PageAllocatorLaws pmm.
Proof.
  split; cbn.
  - intros s Hwf. by destruct Hwf.
  - intros s i Hwf Hi. pose proof (proj1 (elem_of_free_frames s i) Hi) as [Hr _]. split; cbn.
    + destruct (decide (i = 0)) as [->|]; [by destruct (wf_page0 s Hwf)|lia].
    + intros x. by apply (wf_reserved s Hwf i x).
  - done.
  - done.
  - intros s m Hwf Hm.
    assert (free_frames (pmm_set_ram s m) = free_frames s) as Hset.
    { apply set_eq. intros k. rewrite !elem_of_free_frames. cbn.
      split; intros [Hk Hb]; (split; [done|]);
        pose proof (bitmap_test_ext s m k Hk Hm); congruence. }
    split; [|done]. destruct Hwf. split; rewrite ?Hset; done.
  - intros s p s' Hwf Heq. destruct (pmm_alloc_page_law _ _ _ Hwf Heq) as (? & ? & ? & ?).
    split_and!; [done|by apply same_config_layout|done|done].
  - intros s n p s' Hwf Hn Heq. destruct (pmm_alloc_pages_law _ _ _ _ Hwf Hn Heq) as (? & ? & ? & ?).
    split_and!; [done|by apply same_config_layout|done|done].
  - intros s i Hwf [Hi Hpriv]. cbn in *.
    destruct (pmm_free_page_spec s i Hwf Hi Hpriv) as (? & ? & ? & ?).
    split_and!; [done|by apply same_config_layout|done|done].
Qed.

(** ** Initialisation *)

(** The frames of a usable entry with page-aligned bounds. *)
Definition entry_frames (e : limine_memmap_entry) : gset Z :=
  if usable_entry e then list_to_set (seqZ (base e / PAGE_SIZE) (length_ e / PAGE_SIZE))
  else ∅.

Definition map_frames (l : list limine_memmap_entry) : gset Z := ⋃ (entry_frames <$> l).

Fixpoint disjoint_entries (l : list limine_memmap_entry) : Prop :=
  match l with
  | [] => True
  | e :: l' => entry_frames e ## map_frames l' ∧ disjoint_entries l'
  end.

(** What the loader promises of a usable entry: page-aligned, not page 0, below
    the address-space limit, which here is the top of managed memory. *)
Definition good_entry (top : Z) (e : limine_memmap_entry) : Prop :=
  usable_entry e = true →
  PAGE_SIZE ≤ base e ∧ 0 ≤ length_ e ∧ base e mod PAGE_SIZE = 0 ∧
  length_ e mod PAGE_SIZE = 0 ∧ base e + length_ e ≤ top * PAGE_SIZE.

Lemma elem_of_entry_frames e i :
  i ∈ entry_frames e ↔ usable_entry e = true ∧
    base e / PAGE_SIZE ≤ i < base e / PAGE_SIZE + length_ e / PAGE_SIZE.
Proof.
  unfold entry_frames. destruct (usable_entry e).
  - rewrite elem_of_list_to_set, elem_of_seqZ. naive_solver.
  - set_solver.
Qed.

(** What one bitmap sweep over an entry, or over several, has done. *)
Definition freed (F : gset Z) (s s' : pmm) : Prop :=
  same_config s s' ∧ bits_kept_outside s s' ∧
  pmm_last_allocated_index s' = pmm_last_allocated_index s ∧
  free_frames s' = F ∪ free_frames s ∧
  pmm_free_memory s' = u64 (pmm_free_memory s + PAGE_SIZE * Z.of_nat (size F)).

Lemma freed_refl s : 0 ≤ pmm_free_memory s < 2 ^ 64 → freed ∅ s s.
Proof.
  intros Hr. split; [done|]. split; [done|]. split; [done|]. split; [set_solver|].
  rewrite size_empty, Z.mul_0_r, Z.add_0_r. symmetry. by apply u64_small.
Qed.

Lemma freed_trans F G s1 s2 s3 :
  F ## G → freed F s1 s2 → freed G s2 s3 → freed (F ∪ G) s1 s3.
Proof.
  intros Hd (C1 & K1 & L1 & S1 & M1) (C2 & K2 & L2 & S2 & M2).
  split; [by etransitivity|]. split; [by eapply bits_kept_trans|].
  split; [congruence|]. split.
  - rewrite S2, S1. set_solver.
  - rewrite M2, M1. unfold u64. rewrite Zplus_mod_idemp_l.
    rewrite size_union by done. f_equal. lia.
Qed.

Lemma free_entry_step s i :
  0 ≤ i < pmm_highest_page s →
  freed {[i]} s (set_free_memory (bitmap_clear s i) (u64 (pmm_free_memory s + PAGE_SIZE))).
Proof.
  intros Hi. split; [done|]. split; [by apply bitmap_clear_kept|]. split; [done|].
  split; [by apply free_frames_clear|].
  cbn. by rewrite size_singleton, Z.mul_1_r.
Qed.

Lemma free_entry_spec s e :
  0 ≤ pmm_free_memory s < 2 ^ 64 → hhdm_offset s + pmm_highest_page s * PAGE_SIZE ≤ 2 ^ 64 →
  0 ≤ hhdm_offset s → good_entry (pmm_highest_page s) e →
  freed (entry_frames e) s (free_entry s e).
Proof.
  intros Hfm Htop Hoff Hgood. unfold free_entry, entry_frames.
  destruct (usable_entry e) eqn:Hu; [|by apply freed_refl].
  destruct (Hgood Hu) as (Hb & Hl & Hba & Hla & Ht). unfold PAGE_SIZE in *.
  replace ((length_ e + (4096 - 1)) / 4096) with (length_ e / 4096) by dlia.
  set (n := Z.to_nat (length_ e / 4096)).
  pose proof (for_each_ind (λ k s', freed (list_to_set (seqZ (base e / 4096) k)) s s') n 0
    (λ k s, let j := k * 4096 in
            let s := bitmap_clear s (u64 (base e + j) / 4096) in
            set_free_memory s (u64 (pmm_free_memory s + 4096))) s) as H.
  replace (0 + Z.of_nat n) with (length_ e / 4096) in H by (unfold n; dlia).
  apply H; [by apply freed_refl|]. clear H.
  intros k s' Hk IH. cbn zeta.
  assert (u64 (base e + k * 4096) / 4096 = base e / 4096 + k) as ->
    by (rewrite u64_small by dlia; dlia).
  replace (list_to_set (seqZ (base e / 4096) (k + 1)) : gset Z) with
    (list_to_set (seqZ (base e / 4096) k) ∪ {[base e / 4096 + k]} : gset Z).
  - eapply freed_trans; [|exact IH|].
    + intros x [_ Hx]%elem_of_list_to_set%elem_of_seqZ ->%elem_of_singleton. lia.
    + apply (free_entry_step s'). destruct IH as ((_ & _ & ->) & _). dlia.
  - apply set_eq. intros x.
    rewrite elem_of_union, !elem_of_list_to_set, elem_of_singleton, !elem_of_seqZ. lia.
Qed.

Lemma free_map_spec s l :
  0 ≤ pmm_free_memory s < 2 ^ 64 → hhdm_offset s + pmm_highest_page s * PAGE_SIZE ≤ 2 ^ 64 →
  0 ≤ hhdm_offset s → Forall (good_entry (pmm_highest_page s)) l → disjoint_entries l →
  freed (map_frames l) s (fold_left free_entry l s).
Proof.
  revert s. induction l as [|e l IH]; intros s Hfm Ht Ho Hg Hd; cbn [fold_left].
  - by apply freed_refl.
  - inversion Hg; subst. destruct Hd as [Hd1 Hd2].
    assert (freed (entry_frames e) s (free_entry s e)) as He by (by apply free_entry_spec).
    eapply (freed_trans (entry_frames e) (map_frames l)); [done|exact He|].
    destruct He as ((C1 & _ & C3) & _ & _ & _ & Hm). apply IH.
    + rewrite Hm. apply u64_range.
    + by rewrite C1, C3.
    + by rewrite C1.
    + by rewrite C3.
    + done.
Qed.

(** The host of the bitmap gives up its first bytes. *)
Definition shrink (bitmap_size : Z) (e : limine_memmap_entry) : limine_memmap_entry :=
  mk_entry (u64 (base e + bitmap_size)) (u64 (length_ e - bitmap_size)) (type e).

Definition hosts (bitmap_size : Z) (e : limine_memmap_entry) : Prop :=
  usable_entry e = true ∧ bitmap_size ≤ length_ e.

Lemma place_bitmap_found size l :
  Exists (hosts size) l →
  ∃ pre e post, l = pre ++ e :: post ∧ hosts size e ∧
    place_bitmap size l = (Some (base e), pre ++ shrink size e :: post).
Proof.
  induction l as [|e l IH]; intros Hex; [inversion Hex|]. cbn [place_bitmap].
  destruct (usable_entry e && (size <=? length_ e)) eqn:Hh.
  - apply andb_true_iff in Hh as [Hu Hle%Z.leb_le].
    by exists [], e, l.
  - destruct IH as (pre & e' & post & -> & Hh' & ->).
    + inversion Hex as [? ? [Hu Hle%Z.leb_le]|]; subst; [|done].
      by rewrite Hu, Hle in Hh.
    + by exists (e :: pre), e', post.
Qed.

Lemma highest_address_ub l e :
  e ∈ l → usable_entry e = true → u64 (base e + length_ e) ≤ highest_address l.
Proof.
  unfold highest_address.
  assert (∀ l h, h ≤ fold_left (λ h e, if usable_entry e then
     let top := u64 (base e + length_ e) in if h <? top then top else h else h) l h) as Hmono.
  { intros k. induction k as [|e' k IH]; intros h; cbn [fold_left]; [lia|].
    etransitivity; [|apply IH]. destruct (usable_entry e'); [|lia]. cbn zeta. bcase; lia. }
  generalize 0. induction l as [|e' l IH]; intros h Hin Hu; [set_solver|].
  apply elem_of_cons in Hin as [->|Hin]; cbn [fold_left]; [|by apply IH].
  etransitivity; [|apply Hmono]. rewrite Hu. cbn zeta. bcase; lia.
Qed.

Definition bitmap_frames (b size : Z) : gset Z :=
  list_to_set (seqZ (b / PAGE_SIZE) (size / PAGE_SIZE)).

Lemma shrink_frames top size e :
  good_entry top e → hosts size e → 0 ≤ size → size mod PAGE_SIZE = 0 →
  top * PAGE_SIZE < 2 ^ 64 →
  (∀ i, i ∈ entry_frames (shrink size e) ↔ i ∈ entry_frames e ∧ i ∉ bitmap_frames (base e) size) ∧
  PAGE_SIZE ≤ u64 (base e + size) ∧ good_entry top (shrink size e).
Proof.
  intros Hg [Hu Hle] Hs Hsm Ht. destruct (Hg Hu) as (Hb & Hl & Hba & Hla & Hbt).
  assert (PAGE_SIZE = 4096) as HP by done.
  assert (u64 (length_ e - size) = length_ e - size) as Hlen by (apply u64_small; lia).
  assert (u64 (base e + size) = base e + size) as Hbs by (apply u64_small; lia).
  split_and!; [|lia|].
  - intros i. rewrite !elem_of_entry_frames. unfold bitmap_frames.
    rewrite elem_of_list_to_set, elem_of_seqZ. cbn. rewrite Hlen, Hbs.
    change (usable_entry (shrink size e)) with (usable_entry e). rewrite HP in *.
    assert ((base e + size) / 4096 = base e / 4096 + size / 4096) as -> by dlia.
    assert ((length_ e - size) / 4096 = length_ e / 4096 - size / 4096) as -> by dlia.
    assert (0 ≤ size / 4096) by dlia. intuition lia.
  - intros _. cbn. rewrite Hlen, Hbs, HP in *. split_and!; [lia..|dlia|dlia|lia].
Qed.

Lemma map_frames_app l1 l2 : map_frames (l1 ++ l2) = map_frames l1 ∪ map_frames l2.
Proof. unfold map_frames. by rewrite fmap_app, union_list_app_L. Qed.

Lemma map_frames_cons e l : map_frames (e :: l) = entry_frames e ∪ map_frames l.
Proof. done. Qed.

Lemma disjoint_entries_mid pre e post :
  disjoint_entries (pre ++ e :: post) →
  entry_frames e ## map_frames (pre ++ post).
Proof.
  induction pre as [|a pre IH]; cbn [app disjoint_entries]; [by intros []|].
  intros [Ha Hd]. specialize (IH Hd). rewrite map_frames_app, map_frames_cons in Ha.
  rewrite map_frames_cons. set_solver.
Qed.

Lemma disjoint_entries_shrink pre e e' post :
  entry_frames e' ⊆ entry_frames e → disjoint_entries (pre ++ e :: post) →
  disjoint_entries (pre ++ e' :: post).
Proof.
  intros Hsub. induction pre as [|a pre IH]; cbn [app disjoint_entries].
  - intros [? ?]. split; [set_solver|done].
  - intros [Ha Hd]. split; [|by apply IH].
    rewrite map_frames_app, map_frames_cons in *. set_solver.
Qed.

Lemma testbit_255 k : 0 ≤ k < 8 → Z.testbit 255 k = true.
Proof. intros. change 255 with (Z.ones 8). by apply Z.ones_spec_low. Qed.

(** The memory with a bitmap of [size] bytes of ones has no free frame. *)
Lemma full_bitmap_empty off bm hi m size :
  0 ≤ size → hi ≤ 8 * size → free_frames (mk_pmm off bm 0 hi 0 (memset m bm 255 size)) = ∅.
Proof.
  intros Hs Hle. apply set_eq. intros i. rewrite elem_of_free_frames.
  split; [|set_solver]. cbn. intros [Hi Hb]. rewrite bitmap_test_spec in Hb by lia. cbn in Hb.
  rewrite rd8_memset, decide_True in Hb by dlia.
  change (u8 255) with 255 in Hb. rewrite testbit_255 in Hb by dlia. done.
Qed.

Lemma map_frames_page0 top l : Forall (good_entry top) l → 0 ∉ map_frames l.
Proof.
  induction 1 as [|e l Hg _ IH]; [apply not_elem_of_empty|]. rewrite map_frames_cons.
  intros [Hi|Hi]%elem_of_union; [|done]. apply elem_of_entry_frames in Hi as [Hu Hr].
  destruct (Hg Hu) as (Hb & _). unfold PAGE_SIZE in *. dlia.
Qed.

(** The invariant holds once the sweep has freed [F]. *)
Lemma freed_wf F off bm hi m size s :
  freed F (mk_pmm off bm 0 hi 0 (memset m bm 255 size)) s →
  0 ≤ size → hi ≤ 8 * size → 0 ≤ off → 0 < hi → off + hi * PAGE_SIZE ≤ 2 ^ 64 → 0 ∉ F →
  (∀ i x, i ∈ F → in_page off i x → ¬ (bm ≤ x < bm + (hi + 7) / 8)) →
  pmm_wf s ∧ free_frames s = F.
Proof.
  intros ((C1 & C2 & C3) & _ & Hl & Hset & Hm) Hs Hle Ho Hhi Ht H0 Hres.
  cbn -[free_frames u64] in *.
  rewrite full_bitmap_empty, union_empty_r_L in Hset by done.
  split; [|done].
  split; rewrite ?Hset, ?C1, ?C3, ?Hl; try done; try lia.
  - intros i x Hi Hx. unfold in_bitmap. rewrite C2, C3. by apply Hres with i.
  - rewrite Hm, Z.add_0_l.
    pose proof (free_frames_size_lt s) as Hlt. rewrite Hset, C3 in Hlt.
    specialize (Hlt H0 Hhi). unfold PAGE_SIZE in *. rewrite u64_small; lia.
Qed.

Section Init.
Context (off : Z) (l : list limine_memmap_entry) (m : mem).
Let hi := highest_address l / PAGE_SIZE.
Let size := hi / 8.

(** The memory maps on which the initialisation is exact: the bitmap fills
    whole pages, so what remains of its host is page-aligned again. *)
Record boot_map_ok : Prop := {
  bm_off : 0 < off;
  bm_top : off + hi * PAGE_SIZE ≤ 2 ^ 64;
  bm_good : Forall (good_entry hi) l;
  bm_disjoint : disjoint_entries l;
  bm_pos : 0 < hi;
  bm_exact : hi mod (8 * PAGE_SIZE) = 0;
  bm_host : Exists (hosts size) l;
}.

Lemma pmm_init_correct :
  boot_map_ok →
  ∃ s e, e ∈ l ∧ hosts size e ∧ pmm_init (Some off) (Some l) m = Some s ∧
    pmm_wf s ∧ hhdm_offset s = off ∧ pmm_bitmap s = off + base e ∧ pmm_highest_page s = hi ∧
    (∀ i, i ∈ free_frames s ↔ i ∈ map_frames l ∧ i ∉ bitmap_frames (base e) size).
Proof.
  intros [Hoff Htop Hgood Hdis Hpos Hexact Hhost].
  assert (PAGE_SIZE = 4096) as HP by done.
  assert (0 < size ∧ size mod PAGE_SIZE = 0 ∧ hi = 8 * size) as (Hs & Hsm & Hhs)
    by (unfold size; rewrite HP in *; dlia).
  destruct (place_bitmap_found size l Hhost) as (pre & e & post & Hl & Hh & Hpl).
  assert (e ∈ l) as Hin by (rewrite Hl; apply elem_of_app; right; by left).
  assert (good_entry hi e) as Hge by (rewrite List.Forall_forall in Hgood; apply Hgood, list_elem_of_In, Hin).
  destruct (shrink_frames hi size e Hge Hh ltac:(lia) Hsm ltac:(lia)) as (Hfr & _ & Hgs).
  destruct (Hge (proj1 Hh)) as (Hb & Hlen & Hba & Hla & Hbt).
  assert (u64 (base e + off) = off + base e) as Hbm.
  { rewrite Z.add_comm. apply u64_small. destruct Hh. lia. }
  assert (Forall (good_entry hi) (pre ++ shrink size e :: post)) as Hgood'.
  { rewrite Hl in Hgood. apply Forall_app in Hgood as [? Hg2]. inversion Hg2; subst.
    apply Forall_app; split; [done|]. by constructor. }
  assert (entry_frames (shrink size e) ⊆ entry_frames e) as Hsub
    by (intros i Hi; by apply Hfr).
  set (s0 := mk_pmm off (off + base e) 0 hi 0 (memset m (off + base e) 255 size)).
  set (s := fold_left free_entry (pre ++ shrink size e :: post) s0).
  assert (freed (map_frames (pre ++ shrink size e :: post)) s0 s) as Hfreed.
  { apply free_map_spec; [done|done|cbn; lia|done|].
    apply (disjoint_entries_shrink pre e); [done|by rewrite <- Hl]. }
  assert (∀ i, i ∈ map_frames (pre ++ shrink size e :: post) ↔
               i ∈ map_frames l ∧ i ∉ bitmap_frames (base e) size) as Hset.
  { intros i. rewrite Hl, !map_frames_app, !map_frames_cons, !elem_of_union, Hfr.
    assert (i ∈ bitmap_frames (base e) size → i ∈ entry_frames e) as Hbe.
    { unfold bitmap_frames. rewrite elem_of_list_to_set, elem_of_seqZ, elem_of_entry_frames.
      destruct Hh as [-> Hle]. rewrite HP in *. split; [done|dlia]. }
    rewrite Hl in Hdis. pose proof (disjoint_entries_mid _ _ _ Hdis) as Hd.
    rewrite map_frames_app in Hd. set_solver. }
  exists s, e. split; [done|]. split; [done|]. split.
  { unfold pmm_init. fold hi. fold size.
    destruct (Z.eqb_spec size 0); [lia|]. rewrite Hpl. cbv beta iota zeta.
    by rewrite Hbm. }
  destruct (freed_wf _ off (off + base e) hi m size s Hfreed) as [Hwf Heq]; try (done || lia).
  - intros H0. apply Hset in H0 as [H0 _]. by apply (map_frames_page0 hi) in H0.
  - intros i x [_ Hnot]%Hset Hx Hbx. apply Hnot. unfold bitmap_frames, in_page in *.
    rewrite elem_of_list_to_set, elem_of_seqZ. rewrite HP in *. dlia.
  - destruct Hfreed as ((C1 & C2 & C3) & _). rewrite Heq. by split_and!.
Qed.
End Init.

(** Where the sizes do not work out: the sweep starts inside the last page the
    bitmap reaches into, and clears that page's bit. *)
Lemma clear_keeps_clear s n lo i f g :
  0 ≤ i → bitmap_test s i = false → (∀ k, 0 ≤ f k) →
  bitmap_test (for_each n lo (λ k s, set_free_memory (bitmap_clear s (f k)) (g k s)) s) i = false.
Proof.
  intros Hi Hb Hf.
  apply (for_each_ind (λ _ s', bitmap_test s' i = false)); [done|].
  intros j s' _ Hs'. change (bitmap_test (bitmap_clear s' (f j)) i = false).
  by rewrite bitmap_test_clear, Hs' by done.
Qed.

Lemma free_entry_keeps_clear s e i :
  0 ≤ i → bitmap_test s i = false → bitmap_test (free_entry s e) i = false.
Proof.
  intros Hi Hb. unfold free_entry. destruct (usable_entry e); [|done].
  apply (clear_keeps_clear s _ _ i (λ k, u64 (base e + k * PAGE_SIZE) / PAGE_SIZE)); [done..|].
  intros k. apply Z.div_pos; [apply u64_range|done].
Qed.

Lemma free_map_keeps_clear l s i :
  0 ≤ i → bitmap_test s i = false → bitmap_test (fold_left free_entry l s) i = false.
Proof.
  intros Hi. revert s. induction l as [|e l IH]; intros s Hb; cbn; [done|].
  by apply IH, free_entry_keeps_clear.
Qed.

Lemma free_entry_clears_first s e :
  usable_entry e = true → 0 < length_ e → 0 ≤ base e < 2 ^ 64 →
  bitmap_test (free_entry s e) (base e / PAGE_SIZE) = false.
Proof.
  intros Hu Hl Hb. unfold free_entry. rewrite Hu.
  assert (PAGE_SIZE = 4096) as HP by done. rewrite HP in *.
  destruct (Z.to_nat ((length_ e + (4096 - 1)) / 4096)) as [|n] eqn:Hn;
    [exfalso; dlia|]. cbn [for_each].
  set (s1 := set_free_memory _ _).
  assert (bitmap_test s1 (base e / 4096) = false) as H1.
  { unfold s1. rewrite Z.add_0_r, u64_small by lia.
    change (bitmap_test (bitmap_clear s (base e / 4096)) (base e / 4096) = false).
    rewrite bitmap_test_clear, Z.eqb_refl by dlia. apply andb_false_r. }
  apply (clear_keeps_clear s1 _ _ _ (λ k, u64 (base e + k * 4096) / 4096)); [dlia|done|].
  intros k. apply Z.div_pos; [apply u64_range|done].
Qed.

(** The sweep does not move the bitmap. *)
Lemma bitmap_free_entry s e : pmm_bitmap (free_entry s e) = pmm_bitmap s.
Proof.
  unfold free_entry. destruct (usable_entry e); [|done].
  apply (for_each_ind (λ _ s', pmm_bitmap s' = pmm_bitmap s)); [done|]. by intros j s' _ <-.
Qed.

Lemma bitmap_fold l s : pmm_bitmap (fold_left free_entry l s) = pmm_bitmap s.
Proof.
  revert s. induction l as [|e l IH]; intros s; cbn; [done|].
  by rewrite IH, bitmap_free_entry.
Qed.

(** ** Properties *)

(** C14. The page allocator is a next-fit allocator over the set of free
    frames: from a well-formed state it returns NULL, leaving the state alone,
    exactly when no frame is free; otherwise it returns the next free frame
    from the cursor on (wrapping around), which is no longer free afterwards,
    every other frame is as before, the byte counter drops by one page, memory
    outside the bitmap is untouched and the state is well-formed again. *)
Theorem alloc_page_correct s p s' :
  pmm_wf s → pmm_alloc_page s = (p, s') →
  pmm_wf s' ∧ bits_kept_outside s s' ∧
  (p = 0 ∧ free_frames s = ∅ ∧ s' = s ∨
   p ≠ 0 ∧ ∃ i, p = i * PAGE_SIZE ∧ next_fit s i ∧
     free_frames s' = free_frames s ∖ {[i]} ∧
     pmm_free_memory s' = pmm_free_memory s - PAGE_SIZE ∧
     pmm_last_allocated_index s' = i).
Proof.
  intros Hwf Heq.
  destruct (pmm_alloc_page_spec _ _ _ Hwf Heq) as [(-> & -> & He)|(i & Hn & Ht)].
  { split_and!; [done|by intros x|by left]. }
  pose proof (proj1 Hn) as Hi.
  destruct (take_page_spec s Hwf _ _ _ Hi Ht) as (-> & Hwf' & _ & ? & Hset & ?).
  split_and!; [done..|]. right.
  pose proof (free_set_usable s i Hwf Hi) as [Hr _]. cbn in Hr. unfold PAGE_SIZE.
  split; [lia|]. exists i. split_and!; [done..| |done].
  rewrite (wf_free_memory _ Hwf'), (wf_free_memory _ Hwf), Hset, size_remove by done.
  unfold PAGE_SIZE. lia.
Qed.

(** Contiguous allocation of two or more frames: the result is either a run
    of [count] frames that were all free and are now the only ones taken, or
    NULL with the state unchanged, and NULL is returned only when neither the
    part from the cursor on nor the part before it holds such a run. *)
Theorem alloc_pages_correct s count p s' :
  pmm_wf s → 1 < count → pmm_alloc_pages s count = (p, s') →
  pmm_wf s' ∧ bits_kept_outside s s' ∧
  (p = 0 ∧ s' = s ∧
     (∀ a, pmm_last_allocated_index s ≤ a → a + count ≤ pmm_highest_page s →
           ¬ run_free s a count) ∧
     (∀ a, 0 ≤ a → a + count ≤ pmm_last_allocated_index s → ¬ run_free s a count) ∨
   ∃ a, p = a * PAGE_SIZE ∧ p ≠ 0 ∧
     (∀ k, a ≤ k < a + count → k ∈ free_frames s) ∧
     ∀ k, k ∈ free_frames s' ↔ k ∈ free_frames s ∧ ¬ (a ≤ k < a + count)).
Proof.
  intros Hwf Hc Heq.
  destruct (pmm_alloc_pages_cases s count Hc (wf_last s Hwf))
    as [(Hz & Hn1 & Hn2)|(a & Ha & Hle & Hrun & Ht)].
  - rewrite Heq in Hz. simplify_eq. split_and!; [done|by intros x|by left].
  - rewrite Heq in Ht. symmetry in Ht.
    destruct (take_run_spec s a count p s' Hwf ltac:(lia) Ha Hle Hrun Ht)
      as (-> & ? & ? & ? & Hin & ?).
    split_and!; [done..|]. right. exists a. split_and!; [done| |done..].
    pose proof (free_set_usable s a Hwf (Hin a ltac:(lia))) as [Hr _]. cbn in Hr.
    unfold PAGE_SIZE. lia.
Qed.

(** Freeing the page just allocated restores the set of free frames and
    the byte counter, and freeing it a second time changes nothing. *)
Theorem alloc_free_roundtrip s p s' :
  pmm_wf s → pmm_alloc_page s = (p, s') → p ≠ 0 →
  free_frames (pmm_free_page s' p) = free_frames s ∧
  pmm_free_memory (pmm_free_page s' p) = pmm_free_memory s ∧
  pmm_free_page (pmm_free_page s' p) p = pmm_free_page s' p.
Proof.
  intros Hwf Heq Hp.
  destruct (pmm_alloc_page_law _ _ _ Hwf Heq)
    as (Hwf' & Hcfg & _ & [(? & _)|(i & -> & Hi & Hset)]); [done|].
  pose proof (free_set_usable s i Hwf Hi) as [Hr Hpriv]. cbn in Hr, Hpriv.
  destruct Hcfg as (C1 & C2 & C3).
  destruct (pmm_free_page_spec s' i Hwf') as (Hwf2 & Hc2 & _ & Hset2).
  { by rewrite C3. }
  { intros x. rewrite C1, (in_bitmap_config s s') by done. apply Hpriv. }
  assert (free_frames (pmm_free_page s' (i * PAGE_SIZE)) = free_frames s) as Hall.
  { rewrite Hset2, Hset. symmetry. apply union_difference_singleton_L. done. }
  split; [done|]. split; [by rewrite (wf_free_memory _ Hwf2), Hall, <- (wf_free_memory _ Hwf)|].
  unfold pmm_free_page at 1. rewrite (Z.div_mul i PAGE_SIZE) by done.
  rewrite <- Hall in Hi. apply elem_of_free_frames in Hi as [_ Hb]. by rewrite Hb.
Qed.

(** C26. Initialisation is exact on memory maps where the bitmap fills whole
    pages: the free frames are those of the usable regions less the ones the
    bitmap occupies, the counter agrees, and the state is well-formed. *)
Theorem pmm_init_exact off l m :
  boot_map_ok off l →
  ∃ s e, e ∈ l ∧ pmm_init (Some off) (Some l) m = Some s ∧ pmm_wf s ∧
    pmm_bitmap s = off + base e ∧
    ∀ i, i ∈ free_frames s ↔
      i ∈ map_frames l ∧
      i ∉ bitmap_frames (base e) (highest_address l / PAGE_SIZE / 8).
Proof.
  intros Hok. destruct (pmm_init_correct off l m Hok) as (s & e & ? & ? & ? & ? & ? & ? & ? & ?).
  by exists s, e.
Qed.

(** C32. Where the bitmap does not fill whole pages, the initialisation hands
    its last page out: that frame is marked free although the bitmap's own
    bytes lie in it, so a later allocation can return it. *)
Theorem pmm_init_exposes_bitmap off l m pre e post :
  let size := highest_address l / PAGE_SIZE / 8 in
  0 < size → place_bitmap size l = (Some (base e), pre ++ shrink size e :: post) →
  usable_entry e = true → size < length_ e < 2 ^ 64 → 0 ≤ base e →
  base e mod PAGE_SIZE = 0 → size mod PAGE_SIZE ≠ 0 → base e + size < 2 ^ 64 →
  0 < off → off + base e < 2 ^ 64 →
  ∃ s, pmm_init (Some off) (Some l) m = Some s ∧ pmm_bitmap s = off + base e ∧
    let i := (base e + size) / PAGE_SIZE in
    bitmap_test s i = false ∧ in_page off i (pmm_bitmap s + size - 1).
Proof.
  intros size Hs Hpl Hu Hle Hb Hba Hsz Hw Ho Hob. unfold pmm_init. fold size.
  destruct (Z.eqb_spec size 0); [lia|]. rewrite Hpl. eexists. split; [done|].
  assert (u64 (base e + off) = off + base e) as -> by (rewrite u64_small; lia).
  rewrite fold_left_app. cbn [fold_left].
  split; [by rewrite bitmap_fold, bitmap_free_entry, bitmap_fold|]. split.
  - apply free_map_keeps_clear; [unfold PAGE_SIZE in *; dlia|].
    assert (base e + size = base (shrink size e)) as -> by (cbn; rewrite u64_small; lia).
    apply free_entry_clears_first; cbn; [done|rewrite u64_small; lia|apply u64_range].
  - rewrite bitmap_fold, bitmap_free_entry, bitmap_fold. cbn [pmm_bitmap].
    unfold in_page, PAGE_SIZE in *. dlia.
Qed.

(** ** Concrete states *)

(** Eight frames; the bitmap is the first byte of frame 0, which is in use. *)
Definition demo_pmm : pmm :=
  mk_pmm 140737488355328 140737488355328 28672 8 5 {[ 140737488355328 := 1 ]}.

Lemma demo_free i : i ∈ free_frames demo_pmm ↔ 1 ≤ i < 8.
Proof.
  rewrite elem_of_free_frames. cbn [pmm_highest_page demo_pmm]. split.
  - intros [Hi Hb]. destruct (decide (i = 0)) as [->|]; [done|lia].
  - intros Hi. split; [lia|].
    assert (i = 1 ∨ i = 2 ∨ i = 3 ∨ i = 4 ∨ i = 5 ∨ i = 6 ∨ i = 7) as Hc by lia.
    by repeat destruct Hc as [->|Hc]; subst.
Qed.

Lemma demo_pmm_wf : pmm_wf demo_pmm.
Proof.
  split; [done|done|done|rewrite demo_free; lia| |done].
  intros i x Hi%demo_free. unfold in_page, in_bitmap, PAGE_SIZE. cbn.
  change ((8 + 7) / 8) with 1. lia.
Qed.

Definition demo_map : list limine_memmap_entry :=
  [mk_entry 0 4096 1; mk_entry 4096 (32767 * 4096) LIMINE_MEMMAP_USABLE].

Definition demo_unaligned_map : list limine_memmap_entry :=
  [mk_entry 4096 262144 LIMINE_MEMMAP_USABLE].

Lemma alloc_page_correct_witness :
  pmm_wf demo_pmm ∧ next_fit demo_pmm 5.
Proof.
  split; [exact demo_pmm_wf|].
  destruct (alloc_page_correct demo_pmm (5 * PAGE_SIZE) (pmm_alloc_page demo_pmm).2
    demo_pmm_wf eq_refl) as (_ & _ & [(? & _)|(_ & i & Hi & Hn & _)]); [done|].
  unfold PAGE_SIZE in Hi. assert (i = 5) as -> by lia. exact Hn.
Defined.

Lemma alloc_pages_correct_witness :
  (pmm_alloc_pages demo_pmm 4).1 = 1 * PAGE_SIZE ∧ pmm_wf (pmm_alloc_pages demo_pmm 4).2.
Proof.
  split; [vm_compute; reflexivity|].
  apply (alloc_pages_correct demo_pmm 4 (1 * PAGE_SIZE) _ demo_pmm_wf); [lia|reflexivity].
Defined.

Lemma alloc_free_roundtrip_witness :
  free_frames (pmm_free_page (pmm_alloc_page demo_pmm).2 (5 * PAGE_SIZE)) = free_frames demo_pmm.
Proof.
  apply (alloc_free_roundtrip demo_pmm (5 * PAGE_SIZE)); [exact demo_pmm_wf|reflexivity|done].
Defined.

Lemma demo_map_ok : boot_map_ok 140737488355328 demo_map.
Proof.
  split; [done|vm_compute; congruence| | |done|done|].
  - repeat constructor; intros Hu; done.
  - split; [apply disjoint_empty_l|]. split; [apply disjoint_empty_r|done].
  - right. left. split; [done|vm_compute; congruence].
Qed.

Lemma pmm_init_exact_witness :
  ∃ s, pmm_init (Some 140737488355328) (Some demo_map) ∅ = Some s ∧ pmm_wf s.
Proof.
  destruct (pmm_init_exact _ _ ∅ demo_map_ok) as (s & e & _ & Hs & Hwf & _).
  exists s. split; assumption.
Defined.

Lemma pmm_init_exposes_bitmap_witness :
  ∃ s, pmm_init (Some 140737488355328) (Some demo_unaligned_map) ∅ = Some s ∧
       bitmap_test s 1 = false ∧ in_page 140737488355328 1 (pmm_bitmap s + 8 - 1).
Proof.
  destruct (pmm_init_exposes_bitmap 140737488355328 demo_unaligned_map ∅ []
    (mk_entry 4096 262144 0) [] ltac:(reflexivity) ltac:(vm_compute; reflexivity)
    ltac:(reflexivity) ltac:(split; reflexivity) ltac:(discriminate) ltac:(reflexivity)
    ltac:(discriminate) ltac:(reflexivity) ltac:(reflexivity) ltac:(reflexivity))
    as (s & Hs & _ & Hb & Hp).
  exists s. split; [exact Hs|split; [exact Hb|exact Hp]].
Defined.
