(* ===== verification/Heap.v ===== *)
(** The kernel heap (src/kernel/heap.c): a bump allocator over the page
    allocator, proved against the interface of Frames.v.

    [heap] holds the file's two statics and the allocator's state; [kfree]
    does nothing, as in the source. The invariant [heap_inv] also lists the
    blocks handed out so far. *)

From S2P Require Export Frames.

Record heap (St : Type) := mk_heap {
  current_page : Z;
  current_page_offset : Z;
  pages : St;
}.
Arguments mk_heap {St} _ _ _.
Arguments current_page {St} _.
Arguments current_page_offset {St} _.
Arguments pages {St} _.

Section Heap.
Context {St : Type} `{PageAllocator St}.

(** Nothing to do: the first [kmalloc] takes the first page. *)
Definition heap_init (a : St) : heap St := mk_heap 0 0 a.

(** [size = (size + 7) & ~7] in 64 bits. *)
Definition align8 (size : Z) : Z := u64 (size + 7) .& ~~ 7.

(** [for (i = 0; i < n; i++) ptr[i] = 0]. *)
Definition zero_fill (m : mem) (ptr n : Z) : mem :=
  for_each (Z.to_nat n) 0 (λ i m, wr8 m (ptr + i) 0) m.

Definition kmalloc (h : heap St) (size : Z) : Z * heap St :=
  if size =? 0 then (0, h)
  else
    let size := align8 size in
    if 4096 <? size then
      let n := u64 (size + 4095) / 4096 in
      let '(phys, a) := alloc_pages (pages h) n in
      let h := mk_heap (current_page h) (current_page_offset h) a in
      if phys =? 0 then (0, h)
      else
        let ptr := phystokv a phys in
        (ptr, mk_heap (current_page h) (current_page_offset h)
                (set_ram a (zero_fill (ram a) ptr (n * 4096))))
    else if (current_page h =? 0) || (4096 <? u64 (current_page_offset h + size)) then
      let '(phys, a) := alloc_page (pages h) in
      if phys =? 0 then (0, mk_heap (current_page h) (current_page_offset h) a)
      else
        let page := phystokv a phys in
        (page, mk_heap page size (set_ram a (zero_fill (ram a) page 4096)))
    else
      (current_page h + current_page_offset h,
       mk_heap (current_page h) (u64 (current_page_offset h + size)) (pages h)).

Definition kfree (h : heap St) (ptr : Z) : heap St := h.

End Heap.

(** ** Invariant *)

Section HeapInv.
Context {St : Type} `{PageAllocatorLaws St}.

Implicit Types (h : heap St) (a : St).

(** A block is an address and a size in bytes. *)
Abbreviation block := (Z * Z)%type.

Definition in_block (b : block) (x : Z) : Prop := b.1 ≤ x < b.1 + b.2.
Definition apart (b c : block) : Prop := ∀ x, in_block b x → ¬ in_block c x.

(** Frame [i] belongs to the heap: it exists and the allocator gave it out. *)
Definition owned (a : St) (i : Z) : Prop := usable a i ∧ i ∉ free_set a.

(** The block lies in owned frames, clear of the unused part of the current
    page. *)
Definition block_ok h (b : block) : Prop :=
  0 < b.2 ∧
  ∀ x, in_block b x →
    (∃ i, owned (pages h) i ∧ in_page (hhdm (pages h)) i x) ∧
    ¬ (current_page h ≠ 0 ∧
       current_page h + current_page_offset h ≤ x < current_page h + 4096).

Record heap_inv h (blocks : list block) : Prop := {
  hi_alloc : alloc_wf (pages h);
  hi_hhdm : 0 < hhdm (pages h) ∧ hhdm (pages h) mod 8 = 0;
  hi_offset : 0 ≤ current_page_offset h ≤ 4096 ∧ current_page_offset h mod 8 = 0;
  hi_page : current_page h ≠ 0 →
    ∃ i, owned (pages h) i ∧ current_page h = hhdm (pages h) + i * PAGE_SIZE;
  (* what is left of the current page is still zero *)
  hi_zero x : current_page h ≠ 0 →
    current_page h + current_page_offset h ≤ x < current_page h + 4096 →
    rd8 (ram (pages h)) x = 0;
  hi_blocks : Forall (block_ok h) blocks;
  hi_apart : ForallOrdPairs apart blocks;
}.

Lemma align8_spec size :
  0 < size ≤ 2 ^ 64 - 8 →
  size ≤ align8 size < size + 8 ∧ align8 size mod 8 = 0 ∧ align8 size < 2 ^ 64.
Proof.
  intros Hs. unfold align8. rewrite u64_small by lia.
  change (~~ 7) with (~~ (Z.ones 3)). rewrite land_lnot_ones by lia. change (2 ^ 3) with 8.
  repeat split; dlia.
Qed.

Lemma align8_wraps size : 2 ^ 64 - 7 ≤ size < 2 ^ 64 → align8 size = 0.
Proof.
  intros Hs. unfold align8. assert (u64 (size + 7) = size + 7 - 2 ^ 64) as ->.
  { unfold u64. rewrite <- (Z.mod_small (size + 7 - 2 ^ 64) (2 ^ 64)) by lia.
    rewrite <- (Z.mod_add (size + 7 - 2 ^ 64) 1) by lia. f_equal. lia. }
  change (~~ 7) with (~~ (Z.ones 3)). rewrite land_lnot_ones by lia. change (2 ^ 3) with 8. dlia.
Qed.

Lemma rd8_zero_fill m ptr n x :
  0 ≤ n →
  rd8 (zero_fill m ptr n) x = if decide (ptr ≤ x < ptr + n) then 0 else rd8 m x.
Proof. intros Hn. exact (rd8_memset m ptr 0 n x Hn). Qed.

(** A fresh frame lies apart from everything the heap owns. *)
Lemma owned_not_free a i j x :
  owned a i → j ∈ free_set a → in_page (hhdm a) i x → ¬ in_page (hhdm a) j x.
Proof.
  intros [_ Hi] Hj Hx Hy. pose proof (in_page_inj _ _ _ _ Hx Hy) as ->. done.
Qed.

(** What a client keeps when the allocator takes frames and the client then
    writes the pages it got: owned frames, and every byte outside them. *)
Lemma owned_mono a a' i :
  same_layout a a' → free_set a' ⊆ free_set a → owned a i → owned a' i.
Proof.
  intros Hl Hsub [Hu Hf]. split; [by rewrite <- Hl|]. set_solver.
Qed.

(** The blocks stay valid in a later state of the same heap whose unused part
    of the current page is free of them. *)
Lemma block_ok_mono h h' b :
  same_layout (pages h) (pages h') → free_set (pages h') ⊆ free_set (pages h) →
  (∀ x, in_block b x → current_page h' ≠ 0 →
     ¬ (current_page h' + current_page_offset h' ≤ x < current_page h' + 4096)) →
  block_ok h b → block_ok h' b.
Proof.
  intros Hl Hsub Hcur [Hpos Hb]. split; [done|]. intros x Hx.
  destruct (Hb x Hx) as [(i & Ho & Hp) _]. split.
  - exists i. split; [by eapply owned_mono|]. by destruct Hl as [-> _].
  - intros [Hnz Hr]. by apply (Hcur x Hx Hnz).
Qed.

(** [a2] is [a] after frames [i .. i+n) were taken and filled with zeros. *)
Definition grabbed (a a2 : St) (i n : Z) : Prop :=
  alloc_wf a2 ∧ same_layout a a2 ∧ 0 < n ∧
  (∀ k, i ≤ k < i + n → k ∈ free_set a) ∧
  (∀ k, k ∈ free_set a2 ↔ k ∈ free_set a ∧ ¬ (i ≤ k < i + n)) ∧
  ∀ x, ¬ private a x → rd8 (ram a2) x =
    if decide (hhdm a + i * PAGE_SIZE ≤ x < hhdm a + (i + n) * PAGE_SIZE)
    then 0 else rd8 (ram a) x.

Lemma grab_spec a a1 i n :
  alloc_wf a → alloc_wf a1 → same_layout a a1 → ram_kept a a1 → 0 < n →
  (∀ k, i ≤ k < i + n → k ∈ free_set a) →
  (∀ k, k ∈ free_set a1 ↔ k ∈ free_set a ∧ ¬ (i ≤ k < i + n)) →
  phystokv a1 (i * PAGE_SIZE) = hhdm a + i * PAGE_SIZE ∧
  grabbed a (set_ram a1 (zero_fill (ram a1) (hhdm a + i * PAGE_SIZE) (n * 4096))) i n.
Proof.
  intros Hwf Hwf1 Hl Hk Hn Hin Hset.
  assert (∀ k, i ≤ k < i + n → usable a k) as Hu.
  { intros k Hk'. by apply free_set_usable, Hin. }
  destruct (Hu i ltac:(lia)) as [Hi _]. pose proof Hl as (Hh & Hf & Hp).
  split; [rewrite phystokv_small, Hh by (try rewrite Hf; done || lia); done|].
  set (m := zero_fill _ _ _).
  assert (∀ x, rd8 m x = if decide (hhdm a + i * PAGE_SIZE ≤ x < hhdm a + (i + n) * PAGE_SIZE)
                         then 0 else rd8 (ram a1) x) as Hm.
  { intros x. unfold m. rewrite rd8_zero_fill by lia. unfold PAGE_SIZE in *.
    repeat case_decide; try done; lia. }
  assert (∀ x, private a1 x → rd8 m x = rd8 (ram a1) x) as Hpriv.
  { intros x Hx. rewrite Hm. case_decide as Hr; [|done]. exfalso.
    destruct (Hu ((x - hhdm a) / PAGE_SIZE)) as [_ Hno]; [unfold PAGE_SIZE in *; dlia|].
    apply (Hno x); [unfold in_page, PAGE_SIZE in *; dlia|]. by apply Hp. }
  destruct (set_ram_wf a1 m Hwf1 Hpriv) as [Hwf2 Hfs].
  split_and!; [done|by etransitivity; [exact Hl|apply set_ram_layout]|done|done| |].
  - intros k. by rewrite Hfs, Hset.
  - intros x Hx. rewrite ram_set_ram, Hm. case_decide; [done|]. by apply Hk.
Qed.

(** Old blocks neither meet the new frames nor change. *)
Lemma grabbed_apart h a2 i n b :
  grabbed (pages h) a2 i n → block_ok h b →
  ∀ x, in_block b x →
    ¬ (hhdm (pages h) + i * PAGE_SIZE ≤ x < hhdm (pages h) + (i + n) * PAGE_SIZE) ∧
    rd8 (ram a2) x = rd8 (ram (pages h)) x.
Proof.
  intros (_ & _ & _ & Hin & _ & Hram) [_ Hb] x Hx.
  destruct (Hb x Hx) as [(j & [Hu Hj] & Hp) _].
  assert (¬ (hhdm (pages h) + i * PAGE_SIZE ≤ x < hhdm (pages h) + (i + n) * PAGE_SIZE)) as Hno.
  { intros Hr. apply Hj, Hin. unfold in_page, PAGE_SIZE in *. lia. }
  split; [done|]. rewrite Hram, decide_False by (try done; by apply (proj2 Hu)). done.
Qed.

(** The current page after a grab: unchanged, or the new frame from the new
    block's end on. *)
Definition next_page h i n sz cp off : Prop :=
  (cp = current_page h ∧ off = current_page_offset h) ∨
  (cp = hhdm (pages h) + i * PAGE_SIZE ∧ off = sz ∧ n = 1 ∧ sz mod 8 = 0).

Section Grab.
Context h a2 i n sz cp off blocks
  (Hinv : heap_inv h blocks) (Hg : grabbed (pages h) a2 i n)
  (Hsz : 0 < sz ≤ n * PAGE_SIZE) (Hnext : next_page h i n sz cp off).
Let p := hhdm (pages h) + i * PAGE_SIZE.

Lemma grab_frame_owned k : i ≤ k < i + n → owned a2 k.
Proof.
  intros Hk. destruct Hg as (_ & Hl & _ & Hin & Hset & _). split.
  - rewrite <- Hl. apply free_set_usable; [apply Hinv|by apply Hin].
  - rewrite Hset. intros [_ Hno]. by apply Hno.
Qed.

Lemma grab_free_subset : free_set a2 ⊆ free_set (pages h).
Proof. destruct Hg as (_ & _ & _ & _ & Hset & _). intros k Hk. by apply Hset. Qed.

(** The unused part of the old current page is not among the new frames. *)
Lemma grab_old_page x :
  current_page h ≠ 0 → current_page h ≤ x < current_page h + 4096 →
  ¬ (p ≤ x < p + n * PAGE_SIZE) ∧ rd8 (ram a2) x = rd8 (ram (pages h)) x.
Proof.
  intros Hnz Hx. destruct (hi_page _ _ Hinv Hnz) as (k & [Hu Hk] & Hcp).
  destruct Hg as (_ & _ & _ & Hin & _ & Hram).
  assert (in_page (hhdm (pages h)) k x) as Hp by (unfold in_page, PAGE_SIZE in *; lia).
  assert (¬ (p ≤ x < p + n * PAGE_SIZE)) as Hno.
  { intros Hr. apply Hk, Hin. unfold p, in_page, PAGE_SIZE in *. lia. }
  split; [done|]. rewrite Hram by (by apply (proj2 Hu)).
  rewrite decide_False; [done|]. unfold p in Hno. lia.
Qed.

Lemma grab_block_ok : block_ok (mk_heap cp off a2) (p, sz).
Proof.
  split; [cbn; lia|]. intros x Hx. unfold in_block in Hx. cbn in Hx |- *.
  pose proof Hg as (_ & (Hh & _) & _). split.
  - exists ((x - hhdm (pages h)) / PAGE_SIZE).
    split; [apply grab_frame_owned; unfold p, PAGE_SIZE in *; dlia|].
    rewrite Hh. unfold in_page, p, PAGE_SIZE in *. dlia.
  - intros [Hnz Hr]. pose proof (hi_offset _ _ Hinv).
    destruct Hnext as [[Hc Ho']|(Hc & Ho' & _)]; rewrite Hc in Hnz, Hr; rewrite Ho' in Hr;
      [|unfold p in *; lia].
    destruct (grab_old_page x Hnz) as [Hno _]; lia.
Qed.

Lemma grab_old_block b x :
  b ∈ blocks → in_block b x →
  ¬ in_block (p, sz) x ∧ rd8 (ram a2) x = rd8 (ram (pages h)) x ∧
  (cp ≠ 0 → ¬ (cp + off ≤ x < cp + 4096)).
Proof.
  intros Hb Hx. pose proof (hi_blocks _ _ Hinv) as Hbs.
  assert (block_ok h b) as Hok by (rewrite List.Forall_forall in Hbs; apply Hbs, list_elem_of_In, Hb).
  destruct (grabbed_apart h a2 i n b Hg Hok x Hx) as [Hno Hsame].
  split; [unfold in_block, p; cbn; lia|]. split; [done|]. intros Hnz Hr.
  destruct Hnext as [[Hc Ho']|(Hc & Ho' & Hn1 & _)]; rewrite Hc in Hnz, Hr; rewrite Ho' in Hr.
  - destruct Hok as [_ Hok]. by apply (proj2 (Hok x Hx)).
  - rewrite Hn1 in Hno. unfold PAGE_SIZE in *. lia.
Qed.

Lemma grab_apart : Forall (apart (p, sz)) blocks.
Proof.
  apply List.Forall_forall. intros b Hb%list_elem_of_In x Hp Hx.
  by destruct (grab_old_block b x Hb Hx).
Qed.

Lemma grab_inv : heap_inv (mk_heap cp off a2) ((p, sz) :: blocks).
Proof.
  pose proof Hg as (Hwf & Hl & Hn & Hin & Hset & Hram). pose proof Hl as (Hh & _).
  pose proof (hi_offset _ _ Hinv) as Hoff.
  split; cbn [pages current_page current_page_offset].
  - done.
  - rewrite Hh. apply Hinv.
  - destruct Hnext as [[Hc ->]|(_ & -> & Hn1 & ?)]; [done|unfold PAGE_SIZE in *; lia].
  - intros Hnz. destruct Hnext as [[Hc Ho']|(Hc & Ho' & Hn1 & _)].
    + rewrite Hc in Hnz |- *. destruct (hi_page _ _ Hinv Hnz) as (k & Ho & Hcp). exists k. rewrite Hh.
      split; [|done]. by eapply owned_mono; [exact Hl|apply grab_free_subset|].
    + exists i. rewrite Hc, Hh. split; [|done]. apply grab_frame_owned. lia.
  - intros x Hnz Hx. destruct Hnext as [[Hc Ho']|(Hc & Ho' & Hn1 & _)];
      rewrite Hc in Hnz, Hx; rewrite Ho' in Hx.
    + destruct (grab_old_page x Hnz) as [_ ->]; [lia|]. by apply (hi_zero _ _ Hinv).
    + destruct (proj1 (grab_frame_owned i ltac:(lia))) as [_ Hnp].
      rewrite Hram, decide_True; [done|unfold PAGE_SIZE in *; lia|].
      intros Hp. apply (Hnp x); [rewrite Hh; unfold in_page, PAGE_SIZE in *; lia|].
      by apply (proj2 (proj2 Hl)).
  - constructor; [apply grab_block_ok|]. apply List.Forall_forall. intros b Hb%list_elem_of_In.
    apply (block_ok_mono h); cbn [pages current_page current_page_offset].
    + done.
    + apply grab_free_subset.
    + intros x Hx. by apply (grab_old_block b).
    + pose proof (hi_blocks _ _ Hinv) as Hbs. rewrite List.Forall_forall in Hbs.
      apply Hbs, list_elem_of_In, Hb.
  - constructor; [apply grab_apart|apply Hinv].
Qed.

Lemma grab_zero x : in_block (p, sz) x → rd8 (ram a2) x = 0.
Proof.
  intros Hx. unfold in_block in Hx. cbn in Hx. pose proof Hg as (_ & Hl & _ & _ & _ & Hram).
  rewrite Hram, decide_True; [done|unfold p in *; unfold PAGE_SIZE in *; lia|].
  assert (i ≤ (x - hhdm (pages h)) / PAGE_SIZE < i + n) as Hk
    by (unfold p, PAGE_SIZE in *; dlia).
  destruct (proj1 (grab_frame_owned _ Hk)) as [_ Hnp].
  intros Hpr. apply (Hnp x); [|by apply (proj2 (proj2 Hl))].
  rewrite (proj1 Hl). unfold in_page, p, PAGE_SIZE in *. dlia.
Qed.
End Grab.

(** ** [kmalloc] *)

(** A block carved from the current page. *)
Lemma bump_inv h sz blocks :
  heap_inv h blocks → current_page h ≠ 0 → 0 < sz → sz mod 8 = 0 →
  current_page_offset h + sz ≤ 4096 →
  let p := current_page h + current_page_offset h in
  heap_inv (mk_heap (current_page h) (current_page_offset h + sz) (pages h)) ((p, sz) :: blocks) ∧
  Forall (apart (p, sz)) blocks ∧ ∀ x, in_block (p, sz) x → rd8 (ram (pages h)) x = 0.
Proof.
  intros Hinv Hnz Hs Hs8 Hle p. pose proof (hi_offset _ _ Hinv) as Hoff.
  assert (∀ b x, b ∈ blocks → in_block b x → ¬ (p ≤ x < current_page h + 4096)) as Hold.
  { intros b x Hb Hx Hr. pose proof (hi_blocks _ _ Hinv) as Hbs.
    rewrite List.Forall_forall in Hbs. apply list_elem_of_In in Hb.
    by apply (proj2 (proj2 (Hbs b Hb) x Hx)). }
  destruct (hi_page _ _ Hinv Hnz) as (k & Ho & Hcp).
  split_and!.
  - destruct Hinv. split; cbn [pages current_page current_page_offset]; try done.
    + split; [lia|dlia].
    + intros x _ Hx. apply hi_zero0; [done|]. unfold p in *. lia.
    + constructor.
      * split; [done|]. intros x Hx. unfold in_block, p in Hx. cbn in Hx |- *.
        split; [exists k; split; [done|unfold in_page, PAGE_SIZE in *; lia]|]. lia.
      * apply List.Forall_forall. intros b Hb%list_elem_of_In.
        apply (block_ok_mono h); cbn; [done|done| |].
        { intros x Hx _ Hr. apply (Hold b x Hb Hx). unfold p. lia. }
        rewrite List.Forall_forall in hi_blocks0. apply hi_blocks0, list_elem_of_In, Hb.
    + constructor; [|done]. apply List.Forall_forall. intros b Hb%list_elem_of_In x Hx Hy.
      unfold in_block in Hx. cbn in Hx. apply (Hold b x Hb Hy). unfold p in *. lia.
  - apply List.Forall_forall. intros b Hb%list_elem_of_In x Hx Hy.
    unfold in_block in Hx. cbn in Hx. apply (Hold b x Hb Hy). unfold p in *. lia.
  - intros x Hx. unfold in_block in Hx. cbn in Hx. apply (hi_zero _ _ Hinv x Hnz).
    unfold p in *. lia.
Qed.

(** What a successful request guarantees. *)
Definition fresh_block h h' p sz blocks : Prop :=
  p ≠ 0 ∧ p mod 8 = 0 ∧ heap_inv h' ((p, sz) :: blocks) ∧
  Forall (apart (p, sz)) blocks ∧
  (∀ x, in_block (p, sz) x → rd8 (ram (pages h')) x = 0) ∧
  (∀ b x, b ∈ blocks → in_block b x → rd8 (ram (pages h')) x = rd8 (ram (pages h)) x).

Lemma grab_fresh h a2 i n sz cp off blocks :
  heap_inv h blocks → grabbed (pages h) a2 i n → 0 < sz ≤ n * PAGE_SIZE →
  next_page h i n sz cp off →
  fresh_block h (mk_heap cp off a2) (hhdm (pages h) + i * PAGE_SIZE) sz blocks.
Proof.
  intros Hinv Hg Hsz Hnext. pose proof (hi_hhdm _ _ Hinv) as Hh.
  pose proof Hg as (_ & _ & Hn & Hin & _).
  assert (i ≤ i < i + n) as Hk by lia.
  destruct (free_set_usable _ i (hi_alloc _ _ Hinv) (Hin i Hk)) as [Hi _].
  unfold fresh_block. split_and!.
  - unfold PAGE_SIZE. lia.
  - unfold PAGE_SIZE. dlia.
  - by eapply grab_inv.
  - by eapply grab_apart.
  - intros x Hx. by eapply (grab_zero h a2 i n sz blocks).
  - intros b x Hb Hx. by eapply grab_old_block.
Qed.

(** A failed request changes nothing the client can see. *)
Lemma failed_inv h a1 blocks :
  heap_inv h blocks → alloc_wf a1 → same_layout (pages h) a1 → ram_kept (pages h) a1 →
  free_set a1 = free_set (pages h) →
  heap_inv (mk_heap (current_page h) (current_page_offset h) a1) blocks.
Proof.
  intros Hinv Hwf Hl Hk Hf. pose proof Hl as (Hh & _ & Hp).
  destruct Hinv. split; cbn [pages current_page current_page_offset]; try done.
  - by rewrite Hh.
  - intros Hnz. destruct (hi_page0 Hnz) as (i & Ho & Hcp). exists i. rewrite Hh.
    split; [|done]. eapply owned_mono; [exact Hl|by rewrite Hf|done].
  - intros x Hnz Hx. destruct (hi_page0 Hnz) as (i & [Hu _] & Hcp).
    rewrite Hk; [by apply hi_zero0|]. apply (proj2 Hu). unfold in_page, PAGE_SIZE in *. lia.
  - apply List.Forall_forall. intros b Hb. rewrite List.Forall_forall in hi_blocks0.
    pose proof (hi_blocks0 b Hb) as Hok. apply (block_ok_mono h); cbn; [done|by rewrite Hf| |done].
    intros x Hx Hnz Hr. by apply (proj2 (proj2 Hok x Hx)).
Qed.

(** ** Properties *)

(** Why a request for [sz] bytes fails: it does not fit the current page and
    there is no free frame, or it is a large one and there is no run of frames. *)
Definition no_room h sz : Prop :=
  if decide (sz ≤ 4096) then
    free_set (pages h) = ∅ ∧ (current_page h ≠ 0 → 4096 < current_page_offset h + sz)
  else (alloc_pages (pages h) ((sz + 4095) / 4096)).1 = 0.

(** The outcome of a request: no room, or a fresh block. *)
Definition served h h' p sz blocks : Prop :=
  p = 0 ∧ heap_inv h' blocks ∧ no_room h sz ∨ fresh_block h h' p sz blocks.

(** A request of whole pages. *)
Lemma kmalloc_large h sz p h' blocks :
  heap_inv h blocks → 4096 < sz ≤ 2 ^ 64 - 4096 → sz mod 8 = 0 →
  (let '(phys, a) := alloc_pages (pages h) ((sz + 4095) / 4096) in
   let h := mk_heap (current_page h) (current_page_offset h) a in
   if phys =? 0 then (0, h)
   else
     let ptr := phystokv a phys in
     (ptr, mk_heap (current_page h) (current_page_offset h)
             (set_ram a (zero_fill (ram a) ptr ((sz + 4095) / 4096 * 4096))))) = (p, h') →
  served h h' p sz blocks.
Proof.
  intros Hinv Hsz H8. pose proof (hi_alloc _ _ Hinv) as Hwf. set (n := (sz + 4095) / 4096).
  assert (0 ≤ n ∧ sz ≤ n * PAGE_SIZE) as [Hn0 Hnsz] by (unfold n, PAGE_SIZE; dlia).
  destruct (alloc_pages (pages h) n) as [phys a] eqn:Heq.
  destruct (alloc_pages_law _ _ _ _ Hwf Hn0 Heq)
    as (Hwf1 & Hl & Hk & [(-> & Hf & _)|(i & -> & Hn & Hin & Hset)]).
  { cbn. intros [= <- <-]. left. split; [done|]. split; [by apply failed_inv|].
    unfold no_room. rewrite decide_False by lia. fold n. by rewrite Heq. }
  destruct (grab_spec _ _ i n Hwf Hwf1 Hl Hk Hn Hin Hset) as [Hph Hg].
  assert (i ≤ i < i + n) as Hk0 by lia.
  destruct (free_set_usable _ i Hwf (Hin i Hk0)) as [Hi _].
  destruct (Z.eqb_spec (i * PAGE_SIZE) 0); [unfold PAGE_SIZE in *; lia|].
  cbn [current_page current_page_offset]. rewrite Hph. intros [= <- <-]. right.
  apply (grab_fresh h _ i n); [done..|lia|by left].
Qed.

(** A small request that does not fit the current page. *)
Lemma kmalloc_new_page h sz p h' blocks :
  heap_inv h blocks → 0 < sz ≤ 4096 → sz mod 8 = 0 →
  (current_page h ≠ 0 → 4096 < current_page_offset h + sz) →
  (let '(phys, a) := alloc_page (pages h) in
   if phys =? 0 then (0, mk_heap (current_page h) (current_page_offset h) a)
   else
     let page := phystokv a phys in
     (page, mk_heap page sz (set_ram a (zero_fill (ram a) page 4096)))) = (p, h') →
  served h h' p sz blocks.
Proof.
  intros Hinv Hsz H8 Hfull. pose proof (hi_alloc _ _ Hinv) as Hwf.
  destruct (alloc_page (pages h)) as [phys a] eqn:Heq.
  destruct (alloc_page_law _ _ _ Hwf Heq)
    as (Hwf1 & Hl & Hk & [(-> & Hf & Hf')|(i & -> & Hi & Hset)]).
  { cbn. intros [= <- <-]. left. split; [done|].
    split; [apply failed_inv; try done; by rewrite Hf, Hf'|]. unfold no_room. by rewrite decide_True by lia. }
  destruct (free_set_usable _ i Hwf Hi) as [Hir _].
  destruct (Z.eqb_spec (i * PAGE_SIZE) 0); [unfold PAGE_SIZE in *; lia|].
  destruct (grab_spec _ _ i 1 Hwf Hwf1 Hl Hk) as [Hph Hg].
  - done.
  - intros k Hk'. by assert (k = i) as -> by lia.
  - intros k. rewrite Hset, elem_of_difference, elem_of_singleton. split; (intros [? ?]; split; [done|lia]).
  - rewrite Hph. intros [= <- <-]. right. apply (grab_fresh h _ i 1); [done..|unfold PAGE_SIZE; lia|by right].
Qed.

(** A small request that fits the current page. *)
Lemma kmalloc_fits h sz blocks :
  heap_inv h blocks → 0 < sz → sz mod 8 = 0 → current_page h ≠ 0 → current_page_offset h + sz ≤ 4096 →
  fresh_block h (mk_heap (current_page h) (current_page_offset h + sz) (pages h))
    (current_page h + current_page_offset h) sz blocks.
Proof.
  intros Hinv Hsz H8 Hc0 Hfit. pose proof (hi_offset _ _ Hinv) as Hoff.
  destruct (bump_inv h sz blocks Hinv Hc0) as (? & ? & ?); [lia..|].
  pose proof (hi_hhdm _ _ Hinv) as Hh. destruct (hi_page _ _ Hinv Hc0) as (k & [[Hk _] _] & Hcp).
  split_and!; try done; unfold PAGE_SIZE in *; [lia|dlia].
Qed.

(** C23. The heap gives out fresh memory: from a state whose blocks satisfy the
    invariant, a request of [size] bytes, not within two pages
    of 2^64 (where the rounding would wrap), either fails with NULL because there is
    no room, keeping the invariant and all blocks, or returns an 8-byte aligned block of [size]
    rounded up to 8 bytes, all zeros, that meets no earlier block, and leaves
    every earlier block's bytes as they were. *)
Theorem kmalloc_fresh h size p h' blocks :
  heap_inv h blocks → 0 < size ≤ 2 ^ 64 - 8192 → kmalloc h size = (p, h') →
  p = 0 ∧ heap_inv h' blocks ∧ no_room h (align8 size) ∨
  fresh_block h h' p (align8 size) blocks.
Proof.
  intros Hinv Hsz. destruct (align8_spec size) as (Ha & Ha8 & Hab); [lia|].
  pose proof (hi_offset _ _ Hinv) as Hoff.
  unfold kmalloc. destruct (Z.eqb_spec size 0) as [|_]; [lia|].
  set (sz := align8 size) in *. cbn zeta. destruct (Z.ltb_spec 4096 sz) as [Hbig|Hsmall].
  - rewrite u64_small by lia. apply kmalloc_large; [done|lia|done].
  - rewrite u64_small by lia.
    destruct (Z.eqb_spec (current_page h) 0) as [Hc0|Hc0]; cbn [orb].
    { apply kmalloc_new_page; [done|lia|done|by rewrite Hc0]. }
    destruct (Z.ltb_spec 4096 (current_page_offset h + sz)) as [Hover|Hfit].
    { apply kmalloc_new_page; [done|lia|done|done]. }
    intros [= <- <-]. right. by apply kmalloc_fits; [|lia|..].
Qed.

(** The size computation wraps: a request within 7 bytes of 2^64 is rounded
    to zero, so on a heap with a current page it succeeds without reserving
    anything and the next request returns the same address. *)
Theorem kmalloc_wraps h size next :
  2 ^ 64 - 7 ≤ size < 2 ^ 64 → current_page h ≠ 0 →
  0 ≤ current_page_offset h → 0 < next → align8 next ≤ 4096 →
  current_page_offset h + align8 next ≤ 4096 →
  kmalloc h size = (current_page h + current_page_offset h, h) ∧
  (kmalloc h next).1 = (kmalloc h size).1.
Proof.
  intros Hs Hc Ho Hn Hna Hfit.
  assert (0 ≤ align8 next) as Hnn.
  { unfold align8. apply Z.land_nonneg. left. apply u64_range. }
  assert (kmalloc h size = (current_page h + current_page_offset h, h)) as ->.
  { unfold kmalloc. rewrite align8_wraps by done. destruct (Z.eqb_spec size 0); [lia|].
    destruct (Z.eqb_spec (current_page h) 0); [done|]. cbn zeta.
    change (4096 <? 0) with false. rewrite Z.add_0_r, u64_small by lia.
    cbn [orb]. destruct (Z.ltb_spec 4096 (current_page_offset h)); [lia|]. by destruct h. }
  split; [done|]. unfold kmalloc. destruct (Z.eqb_spec next 0); [lia|]. cbn zeta.
  destruct (Z.ltb_spec 4096 (align8 next)); [lia|].
  destruct (Z.eqb_spec (current_page h) 0); [done|]. cbn [orb]. rewrite u64_small by lia.
  by destruct (Z.ltb_spec 4096 (current_page_offset h + align8 next)); [lia|].
Qed.

End HeapInv.
