(* ===== verification/Vmm.v ===== *)
(** The virtual memory manager (src/kernel/vmm.c), over any page allocator
    that satisfies the contract of Frames.v.

    A page map is the physical address of a 512-entry table; entries are read
    and written in memory through the direct map, four levels deep. The file
    gives the operations, the reading of a page map as a tree of tables, the
    invariant of such trees, and the effect of [vmm_map_page] on it.

    [vmm_check_user_ptr] and [vmm_check_user_string] loop over pages with a
    fuel of 2^36, twice the number of pages below 2^47. *)

From S2P Require Export Frames.

Definition PAGE_PRESENT : Z := 1 << 0.
Definition PAGE_WRITE : Z := 1 << 1.
Definition PAGE_USER : Z := 1 << 2.

(** [0x0000800000000000]: the first address that is not a user address. *)
Definition USER_LIMIT : Z := 140737488355328.

Definition page_fuel : positive := 68719476736.

Definition pml4_idx (vaddr : Z) : Z := (vaddr >> 39) .& 511.
Definition pdpt_idx (vaddr : Z) : Z := (vaddr >> 30) .& 511.
Definition pd_idx (vaddr : Z) : Z := (vaddr >> 21) .& 511.
Definition pt_idx (vaddr : Z) : Z := (vaddr >> 12) .& 511.

(** [x & ~0xFFF] *)
Definition page_base (x : Z) : Z := x .& ~~ 4095.

Definition has (e flag : Z) : bool := negb (e .& flag =? 0).

Section Vmm.
Context {St : Type} `{PageAllocator St}.

(** [(uint64_t* )(phys + hhdm_offset)], and the address of entry [i]. *)
Definition table (a : St) (phys : Z) : Z := u64 (phys + hhdm a).
Definition entry (a : St) (phys i : Z) : Z := table a phys + 8 * i.

(** ** Building page maps *)

(** [vmm_init] reads CR3 and returns the new value of [kernel_pml4]. *)
Definition vmm_init (a : St) (cr3 : Z) : Z := u64 (cr3 + hhdm a).

Definition vmm_new_pagemap (a : St) (kernel_pml4 : Z) : Z * St :=
  let '(pml4_phys, a) := alloc_page a in
  if pml4_phys =? 0 then (0, a)
  else
    let pml4_virt := u64 (pml4_phys + hhdm a) in
    let a := set_ram a (memset (ram a) pml4_virt 0 4096) in
    let m := for_each 256 256
               (λ i m, wr64 m (pml4_virt + 8 * i) (rd64 m (kernel_pml4 + 8 * i))) (ram a) in
    (pml4_phys, set_ram a m).

(** The next value of CR3. *)
Definition vmm_switch_pagemap (map : Z) : Z := map.
Definition vmm_restore_kernel_pagemap (a : St) (kernel_pml4 : Z) : Z :=
  u64 (kernel_pml4 - hhdm a).

(** [if (!(t[i] & PAGE_PRESENT)) { ... }]: the table below entry [i] of the
    table at [t], created empty if there is none. *)
Definition ensure_table (a : St) (t i : Z) : St :=
  if has (rd64 (ram a) (t + 8 * i)) PAGE_PRESENT then a
  else
    let '(phys, a) := alloc_page a in
    let a := set_ram a (memset (ram a) (u64 (phys + hhdm a)) 0 4096) in
    set_ram a (wr64 (ram a) (t + 8 * i) (phys .| PAGE_PRESENT .| PAGE_WRITE .| PAGE_USER)).

(** [(uint64_t* )((t[i] & ~0xFFF) + hhdm_offset)] *)
Definition next_table (a : St) (t i : Z) : Z := u64 (page_base (rd64 (ram a) (t + 8 * i)) + hhdm a).

Definition vmm_map_page (a : St) (map vaddr paddr flags : Z) : St :=
  let pml4 := u64 (map + hhdm a) in
  let a := ensure_table a pml4 (pml4_idx vaddr) in
  let pdpt := next_table a pml4 (pml4_idx vaddr) in
  let a := ensure_table a pdpt (pdpt_idx vaddr) in
  let pd := next_table a pdpt (pdpt_idx vaddr) in
  let a := ensure_table a pd (pd_idx vaddr) in
  let pt := next_table a pd (pd_idx vaddr) in
  set_ram a (wr64 (ram a) (pt + 8 * pt_idx vaddr)
               (page_base paddr .| flags .| PAGE_PRESENT)).

(** ** Releasing a page map *)

(** [for (i = 0; i < n; i++) if (t[i] & PAGE_PRESENT) { below; free }], where
    [below] releases what hangs under the entry's table. *)
Definition free_entries (n : nat) (below : St → Z → St) (a : St) (t : Z) : St :=
  for_each n 0
    (λ i a,
       if has (rd64 (ram a) (t + 8 * i)) PAGE_PRESENT then
         let a := below a (next_table a t i) in
         free_page a (page_base (rd64 (ram a) (t + 8 * i)))
       else a) a.

Definition free_pt (a : St) (pt : Z) : St := free_entries 512 (λ a _, a) a pt.
Definition free_pd (a : St) (pd : Z) : St := free_entries 512 free_pt a pd.
Definition free_pdpt (a : St) (pdpt : Z) : St := free_entries 512 free_pd a pdpt.

Definition vmm_free_pagemap (a : St) (map : Z) : St :=
  if map =? 0 then a
  else
    let pml4 := u64 (map + hhdm a) in
    let a := free_entries 256 free_pdpt a pml4 in
    free_page a map.

(** ** Checking user pointers *)

(** The entry tests of one page, in the order of the source. *)
Definition page_ok (a : St) (cr3 page : Z) (write_required : bool) : bool :=
  let pml4 := u64 (cr3 + hhdm a) in
  let e4 := rd64 (ram a) (pml4 + 8 * pml4_idx page) in
  if negb (has e4 PAGE_PRESENT) then false
  else if negb (has e4 PAGE_USER) then false
  else
    let pdpt := next_table a pml4 (pml4_idx page) in
    let e3 := rd64 (ram a) (pdpt + 8 * pdpt_idx page) in
    if negb (has e3 PAGE_PRESENT) then false
    else if negb (has e3 PAGE_USER) then false
    else
      let pd := next_table a pdpt (pdpt_idx page) in
      let e2 := rd64 (ram a) (pd + 8 * pd_idx page) in
      if negb (has e2 PAGE_PRESENT) then false
      else if negb (has e2 PAGE_USER) then false
      else
        let pt := next_table a pd (pd_idx page) in
        let e1 := rd64 (ram a) (pt + 8 * pt_idx page) in
        if negb (has e1 PAGE_PRESENT) then false
        else if negb (has e1 PAGE_USER) then false
        else if write_required && negb (has e1 PAGE_WRITE) then false
        else true.

Definition vmm_check_user_ptr (a : St) (cr3 vaddr size : Z) (write_required : bool) : bool :=
  if size =? 0 then true
  else if USER_LIMIT <=? vaddr then false
  else if u64 (vaddr + size) <? vaddr then false
  else if USER_LIMIT <=? u64 (vaddr + size) then false
  else
    let start_page := page_base vaddr in
    let end_page := page_base (u64 (vaddr + size - 1)) in
    match
      while (λ page,
               if page <=? end_page then
                 if page_ok a cr3 page write_required then inl (u64 (page + 4096))
                 else inr false
               else inr true) page_fuel start_page
    with inr r => r | inl _ => false end.

(** [user_byte a cr3 v] is the byte the processor loads from user address [v]
    under the page map [cr3]; the loop only loads from pages it has checked. *)
Variable user_byte : St → Z → Z → Z.

(** One turn of the [while (1)] of [vmm_check_user_string]. *)
Definition check_string_step (a : St) (cr3 current : Z) : Z + bool :=
  if USER_LIMIT <=? current then inr false
  else
    let page := page_base current in
    if negb (page_ok a cr3 page false) then inr false
    else
      let limit := page + 4096 - current in
      match
        for_loop (Z.to_nat limit) 0
          (λ i (u : unit), if user_byte a cr3 (current + i) =? 0 then inr true else inl u) ()
      with
      | inr r => inr r
      | inl _ => inl (u64 (page + 4096))
      end.

Definition vmm_check_user_string (a : St) (cr3 vaddr : Z) : bool :=
  if USER_LIMIT <=? vaddr then false
  else match while (check_string_step a cr3) page_fuel vaddr with inr r => r | inl _ => false end.

End Vmm.

(** ** Address arithmetic *)

Lemma page_base_spec x : page_base x = x - x mod 4096.
Proof. unfold page_base. change 4095 with (Z.ones 12). by rewrite land_lnot_ones. Qed.

Lemma idx_spec v k : 0 ≤ k → (v >> k) .& 511 = v / 2 ^ k mod 512.
Proof.
  intros. change 511 with (Z.ones 9). rewrite Z.land_ones, Z.shiftr_div_pow2 by lia. done.
Qed.

Lemma idx_range v :
  0 ≤ pml4_idx v < 512 ∧ 0 ≤ pdpt_idx v < 512 ∧ 0 ≤ pd_idx v < 512 ∧ 0 ≤ pt_idx v < 512.
Proof.
  unfold pml4_idx, pdpt_idx, pd_idx, pt_idx. rewrite !idx_spec by lia.
  pose proof (λ x, Z.mod_pos_bound x 512 eq_refl) as Hm. split_and!; apply Hm.
Qed.

Lemma pml4_idx_user v : 0 ≤ v < USER_LIMIT → pml4_idx v < 256.
Proof. intros. unfold pml4_idx, USER_LIMIT in *. rewrite idx_spec by lia. dlia. Qed.

(** The four indices determine the page of a user address. *)
Lemma idx_inj v w :
  0 ≤ v < USER_LIMIT → 0 ≤ w < USER_LIMIT →
  pml4_idx v = pml4_idx w → pdpt_idx v = pdpt_idx w → pd_idx v = pd_idx w →
  pt_idx v = pt_idx w → page_base v = page_base w.
Proof.
  unfold pml4_idx, pdpt_idx, pd_idx, pt_idx, USER_LIMIT.
  rewrite !idx_spec, !page_base_spec by lia. intros. 
  assert (v / 4096 = w / 4096) as He; [|dlia].
  assert (∀ x, 0 ≤ x < 2 ^ 47 → x / 4096 =
    ((x / 2 ^ 39 mod 512 * 512 + x / 2 ^ 30 mod 512) * 512 + x / 2 ^ 21 mod 512) * 512
      + x / 2 ^ 12 mod 512) as Hd.
  { intros x Hx. dlia. }
  rewrite (Hd v), (Hd w) by lia. congruence.
Qed.

(** ... and depend on nothing else. *)
Lemma idx_page v w :
  page_base v = page_base w →
  pml4_idx v = pml4_idx w ∧ pdpt_idx v = pdpt_idx w ∧ pd_idx v = pd_idx w ∧ pt_idx v = pt_idx w.
Proof.
  rewrite !page_base_spec. intros He. assert (v / 4096 = w / 4096) as Hd by dlia.
  unfold pml4_idx, pdpt_idx, pd_idx, pt_idx. rewrite !idx_spec by lia.
  assert (∀ x, x / 2 ^ 39 = x / 4096 / 2 ^ 27 ∧ x / 2 ^ 30 = x / 4096 / 2 ^ 18 ∧
               x / 2 ^ 21 = x / 4096 / 2 ^ 9 ∧ x / 2 ^ 12 = x / 4096) as Hs.
  { intros x. rewrite !Z.div_div by lia. done. }
  destruct (Hs v) as (-> & -> & -> & ->), (Hs w) as (-> & -> & -> & ->). by rewrite Hd.
Qed.

Lemma has_present_bit e : has e PAGE_PRESENT = Z.testbit e 0.
Proof. apply (testbit_pow2_land e 0). lia. Qed.

Lemma has_spec e k : 0 ≤ k → has e (1 << k) = Z.testbit e k.
Proof. apply testbit_pow2_land. Qed.

(** An entry built from a page-aligned base and flags. *)
Lemma page_base_lor b fl :
  b mod 4096 = 0 → 0 ≤ fl < 4096 → page_base (b .| fl) = b ∧ (b .| fl) mod 4096 = fl.
Proof.
  intros Hb Hf. rewrite (lor_aligned b fl 12) by (done || lia).
  rewrite page_base_spec. split; dlia.
Qed.

Lemma testbit_flags b fl k :
  b mod 4096 = 0 → 0 ≤ k < 12 → Z.testbit (b .| fl) k = Z.testbit fl k.
Proof.
  intros Hb Hk. rewrite Z.lor_spec, <- (Z.mod_pow2_bits_low b 12) by lia.
  change (2 ^ 12) with 4096. by rewrite Hb, Z.bits_0.
Qed.

(** ** Page maps as trees

    [descend g t p] follows the table indices [p] from table [t]; [g u i] is
    the table under entry [i] of table [u], if there is one. *)

Section Tree.
Implicit Types (g : Z → Z → option Z) (p q : list Z).

Fixpoint descend g (t : Z) p : option Z :=
  match p with
  | [] => Some t
  | i :: p' => match g t i with Some t' => descend g t' p' | None => None end
  end.

(** Paths of tables in the user half: at most three indices, the first one
    below 256. *)
Definition upath p : Prop :=
  (length p ≤ 3)%nat ∧ Forall (λ i, 0 ≤ i < 512) p ∧
  match p with [] => True | i :: _ => i < 256 end.

Lemma descend_snoc g t p i :
  descend g t (p ++ [i]) = match descend g t p with Some u => g u i | None => None end.
Proof.
  revert t. induction p as [|j p IH]; intros t; cbn.
  - by destruct (g t i).
  - destruct (g t j); [apply IH|done].
Qed.

Lemma upath_snoc p i : upath (p ++ [i]) → upath p ∧ (length p ≤ 2)%nat ∧ 0 ≤ i < 512.
Proof.
  intros (Hl & Hf & Hh). rewrite length_app in Hl. cbn in Hl.
  apply Forall_app in Hf as [Hf1 Hf2]. inversion Hf2; subst.
  split; [|split; [lia|done]]. split; [lia|]. split; [done|by destruct p].
Qed.

Lemma upath_nil : upath [].
Proof. split; [cbn; lia|]. by split; [constructor|]. Qed.

(** Hanging a fresh, empty table [f] under entry [i] of the table at [p]
    changes that one path of the tree. *)
Lemma descend_insert g g' root p t i f :
  upath (p ++ [i]) → descend g root p = Some t → g t i = None →
  (∀ q q' u, upath q → upath q' → descend g root q = Some u → descend g root q' = Some u → q = q') →
  (∀ q u j, upath (q ++ [j]) → descend g root q = Some u → (u ≠ t ∨ j ≠ i) → g' u j = g u j) →
  g' t i = Some f → (∀ j, 0 ≤ j < 512 → g' f j = None) →
  ∀ q, upath q → descend g' root q = if decide (q = p ++ [i]) then Some f else descend g root q.
Proof.
  intros Hp Hdp Hnone Hinj Hsame Hnew Hempty q.
  induction q as [|j q IH] using rev_ind; intros Hq.
  { rewrite decide_False; [done|]. by destruct p. }
  destruct (upath_snoc _ _ Hq) as (Hq0 & Hl & Hj). rewrite !descend_snoc, (IH Hq0).
  case_decide as Hqp.
  - subst q. rewrite decide_False, Hempty, descend_snoc, Hdp, Hnone; [done|done|].
    intros Heq%(f_equal length). rewrite !length_app in Heq. cbn in Heq. lia.
  - destruct (descend g root q) as [u|] eqn:Hu.
    + destruct (decide (u = t ∧ j = i)) as [[-> ->]|Hne].
      * destruct (upath_snoc _ _ Hp) as (Hp0 & _).
        assert (q = p) as -> by (by eapply Hinj). by rewrite decide_True.
      * rewrite decide_False; [apply (Hsame q u j); [done..|]; by destruct (decide (u = t)); naive_solver|].
        intros [-> [= ->]]%app_inj_2; [|done]. rewrite Hu in Hdp. naive_solver.
    + rewrite decide_False; [done|]. intros [-> [= ->]]%app_inj_2; [|done]. congruence.
Qed.

(** The tree depends on the entries of the tables that have tables below. *)
Lemma descend_ext g g' root :
  (∀ q u j, upath (q ++ [j]) → descend g root q = Some u → g' u j = g u j) →
  ∀ q, upath q → descend g' root q = descend g root q.
Proof.
  intros Hsame q. induction q as [|j q IH] using rev_ind; intros Hq; [done|].
  destruct (upath_snoc _ _ Hq) as (Hq0 & _). rewrite !descend_snoc, (IH Hq0).
  destruct (descend g root q) eqn:Hu; [|done]. by apply (Hsame q).
Qed.
End Tree.

Section PageMaps.
Context {St : Type} `{PageAllocatorLaws St}.
Implicit Types (a : St).

(** The value of entry [i] of the table at physical address [t]. *)
Definition ent a (t i : Z) : Z := rd64 (ram a) (table a t + 8 * i).

(** The table it refers to. *)
Definition sub a (t i : Z) : option Z :=
  if has (ent a t i) PAGE_PRESENT then Some (page_base (ent a t i)) else None.

(** A frame that holds a table: it exists and the allocator gave it out. *)
Definition table_frame a (t : Z) : Prop :=
  ∃ k, t = k * PAGE_SIZE ∧ usable a k ∧ k ∉ free_set a.

(** The user half of the page map is a tree of allocated tables: every table
    is reached by one path only. *)
Record pagemap_wf a (map : Z) : Prop := {
  pm_frames p t : upath p → descend (sub a) map p = Some t → table_frame a t;
  pm_inj p q t : upath p → upath q → descend (sub a) map p = Some t →
    descend (sub a) map q = Some t → p = q;
}.

(** The last-level entry of a user address, if the page is mapped. *)
Definition vpath (v : Z) : list Z := [pml4_idx v; pdpt_idx v; pd_idx v].

Definition lookup_page a (map v : Z) : option Z :=
  match descend (sub a) map (vpath v) with
  | Some t => if has (ent a t (pt_idx v)) PAGE_PRESENT then Some (ent a t (pt_idx v)) else None
  | None => None
  end.

Lemma upath_vpath v : 0 ≤ v < USER_LIMIT → upath (vpath v).
Proof.
  intros Hv. pose proof (idx_range v). pose proof (pml4_idx_user v Hv).
  split; [cbn; lia|]. split; [|done]. repeat constructor; lia.
Qed.

Lemma table_small a t : alloc_wf a → table_frame a t → table a t = hhdm a + t.
Proof.
  intros Hwf (k & -> & [Hk _] & _). apply (phystokv_small a k Hwf). lia.
Qed.

(** Where entry [i] of a table lies. *)
Lemma entry_in_page a t i x :
  alloc_wf a → table_frame a t → 0 ≤ i < 512 →
  table a t + 8 * i ≤ x < table a t + 8 * i + 8 →
  hhdm a + t ≤ x < hhdm a + t + 4096 ∧ ¬ private a x.
Proof.
  intros Hwf Ht Hi Hx. rewrite (table_small a t) in Hx by done.
  destruct Ht as (k & -> & [Hk Hp] & _). split; [lia|].
  apply Hp. unfold in_page, PAGE_SIZE in *. lia.
Qed.

Lemma table_frame_free a t k :
  table_frame a t → k ∈ free_set a → t ≠ k * PAGE_SIZE.
Proof. intros (j & -> & _ & Hj) Hk. unfold PAGE_SIZE. assert (j ≠ k) by congruence. lia. Qed.

(** Two tables are the same or a page apart. *)
Lemma table_frame_apart a t u :
  table_frame a t → table_frame a u → t = u ∨ t + 4096 ≤ u ∨ u + 4096 ≤ t.
Proof. intros (j & -> & _) (k & -> & _). unfold PAGE_SIZE. lia. Qed.

(** *** Storing one entry *)

Section Store.
Context a t i v (Hwf : alloc_wf a) (Ht : table_frame a t) (Hi : 0 ≤ i < 512)
  (Hv : 0 ≤ v < 2 ^ 64).
Let a' := set_ram a (wr64 (ram a) (table a t + 8 * i) v).

Lemma store_layout : same_layout a a'.
Proof. apply set_ram_layout. Qed.

Lemma store_wf : alloc_wf a' ∧ free_set a' = free_set a.
Proof.
  apply set_ram_wf; [done|]. intros x Hx. apply (wr_le_outside 8).
  destruct (decide (table a t + 8 * i ≤ x < table a t + 8 * i + 8)) as [Hr|]; [|lia].
  by destruct (entry_in_page a t i x Hwf Ht Hi Hr).
Qed.

Lemma store_ent u j :
  table_frame a u → 0 ≤ j < 512 →
  ent a' u j = if decide (u = t ∧ j = i) then v else ent a u j.
Proof.
  intros Hu Hj. unfold ent, a'. rewrite ram_set_ram. 
  assert (table (set_ram a (wr64 (ram a) (table a t + 8 * i) v)) u = table a u) as ->.
  { unfold table. f_equal. f_equal. exact (proj1 store_layout). }
  rewrite (table_small a t), (table_small a u) by done. case_decide as Hc.
  - destruct Hc as [-> ->]. by apply rd64_wr64_eq.
  - apply rd64_wr64_ne. destruct (table_frame_apart a t u Ht Hu) as [->|]; lia.
Qed.

Lemma store_ent_eq : ent a' t i = v.
Proof. rewrite store_ent by done. by rewrite decide_True. Qed.

Lemma store_ent_ne u j :
  table_frame a u → 0 ≤ j < 512 → (u ≠ t ∨ j ≠ i) → ent a' u j = ent a u j.
Proof.
  intros Hu Hj Hne. rewrite store_ent by done. rewrite decide_False; [done|].
  by intros [-> ->]; destruct Hne.
Qed.

Lemma store_table_frame u : table_frame a u → table_frame a' u.
Proof.
  intros (k & -> & Hu & Hk). exists k. rewrite (proj2 store_wf). split; [done|].
  split; [|done]. eapply usable_mono; [exact store_layout|done].
Qed.
End Store.

(** *** Creating a table *)

Lemma ensure_value f :
  0 ≤ f ≤ 2 ^ 64 - 4096 → f mod 4096 = 0 →
  let e := f .| PAGE_PRESENT .| PAGE_WRITE .| PAGE_USER in
  0 ≤ e < 2 ^ 64 ∧ page_base e = f ∧ has e PAGE_PRESENT = true ∧
  has e PAGE_WRITE = true ∧ has e PAGE_USER = true.
Proof.
  intros Hf Hm e. assert (e = f .| 7) as He.
  { unfold e. by rewrite <- !Z.lor_assoc. }
  rewrite He. destruct (page_base_lor f 7 Hm ltac:(lia)) as [Hb Hmm].
  rewrite (lor_aligned f 7 12) by (done || lia).
  split; [lia|]. rewrite <- (lor_aligned f 7 12) by (done || lia).
  split; [done|]. unfold PAGE_PRESENT, PAGE_WRITE, PAGE_USER.
  rewrite !has_spec, !(testbit_flags f 7) by (done || lia). done.
Qed.

(** A page taken from the allocator and zeroed. *)
Definition zeroed_frame a : Z * St :=
  let '(phys, a) := alloc_page a in
  (phys, set_ram a (memset (ram a) (u64 (phys + hhdm a)) 0 4096)).

Lemma zeroed_frame_spec a :
  alloc_wf a → free_set a ≠ ∅ →
  ∃ k a2, zeroed_frame a = (k * PAGE_SIZE, a2) ∧ k ∈ free_set a ∧
    alloc_wf a2 ∧ same_layout a a2 ∧ free_set a2 = free_set a ∖ {[k]} ∧
    table_frame a2 (k * PAGE_SIZE) ∧
    (∀ j, 0 ≤ j < 512 → ent a2 (k * PAGE_SIZE) j = 0) ∧
    (∀ u, table_frame a u → table_frame a2 u ∧ ∀ j, 0 ≤ j < 512 → ent a2 u j = ent a u j).
Proof.
  intros Hwf Hfree. unfold zeroed_frame. destruct (alloc_page a) as [p a1] eqn:Heq.
  destruct (alloc_page_law _ _ _ Hwf Heq)
    as (Hwf1 & Hl1 & Hk1 & [(_ & ? & _)|(k & -> & Hk & Hset)]); [done|].
  exists k. eexists. split; [done|]. split; [done|].
  pose proof (free_set_usable _ k Hwf Hk) as Hu. pose proof Hu as Hu1. rewrite Hl1 in Hu1.
  assert (table a1 (k * PAGE_SIZE) = hhdm a1 + k * PAGE_SIZE) as Hpage.
  { apply (phystokv_small a1 k Hwf1). destruct Hu1. lia. }
  change (u64 (k * PAGE_SIZE + hhdm a1)) with (table a1 (k * PAGE_SIZE)). rewrite Hpage.
  set (m2 := memset (ram a1) _ 0 4096).
  assert (same_outside (hhdm a1 + k * PAGE_SIZE) PAGE_SIZE (ram a1) m2) as Hout
    by (by apply memset_outside).
  destruct (set_ram_in_page a1 m2 k Hwf1 Hu1 Hout) as [Hwf2 Hfs].
  assert (same_layout a (set_ram a1 m2)) as Hl2
    by (etransitivity; [exact Hl1|apply set_ram_layout]).
  assert (∀ u, table (set_ram a1 m2) u = table a u) as Htab.
  { intros u. unfold table. by rewrite (proj1 Hl2). }
  assert (∀ u, table_frame a u → table_frame (set_ram a1 m2) u) as Hkeep.
  { intros u (j & -> & Hj & Hnf). exists j. split; [done|]. split; [by apply (usable_mono a)|].
    rewrite Hfs, Hset. set_solver. }
  assert (table_frame (set_ram a1 m2) (k * PAGE_SIZE)) as Htk.
  { exists k. split; [done|]. split; [by apply (usable_mono a)|]. rewrite Hfs, Hset. set_solver. }
  split_and!; [done|exact Hl2|by rewrite Hfs|done| |].
  - intros j Hj. unfold ent. rewrite ram_set_ram, Htab. apply rd64_zero.
    assert (table a (k * PAGE_SIZE) = hhdm a1 + k * PAGE_SIZE) as ->.
    { rewrite <- Hpage. unfold table. by rewrite (proj1 Hl1). }
    intros x Hx. unfold m2. rewrite rd8_memset, decide_True by lia. done.
  - intros u Hut. split; [by apply Hkeep|]. intros j Hj. unfold ent. rewrite ram_set_ram, Htab.
    transitivity (rd64 (ram a1) (table a u + 8 * j)).
    + apply (same_outside_rd64 _ _ _ _ _ Hout). rewrite (table_small a u) by done.
      pose proof (table_frame_free _ _ _ Hut Hk) as Hne. rewrite (proj1 Hl1).
      destruct Hut as (i & -> & _). unfold PAGE_SIZE in *. lia.
    + apply rd64_ext. intros x Hx. apply Hk1. by apply (entry_in_page a u j x).
Qed.

(** What the absent case does: a fresh frame, zeroed, under the entry. *)
Lemma ensure_table_new a t i :
  alloc_wf a → table_frame a t → 0 ≤ i < 512 → free_set a ≠ ∅ →
  has (ent a t i) PAGE_PRESENT = false →
  ∃ k, k ∈ free_set a ∧
    let a' := ensure_table a (table a t) i in
    alloc_wf a' ∧ same_layout a a' ∧ free_set a' = free_set a ∖ {[k]} ∧
    (∀ u, table_frame a u → table_frame a' u) ∧ table_frame a' (k * PAGE_SIZE) ∧
    sub a' t i = Some (k * PAGE_SIZE) ∧ has (ent a' t i) PAGE_USER = true ∧
    (∀ j, 0 ≤ j < 512 → ent a' (k * PAGE_SIZE) j = 0) ∧
    (∀ u j, table_frame a u → 0 ≤ j < 512 → (u ≠ t ∨ j ≠ i) → ent a' u j = ent a u j).
Proof.
  intros Hwf Ht Hi Hfree Habs.
  destruct (zeroed_frame_spec a Hwf Hfree)
    as (k & a2 & Hz & Hk & Hwf2 & Hl2 & Hset & Htk & Hzero & Hold).
  exists k. split; [done|]. cbn zeta. unfold ensure_table. unfold ent in Habs. rewrite Habs.
  unfold zeroed_frame in Hz. destruct (alloc_page a) as [p a1]. injection Hz as -> Ha2.
  rewrite Ha2.
  destruct (free_set_usable _ k Hwf Hk) as [Hkr _].
  destruct (hhdm_bounds a Hwf) as [Hh Htop]. unfold PAGE_SIZE in Htop.
  destruct (ensure_value (k * PAGE_SIZE)) as (Hv & Hb & Hp & _ & Huser); [unfold PAGE_SIZE; lia|
    unfold PAGE_SIZE; dlia|].
  destruct (Hold t Ht) as [Ht2 _].
  assert (table a t = table a2 t) as -> by (unfold table; by rewrite (proj1 Hl2)).
  set (v := _ .| PAGE_USER) in *.
  destruct (store_wf a2 t i v Hwf2 Ht2 Hi) as [Hwf3 Hfs].
  pose proof (store_layout a2 t i v) as Hl3.
  assert (k * PAGE_SIZE ≠ t) as Hne.
  { pose proof (table_frame_free _ _ _ Ht Hk). congruence. }
  set (a3 := set_ram a2 _) in *.
  assert (same_layout a a3) as Hl by (by etransitivity).
  split_and!; [done|exact Hl|by rewrite Hfs| | | | | |].
  - intros u Hu. apply store_table_frame; [done..|]. by apply Hold.
  - by apply store_table_frame.
  - unfold sub. unfold a3. rewrite store_ent_eq by done. by rewrite Hp, Hb.
  - unfold a3. by rewrite store_ent_eq.
  - intros j Hj. rewrite <- (Hzero j Hj). apply store_ent_ne; [done..|by left].
  - intros u j Hu Hj Hne'. destruct (Hold u Hu) as [Hu2 He]. rewrite <- (He j Hj).
    by apply store_ent_ne.
Qed.

(** *** The tree after a step *)

Lemma pagemap_entry a map p t i :
  pagemap_wf a map → upath (p ++ [i]) → descend (sub a) map p = Some t →
  table_frame a t ∧ 0 ≤ i < 512.
Proof.
  intros Hpm Hp Hd. destruct (upath_snoc _ _ Hp) as (Hp0 & _ & Hi).
  split; [by eapply pm_frames|done].
Qed.

(** A table of the user half of a page map. *)
Definition is_table a map (x : Z) : Prop := ∃ p, upath p ∧ descend (sub a) map p = Some x.

(** The page at [u] holds what it held. *)
Definition kept a a' (u : Z) : Prop := ∀ j, 0 ≤ j < 512 → ent a' u j = ent a u j.

(** The processor lets user code through all tables of the user half. *)
Definition open_tables a map : Prop :=
  ∀ p t i, upath (p ++ [i]) → descend (sub a) map p = Some t →
    has (ent a t i) PAGE_PRESENT = true → has (ent a t i) PAGE_USER = true.

Lemma open_tables_kept a a' map :
  (∀ q, upath q → descend (sub a') map q = descend (sub a) map q) →
  (∀ q t i, upath (q ++ [i]) → descend (sub a) map q = Some t → ent a' t i = ent a t i) →
  open_tables a map → open_tables a' map.
Proof.
  intros Htree Hent Ho p t i Hp. destruct (upath_snoc _ _ Hp) as [Hp0 _].
  rewrite Htree by done. intros Hd. rewrite (Hent p) by done. by apply (Ho p).
Qed.

(** What building the page map may do: every frame it takes becomes one of its
    tables, allocated frames that are none of its tables keep their contents,
    and so does the kernel half of the root. *)
Record grown a a' (map : Z) : Prop := {
  gr_layout : same_layout a a';
  gr_free : free_set a' ⊆ free_set a;
  gr_table x : is_table a' map x ↔
    is_table a map x ∨ ∃ k, x = k * PAGE_SIZE ∧ k ∈ free_set a ∧ k ∉ free_set a';
  gr_kept u : table_frame a u → ¬ is_table a map u → kept a a' u;
  gr_kernel i : 256 ≤ i < 512 → ent a' map i = ent a map i;
  gr_open : open_tables a map → open_tables a' map;
}.

Lemma kept_trans a1 a2 a3 u : kept a1 a2 u → kept a2 a3 u → kept a1 a3 u.
Proof. intros H1 H2 j Hj. by rewrite H2, H1. Qed.

Lemma table_frame_mono a a' u :
  same_layout a a' → free_set a' ⊆ free_set a → table_frame a u → table_frame a' u.
Proof.
  intros Hl Hf (k & -> & Hu & Hk). exists k. split; [done|].
  split; [by apply (usable_mono a)|set_solver].
Qed.

Lemma grown_table_new a a' map u :
  grown a a' map → table_frame a u → ¬ is_table a map u → ¬ is_table a' map u.
Proof.
  intros Hg Hu Hn. rewrite (gr_table _ _ _ Hg). intros [?|(k & Hk & Hf & _)]; [done|].
  by eapply table_frame_free.
Qed.

Lemma grown_trans a1 a2 a3 map : grown a1 a2 map → grown a2 a3 map → grown a1 a3 map.
Proof.
  intros H1 H2. split.
  - etransitivity; [apply H1|apply H2].
  - etransitivity; [apply H2|apply H1].
  - intros x. rewrite (gr_table _ _ _ H2), (gr_table _ _ _ H1).
    pose proof (gr_free _ _ _ H1). pose proof (gr_free _ _ _ H2). split.
    + intros [[?|(k & ? & ? & ?)]|(k & ? & ? & ?)]; [by left|right; exists k; set_solver..].
    + intros [?|(k & ? & ? & ?)]; [by left; left|].
      destruct (decide (k ∈ free_set a2)); [right|left; right]; exists k; set_solver.
  - intros u Hu Hn. eapply kept_trans; [by apply (gr_kept _ _ _ H1)|].
    apply (gr_kept _ _ _ H2); [|by eapply grown_table_new].
    eapply table_frame_mono; [apply H1..|done].
  - intros i Hi. by rewrite (gr_kernel _ _ _ H2), (gr_kernel _ _ _ H1).
  - intros Ho. by apply (gr_open _ _ _ H2), (gr_open _ _ _ H1).
Qed.

Lemma grown_refl a map : grown a a map.
Proof. split; [done|done| |done|done|done]. intros x. split; [by left|]. intros [?|(k & ?)]; [done|naive_solver]. Qed.

(** *** A new table

    The state [a'] after [ensure_table] took the frame [k] for the absent entry
    [i] of the table [t] at path [p]. *)
Section NewTable.
Context (a a' : St) (map t i k : Z) (p : list Z).
Hypothesis Hpm : pagemap_wf a map.
Hypothesis Hp : upath (p ++ [i]).
Hypothesis Hd : descend (sub a) map p = Some t.
Hypothesis Habs : has (ent a t i) PAGE_PRESENT = false.
Hypothesis Hk : k ∈ free_set a.
Hypothesis Hl : same_layout a a'.
Hypothesis Hset : free_set a' = free_set a ∖ {[k]}.
Hypothesis Hkeep : ∀ u, table_frame a u → table_frame a' u.
Hypothesis Htk : table_frame a' (k * PAGE_SIZE).
Hypothesis Hsub : sub a' t i = Some (k * PAGE_SIZE).
Hypothesis Huser : has (ent a' t i) PAGE_USER = true.
Hypothesis Hzero : ∀ j, 0 ≤ j < 512 → ent a' (k * PAGE_SIZE) j = 0.
Hypothesis Hold : ∀ u j, table_frame a u → 0 ≤ j < 512 → (u ≠ t ∨ j ≠ i) →
  ent a' u j = ent a u j.

Lemma new_tree q : upath q → descend (sub a') map q =
  if decide (q = p ++ [i]) then Some (k * PAGE_SIZE) else descend (sub a) map q.
Proof.
  revert q. apply (descend_insert _ _ _ _ t);
    [done|done|by unfold sub; rewrite Habs| | |done|].
  - intros q q' u ????. by eapply pm_inj.
  - intros q u j Hq Hu Hne. destruct (pagemap_entry a map q u j Hpm Hq Hu) as [Hut Hj].
    unfold sub. by rewrite Hold.
  - intros j Hj. unfold sub. by rewrite Hzero.
Qed.

Lemma new_gone : descend (sub a) map (p ++ [i]) = None.
Proof. rewrite descend_snoc, Hd. unfold sub. by rewrite Habs. Qed.

Lemma new_frame q : upath q → descend (sub a) map q ≠ Some (k * PAGE_SIZE).
Proof. intros Hq Hu. eapply table_frame_free; [by eapply pm_frames|exact Hk|done]. Qed.

Lemma new_pagemap : pagemap_wf a' map.
Proof.
  split.
  - intros q u Hq. rewrite new_tree by done. case_decide; [by intros [= <-]|].
    intros Hu. by eapply Hkeep, pm_frames.
  - intros q q' u Hq Hq'. rewrite !new_tree by done. repeat case_decide; subst; try done.
    + intros [= <-] Hu. by destruct (new_frame q').
    + intros Hu [= <-]. by destruct (new_frame q).
    + intros. by eapply pm_inj.
Qed.

Lemma new_is_table x : is_table a' map x ↔
  is_table a map x ∨ ∃ k', x = k' * PAGE_SIZE ∧ k' ∈ free_set a ∧ k' ∉ free_set a'.
Proof.
  rewrite Hset. unfold is_table. split.
  - intros (q & Hq & Hx). rewrite new_tree in Hx by done. case_decide; [|left; by exists q].
    injection Hx as <-. right. exists k. set_solver.
  - intros [(q & Hq & Hx)|(k' & -> & Hk' & Hn)].
    + exists q. split; [done|]. rewrite new_tree by done. rewrite decide_False; [done|].
      intros ->. by rewrite new_gone in Hx.
    + assert (k' = k) as ->.
      { destruct (decide (k' = k)) as [|Hne]; [done|]. destruct Hn.
        apply elem_of_difference. by rewrite elem_of_singleton. }
      exists (p ++ [i]). split; [done|]. by rewrite new_tree, decide_True by done.
Qed.

Lemma new_open : open_tables a map → open_tables a' map.
Proof.
  intros Ho q u j Hq Hu. destruct (upath_snoc _ _ Hq) as (Hq0 & _ & Hj).
  rewrite new_tree in Hu by done.
  case_decide; [injection Hu as <-; by rewrite Hzero|].
  destruct (decide (u = t ∧ j = i)) as [[-> ->]|Hne]; [done|].
  rewrite Hold; [by apply (Ho q)|by eapply pm_frames|done|].
  destruct (decide (u = t)) as [->|]; [right; intros ->; by apply Hne|by left].
Qed.

Lemma new_grown : grown a a' map.
Proof.
  split; [done|rewrite Hset; set_solver|apply new_is_table| | |apply new_open].
  - intros u Hu Hn j Hj. apply Hold; [done..|]. left. intros ->. apply Hn. exists p.
    split; [by apply (upath_snoc _ i)|done].
  - intros j Hj. apply Hold; [by apply (pm_frames _ _ Hpm [] map upath_nil)|lia|].
    destruct (decide (map = t)) as [Heq|]; [right|by left].
    assert (p = []) as Hnil.
    { eapply pm_inj; [done| |apply upath_nil|exact Hd|by rewrite <- Heq].
      by apply (upath_snoc _ i). }
    destruct Hp as (_ & _ & Hi256). rewrite Hnil in Hi256. cbn in Hi256. lia.
Qed.

Lemma new_lookup v : 0 ≤ v < USER_LIMIT → lookup_page a' map v = lookup_page a map v.
Proof.
  intros Hv. unfold lookup_page. pose proof (upath_vpath v Hv) as Hq.
  pose proof (proj2 (proj2 (proj2 (idx_range v)))) as Hj.
  rewrite new_tree by done. case_decide as Hvp; [by rewrite Hvp, new_gone, Hzero by done|].
  destruct (descend (sub a) map (vpath v)) as [u|] eqn:Hu; [|done].
  rewrite Hold; [done|by eapply pm_frames|done|].
  (* the entry set is not a last-level one *)
  left. intros ->. destruct (upath_snoc _ _ Hp) as (Hp0 & Hpl & _).
  assert (vpath v = p) as Heq by (by eapply pm_inj). rewrite <- Heq in Hpl. cbn in Hpl. lia.
Qed.
End NewTable.

(** *** How many tables are missing *)

Definition has_table a map (q : list Z) : Prop := is_Some (descend (sub a) map q).

Definition lacks a map (q : list Z) : nat :=
  match descend (sub a) map q with Some _ => 0 | None => 1 end.

(** The paths of the tables that lead to a page. *)
Definition vprefixes (v : Z) : list (list Z) :=
  [[pml4_idx v]; [pml4_idx v; pdpt_idx v]; vpath v].

(** The tables that [vmm_map_page] has to make for [v]. *)
Definition missing a map v : nat := sum_list_with (lacks a map) (vprefixes v).

Lemma missing_bound a map v : (missing a map v ≤ 3)%nat.
Proof.
  assert (∀ q, (lacks a map q ≤ 1)%nat) as Hl by (intros q; unfold lacks; destruct (descend _ _ _); lia).
  unfold missing, vprefixes. cbn [sum_list_with].
  pose proof (Hl [pml4_idx v]). pose proof (Hl [pml4_idx v; pdpt_idx v]). pose proof (Hl (vpath v)). lia.
Qed.

Lemma lacks_same a a' map q : (has_table a' map q ↔ has_table a map q) → lacks a' map q = lacks a map q.
Proof.
  unfold has_table, lacks. rewrite <- !not_eq_None_Some.
  destruct (descend (sub a') map q), (descend (sub a) map q); naive_solver.
Qed.

(** [ensure_table] at entry [i] of the table at path [p]: the table at
    [p ++ [i]] exists afterwards, all tables stay where they are, the invariant
    is kept, no user translation changes, and a frame is used if the table was
    missing. *)
Lemma ensure_table_spec a map p t i :
  alloc_wf a → pagemap_wf a map → upath (p ++ [i]) → descend (sub a) map p = Some t →
  (lacks a map (p ++ [i]) ≤ size (free_set a))%nat →
  let a' := ensure_table a (table a t) i in
  alloc_wf a' ∧ same_layout a a' ∧ pagemap_wf a' map ∧
  (size (free_set a) = lacks a map (p ++ [i]) + size (free_set a'))%nat ∧
  (∀ q, upath q → has_table a' map q ↔ has_table a map q ∨ q = p ++ [i]) ∧
  (∃ f, descend (sub a') map (p ++ [i]) = Some f ∧ sub a' t i = Some f) ∧
  grown a a' map ∧
  (∀ v, 0 ≤ v < USER_LIMIT → lookup_page a' map v = lookup_page a map v).
Proof.
  intros Hwf Hpm Hp Hd Hroom a'. destruct (pagemap_entry a map p t i Hpm Hp Hd) as [Ht Hi].
  unfold lacks in *. rewrite descend_snoc, Hd in *.
  destruct (has (ent a t i) PAGE_PRESENT) eqn:Hpres.
  { assert (a' = a) as -> by (unfold a', ensure_table, ent in *; by rewrite Hpres).
    assert (sub a t i = Some (page_base (ent a t i))) as Hs by (unfold sub; by rewrite Hpres).
    rewrite Hs. split; [done|]. split; [done|]. split; [done|]. split; [done|].
    assert (descend (sub a) map (p ++ [i]) = Some (page_base (ent a t i))) as Hsnoc
      by by rewrite descend_snoc, Hd.
    split; [|split; [|split; [apply grown_refl|done]]].
    - intros q _. split; [by left|]. intros [?| ->]; [done|]. by eexists.
    - by eexists. }
  assert (sub a t i = None) as Hs by (unfold sub; by rewrite Hpres). rewrite Hs in *.
  assert (free_set a ≠ ∅) as Hfree by (intros He; rewrite He, size_empty in Hroom; lia).
  destruct (ensure_table_new a t i Hwf Ht Hi Hfree Hpres)
    as (k & Hk & Hwf' & Hl & Hset & Hkeep & Htk & Hsub & Huser & Hzero & Hold).
  fold a' in Hwf', Hl, Hset, Hkeep, Htk, Hsub, Huser, Hzero, Hold.
  assert (∀ q, upath q → descend (sub a') map q =
    if decide (q = p ++ [i]) then Some (k * PAGE_SIZE) else descend (sub a) map q) as Htree
    by (by eapply new_tree).
  split; [done|]. split; [done|]. split; [by eapply new_pagemap|]. split; [|split; [|split; [|split]]].
  - rewrite Hset, size_difference, size_singleton by set_solver. lia.
  - intros q Hq. unfold has_table. rewrite Htree by done.
    case_decide; [split; [by right|by eexists]|]. split; [by left|by intros [?|?]].
  - exists (k * PAGE_SIZE). by rewrite Htree, decide_True by done.
  - by eapply new_grown.
  - intros v. by eapply new_lookup.
Qed.

(** Storing a last-level entry changes the translation of that page only. *)
Lemma leaf_store_spec a map v t val :
  alloc_wf a → pagemap_wf a map → 0 ≤ v < USER_LIMIT →
  descend (sub a) map (vpath v) = Some t → 0 ≤ val < 2 ^ 64 → has val PAGE_PRESENT = true →
  let a' := set_ram a (wr64 (ram a) (table a t + 8 * pt_idx v) val) in
  alloc_wf a' ∧ same_layout a a' ∧ free_set a' = free_set a ∧
  (∀ q, upath q → descend (sub a') map q = descend (sub a) map q) ∧ pagemap_wf a' map ∧
  grown a a' map ∧
  ∀ w, 0 ≤ w < USER_LIMIT → lookup_page a' map w =
    if decide (page_base w = page_base v) then Some val else lookup_page a map w.
Proof.
  intros Hwf Hpm Hv Hd Hval Hpres a'. pose proof (upath_vpath v Hv) as Hq.
  pose proof (proj2 (proj2 (proj2 (idx_range v)))) as Hi.
  assert (table_frame a t) as Ht by (by eapply pm_frames).
  destruct (store_wf a t (pt_idx v) val Hwf Ht Hi) as [Hwf' Hfs].
  pose proof (store_layout a t (pt_idx v) val) as Hl. fold a' in Hwf', Hfs, Hl.
  assert (∀ q u j, upath (q ++ [j]) → descend (sub a) map q = Some u → ent a' u j = ent a u j) as Hdir.
  { intros q u j Hqj Hu. destruct (pagemap_entry a map q u j Hpm Hqj Hu) as [Hut Hj].
    destruct (upath_snoc _ _ Hqj) as (Hq0 & Hlen & _). apply store_ent_ne; [done..|].
    left. intros ->. assert (q = vpath v) as -> by (by eapply pm_inj). cbn in Hlen. lia. }
  assert (∀ q, upath q → descend (sub a') map q = descend (sub a) map q) as Htree.
  { apply descend_ext. intros q u j Hqj Hu. unfold sub. by rewrite (Hdir q). }
  split; [done|]. split; [done|]. split; [done|]. split; [done|]. split; [|split].
  - split.
    + intros q u Hq'. rewrite Htree by done. intros Hu.
      apply store_table_frame; [done..|]. by eapply pm_frames.
    + intros q q' u Hq1 Hq2. rewrite !Htree by done. by eapply pm_inj.
  - split; [done|by rewrite Hfs| | | |by apply open_tables_kept].
    + intros x. rewrite Hfs. unfold is_table. split.
      * intros (q & Hq' & Hx). left. exists q. by rewrite Htree in Hx.
      * intros [(q & Hq' & Hx)|(k & _ & Hk & Hn)]; [|done]. exists q. by rewrite Htree.
    + intros u Hu Hn j Hj. apply store_ent_ne; [done..|]. left. intros ->. apply Hn.
      by exists (vpath v).
    + intros j Hj. apply store_ent_ne; [done..| |lia|].
      { by apply (pm_frames _ _ Hpm [] map upath_nil). }
      left. intros <-. by assert ([] = vpath v) by (eapply pm_inj; [done|apply upath_nil|done..]).
  - intros w Hw. unfold lookup_page. pose proof (upath_vpath w Hw) as Hqw.
    pose proof (proj2 (proj2 (proj2 (idx_range w)))) as Hiw. rewrite Htree by done.
    case_decide as Hvw.
    + destruct (idx_page w v Hvw) as (E4 & E3 & E2 & E1).
      assert (vpath w = vpath v) as -> by (unfold vpath; congruence). rewrite Hd, E1.
      unfold a'. by rewrite store_ent_eq, Hpres by done.
    + destruct (descend (sub a) map (vpath w)) as [u|] eqn:Hu; [|done].
      unfold a'. rewrite (store_ent_ne a t (pt_idx v) val Hwf Ht Hi Hval u);
        [done|by eapply pm_frames|done|].
      destruct (decide (u = t)) as [->|]; [|by left]. right. intros He. apply Hvw.
      assert (vpath w = vpath v) as [= ???] by (by eapply pm_inj). by apply idx_inj.
Qed.

Lemma next_table_sub a t i f : sub a t i = Some f → next_table a (table a t) i = table a f.
Proof.
  unfold sub, next_table, ent. destruct (has _ _); [|done]. by intros [= <-].
Qed.

Lemma table_layout a a' t : same_layout a a' → table a' t = table a t.
Proof. intros (Hh & _). unfold table. by rewrite Hh. Qed.

(** The value [vmm_map_page] stores. *)
Definition leaf_value (paddr flags : Z) : Z := page_base paddr .| flags .| PAGE_PRESENT.

Lemma leaf_value_ok paddr flags :
  0 ≤ paddr < 2 ^ 64 → 0 ≤ flags < 4096 →
  0 ≤ leaf_value paddr flags < 2 ^ 64 ∧ has (leaf_value paddr flags) PAGE_PRESENT = true ∧
  page_base (leaf_value paddr flags) = page_base paddr ∧
  ∀ k, 0 < k < 12 → Z.testbit (leaf_value paddr flags) k = Z.testbit flags k.
Proof.
  intros Hp Hf. unfold leaf_value, PAGE_PRESENT. change (1 << 0) with 1.
  assert (0 ≤ flags .| 1 < 4096) as Hf1.
  { assert (0 ≤ flags .| 1) by (apply Z.lor_nonneg; lia). split; [done|].
    apply (bits_bound _ 12); [lia|done|]. intros k Hk. rewrite Z.lor_spec.
    rewrite (testbit_small flags 12), (testbit_small 1 12) by lia. done. }
  assert (page_base paddr mod 4096 = 0) as Hb by (rewrite page_base_spec; dlia).
  rewrite <- Z.lor_assoc. destruct (page_base_lor (page_base paddr) _ Hb Hf1) as [Hbl _].
  split_and!.
  - apply Z.lor_nonneg. rewrite page_base_spec. dlia.
  - rewrite (lor_aligned _ _ 12) by (done || lia). rewrite page_base_spec in *. dlia.
  - change (has (page_base paddr .| (flags .| 1)) (1 << 0) = true).
    rewrite has_spec, testbit_flags, Z.lor_spec by (done || lia). apply orb_true_r.
  - done.
  - intros k Hk. rewrite testbit_flags, Z.lor_spec by (done || lia).
    rewrite (testbit_small 1 1) by lia. apply orb_false_r.
Qed.

(** The three levels of [vmm_map_page], then the store. *)
Lemma vmm_map_page_exact a map vaddr paddr flags :
  alloc_wf a → pagemap_wf a map → 0 ≤ vaddr < USER_LIMIT → 0 ≤ paddr < 2 ^ 64 →
  0 ≤ flags < 4096 → (missing a map vaddr ≤ size (free_set a))%nat →
  let a' := vmm_map_page a map vaddr paddr flags in
  alloc_wf a' ∧ grown a a' map ∧
  size (free_set a) = (missing a map vaddr + size (free_set a'))%nat ∧
  (∀ q, upath q → has_table a' map q ↔ has_table a map q ∨ q ∈ vprefixes vaddr) ∧ pagemap_wf a' map ∧
  ∀ w, 0 ≤ w < USER_LIMIT → lookup_page a' map w =
    if decide (page_base w = page_base vaddr) then Some (leaf_value paddr flags)
    else lookup_page a map w.
Proof.
  intros Hwf Hpm Hv Hpa Hfl Hfree. pose proof (upath_vpath vaddr Hv) as Hq3.
  pose proof (upath_snoc [pml4_idx vaddr; pdpt_idx vaddr] _ Hq3) as (Hq2 & _).
  pose proof (upath_snoc [pml4_idx vaddr] _ Hq2) as (Hq1 & _).
  unfold missing, vprefixes in *. cbn [sum_list_with] in *. rewrite Nat.add_0_r in *.
  unfold vmm_map_page. change (u64 (map + hhdm a)) with (table a map). cbn zeta.
  change (page_base paddr .| flags .| PAGE_PRESENT) with (leaf_value paddr flags).
  destruct (ensure_table_spec a map [] map (pml4_idx vaddr) Hwf Hpm Hq1 eq_refl)
    as (Hwf1 & Hl1 & Hpm1 & Hn1 & Ht1 & (t1 & Hd1 & Hs1) & Hg1 & Hlk1); [cbn [app]; lia|].
  set (a1 := ensure_table a _ _) in *. rewrite <- (table_layout a a1 map Hl1).
  rewrite (next_table_sub _ _ _ _ Hs1). cbn [app] in *.
  assert (lacks a1 map [pml4_idx vaddr; pdpt_idx vaddr] = lacks a map [pml4_idx vaddr; pdpt_idx vaddr]) as HL2.
  { apply lacks_same. rewrite Ht1 by done. split; [by intros [?|[=]]|by left]. }
  destruct (ensure_table_spec a1 map [pml4_idx vaddr] t1 (pdpt_idx vaddr) Hwf1 Hpm1 Hq2 Hd1)
    as (Hwf2 & Hl2 & Hpm2 & Hn2 & Ht2 & (t2 & Hd2 & Hs2) & Hg2 & Hlk2); [cbn [app]; lia|].
  set (a2 := ensure_table a1 _ _) in *. rewrite <- (table_layout a1 a2 t1 Hl2).
  rewrite (next_table_sub _ _ _ _ Hs2). cbn [app] in *.
  assert (lacks a2 map (vpath vaddr) = lacks a map (vpath vaddr)) as HL3.
  { apply lacks_same. rewrite Ht2, Ht1 by done. split; [by intros [[?|[=]]|[=]]|by left; left]. }
  destruct (ensure_table_spec a2 map [pml4_idx vaddr; pdpt_idx vaddr] t2 (pd_idx vaddr)
    Hwf2 Hpm2 Hq3 Hd2)
    as (Hwf3 & Hl3 & Hpm3 & Hn3 & Ht3 & (t3 & Hd3 & Hs3) & Hg3 & Hlk3).
  { cbn [app]. fold (vpath vaddr). lia. }
  set (a3 := ensure_table a2 _ _) in *. rewrite <- (table_layout a2 a3 t2 Hl3).
  rewrite (next_table_sub _ _ _ _ Hs3). cbn [app] in *. fold (vpath vaddr) in Hd3, Hn3, Ht3.
  destruct (leaf_value_ok paddr flags Hpa Hfl) as (Hval & Hpres & _).
  destruct (leaf_store_spec a3 map vaddr t3 _ Hwf3 Hpm3 Hv Hd3 Hval Hpres)
    as (Hwf4 & Hl4 & Hf4 & Ht4 & Hpm4 & Hg4 & Hlk4).
  split; [done|]. split; [|split; [|split; [|split; [done|]]]].
  - eapply grown_trans; [exact Hg1|]. eapply grown_trans; [exact Hg2|]. by eapply grown_trans.
  - rewrite Hf4. lia.
  - intros q Hq. unfold has_table at 1. rewrite Ht4 by done. fold (has_table a3 map q).
    rewrite Ht3, Ht2, Ht1 by done. set_solver.
  - intros w Hw. rewrite Hlk4 by done. case_decide; [done|]. by rewrite Hlk3, Hlk2, Hlk1.
Qed.

(** Three frames are always enough. *)
Lemma vmm_map_page_spec a map vaddr paddr flags :
  alloc_wf a → pagemap_wf a map → 0 ≤ vaddr < USER_LIMIT → 0 ≤ paddr < 2 ^ 64 →
  0 ≤ flags < 4096 → (3 ≤ size (free_set a))%nat →
  let a' := vmm_map_page a map vaddr paddr flags in
  alloc_wf a' ∧ grown a a' map ∧
  (size (free_set a) ≤ 3 + size (free_set a'))%nat ∧ pagemap_wf a' map ∧
  ∀ w, 0 ≤ w < USER_LIMIT → lookup_page a' map w =
    if decide (page_base w = page_base vaddr) then Some (leaf_value paddr flags)
    else lookup_page a map w.
Proof.
  intros Hwf Hpm Hv Hpa Hfl Hn. pose proof (missing_bound a map vaddr) as Hm.
  destruct (vmm_map_page_exact a map vaddr paddr flags Hwf Hpm Hv Hpa Hfl ltac:(lia))
    as (? & ? & ? & _ & ? & ?). cbn zeta. split; [done|]. split; [done|]. split; [lia|done].
Qed.

(** ** Checking user pointers *)

(** The four entries the processor reads to translate [v]. *)
Definition walk a (map v : Z) : option (Z * Z * Z * Z) :=
  let e4 := ent a map (pml4_idx v) in
  if negb (has e4 PAGE_PRESENT) then None else
  let e3 := ent a (page_base e4) (pdpt_idx v) in
  if negb (has e3 PAGE_PRESENT) then None else
  let e2 := ent a (page_base e3) (pd_idx v) in
  if negb (has e2 PAGE_PRESENT) then None else
  let e1 := ent a (page_base e2) (pt_idx v) in
  if negb (has e1 PAGE_PRESENT) then None else Some (e4, e3, e2, e1).

(** User code may load (and, with [wr], store) at [v]: the page is mapped, all
    four entries carry the user flag, and the last one the write flag. *)
Definition user_access a (map v : Z) (wr : bool) : Prop :=
  ∃ e4 e3 e2 e1, walk a map v = Some (e4, e3, e2, e1) ∧
    has e4 PAGE_USER = true ∧ has e3 PAGE_USER = true ∧ has e2 PAGE_USER = true ∧
    has e1 PAGE_USER = true ∧ (wr = true → has e1 PAGE_WRITE = true).

Lemma walk_lookup a map v :
  lookup_page a map v = match walk a map v with Some (_, _, _, e1) => Some e1 | None => None end.
Proof.
  unfold lookup_page, walk, vpath. cbn [descend]. unfold sub.
  do 3 (destruct (has _ _); cbn [negb]; [|done]). by destruct (has _ _).
Qed.

(** Where all tables are open, the last entry decides. *)
Lemma open_access a map v e wr :
  open_tables a map → 0 ≤ v < USER_LIMIT → lookup_page a map v = Some e →
  has e PAGE_USER = true → (wr = true → has e PAGE_WRITE = true) → user_access a map v wr.
Proof.
  intros Ho Hv He Hu Hw. pose proof (upath_vpath v Hv) as Hp.
  destruct (upath_snoc [pml4_idx v; pdpt_idx v] (pd_idx v) Hp) as [Hp2 _].
  destruct (upath_snoc [pml4_idx v] (pdpt_idx v) Hp2) as [Hp1 _].
  rewrite walk_lookup in He. unfold user_access. destruct (walk a map v) as [[[[e4 e3] e2] e1]|] eqn:Hwalk; [|done].
  injection He as ->. exists e4, e3, e2, e. split; [done|]. unfold walk in Hwalk.
  destruct (has (ent a map (pml4_idx v)) PAGE_PRESENT) eqn:P4; cbn [negb] in Hwalk; [|done].
  set (t3 := page_base _) in Hwalk. destruct (has (ent a t3 _) PAGE_PRESENT) eqn:P3; cbn [negb] in Hwalk; [|done].
  set (t2 := page_base (ent a t3 _)) in Hwalk.
  destruct (has (ent a t2 _) PAGE_PRESENT) eqn:P2; cbn [negb] in Hwalk; [|done].
  destruct (has (ent a (page_base (ent a t2 _)) _) PAGE_PRESENT); cbn [negb] in Hwalk; [|done].
  injection Hwalk as <- <- <- _.
  assert (descend (sub a) map [pml4_idx v] = Some t3) as D3 by (cbn; unfold sub; by rewrite P4).
  assert (descend (sub a) map [pml4_idx v; pdpt_idx v] = Some t2) as D2.
  { change [pml4_idx v; pdpt_idx v] with ([pml4_idx v] ++ [pdpt_idx v]). rewrite descend_snoc, D3.
    unfold sub. by rewrite P3. }
  split; [by apply (Ho [] map)|]. split; [by apply (Ho [pml4_idx v] t3)|].
  split; [by apply (Ho [pml4_idx v; pdpt_idx v] t2)|]. done.
Qed.

(** A page map with no tables below its root is open. *)
Lemma open_tables_root a map :
  pagemap_wf a map → (∀ x, is_table a map x → x = map) → open_tables a map.
Proof.
  intros Hpm Hroot p t i Hp Hd Hpres. destruct (upath_snoc _ _ Hp) as [Hp0 _].
  assert (is_table a map (page_base (ent a t i))) as Ht.
  { exists (p ++ [i]). split; [done|]. rewrite descend_snoc, Hd. unfold sub. by rewrite Hpres. }
  pose proof (Hroot _ Ht) as Hb.
  assert (p ++ [i] = []) as Hnil; [|by destruct p].
  apply (pm_inj _ _ Hpm _ _ map); [done|apply upath_nil| |done].
  rewrite descend_snoc, Hd. unfold sub. by rewrite Hpres, Hb.
Qed.

Lemma walk_page a map v w : page_base v = page_base w → walk a map v = walk a map w.
Proof. intros Hp. unfold walk. by destruct (idx_page v w Hp) as (-> & -> & -> & ->). Qed.

Lemma user_access_page a map v w wr :
  page_base v = page_base w → user_access a map v wr ↔ user_access a map w wr.
Proof. intros Hp. unfold user_access. by rewrite (walk_page a map v w Hp). Qed.

Lemma page_base_idem v : page_base (page_base v) = page_base v.
Proof. rewrite !page_base_spec. dlia. Qed.

(** The tests of the source are exactly this condition. *)
Lemma page_ok_walk a map v wr :
  page_ok a map v wr =
  match walk a map v with
  | Some (e4, e3, e2, e1) =>
      has e4 PAGE_USER && has e3 PAGE_USER && has e2 PAGE_USER && has e1 PAGE_USER &&
      (negb wr || has e1 PAGE_WRITE)
  | None => false
  end.
Proof.
  unfold page_ok, walk. change (u64 (map + hhdm a)) with (table a map).
  assert (∀ t i, rd64 (ram a) (table a t + 8 * i) = ent a t i) as He by done.
  assert (∀ t i, next_table a (table a t) i = table a (page_base (ent a t i))) as Hn by done.
  rewrite !Hn, !He. cbn zeta.
  generalize (ent a map (pml4_idx v)) as e4. intros e4.
  generalize (ent a (page_base e4) (pdpt_idx v)) as e3. intros e3.
  generalize (ent a (page_base e3) (pd_idx v)) as e2. intros e2.
  generalize (ent a (page_base e2) (pt_idx v)) as e1. intros e1.
  destruct (has e4 PAGE_PRESENT); cbn [negb]; [|done].
  destruct (has e3 PAGE_PRESENT); cbn [negb]; [|by destruct (has e4 PAGE_USER)].
  destruct (has e2 PAGE_PRESENT); cbn [negb];
    [|by destruct (has e4 PAGE_USER), (has e3 PAGE_USER)].
  destruct (has e1 PAGE_PRESENT); cbn [negb];
    [|by destruct (has e4 PAGE_USER), (has e3 PAGE_USER), (has e2 PAGE_USER)].
  by destruct (has e4 PAGE_USER), (has e3 PAGE_USER), (has e2 PAGE_USER), (has e1 PAGE_USER),
    wr, (has e1 PAGE_WRITE).
Qed.

Lemma page_ok_spec a map v wr : page_ok a map v wr = true ↔ user_access a map v wr.
Proof.
  rewrite page_ok_walk. unfold user_access. destruct (walk a map v) as [[[[e4 e3] e2] e1]|].
  - split.
    + intros Hb. apply andb_true_iff in Hb as [Hb Hw].
      repeat apply andb_true_iff in Hb as [Hb ?].
      exists e4, e3, e2, e1. split_and!; try done. intros ->. exact Hw.
    + intros (f4 & f3 & f2 & f1 & [= -> -> -> ->] & -> & -> & -> & -> & Hw). cbn.
      destruct wr; [by apply Hw|done].
  - split; [done|]. by intros (? & ? & ? & ? & ? & _).
Qed.

(** The page loops of the two checks, from a page-aligned page on. *)
Lemma page_loop_spec a map page end_page wr :
  page mod 4096 = 0 → end_page mod 4096 = 0 → 0 ≤ page → page ≤ end_page + 4096 →
  end_page < USER_LIMIT →
  ∃ r, while (λ page,
               if page <=? end_page then
                 if page_ok a map page wr then inl (u64 (page + 4096)) else inr false
               else inr true) page_fuel page = inr r ∧
    (r = true ↔ ∀ q, q mod 4096 = 0 → page ≤ q ≤ end_page → user_access a map q wr).
Proof.
  intros Hp He Hge Hle Hlim.
  apply (while_total _
    (λ q, q mod 4096 = 0 ∧ page ≤ q ≤ end_page + 4096 ∧
       ∀ p, p mod 4096 = 0 → page ≤ p < q → user_access a map p wr) _
    (λ q, (end_page + 4096 - q) / 4096)).
  - split; [done|]. split; [lia|]. intros. lia.
  - intros q (Hq & Hr & Hok). unfold USER_LIMIT in *. destruct (Z.leb_spec q end_page) as [Hqe|Hqe].
    + destruct (page_ok a map q wr) eqn:Hb.
      * apply page_ok_spec in Hb. rewrite u64_small by lia. split; [|dlia].
        split; [dlia|]. split; [dlia|]. intros p Hpm Hpr.
        destruct (Z.eq_dec p q) as [->|]; [done|]. apply Hok; [done|dlia].
      * split; [done|]. intros Hall. specialize (Hall q Hq ltac:(lia)).
        apply page_ok_spec in Hall. congruence.
    + split; [|done]. intros _ p Hpm Hpr. apply Hok; [done|dlia].
  - unfold USER_LIMIT, page_fuel in *. dlia.
Qed.

(** The loop over the pages of a range checks every page of it. *)
Lemma vmm_check_user_ptr_spec a map vaddr size wr :
  0 ≤ vaddr < 2 ^ 64 → 0 ≤ size < 2 ^ 64 →
  vmm_check_user_ptr a map vaddr size wr = true ↔
  size = 0 ∨ vaddr + size < USER_LIMIT ∧
    ∀ x, vaddr ≤ x < vaddr + size → user_access a map x wr.
Proof.
  intros Hv Hs. unfold vmm_check_user_ptr.
  destruct (Z.eqb_spec size 0) as [->|Hs0]; [split; auto|].
  destruct (Z.leb_spec USER_LIMIT vaddr) as [Hv0|Hv0]; [split; [done|lia]|].
  destruct (Z.ltb_spec (u64 (vaddr + size)) vaddr) as [Ho|Ho].
  { split; [done|]. intros [?|[Hlt _]]; [lia|]. unfold USER_LIMIT in *.
    rewrite u64_small in Ho; lia. }
  assert (u64 (vaddr + size) = vaddr + size) as Hu.
  { unfold u64 in *. unfold USER_LIMIT in *. dlia. }
  rewrite Hu in *. clear Hu.
  destruct (Z.leb_spec USER_LIMIT (vaddr + size)) as [Hl|Hl]; [split; [done|lia]|].
  cbn zeta. rewrite !page_base_spec. unfold USER_LIMIT in *. rewrite u64_small by lia.
  destruct (page_loop_spec a map (vaddr - vaddr mod 4096)
    (vaddr + size - 1 - (vaddr + size - 1) mod 4096) wr) as (r & -> & ->);
    [dlia|dlia|dlia|dlia|unfold USER_LIMIT; dlia|].
  split.
  - intros Hall. right. split; [done|]. intros x Hx.
    apply (user_access_page _ _ _ (page_base x)); [by rewrite page_base_idem|].
    apply Hall; rewrite page_base_spec; dlia.
  - intros [?|[_ Hall]]; [lia|]. intros q Hq Hr.
    apply (user_access_page _ _ _ (Z.max q vaddr)); [rewrite !page_base_spec; dlia|].
    apply Hall. dlia.
Qed.

(** [vmm_check_user_string] accepts exactly the strings of user memory: a NUL
    is reached before the limit, over pages the process may read. *)
Section CheckString.
Context (user_byte : St → Z → Z → Z).

Definition user_string a map (v : Z) : Prop :=
  ∃ n, 0 ≤ n ∧ v + n < USER_LIMIT ∧ user_byte a map (v + n) = 0 ∧
    ∀ x, v ≤ x ≤ v + n → user_access a map x false.

(** A turn of the loop at [cur]: the rest of the page. *)
Lemma check_string_step_spec a map cur :
  0 ≤ cur →
  match check_string_step user_byte a map cur with
  | inr r => r = true ↔ user_string a map cur
  | inl next => next = page_base cur + 4096 ∧ cur < USER_LIMIT ∧
      (user_string a map next ↔ user_string a map cur)
  end.
Proof.
  intros Hc. unfold check_string_step.
  destruct (Z.leb_spec USER_LIMIT cur) as [Hl|Hl].
  { split; [done|]. intros (n & ? & ? & _). lia. }
  cbn zeta. destruct (page_ok a map (page_base cur) false) eqn:Hb; cbn [negb].
  2: { split; [done|]. intros (n & Hn & _ & _ & Hall). specialize (Hall cur ltac:(lia)).
       apply (user_access_page _ _ _ (page_base cur)), page_ok_spec in Hall;
         [congruence|by rewrite page_base_idem]. }
  apply page_ok_spec in Hb.
  assert (∀ x, page_base cur ≤ x < page_base cur + 4096 → user_access a map x false) as Hpage.
  { intros x Hx. apply (user_access_page _ _ _ (page_base cur)); [|done].
    rewrite page_base_idem, page_base_spec in *. rewrite page_base_spec. dlia. }
  pose proof (page_base_spec cur) as Hbase.
  destruct (search_cases (λ i, user_byte a map (cur + i) =? 0) (λ _, true) ()
    (Z.to_nat (page_base cur + 4096 - cur)) 0) as [[Heq Hno]|(j & Hj & Ht & Heq & _)];
    unfold search in Heq; rewrite Heq.
  - unfold USER_LIMIT in *. rewrite u64_small by dlia. split; [done|]. split; [done|].
    assert (cur < page_base cur + 4096 ∧ page_base cur ≤ cur) as Hcur by dlia.
    split; intros (n & Hn & Hlt & H0n & Hall).
    + exists (page_base cur + 4096 - cur + n).
      split_and!; [lia|lia|by replace (cur + _) with (page_base cur + 4096 + n) by lia|].
      intros x Hx. destruct (Z.lt_ge_cases x (page_base cur + 4096)); [apply Hpage|apply Hall]; lia.
    + destruct (Z.lt_ge_cases (cur + n) (page_base cur + 4096)) as [Hin|Hout].
      { specialize (Hno n ltac:(lia)). cbn in Hno. rewrite H0n in Hno. done. }
      exists (cur + n - (page_base cur + 4096)).
      split_and!; [lia|lia|by replace (page_base cur + 4096 + _) with (cur + n) by lia|].
      intros x Hx. apply Hall. lia.
  - split; [intros _|done]. apply Z.eqb_eq in Ht.
    assert (page_base cur ≤ cur ∧ cur + j < page_base cur + 4096) as Hcur by dlia.
    exists j. split_and!; [lia| |done|].
    + unfold USER_LIMIT in *. dlia.
    + intros x Hx. apply Hpage. lia.
Qed.

(** The byte a user load reads: the processor's own translation. *)
Definition load_byte a map (v : Z) : Z :=
  match lookup_page a map v with
  | Some e => rd8 (ram a) (table a (page_base e) + v .& 4095)
  | None => 0
  end.

Lemma vmm_check_user_string_spec a map vaddr :
  0 ≤ vaddr < 2 ^ 64 →
  vmm_check_user_string user_byte a map vaddr = true ↔ user_string a map vaddr.
Proof.
  intros Hv. unfold vmm_check_user_string.
  destruct (Z.leb_spec USER_LIMIT vaddr) as [Hl|Hl].
  { split; [done|]. intros (n & ? & ? & _). lia. }
  destruct (while_total (check_string_step user_byte a map)
    (λ cur, 0 ≤ cur ∧ cur ≤ USER_LIMIT + 4096 ∧ (user_string a map cur ↔ user_string a map vaddr))
    (λ r, r = true ↔ user_string a map vaddr)
    (λ cur, (USER_LIMIT + 8192 + 4095 - cur) / 4096) page_fuel vaddr) as (r & -> & Hr); [| | |done].
  - split_and!; [lia|lia|done].
  - intros cur (Hc & Hc2 & Heq). pose proof (check_string_step_spec a map cur Hc) as Hstep.
    destruct (check_string_step user_byte a map cur) as [next|r]; [|by rewrite Hstep].
    destruct Hstep as (-> & Hlt & Hus). rewrite page_base_spec in *. unfold USER_LIMIT in *.
    split; [|dlia]. split_and!; [dlia|dlia|]. by rewrite Hus.
  - unfold USER_LIMIT, page_fuel in *. dlia.
Qed.
End CheckString.

(** ** Releasing a page map *)

(** A page that may be given back. *)
Definition page_frame a (x : Z) : Prop := ∃ k, x = k * PAGE_SIZE ∧ usable a k.

(** [x] hangs under one of the first [n] entries of the table [t], at most
    [d] levels further down. *)
Fixpoint below (d : nat) a (n t x : Z) : Prop :=
  ∃ i c, 0 ≤ i < n ∧ sub a t i = Some c ∧
    (x = c ∨ match d with O => False | S d' => below d' a 512 c x end).

(** The allocator after giving back the pages of [P]. *)
Definition released (P : Z → Prop) a a' : Prop :=
  alloc_wf a' ∧ same_layout a a' ∧ ram_kept a a' ∧
  ∀ k, k ∈ free_set a' ↔ k ∈ free_set a ∨ P (k * PAGE_SIZE).

Lemma released_trans P Q R a1 a2 a3 :
  released P a1 a2 → released Q a2 a3 → (∀ x, R x ↔ P x ∨ Q x) → released R a1 a3.
Proof.
  intros (_ & Hl & Hk & HP) (Hwf & Hl' & Hk' & HQ) HR. split_and!; [done|by etransitivity| |].
  - intros x Hx. rewrite Hk', Hk; [done|done|]. by rewrite (proj2 (proj2 Hl)).
  - intros k. rewrite HQ, HP, HR. tauto.
Qed.

Lemma released_free a x :
  alloc_wf a → page_frame a x → released (λ y, y = x) a (free_page a x).
Proof.
  intros Hwf (k & -> & Hk). destruct (free_page_law a k Hwf Hk) as (? & ? & ? & Hf).
  split_and!; [done..|]. intros j. rewrite Hf. unfold PAGE_SIZE.
  rewrite elem_of_union, elem_of_singleton. split; intros [|]; auto; left + right; lia.
Qed.

(** Giving pages back leaves the tables readable. *)
Lemma page_frame_kept a a' x : same_layout a a' → page_frame a x → page_frame a' x.
Proof. intros Hl (k & -> & Hk). exists k. split; [done|]. by apply (usable_mono a). Qed.

Lemma ent_kept a a' t i :
  alloc_wf a → same_layout a a' → ram_kept a a' → page_frame a t → 0 ≤ i < 512 →
  ent a' t i = ent a t i.
Proof.
  intros Hwf Hl Hk (k & -> & Hu & Hp) Hi. unfold ent. rewrite (table_layout a a') by done.
  apply rd64_ext. intros x Hx. apply Hk, Hp.
  change (table a (k * PAGE_SIZE)) with (phystokv a (k * PAGE_SIZE)) in Hx.
  rewrite phystokv_small in Hx by (done || lia). unfold in_page, PAGE_SIZE in *. lia.
Qed.

Lemma sub_kept a a' t i :
  alloc_wf a → same_layout a a' → ram_kept a a' → page_frame a t → 0 ≤ i < 512 →
  sub a' t i = sub a t i.
Proof. intros. unfold sub. by rewrite (ent_kept a a'). Qed.

Lemma below_kept d a a' n t x :
  alloc_wf a → same_layout a a' → ram_kept a a' → n ≤ 512 → page_frame a t →
  (∀ y, below d a n t y → page_frame a y) → below d a' n t x ↔ below d a n t x.
Proof.
  intros Hwf Hl Hk. revert n t x. induction d as [|d IH]; intros n t x Hn Ht Hall; cbn.
  - split; intros (i & c & Hi & Hs & Hc); exists i, c; (split; [done|]);
      [rewrite (sub_kept a a') in Hs by (done || lia)|rewrite (sub_kept a a') by (done || lia)];
      done.
  - assert (∀ i c, 0 ≤ i < n → sub a t i = Some c → ∀ y, below d a' 512 c y ↔ below d a 512 c y)
      as Hsub.
    { intros i c Hi Hs y. apply IH; [done|apply Hall; exists i, c; auto|].
      intros z Hz. apply Hall. exists i, c. auto. }
    split; intros (i & c & Hi & Hs & Hc).
    + rewrite (sub_kept a a') in Hs by (done || lia). exists i, c. rewrite <- (Hsub i c) by done. done.
    + exists i, c. rewrite (sub_kept a a'), (Hsub i c) by (done || lia). done.
Qed.

(** The loop over [n] entries, given what the inner loops release. *)
Definition inner (d : nat) a t x : Prop := match d with O => False | S d' => below d' a 512 t x end.

Lemma below_entries d a n t x :
  below d a n t x ↔ ∃ i c, 0 ≤ i < n ∧ sub a t i = Some c ∧ (x = c ∨ inner d a c x).
Proof. by destruct d. Qed.

Lemma inner_kept d a a' t x :
  alloc_wf a → same_layout a a' → ram_kept a a' → page_frame a t →
  (∀ y, inner d a t y → page_frame a y) → inner d a' t x ↔ inner d a t x.
Proof. destruct d; [done|]. intros. by apply below_kept. Qed.

Lemma free_entries_spec d f (n : nat) a t :
  (∀ s u, alloc_wf s → page_frame s u → (∀ y, inner d s u y → page_frame s y) →
     released (inner d s u) s (f s (table s u))) →
  alloc_wf a → page_frame a t → Z.of_nat n ≤ 512 →
  (∀ y, below d a (Z.of_nat n) t y → page_frame a y) →
  released (below d a (Z.of_nat n) t) a (free_entries n f a (table a t)).
Proof.
  intros Hf Hwf Ht Hn Hall. unfold free_entries.
  rewrite <- (Z.add_0_l (Z.of_nat n)).
  apply (for_each_ind (λ i s, released (below d a i t) a s)).
  { split_and!; [done|done|done|]. intros k. rewrite below_entries. split; [by left|].
    intros [|(i & ? & ? & _)]; [done|lia]. }
  intros i s Hi Hrel. pose proof Hrel as (Hws & Hl & Hk & Hfr).
  rewrite <- (table_layout a s t Hl). change (rd64 (ram s) (table s t + 8 * i)) with (ent s t i).
  assert (page_frame s t) as Hts by by eapply page_frame_kept.
  destruct (has (ent s t i) PAGE_PRESENT) eqn:Hp.
  2: { split_and!; [done..|]. intros k. rewrite Hfr, !below_entries.
       assert (sub a t i = None) as Hnone.
       { rewrite <- (sub_kept a s) by (done || lia). unfold sub. by rewrite Hp. }
       split; (intros [|(j & c & Hj & Hs & Hc)]; [by left|right; exists j, c]);
         (split; [|done]); [lia|]. destruct (Z.eq_dec j i) as [->|]; [congruence|lia]. }
  set (c := page_base (ent s t i)).
  change (next_table s (table s t) i) with (table s c).
  assert (sub a t i = Some c) as Hsub.
  { rewrite <- (sub_kept a s) by (done || lia). unfold sub, c. by rewrite Hp. }
  assert (∀ y, y = c ∨ inner d a c y → page_frame a y) as Hgood.
  { intros y Hy. apply Hall, below_entries. exists i, c. split; [lia|done]. }
  assert (page_frame a c) as Hca by auto. assert (page_frame s c) as Hcs by by eapply page_frame_kept.
  assert (∀ y, inner d s c y ↔ inner d a c y) as Hin by (intros y; apply inner_kept; auto).
  assert (released (inner d s c) s (f s (table s c))) as Hrel2.
  { apply Hf; [done..|]. intros y. rewrite Hin. intros. eapply page_frame_kept; [done|]. auto. }
  pose proof Hrel2 as (Hws2 & Hl2 & Hk2 & _).
  set (s2 := f s (table s c)) in *. rewrite <- (table_layout s s2 t Hl2).
  change (rd64 (ram s2) (table s2 t + 8 * i)) with (ent s2 t i).
  rewrite (ent_kept s s2) by (done || lia). fold c.
  pose proof (released_free s2 c Hws2 (page_frame_kept _ _ _ Hl2 Hcs)) as Hrel3.
  apply (released_trans (below d a i t) (λ x, x = c ∨ inner d a c x) _ a s); [done| |].
  - apply (released_trans _ _ _ _ _ _ Hrel2 Hrel3). intros x. rewrite Hin. tauto.
  - intros x. rewrite !below_entries. split.
    + intros (j & c' & Hj & Hs & Hc). destruct (Z.eq_dec j i) as [->|].
      * right. congruence.
      * left. exists j, c'. split; [lia|done].
    + intros [(j & c' & Hj & Hs & Hc)|Hc]; [exists j, c'|exists i, c]; (split; [lia|done]).
Qed.

Lemma free_pt_spec a t :
  alloc_wf a → page_frame a t → (∀ y, inner 1 a t y → page_frame a y) →
  released (inner 1 a t) a (free_pt a (table a t)).
Proof.
  intros. apply (free_entries_spec 0 (λ s _, s) 512); [|done..].
  intros s u Hs Hu _. split_and!; [done..|]. intros k. cbn. tauto.
Qed.

Lemma free_pd_spec a t :
  alloc_wf a → page_frame a t → (∀ y, inner 2 a t y → page_frame a y) →
  released (inner 2 a t) a (free_pd a (table a t)).
Proof. intros. apply (free_entries_spec 1 free_pt 512); [apply free_pt_spec|done..]. Qed.

Lemma free_pdpt_spec a t :
  alloc_wf a → page_frame a t → (∀ y, inner 3 a t y → page_frame a y) →
  released (inner 3 a t) a (free_pdpt a (table a t)).
Proof. intros. apply (free_entries_spec 2 free_pd 512); [apply free_pd_spec|done..]. Qed.

(** Everything a page map holds: its tables and the pages mapped by it. *)
Definition holds a map (x : Z) : Prop :=
  x = map ∨ (∃ p, upath p ∧ descend (sub a) map p = Some x) ∨
  ∃ v e, 0 ≤ v < USER_LIMIT ∧ lookup_page a map v = Some e ∧ x = page_base e.

Lemma below_path d a n t x :
  below d a n t x ↔
  ∃ i p, 0 ≤ i < n ∧ (length p ≤ d)%nat ∧ Forall (λ j, 0 ≤ j < 512) p ∧
    descend (sub a) t (i :: p) = Some x.
Proof.
  revert n t x. induction d as [|d IH]; intros n t x; rewrite below_entries; cbn [inner].
  - split.
    + intros (i & c & Hi & Hs & [->|[]]). exists i, []. cbn. rewrite Hs. auto.
    + intros (i & [|] & Hi & Hl & _ & Hd); cbn in *; [|lia].
      destruct (sub a t i) as [c|] eqn:Hs; [|done]. injection Hd as ->. exists i, x. auto.
  - split.
    + intros (i & c & Hi & Hs & [->|Hb]).
      * exists i, []. cbn. rewrite Hs. split_and!; [lia|lia|lia|constructor|done].
      * apply IH in Hb as (j & p & Hj & Hl & Hf & Hd). exists i, (j :: p).
        split; [done|]. split; [cbn; lia|]. split; [by constructor|]. cbn in *. by rewrite Hs.
    + intros (i & p & Hi & Hl & Hf & Hd). cbn in Hd. destruct (sub a t i) as [c|] eqn:Hs; [|done].
      exists i, c. split; [done|]. split; [done|]. destruct p as [|j p].
      * left. cbn in Hd. congruence.
      * right. apply IH. apply Forall_cons_1 in Hf as [Hj Hf]. exists j, p.
        split; [done|]. split; [cbn in Hl; lia|]. done.
Qed.

(** The address with given table indices. *)
Lemma idx_make i4 i3 i2 i1 :
  0 ≤ i4 < 256 → 0 ≤ i3 < 512 → 0 ≤ i2 < 512 → 0 ≤ i1 < 512 →
  ∃ v, 0 ≤ v < USER_LIMIT ∧ pml4_idx v = i4 ∧ pdpt_idx v = i3 ∧ pd_idx v = i2 ∧ pt_idx v = i1.
Proof.
  intros. exists ((((i4 * 512 + i3) * 512 + i2) * 512 + i1) * 4096).
  unfold pml4_idx, pdpt_idx, pd_idx, pt_idx, USER_LIMIT. rewrite !idx_spec by lia.
  split_and!; dlia.
Qed.

Lemma lookup_page_path a map v :
  lookup_page a map v =
  match descend (sub a) map (vpath v) with
  | Some t => if has (ent a t (pt_idx v)) PAGE_PRESENT then Some (ent a t (pt_idx v)) else None
  | None => None
  end.
Proof. done. Qed.

Lemma below_holds a map x : x = map ∨ below 3 a 256 map x ↔ holds a map x.
Proof.
  unfold holds. rewrite below_path. split.
  - intros [?|(i & p & Hi & Hl & Hf & Hd)]; [by left|right].
    destruct (decide (length p ≤ 2)%nat) as [Hl2|Hl3].
    + left. exists (i :: p). split; [|done]. split; [cbn; lia|]. split; [|lia].
      constructor; [lia|done].
    + destruct p as [|j3 [|j2 [|j1 [|]]]]; cbn in Hl, Hl3; try lia.
      apply Forall_cons_1 in Hf as [H3 Hf]. apply Forall_cons_1 in Hf as [H2 Hf].
      apply Forall_cons_1 in Hf as [H1' _].
      destruct (idx_make i j3 j2 j1 Hi H3 H2 H1') as (v & Hv & E4 & E3 & E2 & E1).
      change [i; j3; j2; j1] with ([i; j3; j2] ++ [j1]) in Hd. rewrite descend_snoc in Hd.
      right. exists v. unfold lookup_page, vpath. rewrite E4, E3, E2, E1.
      destruct (descend (sub a) map [i; j3; j2]) as [t|]; [|done].
      unfold sub in Hd. destruct (has (ent a t j1) PAGE_PRESENT); [|done].
      injection Hd as <-. eexists. split; [done|]. split; [done|done].
  - intros [?|[(p & (Hl & Hf & Hh) & Hd)|(v & e & Hv & Hlk & ->)]]; [by left| |].
    + destruct p as [|i p]; [left; cbn in Hd; congruence|right].
      apply Forall_cons_1 in Hf as [Hi Hf]. exists i, p. split; [lia|].
      split; [cbn in Hl; lia|]. done.
    + right. pose proof (idx_range v) as (H4 & H3 & H2 & H1').
      pose proof (pml4_idx_user v Hv). rewrite lookup_page_path in Hlk.
      exists (pml4_idx v), [pdpt_idx v; pd_idx v; pt_idx v].
      split; [lia|]. split; [cbn; lia|]. split; [by repeat constructor; lia|].
      change (pml4_idx v :: [pdpt_idx v; pd_idx v; pt_idx v]) with (vpath v ++ [pt_idx v]).
      rewrite descend_snoc. destruct (descend (sub a) map (vpath v)) as [t|]; [|done].
      unfold sub. destruct (has _ _); [|done]. by injection Hlk as <-.
Qed.

Lemma vmm_free_pagemap_spec a map :
  alloc_wf a → map ≠ 0 → (∀ x, holds a map x → page_frame a x) →
  released (holds a map) a (vmm_free_pagemap a map).
Proof.
  intros Hwf H0' Hall. unfold vmm_free_pagemap.
  rewrite (proj2 (Z.eqb_neq map 0) H0'). cbn zeta.
  assert (page_frame a map) as Hmap by (apply Hall; by left).
  pose proof (free_entries_spec 3 free_pdpt 256 a map free_pdpt_spec Hwf Hmap ltac:(lia)) as Hr.
  change (Z.of_nat 256) with 256 in Hr.
  assert (released (below 3 a 256 map) a (free_entries 256 free_pdpt a (table a map))) as Hrel.
  { apply Hr. intros y Hy. apply Hall, below_holds. by right. }
  pose proof Hrel as (Hwf' & Hl & _).
  apply (released_trans _ _ _ _ _ _ Hrel
    (released_free _ map Hwf' (page_frame_kept _ _ _ Hl Hmap))).
  intros x. rewrite <- below_holds. tauto.
Qed.

(** ** A new page map *)

(** The loop that copies the kernel half. *)
Lemma copy_kernel_half m pv kp :
  (∀ i j, 256 ≤ i < 512 → 256 ≤ j < 512 → kp + 8 * i + 8 ≤ pv + 8 * j ∨ pv + 8 * j + 8 ≤ kp + 8 * i) →
  let m' := for_each 256 256
              (λ i m, wr64 m (pv + 8 * i) (rd64 m (kp + 8 * i))) m in
  same_outside (pv + 8 * 256) (8 * 256) m m' ∧
  ∀ j, 256 ≤ j < 512 → rd64 m' (pv + 8 * j) = rd64 m (kp + 8 * j).
Proof.
  intros Hdis. cbn zeta.
  pose (P i m' := same_outside (pv + 8 * 256) (8 * 256) m m' ∧
    (∀ j, 256 ≤ j < 512 → rd64 m' (kp + 8 * j) = rd64 m (kp + 8 * j)) ∧
    ∀ j, 256 ≤ j < i → rd64 m' (pv + 8 * j) = rd64 m (kp + 8 * j)).
  assert (P (256 + Z.of_nat 256) (for_each 256 256
              (λ i m, wr64 m (pv + 8 * i) (rd64 m (kp + 8 * i))) m)) as (? & _ & ?); [|done].
  apply for_each_ind; [split; [done|split; [done|lia]]|].
  intros i m' Hi (Hout & Hsrc & Hdone). change (Z.of_nat 256) with 256 in Hi. split_and!.
  - etransitivity; [exact Hout|].
    eapply same_outside_mono; [apply (wr_le_outside 8)|lia|lia].
  - intros j Hj. rewrite <- (Hsrc j Hj). apply rd64_wr64_ne. destruct (Hdis j i); lia.
  - intros j Hj. destruct (Z.eq_dec j i) as [->|].
    + rewrite rd64_wr64_eq by apply rd64_range. apply Hsrc. lia.
    + rewrite <- (Hdone j) by lia. apply rd64_wr64_ne. lia.
Qed.

(** The kernel's own page map, as [kernel_pml4] points to it: not in the
    allocator's data, not in a free frame. *)
Definition kernel_table a (kernel_pml4 : Z) : Prop :=
  ∃ k, kernel_pml4 = table a k ∧ table_frame a k.

(** A root table with an empty user half is a whole page map. *)
Section EmptyRoot.
Context a (root : Z).
Hypothesis Hroot : table_frame a root.
Hypothesis Hlow : ∀ i, 0 ≤ i < 256 → ent a root i = 0.

Lemma empty_root_path p t : upath p → descend (sub a) root p = Some t → p = [].
Proof.
  destruct p as [|i p]; intros (_ & Hf & Hi); [done|]. cbn. apply Forall_cons_1 in Hf as [Hi0 _].
  unfold sub at 1. by rewrite Hlow by lia.
Qed.

Lemma empty_root_wf : pagemap_wf a root.
Proof.
  split.
  - intros p t Hp Hd. pose proof (empty_root_path _ _ Hp Hd) as ->. by injection Hd as <-.
  - intros p q t Hp Hq Hd1 Hd2.
    by rewrite (empty_root_path _ _ Hp Hd1), (empty_root_path _ _ Hq Hd2).
Qed.

Lemma empty_root_tables x : is_table a root x → x = root.
Proof. intros (p & Hp & Hd). rewrite (empty_root_path p x Hp Hd) in Hd. by injection Hd. Qed.

Lemma empty_root_lookup w : 0 ≤ w < USER_LIMIT → lookup_page a root w = None.
Proof.
  intros Hw. unfold lookup_page. destruct (descend _ _ (vpath w)) eqn:Hd; [|done].
  by apply (empty_root_path _ _ (upath_vpath w Hw)) in Hd.
Qed.
End EmptyRoot.

Lemma vmm_new_pagemap_spec a kernel_pml4 :
  alloc_wf a → kernel_table a kernel_pml4 → free_set a ≠ ∅ →
  ∃ k a', vmm_new_pagemap a kernel_pml4 = (k * PAGE_SIZE, a') ∧ k ∈ free_set a ∧
    alloc_wf a' ∧ same_layout a a' ∧ free_set a' = free_set a ∖ {[k]} ∧
    pagemap_wf a' (k * PAGE_SIZE) ∧ (∀ x, is_table a' (k * PAGE_SIZE) x → x = k * PAGE_SIZE) ∧
    (∀ v, 0 ≤ v < USER_LIMIT → lookup_page a' (k * PAGE_SIZE) v = None) ∧
    (∀ i, 256 ≤ i < 512 → ent a' (k * PAGE_SIZE) i = rd64 (ram a) (kernel_pml4 + 8 * i)) ∧
    (∀ u, table_frame a u → table_frame a' u ∧ ∀ j, 0 ≤ j < 512 → ent a' u j = ent a u j).
Proof.
  intros Hwf (kt & -> & Hkt) Hfree. unfold vmm_new_pagemap.
  destruct (zeroed_frame_spec a Hwf Hfree)
    as (k & a2 & Hz & Hk & Hwf2 & Hl2 & Hset & Htk & Hzero & Hold).
  unfold zeroed_frame in Hz. destruct (alloc_page a) as [p a1] eqn:Ha1. injection Hz as -> Ha2.
  pose proof (free_set_usable a k Hwf Hk) as [Hkr _].
  destruct (Z.eqb_spec (k * PAGE_SIZE) 0) as [E|_]; [unfold PAGE_SIZE in E; lia|].
  cbn zeta. rewrite Ha2.
  assert (hhdm a1 = hhdm a2) as Hh.
  { rewrite <- Ha2. symmetry. apply set_ram_layout. }
  rewrite Hh. change (u64 (k * PAGE_SIZE + hhdm a2)) with (table a2 (k * PAGE_SIZE)).
  rewrite <- (table_layout a a2 kt Hl2). destruct (Hold kt Hkt) as [Hkt2 _].
  assert (kt ≠ k * PAGE_SIZE) as Hne by by apply (table_frame_free a).
  destruct (copy_kernel_half (ram a2) (table a2 (k * PAGE_SIZE)) (table a2 kt)) as [Hout Hcopy].
  { intros i j Hi Hj. rewrite !table_small by done.
    destruct (table_frame_apart a2 kt _ Hkt2 Htk) as [?|]; [done|lia]. }
  set (m' := for_each 256 256 _ (ram a2)) in *.
  rewrite (table_small a2 (k * PAGE_SIZE)) in Hout by done.
  assert (same_outside (hhdm a2 + k * PAGE_SIZE) PAGE_SIZE (ram a2) m') as Hpage.
  { eapply same_outside_mono; [exact Hout|lia|unfold PAGE_SIZE; lia]. }
  assert (usable a2 k) as Hu2 by by (apply (usable_mono a); [|apply free_set_usable]).
  destruct (set_ram_in_page a2 m' k Hwf2 Hu2 Hpage) as [Hwf3 Hfs3].
  pose proof (set_ram_layout a2 m') as Hl3. set (a3 := set_ram a2 m') in *.
  assert (∀ u, table_frame a2 u → table_frame a3 u) as Hkeep.
  { intros u (j & -> & Hj & Hnf). exists j. split; [done|]. split; [by apply (usable_mono a2)|].
    by rewrite Hfs3. }
  assert (∀ t, table a3 t = table a2 t) as Htab by (intros; by apply table_layout).
  assert (∀ i, 0 ≤ i < 256 → ent a3 (k * PAGE_SIZE) i = 0) as Hlow.
  { intros i Hi. unfold ent, a3. rewrite ram_set_ram, Htab. rewrite <- (Hzero i) by lia.
    apply (same_outside_rd64 _ _ _ _ _ Hout). rewrite table_small by done. lia. }
  exists k, a3. split; [done|]. split_and!; [done|done|by etransitivity|by rewrite Hfs3|by apply empty_root_wf; [apply Hkeep|]
    |by apply empty_root_tables|by apply empty_root_lookup| |].
  - intros i Hi. unfold ent, a3. rewrite ram_set_ram, Htab, (Hcopy i Hi).
    destruct (Hold kt Hkt) as [_ He]. specialize (He i ltac:(lia)).
    unfold ent in He. rewrite He. by rewrite (table_layout a a2 kt Hl2).
  - intros u Hu. destruct (Hold u Hu) as [Hu2' He]. split; [by apply Hkeep|].
    intros j Hj. rewrite <- (He j Hj). unfold ent, a3. rewrite ram_set_ram, Htab.
    apply (same_outside_rd64 _ _ _ _ _ Hpage). rewrite table_small by done.
    pose proof (table_frame_free a u k Hu Hk) as Hnu.
    destruct Hu as (ku & -> & _). unfold PAGE_SIZE in *. lia.
Qed.

(** ** Properties *)

(** C20. [vmm_map_page] makes the page of [vaddr] translate to the page of
    [paddr] with the given flags plus the present bit, changes the translation
    of no other user page, keeps the page map a tree of tables that share no
    frame, and uses at most three frames, when three frames are free. *)
Theorem map_page_correct a map vaddr paddr flags :
  alloc_wf a → pagemap_wf a map → 0 ≤ vaddr < USER_LIMIT → 0 ≤ paddr < 2 ^ 64 →
  0 ≤ flags < 4096 → (3 ≤ size (free_set a))%nat →
  let a' := vmm_map_page a map vaddr paddr flags in
  alloc_wf a' ∧ pagemap_wf a' map ∧
  free_set a' ⊆ free_set a ∧ (size (free_set a) ≤ 3 + size (free_set a'))%nat ∧
  (∃ e, (∀ w, 0 ≤ w < USER_LIMIT → page_base w = page_base vaddr → lookup_page a' map w = Some e) ∧
     page_base e = page_base paddr ∧ has e PAGE_PRESENT = true ∧
     ∀ k, 0 < k < 12 → Z.testbit e k = Z.testbit flags k) ∧
  ∀ w, 0 ≤ w < USER_LIMIT → page_base w ≠ page_base vaddr →
    lookup_page a' map w = lookup_page a map w.
Proof.
  intros Hwf Hpm Hv Hp Hf Hn a'.
  destruct (vmm_map_page_spec a map vaddr paddr flags Hwf Hpm Hv Hp Hf Hn)
    as (Hwf' & Hg & Hsize & Hpm' & Hlk). pose proof (gr_free _ _ _ Hg) as Hsub.
  destruct (leaf_value_ok paddr flags Hp Hf) as (_ & Hpres & Hbase & Hbits).
  split_and!; [done..| |].
  - exists (leaf_value paddr flags). split; [|done]. intros w Hw He.
    unfold a'. by rewrite Hlk, decide_True.
  - intros w Hw Hne. unfold a'. by rewrite Hlk, decide_False.
Qed.

(** When no frame is left, the table that [vmm_map_page] hangs under an
    absent entry is physical page 0: the NULL result of the allocator is not
    tested, and the code goes on writing entries into that page. *)
Theorem map_page_out_of_memory a t i :
  alloc_wf a → free_set a = ∅ → table_frame a t → 0 ≤ i < 512 →
  has (ent a t i) PAGE_PRESENT = false →
  let a' := ensure_table a (table a t) i in
  ent a' t i = 7 ∧ next_table a' (table a t) i = table a 0.
Proof.
  intros Hwf Hnone Ht Hi Habs. cbn zeta. unfold ensure_table. unfold ent in Habs. rewrite Habs.
  destruct (alloc_page a) as [p a1] eqn:Ha1.
  destruct (alloc_page_law _ _ _ Hwf Ha1)
    as (Hwf1 & Hl1 & Hk1 & [(-> & _ & _)|(k & -> & Hk & _)]); [|set_solver].
  change (0 .| PAGE_PRESENT .| PAGE_WRITE .| PAGE_USER) with 7. cbn zeta.
  set (a2 := set_ram a1 _). assert (same_layout a a2) as Hl2
    by (etransitivity; [exact Hl1|apply set_ram_layout]).
  set (a3 := set_ram a2 _). assert (same_layout a a3) as Hl3
    by (etransitivity; [exact Hl2|apply set_ram_layout]).
  assert (ent a3 t i = 7) as He.
  { unfold ent. rewrite (table_layout a a3) by done. unfold a3. rewrite ram_set_ram.
    by apply rd64_wr64_eq. }
  split; [done|]. unfold next_table. unfold ent in He. rewrite (table_layout a a3) in He by done.
  rewrite He. unfold table. by rewrite (proj1 Hl3).
Qed.

(** C15. [vmm_check_user_ptr] accepts a range exactly when it is empty or ends
    strictly below the user limit and every byte of it is mapped for user code, with
    the write flag if writing was asked for; in particular the loop over the
    pages always ends. *)
Theorem check_user_ptr_correct a cr3 vaddr size wr :
  0 ≤ vaddr < 2 ^ 64 → 0 ≤ size < 2 ^ 64 →
  vmm_check_user_ptr a cr3 vaddr size wr = true ↔
  size = 0 ∨ vaddr + size < USER_LIMIT ∧
    ∀ x, vaddr ≤ x < vaddr + size → user_access a cr3 x wr.
Proof. apply vmm_check_user_ptr_spec. Qed.

(** C33. [vmm_check_user_string] accepts exactly the addresses from which a NUL
    byte is reached below the user limit over pages mapped for user code; it
    always ends. *)
Theorem check_user_string_correct (user_byte : St → Z → Z → Z) a cr3 vaddr :
  0 ≤ vaddr < 2 ^ 64 →
  vmm_check_user_string user_byte a cr3 vaddr = true ↔ user_string user_byte a cr3 vaddr.
Proof. apply vmm_check_user_string_spec. Qed.

(** A new page map is a frame of its own with an empty user half and the
    kernel half of the kernel's page map; no existing table changes. *)
Theorem new_pagemap_correct a kernel_pml4 :
  alloc_wf a → kernel_table a kernel_pml4 → free_set a ≠ ∅ →
  ∃ k a', vmm_new_pagemap a kernel_pml4 = (k * PAGE_SIZE, a') ∧ k ∈ free_set a ∧
    alloc_wf a' ∧ free_set a' = free_set a ∖ {[k]} ∧
    pagemap_wf a' (k * PAGE_SIZE) ∧
    (∀ v, 0 ≤ v < USER_LIMIT → lookup_page a' (k * PAGE_SIZE) v = None) ∧
    (∀ i, 256 ≤ i < 512 → ent a' (k * PAGE_SIZE) i = rd64 (ram a) (kernel_pml4 + 8 * i)) ∧
    (∀ u, table_frame a u → table_frame a' u ∧ ∀ j, 0 ≤ j < 512 → ent a' u j = ent a u j).
Proof.
  intros Hwf Hk Hf. destruct (vmm_new_pagemap_spec a kernel_pml4 Hwf Hk Hf)
    as (k & a' & ? & ? & ? & _ & ? & ? & _ & ? & ? & ?).
  exists k, a'. split_and!; done.
Qed.

(** C25. [vmm_free_pagemap] gives back exactly what the page map holds, its
    tables at all four levels and the pages mapped in its user half, and
    nothing else; the rest of memory keeps its contents. *)
Theorem free_pagemap_exact a map :
  alloc_wf a → map ≠ 0 → (∀ x, holds a map x → page_frame a x) →
  let a' := vmm_free_pagemap a map in
  alloc_wf a' ∧ ram_kept a a' ∧
  ∀ k, k ∈ free_set a' ↔ k ∈ free_set a ∨ holds a map (k * PAGE_SIZE).
Proof.
  intros Hwf Hm Hall. destruct (vmm_free_pagemap_spec a map Hwf Hm Hall) as (? & _ & ? & ?).
  split_and!; done.
Qed.
End PageMaps.
