(* ===== verification/Machine.v ===== *)
(** A small concrete machine: eight frames, a page map with one user page, a
    heap. The theorems about the heap and the page maps are applied to it here,
    with the bitmap allocator of Pmm.v as the page allocator. *)

From S2P Require Import Pmm Heap Vmm.

Definition BASE : Z := 140737488355328.

(** Eight frames with the given bitmap byte (at the start of frame 0), [nfree]
    clear bits in it, and 64-bit words stored at physical addresses. *)
Definition machine (bitmap nfree : Z) (words : list (Z * Z)) : pmm :=
  mk_pmm BASE BASE (4096 * nfree) 8 5
    (fold_left (λ m '(p, v), wr64 m (BASE + p) v) words {[ BASE := bitmap ]}).

(** A page map of four tables in frames 1 to 4 that maps the page at 0x400000
    to frame 5; frames 6 and 7 are free. *)
Definition one_page : pmm :=
  machine 63 2 [(4096, 8192 + 7); (8192, 12288 + 7); (12288 + 8 * 2, 16384 + 7); (16384, 20480 + 7)].

(** A bare page map in frame 1. *)
Definition bare : pmm := machine 3 6 [].

(** The same with no free frame. *)
Definition full : pmm := machine 255 0 [].

(** A frame is free when its bit is clear. *)
Lemma machine_free b n ws i :
  (∀ k, In k [0; 1; 2; 3; 4; 5; 6; 7] → bitmap_test (machine b n ws) k = Z.testbit b k) →
  i ∈ free_set (machine b n ws) ↔ 0 ≤ i < 8 ∧ Z.testbit b i = false.
Proof.
  intros Hb. cbn [free_set pmm_allocator]. rewrite elem_of_free_frames.
  change (pmm_highest_page (machine b n ws)) with 8.
  assert (0 ≤ i < 8 → bitmap_test (machine b n ws) i = Z.testbit b i) as Hi.
  { intros Hi. apply Hb. cbn. lia. }
  split; intros [Hr Hf]; (split; [done|]); rewrite Hi in * by done; done.
Qed.

Ltac eight := cbn [In]; intros k Hk; repeat destruct Hk as [<-|Hk]; [reflexivity..|destruct Hk].

Lemma one_page_free i : i ∈ free_set one_page ↔ 6 ≤ i < 8.
Proof.
  unfold one_page. rewrite machine_free by eight. split.
  - intros [Hi Hb]. assert (i = 0 ∨ i = 1 ∨ i = 2 ∨ i = 3 ∨ i = 4 ∨ i = 5 ∨ 6 ≤ i) as Hc by lia.
    repeat destruct Hc as [->|Hc]; try done. lia.
  - intros Hi. assert (i = 6 ∨ i = 7) as [-> | ->] by lia; done.
Qed.

Lemma bare_free i : i ∈ free_set bare ↔ 2 ≤ i < 8.
Proof.
  unfold bare. rewrite machine_free by eight. split.
  - intros [Hi Hb]. assert (i = 0 ∨ i = 1 ∨ 2 ≤ i) as Hc by lia.
    repeat destruct Hc as [->|Hc]; try done. lia.
  - intros Hi. assert (i = 2 ∨ i = 3 ∨ i = 4 ∨ i = 5 ∨ i = 6 ∨ i = 7) as Hc by lia.
    by repeat destruct Hc as [->|Hc]; subst.
Qed.

Lemma full_free i : i ∉ free_set full.
Proof.
  unfold full. rewrite machine_free by eight. intros [Hi Hb].
  assert (i = 0 ∨ i = 1 ∨ i = 2 ∨ i = 3 ∨ i = 4 ∨ i = 5 ∨ i = 6 ∨ i = 7) as Hc by lia.
  by repeat destruct Hc as [->|Hc]; subst.
Qed.

Lemma machine_wf b n ws :
  (∀ k, In k [0; 1; 2; 3; 4; 5; 6; 7] → bitmap_test (machine b n ws) k = Z.testbit b k) →
  Z.testbit b 0 = true → n = Z.of_nat (size (free_frames (machine b n ws))) →
  alloc_wf (machine b n ws).
Proof.
  intros Hb H0 Hn. assert (0 ∉ free_set (machine b n ws)) as Hz.
  { rewrite machine_free by done. rewrite H0. by intros [_ ?]. }
  split; [done|done|done|exact Hz| |].
  2: { cbn [pmm_free_memory machine]. by rewrite Hn at 1. }
  intros i x Hi. assert (i ≠ 0) by by intros ->.
  apply elem_of_free_frames in Hi as [Hi _]. change (pmm_highest_page _) with 8 in Hi.
  unfold in_page, in_bitmap, PAGE_SIZE. cbn. change ((8 + 7) / 8) with 1. unfold BASE. lia.
Qed.

Lemma one_page_wf : alloc_wf one_page.
Proof. apply machine_wf; [eight|done|done]. Qed.
Lemma bare_wf : alloc_wf bare.
Proof. apply machine_wf; [eight|done|done]. Qed.
Lemma full_wf : alloc_wf full.
Proof. apply machine_wf; [eight|done|done]. Qed.

Lemma machine_usable b n ws k : 0 < k < 8 → usable (machine b n ws) k.
Proof.
  intros Hk. split; [exact Hk|]. intros x. unfold in_page, PAGE_SIZE.
  cbn. unfold in_bitmap. cbn. change ((8 + 7) / 8) with 1. unfold BASE. lia.
Qed.

Lemma table_frame_1 b n ws :
  1 ∉ free_set (machine b n ws) → table_frame (machine b n ws) 4096.
Proof. intros Hf. exists 1. split; [done|]. split; [by apply machine_usable|done]. Qed.

(** The bare page map holds its root only. *)
Lemma bare_ent b n i : 0 ≤ i < 512 → ent (machine b n []) 4096 i = 0.
Proof.
  intros Hi. unfold ent. change (table (machine b n []) 4096) with (BASE + 4096).
  apply rd64_zero. intros x Hx. change (ram _) with ({[ BASE := b ]} : mem).
  unfold rd8. rewrite (lookup_singleton_ne BASE) by lia. done.
Qed.

Lemma bare_descend b n p t :
  upath p → descend (sub (machine b n [])) 4096 p = Some t → p = [] ∧ t = 4096.
Proof.
  destruct p as [|i p]; [by intros _ [= <-]|]. intros (_ & Hf & _).
  apply Forall_cons_1 in Hf as [Hi _]. cbn [descend]. unfold sub at 1. by rewrite bare_ent.
Qed.

Lemma bare_pagemap b n : 1 ∉ free_set (machine b n []) → pagemap_wf (machine b n []) 4096.
Proof.
  intros Hf. split.
  - intros p t Hp [_ ->]%bare_descend; [|done]. by apply table_frame_1.
  - intros p q t Hp Hq [-> _]%bare_descend [-> _]%bare_descend; done.
Qed.

Lemma bare_holds b n x : holds (machine b n []) 4096 x → x = 4096.
Proof.
  intros [->|[(p & Hp & Hd)|(v & e & Hv & Hlk & _)]]; [done| |].
  - by apply bare_descend in Hd as [_ ->].
  - rewrite lookup_page_path in Hlk.
    destruct (descend _ 4096 (vpath v)) eqn:Hd; [|done].
    by apply bare_descend in Hd as [? _]; [|apply upath_vpath].
Qed.

(** ** The heap *)

Lemma boot_heap_inv : heap_inv (heap_init demo_pmm) [].
Proof.
  split; [exact demo_pmm_wf|try done..].
  all: constructor.
Qed.

Lemma kmalloc_fresh_witness :
  ∃ p h', kmalloc (heap_init demo_pmm) 24 = (p, h') ∧ fresh_block (heap_init demo_pmm) h' p 24 [].
Proof.
  destruct (kmalloc (heap_init demo_pmm) 24) as [p h'] eqn:Heq. exists p, h'. split; [done|].
  destruct (kmalloc_fresh (heap_init demo_pmm) 24 p h' [] boot_heap_inv ltac:(split; reflexivity || discriminate) Heq)
    as [(_ & _ & Hn)|Hf]; [|exact Hf].
  exfalso. unfold no_room in Hn. change (align8 24) with 24 in Hn.
  rewrite decide_True in Hn by discriminate. destruct Hn as [Hn _].
  assert (1 ∈ free_set demo_pmm) as H1 by (apply demo_free; lia).
  cbn [pages heap_init] in Hn. rewrite Hn in H1. by apply not_elem_of_empty in H1.
Defined.

Lemma kmalloc_wraps_witness :
  let h := mk_heap (BASE + 4096) 8 demo_pmm in
  kmalloc h 18446744073709551615 = (BASE + 4104, h) ∧ (kmalloc h 8).1 = BASE + 4104.
Proof.
  cbn zeta. split; [reflexivity|].
  apply (kmalloc_wraps (mk_heap (BASE + 4096) 8 demo_pmm) 18446744073709551615 8);
    try split; cbn; lia || discriminate || reflexivity.
Defined.

(** ** Page maps *)

Lemma one_not_free b n ws :
  (∀ k, In k [0; 1; 2; 3; 4; 5; 6; 7] → bitmap_test (machine b n ws) k = Z.testbit b k) →
  Z.testbit b 1 = true → 1 ∉ free_set (machine b n ws).
Proof. intros Hb H1. rewrite machine_free by done. rewrite H1. by intros [_ ?]. Qed.

Lemma bare_tree : pagemap_wf bare 4096.
Proof. apply bare_pagemap, one_not_free; [eight|done]. Qed.

Lemma map_page_correct_witness :
  ∃ e, lookup_page (vmm_map_page bare 4096 4194304 28672 6) 4096 4194304 = Some e ∧
    page_base e = 28672.
Proof.
  assert (size (free_set bare) = 6%nat) as Hsize by reflexivity.
  destruct (map_page_correct bare 4096 4194304 28672 6 bare_wf bare_tree
    ltac:(unfold USER_LIMIT; lia) ltac:(lia) ltac:(lia) ltac:(rewrite Hsize; lia))
    as (_ & _ & _ & _ & (e & He & Hb & _) & _).
  exists e. split; [apply He; [unfold USER_LIMIT; lia|reflexivity]|exact Hb].
Defined.

Lemma map_page_out_of_memory_witness :
  ent (ensure_table full (table full 4096) 0) 4096 0 = 7.
Proof.
  apply (map_page_out_of_memory full 4096 0 full_wf).
  - apply set_eq. intros i. split; [|intros Hi; by apply not_elem_of_empty in Hi].
    intros Hi. by apply full_free in Hi.
  - apply table_frame_1, full_free.
  - lia.
  - unfold full. by rewrite bare_ent by lia.
Defined.

Lemma check_user_ptr_correct_witness : user_access one_page 4096 4198399 true.
Proof.
  assert (vmm_check_user_ptr one_page 4096 4194400 4000 true = true) as Hc
    by (vm_compute; reflexivity).
  apply check_user_ptr_correct in Hc as [Hs|[_ Hx]]; [discriminate|apply Hx; lia|lia|lia].
Defined.

Lemma check_user_string_correct_witness : user_string load_byte one_page 4096 4198000.
Proof.
  apply (check_user_string_correct load_byte one_page 4096 4198000); [lia|].
  vm_compute. reflexivity.
Defined.

Lemma new_pagemap_correct_witness :
  ∃ k a', vmm_new_pagemap bare (BASE + 4096) = (k * PAGE_SIZE, a') ∧
    alloc_wf a' ∧ pagemap_wf a' (k * PAGE_SIZE).
Proof.
  assert (kernel_table bare (BASE + 4096)) as Hk.
  { exists 4096. split; [reflexivity|]. apply table_frame_1, one_not_free; [eight|done]. }
  assert (free_set bare ≠ ∅) as Hf.
  { intros Hn. assert (2 ∈ free_set bare) as H2 by (apply bare_free; lia).
    rewrite Hn in H2. by apply not_elem_of_empty in H2. }
  pose proof (new_pagemap_correct bare (BASE + 4096) bare_wf Hk Hf) as Hc.
  revert Hc. generalize (vmm_new_pagemap bare (BASE + 4096)). intros r Hc.
  destruct Hc as (k & a' & He & _ & Hw & _ & Hp & _).
  exists k, a'. split; [exact He|]. split; [exact Hw|exact Hp].
Defined.

Lemma free_pagemap_exact_witness : 1 ∈ free_set (vmm_free_pagemap bare 4096).
Proof.
  apply (free_pagemap_exact bare 4096 bare_wf); [lia| |].
  - intros x Hx. unfold bare in Hx. apply bare_holds in Hx as ->. exists 1.
    split; [reflexivity|]. apply machine_usable. lia.
  - right. left. reflexivity.
Defined.
