(* ===== verification/Io.v ===== *)
(** Characters, strings and port I/O as the driver and tool files use them.

    A character is its code; a [char] is signed, so codes from 128 on are
    stored as negative numbers ([s8]). A string literal is the list of its
    character codes. [Ports] lists the I/O instructions of src/hal/io.h on an
    abstract machine; what a device answers is not part of the sources. *)

From Stdlib Require Export Ascii String.
From S2P Require Export Prelude.
Open Scope Z_scope.

Definition code (a : ascii) : Z := Z.of_N (N_of_ascii a).
Coercion code : ascii >-> Z.
Fixpoint str (s : string) : list Z :=
  match s with
  | EmptyString => []
  | String a s' => code a :: str s'
  end.

(** Element [i] of an array; reading outside is not defined in C, the callers
    are proved to stay inside. *)
Definition at_ (l : list Z) (i : Z) : Z := nth (Z.to_nat i) l 0.

(** [a[i] = v] inside the array. *)
Definition upd (l : list Z) (i v : Z) : list Z := <[Z.to_nat i := v]> l.

Lemma at_upd l i j v :
  0 ≤ i < Z.of_nat (length l) → 0 ≤ j →
  at_ (upd l i v) j = if decide (i = j) then v else at_ l j.
Proof.
  intros Hi Hj. unfold at_, upd. rewrite !nth_lookup. case_decide.
  - subst j. by rewrite list_lookup_insert_eq by lia.
  - by rewrite list_lookup_insert_ne by lia.
Qed.

Lemma at_upd_eq l i v : 0 ≤ i < Z.of_nat (length l) → at_ (upd l i v) i = v.
Proof. intros. rewrite at_upd by lia. by rewrite decide_True. Qed.

Lemma at_upd_ne l i j v :
  0 ≤ i < Z.of_nat (length l) → 0 ≤ j → i ≠ j → at_ (upd l i v) j = at_ l j.
Proof. intros. rewrite at_upd by lia. by rewrite decide_False. Qed.

Lemma length_upd l i v : length (upd l i v) = length l.
Proof. apply length_insert. Qed.

Lemma at_app_l l k i : 0 ≤ i < Z.of_nat (length l) → at_ (l ++ k) i = at_ l i.
Proof. intros. unfold at_. apply app_nth1. lia. Qed.

Lemma at_app_r l k i : Z.of_nat (length l) ≤ i → at_ (l ++ k) i = at_ k (i - Z.of_nat (length l)).
Proof. intros. unfold at_. rewrite app_nth2 by lia. f_equal. lia. Qed.

Lemma at_take l n i : 0 ≤ i < n → at_ (take (Z.to_nat n) l) i = at_ l i.
Proof. intros. unfold at_. rewrite !nth_lookup, lookup_take_lt by lia. done. Qed.

Lemma at_drop l n i : 0 ≤ n → 0 ≤ i → at_ (drop (Z.to_nat n) l) i = at_ l (n + i).
Proof.
  intros. unfold at_. rewrite !nth_lookup, lookup_drop. do 2 f_equal. lia.
Qed.

(** Two arrays with the same elements are equal. *)
Lemma at_ext l k :
  length l = length k → (∀ i, 0 ≤ i < Z.of_nat (length l) → at_ l i = at_ k i) → l = k.
Proof.
  intros Hlen Hat. apply (nth_ext _ _ 0 0); [done|]. intros n Hn.
  specialize (Hat (Z.of_nat n) ltac:(lia)). unfold at_ in Hat. by rewrite Nat2Z.id in Hat.
Qed.

(** The decimal digits of a non-negative number, at most [n] of them: the loops
    [while (n > 0) buf[i++] = n % 10 + '0', n /= 10] and
    [while (i > 0) putchar(buf[--i])]. *)
Fixpoint digits (n : nat) (sz : Z) : list Z :=
  match n with
  | O => []
  | S n' => if 0 <? sz then digits n' (sz / 10) ++ [48 + sz mod 10] else []
  end.

Definition digits_value (l : list Z) : Z := fold_left (λ n c, n * 10 + (c - 48)) l 0.

Lemma digits_spec n z :
  0 ≤ z < 10 ^ Z.of_nat n →
  digits_value (digits n z) = z ∧ Forall (λ c, 48 ≤ c ≤ 57) (digits n z) ∧ (length (digits n z) ≤ n)%nat.
Proof.
  revert z. induction n as [|n IH]; intros z Hz; cbn [digits].
  { split; [cbn; lia|]. split; [constructor|cbn; lia]. }
  destruct (Z.ltb_spec 0 z) as [Hp|]; [|split; [cbn; lia|split; [constructor|cbn; lia]]].
  rewrite Nat2Z.inj_succ, Z.pow_succ_r in Hz by lia.
  destruct (IH (z / 10)) as (Hv & Hd & Hl); [dlia|].
  unfold digits_value in *. rewrite fold_left_app, Hv, length_app. cbn [fold_left length].
  split; [dlia|]. split; [|lia]. apply Forall_app. split; [done|]. constructor; [dlia|constructor].
Qed.

Lemma digits_nonempty n z : 0 < z → digits (S n) z ≠ [].
Proof. intros Hz. cbn. destruct (Z.ltb_spec 0 z); [|lia]. by destruct (digits n _). Qed.

(** ** Ports *)

Class Ports (D : Type) := {
  inb : D → Z → Z * D;
  outb : D → Z → Z → D;
  outw : D → Z → Z → D;
  inl_ : D → Z → Z * D;            (* [inl]; the name is a constructor here *)
  outl : D → Z → Z → D;
  insw : D → Z → Z → list Z * D;   (* [rep insw]: the bytes read *)
  outsw : D → Z → list Z → D;      (* [rep outsw]: the bytes written *)
}.

(** A machine that answers input from a script and records all accesses. *)
Inductive access :=
  | PIn (port value : Z)
  | POut (port value : Z)
  | POutWords (port : Z) (bytes : list Z).

Record bench := mk_bench { script : list Z; trace : list access }.

Definition bench_in (d : bench) (port : Z) : Z * bench :=
  let v := default 0 (head (script d)) in
  (v, mk_bench (tail (script d)) (trace d ++ [PIn port v])).
Definition bench_out (d : bench) (port v : Z) : bench :=
  mk_bench (script d) (trace d ++ [POut port v]).

#[export] Instance bench_ports : Ports bench := {
  inb := bench_in;
  outb := bench_out;
  outw := bench_out;
  inl_ := bench_in;
  outl := bench_out;
  insw d port n :=
    (take (Z.to_nat (2 * n)) (script d),
     mk_bench (drop (Z.to_nat (2 * n)) (script d)) (trace d ++ [PIn port n]));
  outsw d port bytes := mk_bench (script d) (trace d ++ [POutWords port bytes]);
}.
