(* ===== verification/Keyboard.v ===== *)
(** The keyboard driver (src/hal/keyboard.c): scancode decoding and the ring
    buffer between the interrupt handler and [keyboard_getchar].

    The handler and the reader are interleaved: the reader waits (with [hlt])
    until an interrupt has put a character into the ring. [step] lists the two
    kinds of steps; the ring is proved to be a queue as long as fewer than 256
    characters are waiting, and to lose everything at the 256th. *)

From S2P Require Export Io.

Definition scancode_to_ascii : list Z :=
  [0; 27] ++ str "1234567890-=" ++ [8; 9] ++ str "qwertyuiop[]" ++ [10; 0] ++
  str "asdfghjkl;'`" ++ [0; 92] ++ str "zxcvbnm,./" ++ [0] ++ str "*" ++ [0] ++ str " ".

Definition scancode_to_ascii_shift : list Z :=
  [0; 27] ++ str "!@#$%^&*()_+" ++ [8; 9] ++ str "QWERTYUIOP{}" ++ [10; 0] ++
  str "ASDFGHJKL:" ++ [34; 126; 0; 124] ++ str "ZXCVBNM<>?" ++ [0] ++ str "*" ++ [0] ++ str " ".

Record kbd := mk_kbd {
  keyboard_buffer : list Z;
  kbd_head : Z;
  kbd_tail : Z;
  shift_pressed : bool;
  e0_pressed : bool;
}.

Definition kbd_boot : kbd := mk_kbd (repeat 0 256) 0 0 false false.

Definition set_shift (k : kbd) (b : bool) : kbd :=
  mk_kbd (keyboard_buffer k) (kbd_head k) (kbd_tail k) b (e0_pressed k).
Definition set_e0 (k : kbd) (b : bool) : kbd :=
  mk_kbd (keyboard_buffer k) (kbd_head k) (kbd_tail k) (shift_pressed k) b.

(** [keyboard_buffer[kbd_head] = c; kbd_head = (kbd_head + 1) % 256;] *)
Definition push (k : kbd) (c : Z) : kbd :=
  mk_kbd (upd (keyboard_buffer k) (kbd_head k) c) ((kbd_head k + 1) mod 256)
    (kbd_tail k) (shift_pressed k) (e0_pressed k).

Definition arrow (scancode : Z) : Z :=
  if scancode =? 0x48 then s8 128
  else if scancode =? 0x50 then s8 129
  else if scancode =? 0x4B then s8 130
  else if scancode =? 0x4D then s8 131
  else 0.

Definition plain_key (shift : bool) (scancode : Z) : Z :=
  if scancode <? Z.of_nat (length scancode_to_ascii) then
    if shift then at_ scancode_to_ascii_shift scancode else at_ scancode_to_ascii scancode
  else 0.

(** The body of [if (status & 1)]. *)
Definition handle_scancode (k : kbd) (scancode : Z) : kbd :=
  if scancode =? 0xE0 then set_e0 k true
  else if (scancode =? 0x2A) || (scancode =? 0x36) then set_shift k true
  else if (scancode =? 0xAA) || (scancode =? 0xB6) then set_shift k false
  else if scancode .& 0x80 =? 0 then
    let '(c, k) :=
      if e0_pressed k then (arrow scancode, set_e0 k false)
      else (plain_key (shift_pressed k) scancode, k) in
    if c =? 0 then k else push k c
  else if e0_pressed k then set_e0 k false else k.

Section Handler.
Context {D : Type} `{Ports D}.

Definition keyboard_handler (k : kbd) (d : D) : kbd * D :=
  let '(status, d) := inb d 0x64 in
  let '(k, d) :=
    if u8 status .& 1 =? 0 then (k, d)
    else let '(scancode, d) := inb d 0x60 in (handle_scancode k (u8 scancode), d) in
  (k, outb d 0x20 0x20).
End Handler.

(** [keyboard_getchar] with the scancodes of the interrupts that arrive while
    it waits: the character, the scancodes not yet taken and the driver's
    state; [None] when it is still waiting after all of them. *)
Fixpoint keyboard_getchar (k : kbd) (irqs : list Z) : option (Z * list Z * kbd) :=
  if kbd_head k =? kbd_tail k then
    match irqs with
    | [] => None
    | s :: irqs' => keyboard_getchar (handle_scancode k s) irqs'
    end
  else
    Some (at_ (keyboard_buffer k) (kbd_tail k), irqs,
          mk_kbd (keyboard_buffer k) (kbd_head k) ((kbd_tail k + 1) mod 256)
            (shift_pressed k) (e0_pressed k)).

(** ** The ring as a queue *)

Definition pending (k : kbd) : Z := (kbd_head k - kbd_tail k) mod 256.

(** The waiting characters, oldest first. *)
Definition contents (k : kbd) : list Z :=
  (λ i, at_ (keyboard_buffer k) ((kbd_tail k + i) mod 256)) <$> seqZ 0 (pending k).

Definition kbd_wf (k : kbd) : Prop :=
  length (keyboard_buffer k) = 256%nat ∧ 0 ≤ kbd_head k < 256 ∧ 0 ≤ kbd_tail k < 256.

Lemma kbd_boot_wf : kbd_wf kbd_boot.
Proof. done. Qed.

Lemma pending_range k : 0 ≤ pending k < 256.
Proof. by apply Z.mod_pos_bound. Qed.

Lemma length_contents k : Z.of_nat (length (contents k)) = pending k.
Proof. pose proof (pending_range k). unfold contents. rewrite length_fmap, length_seqZ. lia. Qed.

Lemma push_wf k c : kbd_wf k → kbd_wf (push k c).
Proof.
  intros (Hl & Hh & Ht). unfold kbd_wf, push. cbn. rewrite length_upd.
  pose proof (Z.mod_pos_bound (kbd_head k + 1) 256 eq_refl). done.
Qed.

(** Room left: the new character is queued behind the others. *)
Lemma push_contents k c :
  kbd_wf k → pending k < 255 → contents (push k c) = contents k ++ [c].
Proof.
  intros (Hl & Hh & Ht) Hp. pose proof (pending_range k).
  assert (pending (push k c) = pending k + 1) as Hpp.
  { unfold pending, push in *. cbn. dlia. }
  unfold contents at 1. rewrite Hpp, seqZ_snoc, Z.add_0_l, fmap_app by lia. cbn [fmap list_fmap].
  unfold push at 1 2 3 4. cbn [keyboard_buffer kbd_tail]. f_equal.
  - unfold contents. apply list_fmap_ext. intros i x Hx.
    apply lookup_seqZ in Hx as [-> Hx]. rewrite at_upd_ne; [done|lia|dlia|].
    unfold pending in *. intros Heq. dlia.
  - f_equal. replace ((kbd_tail k + pending k) mod 256) with (kbd_head k).
    + apply at_upd_eq. lia.
    + unfold pending. dlia.
Qed.

(** No room left: the head meets the tail and everything is lost. *)
Lemma push_full k c : kbd_wf k → pending k = 255 → contents (push k c) = [].
Proof.
  intros (Hl & Hh & Ht) Hp. unfold contents.
  assert (pending (push k c) = 0) as ->; [|done].
  unfold pending, push in *. cbn. dlia.
Qed.

Lemma contents_nil k : kbd_wf k → kbd_head k = kbd_tail k ↔ contents k = [].
Proof.
  intros (Hl & Hh & Ht). rewrite <- length_zero_iff_nil. pose proof (length_contents k) as Hc.
  unfold pending in Hc. split; [|]; intros Heq; [|dlia].
  rewrite Heq, Z.sub_diag in Hc. change (0 mod 256) with 0 in Hc. lia.
Qed.

Lemma contents_pop k :
  kbd_wf k → kbd_head k ≠ kbd_tail k →
  contents k = at_ (keyboard_buffer k) (kbd_tail k) ::
    contents (mk_kbd (keyboard_buffer k) (kbd_head k) ((kbd_tail k + 1) mod 256)
                (shift_pressed k) (e0_pressed k)).
Proof.
  intros (Hl & Hh & Ht) Hne. set (k' := mk_kbd _ _ _ _ _).
  assert (pending k = pending k' + 1) as Hp by (unfold pending, k'; cbn; dlia).
  pose proof (pending_range k').
  unfold contents at 1. rewrite Hp, seqZ_cons by lia. cbn [fmap list_fmap].
  rewrite Z.add_0_r, Z.mod_small by lia. f_equal. unfold contents.
  replace (Z.succ 0) with (1 + 0) by lia. replace (Z.pred (pending k' + 1)) with (pending k') by lia.
  rewrite <- (fmap_add_seqZ 1), <- list_fmap_compose. apply list_fmap_ext. intros i x Hx.
  unfold compose. cbn [kbd_tail keyboard_buffer k']. f_equal. rewrite Zplus_mod_idemp_l. f_equal. lia.
Qed.

(** ** Decoding

    What a scancode means depends on two flags only; [decode] gives the new
    flags and the character, if the scancode produces one. *)

Definition mode := (bool * bool)%type.   (* shift, 0xE0 prefix *)
Definition mode_of (k : kbd) : mode := (shift_pressed k, e0_pressed k).

Definition nonzero (c : Z) : option Z := if c =? 0 then None else Some c.

Definition decode (m : mode) (s : Z) : mode * option Z :=
  let '(shift, e0) := m in
  if s =? 0xE0 then ((shift, true), None)
  else if (s =? 0x2A) || (s =? 0x36) then ((true, e0), None)
  else if (s =? 0xAA) || (s =? 0xB6) then ((false, e0), None)
  else if 0x80 <=? s then ((shift, false), None)
  else ((shift, false), nonzero (if e0 then arrow s else plain_key shift s)).

(** The characters typed by a sequence of scancodes, and the mode after it. *)
Fixpoint typed (m : mode) (l : list Z) : list Z :=
  match l with
  | [] => []
  | s :: l' => let '(m', c) := decode m s in option_list c ++ typed m' l'
  end.
Fixpoint mode_after (m : mode) (l : list Z) : mode :=
  match l with
  | [] => m
  | s :: l' => mode_after (decode m s).1 l'
  end.

Lemma typed_app m l l' : typed m (l ++ l') = typed m l ++ typed (mode_after m l) l'.
Proof.
  revert m. induction l as [|s l IH]; intros m; [done|]. cbn [typed mode_after app].
  destruct (decode m s) as [m' c]. cbn. rewrite IH. by rewrite app_assoc.
Qed.

Lemma bit7 s : 0 ≤ s < 256 → ((s .& 0x80) =? 0) = negb (0x80 <=? s).
Proof.
  intros Hs. pose proof (testbit_pow2_land s 7 ltac:(lia)) as Hb.
  change (1 << 7) with 128 in Hb. rewrite <- (negb_involutive (_ =? 0)), Hb. f_equal.
  destruct (Z.leb_spec 128 s).
  - replace s with (128 + (s - 128)) by lia. rewrite Z.testbit_true by lia.
    change (2 ^ 7) with 128. dlia.
  - apply (testbit_small s 7); lia.
Qed.

Lemma handle_decode k s :
  0 ≤ s < 256 →
  (decode (mode_of k) s).2 = None ∧ contents (handle_scancode k s) = contents k ∧
    mode_of (handle_scancode k s) = (decode (mode_of k) s).1 ∧
    (kbd_wf k → kbd_wf (handle_scancode k s)) ∧
    kbd_head (handle_scancode k s) = kbd_head k ∧ kbd_tail (handle_scancode k s) = kbd_tail k ∨
  ∃ c, (decode (mode_of k) s).2 = Some c ∧
    handle_scancode k s = push (set_e0 k false) c ∧
    mode_of (handle_scancode k s) = (decode (mode_of k) s).1.
Proof.
  intros Hs. unfold handle_scancode, decode, mode_of.
  destruct (s =? 0xE0); [by left|].
  destruct ((s =? 0x2A) || (s =? 0x36)); [by left|].
  destruct ((s =? 0xAA) || (s =? 0xB6)); [by left|].
  rewrite bit7 by done. destruct (0x80 <=? s); cbn [negb].
  { left. destruct k as [b h t sh []]; done. }
  destruct (e0_pressed k) eqn:He; cbn [fst snd]; unfold nonzero;
    (destruct (_ =? 0) eqn:Hc; [left|right; eexists; split; [done|]]).
  - done.
  - by split.
  - split_and!; try done. cbn. by rewrite He.
  - split; [|cbn; by rewrite He]. f_equal. destruct k; cbn in *. by subst.
Qed.

(** ** Interleavings *)

Inductive label := Irq (scancode : Z) | Read (c : Z).

(** One interrupt, with room for its character, or one character read. *)
Inductive kstep : kbd → label → kbd → Prop :=
  | step_irq k s :
      0 ≤ s < 256 → pending k < 255 → kstep k (Irq s) (handle_scancode k s)
  | step_read k c k' :
      keyboard_getchar k [] = Some (c, [], k') → kstep k (Read c) k'.

Inductive krun : kbd → list label → kbd → Prop :=
  | run_nil k : krun k [] k
  | run_cons k l k' ls k'' : kstep k l k' → krun k' ls k'' → krun k (l :: ls) k''.

Fixpoint irqs (ls : list label) : list Z :=
  match ls with [] => [] | Irq s :: ls' => s :: irqs ls' | Read _ :: ls' => irqs ls' end.
Fixpoint reads (ls : list label) : list Z :=
  match ls with [] => [] | Irq _ :: ls' => reads ls' | Read c :: ls' => c :: reads ls' end.

(** What one interrupt does to the queue. *)
Lemma handle_scancode_spec k s :
  kbd_wf k → 0 ≤ s < 256 → pending k < 255 →
  kbd_wf (handle_scancode k s) ∧
  contents (handle_scancode k s) = contents k ++ typed (mode_of k) [s] ∧
  mode_of (handle_scancode k s) = mode_after (mode_of k) [s].
Proof.
  intros Hwf Hs Hp. cbn [typed mode_after].
  destruct (decode (mode_of k) s) as [m c] eqn:Hd.
  destruct (handle_decode k s Hs) as [(Hc & Hcont & Hm & Hwf' & _)|(c' & Hc & Heq & Hm)];
    rewrite Hd in *; cbn in Hc, Hm; subst c.
  - split; [auto|]. split; [|done]. cbn. by rewrite app_nil_r.
  - rewrite Hm, Heq. split; [apply push_wf; exact Hwf|]. split; [|done].
    cbn. by rewrite (push_contents (set_e0 k false)).
Qed.

Lemma getchar_ready k l :
  kbd_wf k → kbd_head k ≠ kbd_tail k →
  ∃ c k', keyboard_getchar k l = Some (c, l, k') ∧
    kbd_wf k' ∧ contents k = c :: contents k' ∧ mode_of k' = mode_of k.
Proof.
  intros Hwf Hne. eexists _, _.
  split; [destruct l; cbn; by rewrite (proj2 (Z.eqb_neq _ _) Hne)|].
  split; [|split; [by apply contents_pop|done]].
  destruct Hwf as (? & ? & ?). unfold kbd_wf. cbn.
  pose proof (Z.mod_pos_bound (kbd_tail k + 1) 256 eq_refl). done.
Qed.

Lemma getchar_pop k c k' :
  kbd_wf k → keyboard_getchar k [] = Some (c, [], k') →
  kbd_wf k' ∧ contents k = c :: contents k' ∧ mode_of k' = mode_of k.
Proof.
  intros Hwf Hg. destruct (Z.eq_dec (kbd_head k) (kbd_tail k)) as [He|Hne].
  { cbn in Hg. by rewrite He, Z.eqb_refl in Hg. }
  destruct (getchar_ready k [] Hwf Hne) as (c0 & k0 & Hg0 & ?). by simplify_eq.
Qed.

(** ** Properties *)

(** C19. The ring is a queue under every interleaving of interrupts and reads
    that leaves room for each character typed: the characters read, followed
    by those still waiting, are exactly those waiting at the start followed
    by those the scancodes type, in order. *)
Theorem keyboard_fifo k ls k' :
  kbd_wf k → krun k ls k' →
  kbd_wf k' ∧ reads ls ++ contents k' = contents k ++ typed (mode_of k) (irqs ls).
Proof.
  intros Hwf Hrun. induction Hrun as [k|k l k1 ls k2 Hstep _ IH].
  { by rewrite app_nil_r. }
  destruct Hstep as [k s Hs Hp|k c k1 Hc].
  - destruct (handle_scancode_spec k s Hwf Hs Hp) as (Hwf1 & Hcont & Hmode).
    destruct (IH Hwf1) as [Hwf2 Heq]. split; [done|].
    cbn [reads irqs]. rewrite Heq, Hcont, Hmode, <- app_assoc.
    f_equal. symmetry. exact (typed_app (mode_of k) [s] (irqs ls)).
  - destruct (getchar_pop k c k1 Hwf Hc) as (Hwf1 & Hcont & Hmode).
    destruct (IH Hwf1) as [Hwf2 Heq]. split; [done|].
    cbn [reads irqs]. rewrite Hcont, <- Hmode. cbn. by rewrite Heq.
Qed.

(** [keyboard_getchar] returns the oldest waiting character, or waits
    for the first character that the following scancodes type; it goes on
    waiting exactly when nothing waits and they type none. *)
Theorem getchar_correct k l :
  kbd_wf k → Forall (λ s, 0 ≤ s < 256) l →
  match keyboard_getchar k l with
  | Some (c, rest, k') => ∃ used, l = used ++ rest ∧ kbd_wf k' ∧
      contents k ++ typed (mode_of k) used = c :: contents k' ∧
      mode_of k' = mode_after (mode_of k) used
  | None => contents k = [] ∧ typed (mode_of k) l = []
  end.
Proof.
  revert k. induction l as [|s l IH]; intros k Hwf Hl.
  all: destruct (Z.eq_dec (kbd_head k) (kbd_tail k)) as [He|Hne];
    [|match goal with |- context [keyboard_getchar ?q ?l] =>
        destruct (getchar_ready q l Hwf Hne) as (c & k' & -> & ? & -> & ?) end;
      exists []; split; [done|split; [done|]]; by rewrite app_nil_r].
  { cbn. rewrite He, Z.eqb_refl. split; [by apply contents_nil|done]. }
  pose proof (proj1 (contents_nil k Hwf) He) as Hnil.
  cbn [keyboard_getchar]. rewrite He, Z.eqb_refl.
  apply Forall_cons_1 in Hl as [Hs Hl].
  pose proof (length_contents k) as Hlen. rewrite Hnil in Hlen. cbn in Hlen.
  destruct (handle_scancode_spec k s Hwf Hs) as (Hwf1 & Hcont & Hmode); [lia|].
  specialize (IH _ Hwf1 Hl). rewrite Hcont, Hnil, Hmode in IH. cbn [app] in IH.
  change (s :: l) with ([s] ++ l). rewrite typed_app.
  destruct (keyboard_getchar (handle_scancode k s) l) as [[[c rest] k']|].
  - destruct IH as (used & -> & Hwf' & Heq & Hm). exists ([s] ++ used).
    rewrite typed_app, Hnil. by rewrite app_assoc.
  - destruct IH as [-> ->]. done.
Qed.

(** What waits and what the scancodes still to come will type. *)
Definition coming (k : kbd) (l : list Z) : list Z := contents k ++ typed (mode_of k) l.

Lemma getchar_next k l c q :
  kbd_wf k → Forall (λ s, 0 ≤ s < 256) l → coming k l = c :: q →
  ∃ l' k', keyboard_getchar k l = Some (c, l', k') ∧ kbd_wf k' ∧ Forall (λ s, 0 ≤ s < 256) l' ∧
    coming k' l' = q.
Proof.
  intros Hwf Hl. unfold coming. pose proof (getchar_correct k l Hwf Hl) as Hc.
  destruct (keyboard_getchar k l) as [[[c' l'] k']|]; [|by destruct Hc as [-> ->]].
  destruct Hc as (used & -> & Hwf' & Heq & Hm). rewrite typed_app, app_assoc, Heq, <- Hm.
  intros [= <- <-]. apply Forall_app in Hl as [_ Hl]. by exists l', k'.
Qed.

Lemma typed_length m l : (length (typed m l) ≤ length l)%nat.
Proof.
  revert m. induction l as [|s l IH]; intros m; [done|]. cbn [typed length].
  destruct (decode m s) as [m' c]. rewrite length_app. specialize (IH m'). destruct c; cbn; lia.
Qed.

Lemma coming_length k l : (length (coming k l) < 256 + length l)%nat.
Proof.
  unfold coming. rewrite length_app. pose proof (typed_length (mode_of k) l).
  pose proof (length_contents k). pose proof (pending_range k). lia.
Qed.

(** The ring has no overflow check: when 255 characters wait, the next
    one typed makes the ring look empty, and all 256 are lost. *)
Theorem keyboard_overflow k s :
  kbd_wf k → 0 ≤ s < 256 → pending k = 255 → typed (mode_of k) [s] ≠ [] →
  contents (handle_scancode k s) = [].
Proof.
  intros Hwf Hs Hp. cbn [typed mode_after].
  destruct (decode (mode_of k) s) as [m c] eqn:Hd.
  destruct (handle_decode k s Hs) as [(Hc & _)|(c' & Hc & -> & _)];
    rewrite Hd in Hc; cbn in Hc; subst c; [done|].
  intros _. by apply (push_full (set_e0 k false)).
Qed.

(** ** Concrete runs *)

(** 'H' typed with the left shift key, then 'i'. *)
Lemma keyboard_fifo_witness :
  contents (handle_scancode (handle_scancode (handle_scancode (handle_scancode kbd_boot
    0x2A) 0x23) 0xAA) 0x17) = str "Hi".
Proof.
  destruct (keyboard_fifo kbd_boot [Irq 0x2A; Irq 0x23; Irq 0xAA; Irq 0x17]
    (handle_scancode (handle_scancode (handle_scancode (handle_scancode kbd_boot
      0x2A) 0x23) 0xAA) 0x17) kbd_boot_wf) as [_ Heq].
  - repeat (eapply run_cons; [apply step_irq; [lia|reflexivity]|]). apply run_nil.
  - exact Heq.
Defined.

(** The up arrow, then 'a', while the reader waits. *)
Lemma getchar_correct_witness :
  ∃ k', keyboard_getchar kbd_boot [0xE0; 0x48; 0xE0; 0xC8; 0x1E] =
          Some (-128, [0xE0; 0xC8; 0x1E], k') ∧ contents k' = [].
Proof.
  pose proof (getchar_correct kbd_boot [0xE0; 0x48; 0xE0; 0xC8; 0x1E] kbd_boot_wf
    ltac:(repeat (constructor; [lia|]); constructor)) as Hg.
  destruct (keyboard_getchar kbd_boot [0xE0; 0x48; 0xE0; 0xC8; 0x1E])
    as [[[c rest] k']|] eqn:Hk; [|vm_compute in Hk; discriminate].
  vm_compute in Hk. injection Hk as <- <- <-. eexists. split; [reflexivity|].
  destruct Hg as (used & _ & _ & _). reflexivity.
Defined.

(** 255 characters waiting: the head is just behind the tail. *)
Lemma keyboard_overflow_witness :
  contents (handle_scancode (mk_kbd (repeat 97 256) 255 0 false false) 0x1E) = [].
Proof.
  apply keyboard_overflow; [split; [reflexivity|cbn; lia]|lia|reflexivity|].
  vm_compute. discriminate.
Defined.
