(* ===== verification/Editor.v ===== *)
(** The text editor (src/tools/editor.c): a buffer in an array with a cursor,
    and the key loop over it.

    Every key is one call of [editor_key]; the screen and the file system are
    reached through system calls, which are recorded in order ([call]). The
    array operations are proved to implement an abstract editor whose state is
    the text, the cursor and the mode ([spec_key]). *)

From S2P Require Export Io.

(** System calls the editor makes (src/tools/syscalls.h). *)
Inductive call :=
  | Clear
  | SetCursor (row col : Z)
  | Print (s : list Z)
  | Putchar (c : Z)
  | SetColor (a b : Z)
  | WriteFile (name data : list Z)
  | Exit.

Definition MEMORY_POOL_SIZE : Z := 1024 * 1024.

(** [editor_malloc]: the offset in the pool and the new index. *)
Definition editor_malloc (memory_pool_index size : Z) : option Z * Z :=
  if MEMORY_POOL_SIZE <? memory_pool_index + size then (None, memory_pool_index)
  else (Some memory_pool_index, memory_pool_index + size).

Record editor := mk_editor {
  edit_buffer : list Z;
  edit_buffer_max : Z;
  buffer_len : Z;
  cursor_pos : Z;
  is_insert_mode : bool;
  current_filename : list Z;
  last_cmd_key : Z;
}.

Definition set_text (e : editor) (buf : list Z) (len cursor : Z) : editor :=
  mk_editor buf (edit_buffer_max e) len cursor (is_insert_mode e) (current_filename e)
    (last_cmd_key e).
Definition set_cursor (e : editor) (cursor : Z) : editor :=
  set_text e (edit_buffer e) (buffer_len e) cursor.
Definition set_mode (e : editor) (insert : bool) (key : Z) : editor :=
  mk_editor (edit_buffer e) (edit_buffer_max e) (buffer_len e) (cursor_pos e) insert
    (current_filename e) key.

(** ** Drawing *)

(** One turn of the loop that prints the text with the cursor. *)
Definition draw_char (e : editor) (i : Z) : list call :=
  let ch := at_ (edit_buffer e) i in
  if i =? cursor_pos e then
    if (i =? buffer_len e) || (ch =? 10) then
      [SetColor 0 2; Putchar 32; SetColor 2 0] ++
      (if i <? buffer_len e then [Putchar 10] else [])
    else [SetColor 0 2; Putchar ch; SetColor 2 0]
  else if i <? buffer_len e then [Putchar ch] else [].

Definition draw_status (e : editor) (max_rows : Z) : list call :=
  [Clear; SetCursor (s32 (max_rows - 2)) 0] ++
  (if is_insert_mode e then [Print (str "-- INSERT -- [ESC: Normal, Setas: Navegar]")]
   else [Print (str "-- NORMAL -- [i: Insert, w: Salvar, q: Sair, Setas: Navegar]")]) ++
  [SetCursor (s32 (max_rows - 1)) 0] ++
  (if negb (is_insert_mode e) && negb (last_cmd_key e =? 0) then
     [Print (str "Tecla Pressionada: ")] ++
     (if (32 <=? last_cmd_key e) && (last_cmd_key e <=? 126) then [Putchar (last_cmd_key e)] else [])
   else []) ++
  [SetCursor 0 0].

Definition draw_loop (e : editor) (n : nat) : list call :=
  for_each n 0 (λ i out, out ++ draw_char e i) [].

Definition draw_editor_ui (e : editor) (max_rows : Z) : list call :=
  draw_status e max_rows ++ draw_loop e (Z.to_nat (buffer_len e + 1)).

(** ** Moving *)

(** [while (p >= 0 && buf[p] != '\n') { col++; p--; }], with [p + 1] turns at
    most; and the same without the counter. *)
Fixpoint back (n : nat) (buf : list Z) (col p : Z) : Z * Z :=
  match n with
  | O => (col, p)
  | S n' =>
      if (0 <=? p) && negb (at_ buf p =? 10) then back n' buf (col + 1) (p - 1) else (col, p)
  end.

(** [while (q < len && buf[q] != '\n') q++]. *)
Fixpoint forward (n : nat) (buf : list Z) (len q : Z) : Z :=
  match n with
  | O => q
  | S n' => if (q <? len) && negb (at_ buf q =? 10) then forward n' buf len (q + 1) else q
  end.

(** [for (i = 0; i < col; i++) { if (stop(pos)) break; pos++; }]. *)
Fixpoint advance (n : nat) (stop : Z → bool) (pos : Z) : Z :=
  match n with
  | O => pos
  | S n' => if stop pos then pos else advance n' stop (pos + 1)
  end.

Definition key_up (e : editor) : editor :=
  let buf := edit_buffer e in
  let '(col, p) := back (Z.to_nat (cursor_pos e)) buf 0 (cursor_pos e - 1) in
  if 0 <=? p then
    let '(_, prev_start) := back (Z.to_nat p) buf 0 (p - 1) in
    let prev_start := prev_start + 1 in
    set_cursor e (advance (Z.to_nat col) (λ pos, pos =? p) prev_start)
  else e.

Definition key_down (e : editor) : editor :=
  let buf := edit_buffer e in
  let len := buffer_len e in
  let '(col, _) := back (Z.to_nat (cursor_pos e)) buf 0 (cursor_pos e - 1) in
  let next_start := forward (Z.to_nat (len - cursor_pos e)) buf len (cursor_pos e) in
  if next_start <? len then
    let next_start := next_start + 1 in
    set_cursor e (advance (Z.to_nat col) (λ pos, (len <=? pos) || (at_ buf pos =? 10)) next_start)
  else e.

Definition arrow_key (e : editor) (c : Z) : editor :=
  if c =? 130 then if 0 <? cursor_pos e then set_cursor e (cursor_pos e - 1) else e
  else if c =? 131 then
    if cursor_pos e <? buffer_len e then set_cursor e (cursor_pos e + 1) else e
  else if c =? 128 then key_up e
  else if c =? 129 then key_down e
  else e.

(** ** Editing *)

Definition shift_left (buf : list Z) (from len : Z) : list Z :=
  for_each (Z.to_nat (len - from)) from (λ i buf, upd buf (i - 1) (at_ buf i)) buf.

(** [for (i = len; i > cursor; i--) buf[i] = buf[i-1]]. *)
Definition shift_right (buf : list Z) (len cursor : Z) : list Z :=
  for_each (Z.to_nat (len - cursor)) 0
    (λ k buf, let i := len - k in upd buf i (at_ buf (i - 1))) buf.

Definition insert_key (e : editor) (c : Z) : editor :=
  let len := buffer_len e in
  let cur := cursor_pos e in
  if c =? 8 then
    if 0 <? cur then set_text e (shift_left (edit_buffer e) cur len) (len - 1) (cur - 1) else e
  else if (len <? edit_buffer_max e - 1) && (((32 <=? c) && (c <=? 126)) || (c =? 10)) then
    set_text e (upd (shift_right (edit_buffer e) len cur) cur c) (len + 1) (cur + 1)
  else e.

(** ** The key loop *)

Section Loop.
(** The answers of the system calls [sys_get_max_rows] and
    [sys_fat16_write_file]. *)
Variable max_rows : Z.
Variable write_file : list Z → list Z → Z.

Inductive outcome :=
  | Continue (e : editor) (calls : list call)
  | Finish (calls : list call).

Definition redraw (e : editor) : outcome := Continue e (draw_editor_ui e max_rows).

Definition save (e : editor) : list call :=
  let buf := upd (edit_buffer e) (buffer_len e) 0 in
  let data := take (Z.to_nat (buffer_len e)) buf in
  let written := write_file (current_filename e) data in
  [WriteFile (current_filename e) data; Clear] ++
  (if 0 <? written then [Print (str "Arquivo salvo no HD (FAT16)." ++ [10])]
   else [Print (str "Erro ao salvar o arquivo." ++ [10])]) ++
  [Exit].

Definition editor_key (e : editor) (c : Z) : outcome :=
  if c =? 27 then redraw (set_mode e false 0)
  else if (128 <=? c) && (c <=? 131) then redraw (arrow_key e c)
  else if is_insert_mode e then redraw (insert_key e c)
  else
    let e := set_mode e (is_insert_mode e) c in
    if c =? 105 then redraw (set_mode e true 0)
    else if c =? 119 then Finish (save e)
    else if c =? 113 then Finish [Clear; Exit]
    else redraw e.

(** The loop over the keys typed: the calls made, and the editor if it has
    not finished. *)
Fixpoint editor_loop (e : editor) (keys : list Z) : list call * option editor :=
  match keys with
  | [] => ([], Some e)
  | c :: keys' =>
      match editor_key e (u8 c) with
      | Continue e' calls => let '(calls', r) := editor_loop e' keys' in (calls ++ calls', r)
      | Finish calls => (calls, None)
      end
  end.

(** [kstrncpy(dest, src, max_len)]: the characters before the final NUL. *)
Fixpoint kstrncpy (src : list Z) (room : nat) : list Z :=
  match room, src with
  | S (S r), c :: src' => c :: kstrncpy src' (S r)
  | _, _ => []
  end.

(** Opening: the file name, the size [sys_fat16_get_file_size] gave, and what
    [sys_fat16_read_file] returned and stored. *)
Definition editor_start (args : option (list Z)) (fsize : list Z → Z)
    (read_file : list Z → Z * list Z) : outcome :=
  let filename := match args with Some (c :: s) => c :: s | _ => str "buffer.txt" end in
  let name := kstrncpy filename 32 in
  let edit_buffer_max := s32 (fsize filename + 8192) in
  match editor_malloc 0 edit_buffer_max with
  | (None, _) => Finish [Clear; Print (str "Erro: Memoria insuficiente no pool do Editor (1 MB)." ++ [10]); Exit]
  | (Some _, _) =>
      let buf := repeat 0 (Z.to_nat edit_buffer_max) in
      let '(buf, len) :=
        if 0 <? fsize filename then
          let '(size, data) := read_file filename in
          (data ++ drop (length data) buf, if 0 <? size then size else 0)
        else (buf, 0) in
      redraw (mk_editor buf edit_buffer_max len 0 false name 0)
  end.
End Loop.

Definition editor_wf (e : editor) : Prop :=
  Z.of_nat (length (edit_buffer e)) = edit_buffer_max e ∧
  0 ≤ cursor_pos e ≤ buffer_len e ∧ buffer_len e < edit_buffer_max e.

(** The text in the buffer. *)
Definition text (e : editor) : list Z := take (Z.to_nat (buffer_len e)) (edit_buffer e).

Lemma length_text e : editor_wf e → Z.of_nat (length (text e)) = buffer_len e.
Proof. intros (Hl & Hc & Hb). unfold text. rewrite length_take. lia. Qed.

Lemma at_text e i : editor_wf e → 0 ≤ i < buffer_len e → at_ (edit_buffer e) i = at_ (text e) i.
Proof.
  intros Hwf Hi. unfold at_, text. rewrite !nth_lookup, lookup_take_lt by lia. done.
Qed.

(** ** What the array loops do *)

Lemma shift_left_spec buf from len :
  1 ≤ from ≤ len → len ≤ Z.of_nat (length buf) →
  length (shift_left buf from len) = length buf ∧
  ∀ i, 0 ≤ i → at_ (shift_left buf from len) i =
    if decide (from - 1 ≤ i < len - 1) then at_ buf (i + 1) else at_ buf i.
Proof.
  intros Hf Hl. unfold shift_left.
  pose (P j b := length b = length buf ∧ ∀ i, 0 ≤ i → at_ b i =
    if decide (from - 1 ≤ i < j - 1) then at_ buf (i + 1) else at_ buf i).
  assert (P (from + Z.of_nat (Z.to_nat (len - from)))
    (for_each (Z.to_nat (len - from)) from (λ i buf, upd buf (i - 1) (at_ buf i)) buf)) as Hp.
  { apply (for_each_ind P).
    - split; [done|]. intros i Hi. by rewrite decide_False by lia.
    - intros j b Hj (Hlb & Hb). split; [by rewrite length_upd|]. intros i Hi.
      rewrite at_upd by lia. rewrite !Hb by lia.
      repeat case_decide; try lia; try done. subst. f_equal. lia. }
  replace (from + _) with len in Hp by lia. exact Hp.
Qed.

Lemma shift_right_spec buf len cursor :
  0 ≤ cursor ≤ len → len < Z.of_nat (length buf) →
  length (shift_right buf len cursor) = length buf ∧
  ∀ i, 0 ≤ i → at_ (shift_right buf len cursor) i =
    if decide (cursor < i ≤ len) then at_ buf (i - 1) else at_ buf i.
Proof.
  intros Hf Hl. unfold shift_right.
  pose (P k b := length b = length buf ∧ ∀ i, 0 ≤ i → at_ b i =
    if decide (len - k < i ≤ len) then at_ buf (i - 1) else at_ buf i).
  assert (P (0 + Z.of_nat (Z.to_nat (len - cursor)))
    (for_each (Z.to_nat (len - cursor)) 0
      (λ k buf, let i := len - k in upd buf i (at_ buf (i - 1))) buf)) as [Hlen Hp].
  { apply (for_each_ind P).
    - split; [done|]. intros i Hi. by rewrite decide_False by lia.
    - intros k b Hk (Hlb & Hb). cbn zeta. split; [by rewrite length_upd|]. intros i Hi.
      rewrite at_upd by lia. rewrite !Hb by lia.
      repeat case_decide; try lia; try done. by subst. }
  split; [done|]. intros i Hi. rewrite Hp by done.
  replace (len - (0 + Z.of_nat (Z.to_nat (len - cursor)))) with cursor by lia. done.
Qed.

(** Backspace removes the character before the cursor. *)
Lemma text_shift_left e :
  editor_wf e → 0 < cursor_pos e →
  let e' := set_text e (shift_left (edit_buffer e) (cursor_pos e) (buffer_len e))
              (buffer_len e - 1) (cursor_pos e - 1) in
  editor_wf e' ∧
  text e' = take (Z.to_nat (cursor_pos e - 1)) (text e) ++ drop (Z.to_nat (cursor_pos e)) (text e).
Proof.
  intros Hwf Hc e'. pose proof Hwf as (Hl & Hcur & Hb).
  destruct (shift_left_spec (edit_buffer e) (cursor_pos e) (buffer_len e)) as [Hlen Hat]; [lia..|].
  assert (editor_wf e') as Hwf' by (unfold editor_wf, e'; cbn; lia).
  split; [done|]. pose proof (length_text e Hwf). pose proof (length_text e' Hwf') as Hl'.
  unfold e' in Hl' at 2. cbn in Hl'.
  apply at_ext; [rewrite length_app, length_take, length_drop; lia|]. intros i Hi.
  rewrite <- at_text by (done || cbn; lia). unfold e'. cbn [edit_buffer set_text].
  rewrite Hat by lia. case_decide.
  - rewrite at_app_r; rewrite length_take; [|lia].
    rewrite at_drop, (at_text e) by (done || lia). f_equal. lia.
  - rewrite at_app_l by (rewrite length_take; lia). rewrite at_take by lia. apply at_text; [done|lia].
Qed.

(** A printable key goes before the cursor. *)
Lemma text_insert e c :
  editor_wf e → buffer_len e < edit_buffer_max e - 1 →
  let e' := set_text e (upd (shift_right (edit_buffer e) (buffer_len e) (cursor_pos e)) (cursor_pos e) c)
              (buffer_len e + 1) (cursor_pos e + 1) in
  editor_wf e' ∧
  text e' = take (Z.to_nat (cursor_pos e)) (text e) ++ [c] ++ drop (Z.to_nat (cursor_pos e)) (text e).
Proof.
  intros Hwf Hroom e'. pose proof Hwf as (Hl & Hcur & Hb).
  destruct (shift_right_spec (edit_buffer e) (buffer_len e) (cursor_pos e)) as [Hlen Hat]; [lia..|].
  assert (editor_wf e') as Hwf' by (unfold editor_wf, e'; cbn; rewrite length_upd; lia).
  split; [done|]. pose proof (length_text e Hwf). pose proof (length_text e' Hwf') as Hl'.
  unfold e' in Hl' at 2. cbn in Hl'.
  apply at_ext; [rewrite !length_app, length_take, length_drop; cbn; lia|]. intros i Hi.
  rewrite <- at_text by (done || cbn; lia). unfold e'. cbn [edit_buffer set_text].
  rewrite at_upd, Hat by lia.
  destruct (Z.lt_trichotomy i (cursor_pos e)) as [Hlt|[->|Hgt]].
  - rewrite decide_False, decide_False, at_app_l by (try (rewrite length_take); lia).
    rewrite at_take by lia. apply at_text; [done|lia].
  - rewrite decide_True, at_app_r by (try (rewrite length_take); lia). rewrite length_take.
    by replace (cursor_pos e - _) with 0 by lia.
  - rewrite decide_False, decide_True, at_app_r by (try (rewrite length_take); lia).
    rewrite length_take, at_app_r by (cbn; lia). rewrite at_drop, (at_text e) by (done || cbn; lia).
    f_equal. cbn [length]. lia.
Qed.

(** ** Lines

    The row and the column of a position, and the width of its line. *)

Fixpoint line_len (l : list Z) : Z :=
  match l with
  | [] => 0
  | c :: l' => if c =? 10 then 0 else 1 + line_len l'
  end.

Definition before (t : list Z) (i : Z) : list Z := take (Z.to_nat i) t.
Definition after (t : list Z) (i : Z) : list Z := drop (Z.to_nat i) t.
Definition row (t : list Z) (i : Z) : Z :=
  Z.of_nat (length (List.filter (λ c, c =? 10) (before t i))).
Definition col (t : list Z) (i : Z) : Z := line_len (rev (before t i)).
Definition width (t : list Z) (i : Z) : Z := col t i + line_len (after t i).

Lemma before_S t i : 0 ≤ i < Z.of_nat (length t) → before t (i + 1) = before t i ++ [at_ t i].
Proof.
  intros Hi. unfold before, at_. rewrite nth_lookup.
  replace (Z.to_nat (i + 1)) with (S (Z.to_nat i)) by lia.
  destruct (lookup_lt_is_Some_2 t (Z.to_nat i)) as [x Hx]; [lia|].
  by rewrite (take_S_r t (Z.to_nat i) x Hx), Hx.
Qed.

Lemma after_S t i : 0 ≤ i < Z.of_nat (length t) → after t i = at_ t i :: after t (i + 1).
Proof.
  intros Hi. unfold after, at_. rewrite nth_lookup.
  destruct (lookup_lt_is_Some_2 t (Z.to_nat i)) as [x Hx]; [lia|].
  rewrite (drop_S t x (Z.to_nat i) Hx), Hx.
  by replace (Z.to_nat (i + 1)) with (S (Z.to_nat i)) by lia.
Qed.

Lemma col_S t i :
  0 ≤ i < Z.of_nat (length t) → col t (i + 1) = if at_ t i =? 10 then 0 else 1 + col t i.
Proof. intros Hi. unfold col. rewrite before_S by done. by rewrite rev_app_distr. Qed.

Lemma row_S t i :
  0 ≤ i < Z.of_nat (length t) → row t (i + 1) = row t i + (if at_ t i =? 10 then 1 else 0).
Proof.
  intros Hi. unfold row. rewrite before_S, List.filter_app, length_app by done. cbn [List.filter].
  destruct (_ =? _); cbn [length]; lia.
Qed.

Lemma line_len_after t i :
  0 ≤ i < Z.of_nat (length t) →
  line_len (after t i) = if at_ t i =? 10 then 0 else 1 + line_len (after t (i + 1)).
Proof. intros Hi. by rewrite after_S. Qed.

Lemma col_0 t : col t 0 = 0.
Proof. done. Qed.

Lemma after_end t : after t (Z.of_nat (length t)) = [].
Proof. unfold after. by rewrite Nat2Z.id, drop_all. Qed.

Lemma row_0 t : row t 0 = 0.
Proof. done. Qed.

Lemma line_len_nonneg l : 0 ≤ line_len l.
Proof. induction l as [|c l IH]; cbn; [done|]. destruct (c =? 10); lia. Qed.

(** [s .. s + w) is a line of [t]: no newline inside, one on either side or
    the end of the text. *)
Definition is_line (t : list Z) (s w : Z) : Prop :=
  0 ≤ s ∧ 0 ≤ w ∧ s + w ≤ Z.of_nat (length t) ∧
  (∀ i, s ≤ i < s + w → at_ t i ≠ 10) ∧
  (s = 0 ∨ at_ t (s - 1) = 10) ∧
  (s + w = Z.of_nat (length t) ∨ at_ t (s + w) = 10).

Lemma line_col t s w k : is_line t s w → 0 ≤ k ≤ w → col t (s + k) = k ∧ row t (s + k) = row t s.
Proof.
  intros (Hs & Hw & Hlen & Hin & Hstart & _) Hk.
  assert (0 ≤ k) as H0 by lia. revert Hk. pattern k. apply Z_lt_induction; [|done].
  clear k H0. intros k IH Hk.
  destruct (Z.eq_dec k 0) as [->|].
  - rewrite Z.add_0_r. split; [|done]. destruct Hstart as [->|Hnl]; [done|].
    destruct (Z.eq_dec s 0) as [->|]; [done|].
    pose proof (col_S t (s - 1) ltac:(lia)) as Hc. rewrite Hnl in Hc. cbn in Hc.
    by replace (s - 1 + 1) with s in Hc by lia.
  - destruct (IH (k - 1)) as [Hc Hr]; [lia|lia|].
    replace (s + k) with (s + (k - 1) + 1) by lia. rewrite col_S, row_S by lia.
    rewrite Hc, Hr. rewrite (proj2 (Z.eqb_neq _ 10)) by (apply Hin; lia). lia.
Qed.

Lemma line_rest t s w k : is_line t s w → 0 ≤ k ≤ w → line_len (after t (s + k)) = w - k.
Proof.
  intros (Hs & Hw & Hlen & Hin & _ & Hend) Hk.
  remember (w - k) as d eqn:Hd. assert (0 ≤ d) as Hd0 by lia. revert k Hk Hd.
  pattern d. apply natlike_ind; [| |done].
  - intros k Hk Hd. assert (k = w) as -> by lia.
    destruct Hend as [->|Hnl]; [by rewrite after_end|].
    destruct (Z.eq_dec (s + w) (Z.of_nat (length t))) as [->|]; [by rewrite after_end|].
    rewrite line_len_after by lia. by rewrite Hnl.
  - intros x Hx IH k Hk Hd. rewrite line_len_after by lia.
    rewrite (proj2 (Z.eqb_neq _ 10)) by (apply Hin; lia).
    rewrite <- Z.add_assoc, (IH (k + 1)) by lia. lia.
Qed.

Lemma line_width t s w k : is_line t s w → 0 ≤ k ≤ w → width t (s + k) = w.
Proof.
  intros Hl Hk. unfold width. rewrite (line_rest t s w) by done.
  destruct (line_col t s w k Hl Hk) as [-> _]. lia.
Qed.

(** Every position is on a line. *)
Lemma col_range t i : 0 ≤ i ≤ Z.of_nat (length t) → 0 ≤ col t i ≤ i ∧
  (∀ j, i - col t i ≤ j < i → at_ t j ≠ 10) ∧ (i - col t i = 0 ∨ at_ t (i - col t i - 1) = 10).
Proof.
  intros Hi. destruct Hi as [H0 Hi]. revert Hi. pattern i. apply natlike_ind; [| |done].
  - intros _. rewrite col_0. split; [lia|]. split; [lia|by left].
  - clear i H0. intros i H0 IH Hi. change (Z.succ i) with (i + 1) in *. rewrite col_S by lia.
    destruct IH as (Hr & Hin & Hst); [lia|].
    destruct (Z.eqb_spec (at_ t i) 10) as [Hnl|Hnl].
    + split; [lia|]. split; [lia|]. right. by replace (i + 1 - 0 - 1) with i by lia.
    + replace (i + 1 - (1 + col t i)) with (i - col t i) by lia. split; [lia|]. split; [|done].
      intros j Hj. destruct (Z.eq_dec j i) as [->|]; [done|]. apply Hin. lia.
Qed.

Lemma rest_range t i : 0 ≤ i ≤ Z.of_nat (length t) →
  let n := line_len (after t i) in
  0 ≤ n ∧ i + n ≤ Z.of_nat (length t) ∧ (∀ j, i ≤ j < i + n → at_ t j ≠ 10) ∧
  (i + n = Z.of_nat (length t) ∨ at_ t (i + n) = 10).
Proof.
  intros Hi. cbn zeta. remember (Z.of_nat (length t) - i) as d eqn:Hd.
  assert (0 ≤ d) as Hd0 by lia. revert i Hi Hd. pattern d. apply natlike_ind; [| |done].
  - intros i Hi Hd. replace i with (Z.of_nat (length t)) by lia. rewrite after_end. cbn.
    split; [lia|]. split; [lia|]. split; [lia|]. left. lia.
  - intros x Hx IH i Hi Hd. rewrite line_len_after by lia.
    destruct (Z.eqb_spec (at_ t i) 10) as [Hnl|Hnl].
    + rewrite Z.add_0_r. split; [lia|]. split; [lia|]. split; [lia|by right].
    + destruct (IH (i + 1)) as (Hn & Hle & Hin & Hend); [lia|lia|].
      rewrite Z.add_assoc. split; [lia|]. split; [lia|]. split; [|done].
      intros j Hj. destruct (Z.eq_dec j i) as [->|]; [done|]. apply Hin. lia.
Qed.

Lemma line_at t i :
  0 ≤ i ≤ Z.of_nat (length t) → is_line t (i - col t i) (width t i).
Proof.
  intros Hi. destruct (col_range t i Hi) as (Hc & Hin & Hst).
  destruct (rest_range t i Hi) as (Hn & Hle & Hin' & Hend). unfold width.
  split; [lia|]. split; [lia|]. split; [lia|]. split; [|split; [done|]].
  - intros j Hj. destruct (Z.lt_ge_cases j i); [apply Hin|apply Hin']; lia.
  - by replace (i - col t i + (col t i + line_len (after t i))) with (i + line_len (after t i)) by lia.
Qed.

(** ** The loops that move the cursor *)

Lemma back_spec buf t n c p :
  (∀ i, 0 ≤ i ≤ p → at_ buf i = at_ t i) → -1 ≤ p < Z.of_nat (length t) →
  Z.of_nat n = p + 1 → back n buf c p = (c + col t (p + 1), p - col t (p + 1)).
Proof.
  intros Heq. revert c p Heq. induction n as [|n IH]; intros c p Heq Hp Hn; cbn [back].
  { assert (p = -1) as -> by lia. change (-1 + 1) with 0. rewrite col_0. f_equal; lia. }
  rewrite col_S, Heq by lia. rewrite (proj2 (Z.leb_le 0 p)) by lia. cbn [andb].
  destruct (at_ t p =? 10); cbn [negb]; [f_equal; lia|].
  rewrite IH; [|intros; apply Heq; lia|lia|lia].
  replace (p - 1 + 1) with p by lia. f_equal; lia.
Qed.

Lemma forward_spec buf t n q :
  (∀ i, 0 ≤ i < Z.of_nat (length t) → at_ buf i = at_ t i) →
  0 ≤ q ≤ Z.of_nat (length t) → Z.of_nat n = Z.of_nat (length t) - q →
  forward n buf (Z.of_nat (length t)) q = q + line_len (after t q).
Proof.
  intros Heq. revert q. induction n as [|n IH]; intros q Hq Hn; cbn [forward].
  { replace q with (Z.of_nat (length t)) by lia. rewrite after_end. cbn. lia. }
  rewrite line_len_after, Heq by lia. rewrite (proj2 (Z.ltb_lt q _)) by lia. cbn [andb].
  destruct (at_ t q =? 10); cbn [negb]; [lia|]. rewrite IH by lia. lia.
Qed.

Lemma advance_spec stop n s m :
  0 ≤ m → (∀ j, 0 ≤ j < m → stop (s + j) = false) → stop (s + m) = true →
  advance n stop s = s + Z.min (Z.of_nat n) m.
Proof.
  revert s m. induction n as [|n IH]; intros s m Hm Hgo Hstop; cbn [advance]; [lia|].
  destruct (Z.eq_dec m 0) as [->|].
  { rewrite Z.add_0_r in Hstop. rewrite Hstop. lia. }
  pose proof (Hgo 0 ltac:(lia)) as H0. rewrite Z.add_0_r in H0. rewrite H0.
  rewrite (IH (s + 1) (m - 1)); [lia|lia| |].
  - intros j Hj. rewrite <- Z.add_assoc. apply Hgo. lia.
  - by replace (s + 1 + (m - 1)) with (s + m) by lia.
Qed.

(** The cursor moves only. *)
Lemma set_cursor_wf e i : editor_wf e → 0 ≤ i ≤ buffer_len e → editor_wf (set_cursor e i).
Proof. intros (? & ? & ?) ?. unfold editor_wf. cbn. lia. Qed.

Lemma at_text' e i : editor_wf e → 0 ≤ i < Z.of_nat (length (text e)) → at_ (edit_buffer e) i = at_ (text e) i.
Proof. intros Hwf Hi. rewrite length_text in Hi by done. by apply at_text. Qed.

Lemma key_up_spec e :
  editor_wf e →
  let t := text e in let i := cursor_pos e in
  (col t i = i ∧ key_up e = e) ∨
  (∃ s w, is_line t s w ∧ s + w = i - col t i - 1 ∧ at_ t (s + w) = 10 ∧
     key_up e = set_cursor e (s + Z.min (col t i) w)).
Proof.
  intros Hwf t i. pose proof Hwf as (Hl & Hc & Hb). pose proof (length_text e Hwf) as Hlt.
  fold t in Hlt. destruct (col_range t i) as (Hcr & Hin & Hst); [unfold i; lia|].
  unfold key_up. fold i. rewrite (back_spec _ t);
    [|intros; apply at_text; [done|unfold i in *; lia]|unfold i in *; lia|unfold i in *; lia].
  rewrite Z.sub_add. destruct (Z.leb_spec 0 (i - 1 - col t i)) as [Hp|Hp].
  2: { left. split; [lia|done]. }
  right. set (p := i - 1 - col t i) in *. rewrite (back_spec _ t);
    [|intros; apply at_text; [done|unfold i in *; lia]|unfold i in *; lia|lia].
  rewrite Z.sub_add.
  assert (at_ t p = 10) as Hnl.
  { destruct Hst as [|Hst]; [lia|]. by replace p with (i - col t i - 1) by lia. }
  pose proof (line_at t p ltac:(unfold i in *; lia)) as Hline.
  assert (width t p = col t p) as Hw.
  { unfold width. rewrite line_len_after, Hnl by (unfold i in *; lia). cbn. lia. }
  rewrite Hw in Hline. destruct (col_range t p) as (Hcp & _); [unfold i in *; lia|].
  exists (p - col t p), (col t p). replace (p - col t p + col t p) with p by lia.
  split; [done|]. split; [lia|]. split; [done|]. f_equal.
  replace (p - 1 - col t p + 1) with (p - col t p) by lia.
  rewrite (advance_spec _ _ _ (col t p)); [f_equal; lia|lia| |].
  - intros j Hj. apply Z.eqb_neq. lia.
  - apply Z.eqb_eq. lia.
Qed.

Lemma key_down_spec e :
  editor_wf e →
  let t := text e in let i := cursor_pos e in
  (i + line_len (after t i) = buffer_len e ∧ key_down e = e) ∨
  (∃ s w, is_line t s w ∧ s = i + line_len (after t i) + 1 ∧ at_ t (s - 1) = 10 ∧
     key_down e = set_cursor e (s + Z.min (col t i) w)).
Proof.
  intros Hwf t i. pose proof Hwf as (Hl & Hc & Hb). pose proof (length_text e Hwf) as Hlt.
  fold t in Hlt. destruct (col_range t i) as (Hcr & _ & _); [unfold i; lia|].
  destruct (rest_range t i) as (Hn & Hle & Hin & Hend); [unfold i; lia|].
  unfold key_down. fold i. rewrite (back_spec _ t);
    [|intros; apply at_text; [done|unfold i in *; lia]|unfold i in *; lia|unfold i in *; lia].
  rewrite Z.sub_add, Z.add_0_l, <- Hlt.
  rewrite (forward_spec _ t); [|intros; by apply at_text'|unfold i in *; lia|unfold i in *; lia].
  set (q := i + line_len (after t i)) in *.
  destruct (Z.ltb_spec q (Z.of_nat (length t))) as [Hq|Hq]; [right|left; split; [lia|done]].
  assert (at_ t q = 10) as Hnl by (destruct Hend; [lia|done]).
  exists (q + 1), (line_len (after t (q + 1))).
  destruct (rest_range t (q + 1)) as (Hn' & Hle' & Hin' & Hend'); [unfold i in *; lia|].
  replace (q + 1 - 1) with q by lia.
  split; [|split; [done|split; [done|]]].
  - unfold is_line. replace (q + 1 - 1) with q by lia. split_and!; try done; [unfold i in *; lia|by right].
  - f_equal. rewrite (advance_spec _ _ _ (line_len (after t (q + 1)))); [f_equal; lia|lia| |].
    + intros j Hj. rewrite (proj2 (Z.leb_gt _ _)) by lia. cbn [orb]. apply Z.eqb_neq.
      unfold t. rewrite (at_text' e) by (fold t; unfold i in *; done || lia). apply Hin'. lia.
    + destruct Hend' as [->|Hnl']; [by rewrite Z.leb_refl|].
      destruct (Z.leb_spec (Z.of_nat (length t)) (q + 1 + line_len (after t (q + 1)))); [done|].
      cbn [orb]. apply Z.eqb_eq. rewrite at_text' by (fold t; unfold i in *; done || lia). done.
Qed.

(** ** The abstract editor *)

Record screen_text := mk_spec { s_text : list Z; s_cursor : Z; s_insert : bool }.

Definition abs (e : editor) : screen_text := mk_spec (text e) (cursor_pos e) (is_insert_mode e).

(** The cursor goes one row up or down, keeping its column where the row is
    long enough; in the first or last row it stays. *)
Definition vertical (t : list Z) (i i' d : Z) : Prop :=
  row t i' = row t i + d ∧ col t i' = Z.min (col t i) (width t i') ∧ 0 ≤ i' ≤ Z.of_nat (length t).

Definition printable (c : Z) : Prop := 32 ≤ c ≤ 126 ∨ c = 10.

(** ESC and the arrow keys, which mean the same in both modes. *)
Definition navigation (c : Z) : Prop := c = 27 ∨ 128 ≤ c ≤ 131.

(** What a key does: exactly one rule applies ([spec_key_fun]). *)
Inductive spec_key (max : Z) : screen_text → Z → screen_text → Prop :=
  | k_escape t i m : spec_key max (mk_spec t i m) 27 (mk_spec t i false)
  | k_left t i m : spec_key max (mk_spec t i m) 130 (mk_spec t (Z.max 0 (i - 1)) m)
  | k_right t i m :
      spec_key max (mk_spec t i m) 131 (mk_spec t (Z.min (Z.of_nat (length t)) (i + 1)) m)
  | k_up t i i' m : vertical t i i' (-1) → spec_key max (mk_spec t i m) 128 (mk_spec t i' m)
  | k_first t i m : row t i = 0 → spec_key max (mk_spec t i m) 128 (mk_spec t i m)
  | k_down t i i' m : vertical t i i' 1 → spec_key max (mk_spec t i m) 129 (mk_spec t i' m)
  | k_last t i m :
      row t i = row t (Z.of_nat (length t)) → spec_key max (mk_spec t i m) 129 (mk_spec t i m)
  | k_backspace t i : 0 < i →
      spec_key max (mk_spec t i true) 8 (mk_spec (before t (i - 1) ++ after t i) (i - 1) true)
  | k_insert t i c : printable c → Z.of_nat (length t) < max - 1 →
      spec_key max (mk_spec t i true) c (mk_spec (before t i ++ [c] ++ after t i) (i + 1) true)
  | k_ignored t i c : ¬ navigation c →
      (c = 8 ∧ i = 0 ∨ c ≠ 8 ∧ (¬ printable c ∨ max - 1 ≤ Z.of_nat (length t))) →
      spec_key max (mk_spec t i true) c (mk_spec t i true)
  | k_mode t i : spec_key max (mk_spec t i false) 105 (mk_spec t i true)
  | k_normal t i c : ¬ navigation c → c ≠ 105 → c ≠ 119 → c ≠ 113 →
      spec_key max (mk_spec t i false) c (mk_spec t i false).

(** Rows and lines. *)
Lemma row_mono t i j :
  0 ≤ i ≤ j → j ≤ Z.of_nat (length t) →
  row t i ≤ row t j ∧ (row t i = row t j → col t j = col t i + (j - i) ∧ width t j = width t i).
Proof.
  intros Hi. replace j with (i + (j - i)) by lia. assert (0 ≤ j - i) as Hd by lia.
  generalize dependent (j - i). intros d Hd. revert d Hd.
  apply (natlike_ind (λ d, i + d ≤ Z.of_nat (length t) → row t i ≤ row t (i + d) ∧
    (row t i = row t (i + d) → col t (i + d) = col t i + (i + d - i) ∧ width t (i + d) = width t i))).
  { rewrite Z.add_0_r. intros _. split; [lia|]. intros _. split; [lia|done]. }
  intros d Hd IH Hle. destruct (IH ltac:(lia)) as [Hr Hsame]. replace (i + Z.succ d) with (i + d + 1) by lia.
  rewrite row_S by lia. unfold width in *. rewrite col_S by lia. rewrite (line_len_after t (i + d)) in Hsame by lia.
  destruct (at_ t (i + d) =? 10); split; [lia|lia|lia|]. intros He. destruct (Hsame ltac:(lia)). lia.
Qed.

(** Row and column determine the position. *)
Lemma row_col_inj t i j :
  0 ≤ i ≤ Z.of_nat (length t) → 0 ≤ j ≤ Z.of_nat (length t) →
  row t i = row t j → width t i = width t j ∧ (col t i = col t j → i = j).
Proof.
  intros Hi Hj Hr. destruct (Z.le_ge_cases i j).
  - destruct (row_mono t i j) as [_ Hs]; [lia|lia|]. destruct (Hs Hr). split; [done|lia].
  - destruct (row_mono t j i) as [_ Hs]; [lia|lia|]. destruct (Hs (eq_sym Hr)). split; [done|lia].
Qed.

Lemma vertical_inj t i d i1 i2 : vertical t i i1 d → vertical t i i2 d → i1 = i2.
Proof.
  intros (Hr1 & Hc1 & H1) (Hr2 & Hc2 & H2). destruct (row_col_inj t i1 i2 H1 H2) as [Hw Hi]; [lia|].
  apply Hi. congruence.
Qed.

(** From the first row there is no way up, from the last none down. *)
Lemma vertical_first t i i' : vertical t i i' (-1) → row t i = 0 → False.
Proof. intros (Hr & _ & _) H0. unfold row in *. lia. Qed.

Lemma vertical_last t i i' : vertical t i i' 1 → row t i = row t (Z.of_nat (length t)) → False.
Proof. intros (Hr & _ & Hi) Hl. destruct (row_mono t i' (Z.of_nat (length t))); lia. Qed.

(** The abstract editor is a function of its state and the key. *)
Lemma spec_key_fun max s c s1 s2 : spec_key max s c s1 → spec_key max s c s2 → s1 = s2.
Proof.
  unfold navigation, printable.
  intros H1 H2. inversion H1; subst; inversion H2; subst; try done; try (exfalso; unfold navigation, printable in *; lia).
  - f_equal. by eapply vertical_inj.
  - exfalso. by eapply vertical_first.
  - exfalso. by eapply vertical_first.
  - f_equal. by eapply vertical_inj.
  - exfalso. by eapply vertical_last.
  - exfalso. by eapply vertical_last.
Qed.

Lemma row_start t s w : is_line t s w → 0 < s → row t s = row t (s - 1) + 1.
Proof.
  intros (H0 & Hw & Hlen & _ & [->|Hnl] & _) Hs; [lia|].
  replace s with (s - 1 + 1) at 1 by lia. rewrite row_S, Hnl by lia. done.
Qed.

Lemma key_up_vertical e :
  editor_wf e →
  row (text e) (cursor_pos e) = 0 ∧ key_up e = e ∨
  ∃ i', key_up e = set_cursor e i' ∧ vertical (text e) (cursor_pos e) i' (-1).
Proof.
  intros Hwf. pose proof Hwf as (Hl & Hc & Hb). pose proof (length_text e Hwf) as Hlt.
  pose proof (line_at (text e) (cursor_pos e) ltac:(lia)) as Hcur.
  destruct (col_range (text e) (cursor_pos e)) as (Hcr & _ & _); [lia|].
  assert (0 ≤ line_len (after (text e) (cursor_pos e))) by apply line_len_nonneg.
  assert (row (text e) (cursor_pos e) = row (text e) (cursor_pos e - col (text e) (cursor_pos e)))
    as Hrow.
  { destruct (line_col _ _ _ (col (text e) (cursor_pos e)) Hcur) as [_ Hr];
      [unfold width; lia|]. by rewrite Z.sub_add in Hr. }
  destruct (key_up_spec e Hwf) as [[Hz Hk]|(s & w & Hline & Hsw & Hnl & Hk)].
  - left. split; [|done]. by rewrite Hrow, Hz, Z.sub_diag, row_0.
  - right. eexists. split; [exact Hk|]. unfold vertical.
    pose proof Hline as (Hs & Hw & Hlen & _).
    destruct (line_col _ _ _ (Z.min (col (text e) (cursor_pos e)) w) Hline) as [Hc1 Hr1]; [lia|].
    destruct (line_col _ _ _ w Hline) as [_ Hr2]; [lia|].
    rewrite Hc1, Hr1, (line_width _ _ w) by (done || lia). split; [|lia].
    rewrite Hrow, (row_start _ _ _ Hcur) by lia. rewrite <- Hsw. lia.
Qed.

Lemma key_down_vertical e :
  editor_wf e →
  row (text e) (cursor_pos e) = row (text e) (buffer_len e) ∧ key_down e = e ∨
  ∃ i', key_down e = set_cursor e i' ∧ vertical (text e) (cursor_pos e) i' 1.
Proof.
  intros Hwf. pose proof Hwf as (Hl & Hc & Hb). pose proof (length_text e Hwf) as Hlt.
  pose proof (line_at (text e) (cursor_pos e) ltac:(lia)) as Hcur.
  destruct (col_range (text e) (cursor_pos e)) as (Hcr & _ & _); [lia|].
  set (n := line_len (after (text e) (cursor_pos e))) in *.
  assert (0 ≤ n) by apply line_len_nonneg.
  assert (row (text e) (cursor_pos e + n) = row (text e) (cursor_pos e)) as Hrow.
  { destruct (line_col _ _ _ (col (text e) (cursor_pos e)) Hcur) as [_ Hr];
      [unfold width; fold n; lia|].
    destruct (line_col _ _ _ (col (text e) (cursor_pos e) + n) Hcur) as [_ Hr'];
      [unfold width; fold n; lia|].
    rewrite Z.sub_add in Hr. rewrite Z.add_assoc, Z.sub_add in Hr'. by rewrite Hr, Hr'. }
  destruct (key_down_spec e Hwf) as [[Hz Hk]|(s & w & Hline & Hsw & Hnl & Hk)];
    [fold n in Hz|fold n in Hsw].
  - left. split; [|done]. by rewrite <- Hrow, Hz.
  - right. eexists. split; [exact Hk|]. unfold vertical.
    pose proof Hline as (Hs & Hw & Hlen & _).
    destruct (line_col _ _ _ (Z.min (col (text e) (cursor_pos e)) w) Hline) as [Hc1 Hr1]; [lia|].
    rewrite Hc1, Hr1, (line_width _ _ w) by (done || lia). split; [|lia].
    rewrite (row_start _ _ _ Hline) by lia. replace (s - 1) with (cursor_pos e + n) by lia.
    by rewrite Hrow.
Qed.

(** ** Properties *)

Section Properties.
Variable max_rows : Z.
Variable write_file : list Z → list Z → Z.

Lemma arrow_key_spec e c :
  editor_wf e → 128 ≤ c ≤ 131 →
  editor_wf (arrow_key e c) ∧ spec_key (edit_buffer_max e) (abs e) c (abs (arrow_key e c)).
Proof.
  intros Hwf Hc. pose proof Hwf as (Hl & Hcur & Hb). pose proof (length_text e Hwf) as Hlt.
  unfold arrow_key, abs.
  destruct (Z.eqb_spec c 130) as [->|].
  { destruct (Z.ltb_spec 0 (cursor_pos e)).
    - split; [apply set_cursor_wf; [done|lia]|].
      replace (cursor_pos (set_cursor e (cursor_pos e - 1))) with (Z.max 0 (cursor_pos e - 1))
        by (cbn; lia). constructor.
    - split; [done|]. replace (cursor_pos e) with (Z.max 0 (cursor_pos e - 1)) at 2 by lia.
      constructor. }
  destruct (Z.eqb_spec c 131) as [->|].
  { destruct (Z.ltb_spec (cursor_pos e) (buffer_len e)).
    - split; [apply set_cursor_wf; [done|lia]|].
      replace (cursor_pos (set_cursor e (cursor_pos e + 1)))
        with (Z.min (Z.of_nat (length (text e))) (cursor_pos e + 1)) by (cbn; lia). constructor.
    - split; [done|].
      replace (cursor_pos e) with (Z.min (Z.of_nat (length (text e))) (cursor_pos e + 1)) at 2 by lia.
      constructor. }
  destruct (Z.eqb_spec c 128) as [->|].
  { destruct (key_up_vertical e Hwf) as [[Hr ->]|(i' & -> & Hv)].
    - split; [done|by constructor].
    - split; [apply set_cursor_wf; [done|destruct Hv; lia]|by constructor]. }
  destruct (Z.eqb_spec c 129) as [->|]; [|lia].
  destruct (key_down_vertical e Hwf) as [[Hr ->]|(i' & -> & Hv)].
  - split; [done|]. apply k_last. by rewrite Hlt.
  - split; [apply set_cursor_wf; [done|destruct Hv; lia]|by constructor].
Qed.

Lemma insert_key_spec e c :
  editor_wf e → is_insert_mode e = true → ¬ navigation c →
  editor_wf (insert_key e c) ∧ spec_key (edit_buffer_max e) (abs e) c (abs (insert_key e c)).
Proof.
  intros Hwf Hm Hnav. pose proof Hwf as (Hl & Hcur & Hb). pose proof (length_text e Hwf) as Hlt.
  unfold insert_key, abs. rewrite Hm.
  destruct (Z.eqb_spec c 8) as [->|Hc8].
  { destruct (Z.ltb_spec 0 (cursor_pos e)) as [H0|H0].
    - destruct (text_shift_left e Hwf H0) as [Hwf' Ht]. split; [done|].
      rewrite Ht. cbn [is_insert_mode set_text cursor_pos]. rewrite Hm. by constructor.
    - split; [done|]. rewrite Hm. apply k_ignored; [done|]. left. lia. }
  destruct (Z.ltb_spec (buffer_len e) (edit_buffer_max e - 1)) as [Hroom|Hroom]; cbn [andb].
  2: { split; [done|]. rewrite Hm. apply k_ignored; [done|]. right. split; [done|]. right. lia. }
  destruct (((32 <=? c) && (c <=? 126)) || (c =? 10)) eqn:Hp.
  - assert (printable c) as Hpr by (unfold printable; lia).
    destruct (text_insert e c Hwf Hroom) as [Hwf' Ht]. split; [done|].
    rewrite Ht. cbn [is_insert_mode set_text cursor_pos]. rewrite Hm. constructor; [done|lia].
  - split; [done|]. rewrite Hm. apply k_ignored; [done|]. right. split; [done|]. left. unfold printable. lia.
Qed.

(** A key that does not end the editor. *)
Lemma editor_key_continue e c e' calls :
  editor_wf e → editor_key max_rows write_file e c = Continue e' calls →
  editor_wf e' ∧ spec_key (edit_buffer_max e) (abs e) c (abs e') ∧
  calls = draw_editor_ui e' max_rows.
Proof.
  intros Hwf. unfold editor_key, redraw.
  destruct (Z.eqb_spec c 27) as [->|Hesc]; [intros [= <- <-]; split; [done|split; [constructor|done]]|].
  destruct (andb _ _) eqn:Harr.
  { intros [= <- <-]. destruct (arrow_key_spec e c Hwf) as [? ?]; [lia|]. done. }
  assert (¬ navigation c) as Hnav by (unfold navigation; lia).
  destruct (is_insert_mode e) eqn:Hm.
  { intros [= <- <-]. by destruct (insert_key_spec e c Hwf Hm Hnav). }
  destruct (Z.eqb_spec c 105) as [->|].
  { intros [= <- <-]. split; [done|]. split; [|done]. unfold abs. rewrite Hm. constructor. }
  destruct (Z.eqb_spec c 119); [done|]. destruct (Z.eqb_spec c 113); [done|].
  intros [= <- <-]. split; [done|]. split; [|done]. unfold abs. rewrite Hm. by constructor.
Qed.

(** C18. Every key that does not end the editor keeps the invariant (the cursor
    in the text, the text in the buffer, one byte left for the final NUL),
    makes of the text, the cursor and the mode what the abstract editor makes of
    them and nothing else (the abstract editor has one next state for a key: ESC
    leaves insert mode, the arrows move by a character or by a row at the same
    column, where there is one, a printable character is inserted when there is
    room), and redraws the screen. *)
Theorem editor_refines e c e' calls :
  editor_wf e → editor_key max_rows write_file e c = Continue e' calls →
  editor_wf e' ∧ (∀ s, spec_key (edit_buffer_max e) (abs e) c s ↔ s = abs e') ∧
  calls = draw_editor_ui e' max_rows.
Proof.
  intros Hwf Hk. destruct (editor_key_continue e c e' calls Hwf Hk) as (Hwf' & Hs & Hd).
  split; [done|]. split; [|done]. intros s. split; [intros Hs'; by eapply spec_key_fun|by intros ->].
Qed.

(** The editor ends only on 'q' or 'w' in normal mode; 'q' writes nothing
    and 'w' writes exactly the text, under the name it was opened with, and
    reports success exactly when the system call returns a positive number. *)
Theorem editor_finish e c calls :
  editor_wf e → editor_key max_rows write_file e c = Finish calls →
  is_insert_mode e = false ∧
  (c = 113 ∧ calls = [Clear; Exit] ∨
   c = 119 ∧ ∃ msg, calls = [WriteFile (current_filename e) (text e); Clear; Print msg; Exit] ∧
     (msg = str "Arquivo salvo no HD (FAT16)." ++ [10] ↔
      0 < write_file (current_filename e) (text e))).
Proof.
  intros Hwf. pose proof Hwf as (Hl & Hcur & Hb). unfold editor_key, redraw.
  destruct (Z.eqb_spec c 27); [done|]. destruct (andb _ _); [done|].
  destruct (is_insert_mode e) eqn:Hm; [done|]. destruct (Z.eqb_spec c 105); [done|].
  assert (take (Z.to_nat (buffer_len e)) (upd (edit_buffer e) (buffer_len e) 0) = text e) as Ht.
  { unfold upd, text. apply take_insert_ge. lia. }
  destruct (Z.eqb_spec c 119) as [->|].
  { intros [= <-]. split; [done|]. right. split; [done|]. unfold save.
    cbn [edit_buffer buffer_len current_filename set_mode]. rewrite Ht.
    destruct (Z.ltb_spec 0 (write_file (current_filename e) (text e))) as [Hw|Hw].
    - eexists. split; [reflexivity|]. split; done.
    - eexists. split; [reflexivity|]. split; [done|lia]. }
  destruct (Z.eqb_spec c 113) as [->|]; [|done].
  intros [= <-]. split; [done|]. by left.
Qed.
End Properties.

(** ** Opening and drawing *)

Lemma kstrncpy_take s n : kstrncpy s (S n) = take n s.
Proof.
  revert n. induction s as [|c s IH]; intros [|n]; try done. cbn [kstrncpy take]. by rewrite <- IH.
Qed.

(** Opening a file whose size leaves room for 8 KiB in the pool gives an
    editor that satisfies the invariant, in normal mode, with the cursor at the
    start and the file's bytes as its text; a larger file is refused. *)
Theorem editor_start_correct max_rows args fsize read_file :
  let filename := match args with Some (c :: s) => c :: s | _ => str "buffer.txt" end in
  let data := if 0 <? fsize filename then (read_file filename).2 else [] in
  -1 ≤ fsize filename < 2 ^ 31 - 8192 →
  (0 < fsize filename → (read_file filename).1 = Z.of_nat (length data) ∧
     Z.of_nat (length data) ≤ fsize filename) →
  match editor_start max_rows args fsize read_file with
  | Continue e calls =>
      editor_wf e ∧ abs e = mk_spec data 0 false ∧ current_filename e = take 31 filename ∧
      fsize filename + 8192 ≤ MEMORY_POOL_SIZE
  | Finish calls => MEMORY_POOL_SIZE < fsize filename + 8192
  end.
Proof.
  intros filename data Hf Hread. unfold editor_start. fold filename.
  assert (s32 (fsize filename + 8192) = fsize filename + 8192) as ->
    by (apply signed_small; lia).
  unfold editor_malloc. rewrite Z.add_0_l.
  destruct (Z.ltb_spec MEMORY_POOL_SIZE (fsize filename + 8192)) as [|Hfit]; [done|].
  cbn zeta. unfold data in *. destruct (Z.ltb_spec 0 (fsize filename)) as [Hpos|Hzero].
  - destruct (Hread Hpos) as [Hsz Hle]. destruct (read_file filename) as [size d].
    cbn [fst snd] in Hsz, Hle. subst size. unfold redraw.
    assert ((if 0 <? Z.of_nat (length d) then Z.of_nat (length d) else 0) = Z.of_nat (length d)) as ->
      by (destruct (Z.ltb_spec 0 (Z.of_nat (length d))); lia).
    split; [|split; [|split; [apply kstrncpy_take|done]]].
    + unfold editor_wf. cbn [edit_buffer edit_buffer_max cursor_pos buffer_len].
      rewrite length_app, length_drop, repeat_length. lia.
    + unfold abs, text. cbn [edit_buffer buffer_len cursor_pos is_insert_mode snd]. f_equal.
      by rewrite Nat2Z.id, take_app_length.
  - unfold redraw. split; [|split; [|split; [apply kstrncpy_take|done]]]; [|done].
    unfold editor_wf. cbn [edit_buffer edit_buffer_max cursor_pos buffer_len].
    rewrite repeat_length. lia.
Qed.

(** The cell under the cursor: a blank at the end of a line. *)
Definition cell (t : list Z) (i : Z) : Z :=
  if (i =? Z.of_nat (length t)) || (at_ t i =? 10) then 32 else at_ t i.
Definition rest (t : list Z) (i : Z) : list Z :=
  if (i =? Z.of_nat (length t)) || (at_ t i =? 10) then after t i else after t (i + 1).

Lemma draw_loop_S e n : draw_loop e (S n) = draw_loop e n ++ draw_char e (Z.of_nat n).
Proof. unfold draw_loop. replace (S n) with (n + 1)%nat by lia. by rewrite for_each_app. Qed.

Lemma draw_char_off e i :
  editor_wf e → i ≠ cursor_pos e → 0 ≤ i < buffer_len e →
  draw_char e i = [Putchar (at_ (text e) i)].
Proof.
  intros Hwf Hne Hi. unfold draw_char. rewrite (proj2 (Z.eqb_neq _ _)) by done.
  rewrite (proj2 (Z.ltb_lt _ _)), at_text by (done || lia). done.
Qed.

Lemma draw_before e n :
  editor_wf e → Z.of_nat n ≤ cursor_pos e → draw_loop e n = Putchar <$> before (text e) (Z.of_nat n).
Proof.
  intros Hwf. pose proof (length_text e Hwf). destruct Hwf as (Hl & Hc & Hb) eqn:E. clear E.
  induction n as [|n IH]; intros Hn; [done|].
  rewrite draw_loop_S, IH, draw_char_off by (done || lia).
  replace (Z.of_nat (S n)) with (Z.of_nat n + 1) by lia.
  rewrite before_S by lia. by rewrite fmap_app.
Qed.

Lemma draw_after e n :
  editor_wf e → cursor_pos e < Z.of_nat n ≤ buffer_len e →
  draw_loop e n =
  draw_loop e (S (Z.to_nat (cursor_pos e))) ++
  (Putchar <$> after (before (text e) (Z.of_nat n)) (cursor_pos e + 1)).
Proof.
  intros Hwf. pose proof Hwf as (Hl & Hc & Hb). pose proof (length_text e Hwf) as Hlt.
  induction n as [|n IH]; intros Hn; [lia|]. rewrite (draw_loop_S e n).
  destruct (Z.eq_dec (Z.of_nat n) (cursor_pos e)) as [Heq|Hne].
  - assert (n = Z.to_nat (cursor_pos e)) as -> by lia. rewrite <- draw_loop_S.
    unfold after, before. rewrite drop_ge by (rewrite length_take; lia). by rewrite app_nil_r.
  - rewrite IH, draw_char_off by (done || lia).
    replace (Z.of_nat (S n)) with (Z.of_nat n + 1) by lia.
    rewrite before_S by lia. unfold after.
    rewrite drop_app_le by (unfold before; rewrite length_take; lia).
    by rewrite fmap_app, app_assoc.
Qed.

(** The characters before the cursor, the cursor's turn, the characters after. *)
Lemma draw_parts e :
  editor_wf e →
  draw_loop e (Z.to_nat (buffer_len e + 1)) =
  (Putchar <$> before (text e) (cursor_pos e)) ++ draw_char e (cursor_pos e) ++
  (Putchar <$> after (text e) (cursor_pos e + 1)).
Proof.
  intros Hwf. pose proof Hwf as (Hl & Hc & Hb). pose proof (length_text e Hwf) as Hlt.
  assert (draw_loop e (S (Z.to_nat (cursor_pos e))) =
    (Putchar <$> before (text e) (cursor_pos e)) ++ draw_char e (cursor_pos e)) as Hcur.
  { rewrite draw_loop_S, draw_before, Z2Nat.id by (done || lia). done. }
  replace (Z.to_nat (buffer_len e + 1)) with (S (Z.to_nat (buffer_len e))) by lia.
  destruct (Z.eq_dec (cursor_pos e) (buffer_len e)) as [Heq|Hne].
  - unfold after. rewrite <- Heq, drop_ge, Hcur, app_nil_r by lia. done.
  - rewrite draw_loop_S, draw_after, Hcur, Z2Nat.id by (done || lia).
    assert (draw_char e (buffer_len e) = []) as ->.
    { unfold draw_char. by rewrite (proj2 (Z.eqb_neq _ _)), Z.ltb_irrefl by lia. }
    unfold before at 2. rewrite <- Hlt, Nat2Z.id, firstn_all, app_nil_r. by rewrite app_assoc.
Qed.

(** The text part of the screen is the text itself, with the cell under
    the cursor (a blank at the end of a line) in reversed colours. *)
Theorem draw_correct e max_rows :
  editor_wf e →
  draw_editor_ui e max_rows =
  draw_status e max_rows ++
  (Putchar <$> before (text e) (cursor_pos e)) ++
  [SetColor 0 2; Putchar (cell (text e) (cursor_pos e)); SetColor 2 0] ++
  (Putchar <$> rest (text e) (cursor_pos e)).
Proof.
  intros Hwf. pose proof Hwf as (Hl & Hc & Hb). pose proof (length_text e Hwf) as Hlt.
  unfold draw_editor_ui. rewrite draw_parts by done. do 2 f_equal.
  unfold draw_char, cell, rest. rewrite Z.eqb_refl, Hlt.
  destruct (Z.eqb_spec (cursor_pos e) (buffer_len e)) as [He|Hne]; cbn [orb].
  - rewrite He, Z.ltb_irrefl. unfold after. by rewrite !drop_ge by lia.
  - rewrite at_text by (done || lia).
    destruct (Z.eqb_spec (at_ (text e) (cursor_pos e)) 10) as [Hnl|]; [|done].
    rewrite (proj2 (Z.ltb_lt _ _)) by lia. rewrite (after_S (text e) (cursor_pos e)) by lia.
    by rewrite Hnl.
Qed.

(** ** A session *)

(** The text "ab\ncd" with the cursor after the newline, in insert mode. *)
Definition demo_editor : editor :=
  mk_editor (str "ab" ++ [10] ++ str "cd" ++ repeat 0 5) 10 5 3 true (str "buffer.txt") 0.

Lemma demo_editor_wf : editor_wf demo_editor.
Proof. unfold editor_wf. cbn. lia. Qed.

(** Up from the start of the second row. *)
Lemma editor_refines_witness :
  editor_wf (arrow_key demo_editor 128) ∧
  ∀ s, spec_key 10 (mk_spec (str "ab" ++ [10] ++ str "cd") 3 true) 128 s ↔
    s = mk_spec (str "ab" ++ [10] ++ str "cd") 0 true.
Proof.
  destruct (editor_refines 33 (λ _ _, 0) demo_editor 128 (arrow_key demo_editor 128)
    (draw_editor_ui (arrow_key demo_editor 128) 33) demo_editor_wf) as (Hwf & Hs & _); [reflexivity|].
  split; [exact Hwf|exact Hs].
Defined.

Lemma editor_finish_witness :
  ∃ msg, save (λ _ _, 0) demo_editor =
    [WriteFile (str "buffer.txt") (str "ab" ++ [10] ++ str "cd"); Clear; Print msg; Exit].
Proof.
  destruct (editor_finish 33 (λ _ _, 0) (set_mode demo_editor false 0) 119
    (save (λ _ _, 0) demo_editor) demo_editor_wf eq_refl)
    as [_ [[? _]|(_ & msg & Hs & _)]]; [discriminate|].
  exists msg. exact Hs.
Defined.

Lemma editor_start_correct_witness :
  match editor_start 33 None (λ _, 2) (λ _, (2, str "hi")) with
  | Continue e _ => abs e = mk_spec (str "hi") 0 false
  | Finish _ => False
  end.
Proof.
  pose proof (editor_start_correct 33 None (λ _, 2) (λ _, (2, str "hi")) ltac:(cbn; lia)
    ltac:(cbn; lia)) as Hs.
  destruct (editor_start 33 None (λ _, 2) (λ _, (2, str "hi"))) as [e calls|calls].
  - exact (proj1 (proj2 Hs)).
  - unfold MEMORY_POOL_SIZE in Hs. cbn in Hs. lia.
Defined.

Lemma draw_correct_witness :
  draw_editor_ui demo_editor 33 = draw_status demo_editor 33 ++
  [Putchar 97; Putchar 98; Putchar 10; SetColor 0 2; Putchar 99; SetColor 2 0; Putchar 100].
Proof. exact (draw_correct demo_editor 33 demo_editor_wf). Defined.
