(* ===== verification/Block.v ===== *)
(** The block device as the file system sees it.

    [Disk] lists the two routines of src/hal/ata.h that src/kernel/fat16.c
    calls; [DiskLaws] is their contract: a sector holds 512 bytes, reading
    gives what was last written there, and writing one sector changes no other
    one. [gmap_disk] is a disk kept in a finite map, for concrete runs. *)

From S2P Require Export Io.

Class Disk (D : Type) := {
  ata_read_sector : D → Z → list Z;
  ata_write_sector : D → Z → list Z → D;
  sectors : D → Z;
}.

Definition is_byte (b : Z) : Prop := 0 ≤ b < 256.
Definition is_sector (l : list Z) : Prop := length l = 512%nat ∧ Forall is_byte l.

Class DiskLaws (D : Type) `{Disk D} := {
  read_is_sector d s : is_sector (ata_read_sector d s);
  sectors_write d s l : sectors (ata_write_sector d s l) = sectors d;
  read_write_eq d s l :
    0 ≤ s < sectors d → is_sector l → ata_read_sector (ata_write_sector d s l) s = l;
  read_write_ne d s s' l :
    0 ≤ s < sectors d → 0 ≤ s' < sectors d → s ≠ s' →
    ata_read_sector (ata_write_sector d s l) s' = ata_read_sector d s';
}.

Section Facts.
Context {D : Type} `{DiskLaws D}.

Lemma read_write d s s' l :
  0 ≤ s < sectors d → 0 ≤ s' < sectors d → is_sector l →
  ata_read_sector (ata_write_sector d s l) s' = if decide (s = s') then l else ata_read_sector d s'.
Proof.
  intros. case_decide; [subst; by apply read_write_eq|by apply read_write_ne].
Qed.

Lemma at_byte l i : Forall is_byte l → is_byte (at_ l i).
Proof.
  intros Hl. unfold at_. destruct (nth_in_or_default (Z.to_nat i) l 0) as [Hin | ->]; [|done].
  rewrite List.Forall_forall in Hl. by apply Hl.
Qed.

Lemma upd_sector l i v : is_sector l → is_byte v → is_sector (upd l i v).
Proof.
  intros [Hlen Hb] Hv. split; [by rewrite length_upd|]. unfold upd. by apply Forall_insert.
Qed.

Lemma read_byte d s i : is_byte (at_ (ata_read_sector d s) i).
Proof. apply at_byte, read_is_sector. Qed.
End Facts.

(** ** Little-endian fields of a sector *)

Definition get16 (l : list Z) (i : Z) : Z := at_ l i + 2 ^ 8 * at_ l (i + 1).
Definition get32 (l : list Z) (i : Z) : Z := get16 l i + 2 ^ 16 * get16 l (i + 2).
Definition put16 (l : list Z) (i v : Z) : list Z := upd (upd l i (v mod 2 ^ 8)) (i + 1) (v / 2 ^ 8 mod 2 ^ 8).
Definition put32 (l : list Z) (i v : Z) : list Z :=
  put16 (put16 l i (v mod 2 ^ 16)) (i + 2) (v / 2 ^ 16 mod 2 ^ 16).

Lemma mod_byte v : is_byte (v mod 2 ^ 8).
Proof. by apply Z.mod_pos_bound. Qed.

Lemma put16_sector l i v : is_sector l → is_sector (put16 l i v).
Proof. intros. unfold put16. by repeat apply upd_sector, mod_byte. Qed.
Lemma put32_sector l i v : is_sector l → is_sector (put32 l i v).
Proof. intros. unfold put32. by repeat apply put16_sector. Qed.

Lemma length_put16 l i v : length (put16 l i v) = length l.
Proof. unfold put16. by rewrite !length_upd. Qed.

Lemma at_put16 l i v j :
  0 ≤ i → i + 2 ≤ Z.of_nat (length l) → 0 ≤ j →
  at_ (put16 l i v) j =
    if decide (j = i) then v mod 2 ^ 8 else if decide (j = i + 1) then v / 2 ^ 8 mod 2 ^ 8 else at_ l j.
Proof.
  intros. unfold put16. rewrite at_upd by (rewrite ?length_upd; lia).
  rewrite at_upd by lia. repeat case_decide; (lia || done).
Qed.

Lemma get16_put16 l i v j :
  0 ≤ i → i + 2 ≤ Z.of_nat (length l) → 0 ≤ j → j = i ∨ j + 2 ≤ i ∨ i + 2 ≤ j →
  get16 (put16 l i v) j = if decide (j = i) then v mod 2 ^ 16 else get16 l j.
Proof.
  intros Hi Hl Hj Hd. unfold get16. rewrite !at_put16 by lia. repeat case_decide; try lia.
  change (2 ^ 16) with (2 ^ 8 * 2 ^ 8). rewrite Z.rem_mul_r by lia. done.
Qed.

Lemma get16_range l i : Forall is_byte l → 0 ≤ get16 l i < 2 ^ 16.
Proof.
  intros Hl. unfold get16. pose proof (at_byte l i Hl). pose proof (at_byte l (i + 1) Hl).
  unfold is_byte in *. lia.
Qed.

Lemma get32_put32 l i v :
  0 ≤ i → i + 4 ≤ Z.of_nat (length l) → 0 ≤ v < 2 ^ 32 → get32 (put32 l i v) i = v.
Proof.
  intros Hi Hl Hv. unfold get32, put32.
  rewrite (get16_put16 _ (i + 2)) by (rewrite ?length_put16; lia).
  rewrite decide_False, get16_put16 by lia. rewrite decide_True by done.
  rewrite (get16_put16 _ (i + 2)) by (rewrite ?length_put16; lia). rewrite decide_True by done.
  rewrite !Z.mod_mod by lia. dlia.
Qed.

(** ** A disk in a finite map *)

Record gmap_disk := mk_gdisk { g_sectors : Z; g_data : gmap Z (list Z) }.

#[export] Instance is_byte_dec b : Decision (is_byte b).
Proof. unfold is_byte. apply _. Defined.
#[export] Instance is_sector_dec l : Decision (is_sector l).
Proof. unfold is_sector. apply _. Defined.

Definition zero_sector : list Z := repeat 0 512.
Definition as_sector (l : list Z) : list Z := if decide (is_sector l) then l else zero_sector.

#[export] Instance gmap_disk_ops : Disk gmap_disk := {
  ata_read_sector d s := as_sector (default zero_sector (g_data d !! s));
  ata_write_sector d s l := mk_gdisk (g_sectors d) (<[s := l]> (g_data d));
  sectors := g_sectors;
}.

Lemma zero_is_sector : is_sector zero_sector.
Proof. split; [done|]. apply List.Forall_forall. intros b Hb%repeat_spec. subst. done. Qed.

Lemma as_sector_ok l : is_sector (as_sector l).
Proof. unfold as_sector. case_decide; [done|apply zero_is_sector]. Qed.

#[export] Instance gmap_disk_laws : DiskLaws gmap_disk.
Proof.
  split; cbn.
  - intros. apply as_sector_ok.
  - done.
  - intros d s l _ Hl. rewrite lookup_insert_eq. cbn. unfold as_sector. by rewrite decide_True.
  - intros d s s' l _ _ Hne. by rewrite lookup_insert_ne.
Qed.
