(* ===== verification/Fat16.v ===== *)
(** The FAT16 file system (src/kernel/fat16.c), over any block device.

    This file gives the operations. The boot record and the positions computed
    from it are the record [vol]; the disk is threaded through. A file name is
    the list of its characters without the final NUL. The cluster loops run
    with a fuel of 2^24 ([chain_fuel]): a chain that is freed loses a cluster
    at every turn and there are less than 2^16, and a file that is read
    advances by at least 512 bytes at every turn. Fat16Proofs.v holds the
    theorems. *)

From S2P Require Export Block.

Record fat_BS := mk_bpb {
  bytes_per_sector : Z;
  sectors_per_cluster : Z;
  reserved_sector_count : Z;
  table_count : Z;
  root_entry_count : Z;
  total_sectors_16 : Z;
  table_size_16 : Z;
  total_sectors_32 : Z;
}.

(** [static] variables of the file; all zero before [fat16_init]. *)
Record vol := mk_vol {
  bpb : fat_BS;
  root_dir_sector : Z;
  root_dir_size : Z;
  data_sector : Z;
}.

Definition chain_fuel : positive := 16777216.

(** ** Names *)

Definition upcase (c : Z) : Z := if (97 <=? c) && (c <=? 122) then c - 32 else c.

(** Copy at most [room] characters, upper-cased, up to a dot if [stop_dot];
    the rest of the name is returned as well. *)
Fixpoint copy_name (stop_dot : bool) (s : list Z) (room : nat) : list Z * list Z :=
  match room, s with
  | S r, c :: s' =>
      if stop_dot && (c =? 46) then ([], s)
      else let '(out, rest) := copy_name stop_dot s' r in (upcase c :: out, rest)
  | _, _ => ([], s)
  end.

Fixpoint skip_to_dot (s : list Z) : list Z :=
  match s with
  | c :: s' => if c =? 46 then s else skip_to_dot s'
  | [] => []
  end.

Definition pad (n : nat) (l : list Z) : list Z := l ++ repeat 32 (n - length l).

Definition format_fat_name (s : list Z) : list Z :=
  let '(base, s) := copy_name true s 8 in
  let ext := match skip_to_dot s with _ :: s' => (copy_name false s' 3).1 | [] => [] end in
  pad 8 base ++ pad 3 ext.

Section Fat16.
Context {D : Type} `{Disk D}.

(** ** Mounting *)

Definition read_bpb (l : list Z) : fat_BS :=
  mk_bpb (get16 l 11) (at_ l 13) (get16 l 14) (at_ l 16) (get16 l 17) (get16 l 19)
    (get16 l 22) (get32 l 32).

(** [None]: no signature; the volume keeps its old state and a message is
    printed. *)
Definition fat16_init (d : D) : option vol :=
  let buffer := ata_read_sector d 0 in
  if negb (get16 buffer 510 =? 0xAA55) then None
  else
    let bpb := read_bpb buffer in
    let root_dir_sector := u32 (reserved_sector_count bpb + table_count bpb * table_size_16 bpb) in
    let root_dir_size := root_entry_count bpb * 32 / 512 in
    Some (mk_vol bpb root_dir_sector root_dir_size (u32 (root_dir_sector + root_dir_size))).

Context (v : vol).

(** ** The file allocation table *)

Definition fat_sector (cluster : Z) : Z :=
  u32 (reserved_sector_count (bpb v) + cluster * 2 / 512).

Definition fat16_get_fat_entry (d : D) (cluster : Z) : Z :=
  let sector := ata_read_sector d (fat_sector cluster) in
  get16 sector (cluster * 2 mod 512).

Definition fat16_set_fat_entry (d : D) (cluster value : Z) : D :=
  let sector := ata_read_sector d (fat_sector cluster) in
  let sector := put16 sector (cluster * 2 mod 512) value in
  let d := ata_write_sector d (fat_sector cluster) sector in
  if 1 <? table_count (bpb v) then
    ata_write_sector d (u32 (fat_sector cluster + table_size_16 (bpb v))) sector
  else d.

(** Both divisors are non-zero on a FAT volume; C does not define the division
    otherwise. *)
Definition total_clusters : Z :=
  let b := bpb v in
  let total_sectors := if total_sectors_16 b =? 0 then total_sectors_32 b else total_sectors_16 b in
  let root_dir_sectors :=
    (root_entry_count b * 32 + (bytes_per_sector b - 1)) / bytes_per_sector b in
  let data_sectors :=
    u32 (total_sectors -
      (reserved_sector_count b + table_count b * table_size_16 b + root_dir_sectors)) in
  data_sectors / sectors_per_cluster b.

(** Result 0: the disk is full. *)
Definition fat16_alloc_cluster (d : D) : Z * D :=
  match
    search (λ i, fat16_get_fat_entry d i =? 0) (λ i, (i, fat16_set_fat_entry d i 0xFFFF)) d
      (Z.to_nat (Z.min total_clusters 0xFFF0 - 2)) 2
  with
  | inr r => r
  | inl d => (0, d)
  end.

(** [while (c >= 2 && c <= 0xFFEF) { next = get(c); set(c, 0); c = next; }] *)
Definition in_chain (c : Z) : bool := (2 <=? c) && (c <=? 0xFFEF).

Definition free_chain (d : D) (cluster : Z) : D :=
  match
    while (λ '(d, c),
             if in_chain c then
               let next := fat16_get_fat_entry d c in
               inl (fat16_set_fat_entry d c 0, next)
             else inr d) chain_fuel (d, cluster)
  with
  | inr d => d
  | inl (d, _) => d
  end.

(** ** The root directory *)

Definition NAME : Z := 0.
Definition ATTRIBUTES : Z := 11.
Definition FIRST_CLUSTER : Z := 26.
Definition FILE_SIZE : Z := 28.

(** Field [f] of entry [i] of a directory sector. *)
Definition field (i f : Z) : Z := 32 * i + f.

(** The inner loop over [j]: [match] stays 1 when all 11 characters agree. *)
Definition name_matches (root_sec : list Z) (i : Z) (target : list Z) : bool :=
  for_each 11 0
    (λ j m, if negb (at_ root_sec (field i (NAME + j)) =? at_ target j) then false else m) true.

(** The two loops that look a file up, shared by reading, sizing and deleting:
    [found] is the body of the innermost [if]. *)
Definition find_file {R} (d : D) (target : list Z) (none : R) (found : Z → Z → list Z → R) : R :=
  match
    for_loop (Z.to_nat (root_dir_size v)) 0
      (λ sec (_ : unit),
         let root_sec := ata_read_sector d (u32 (root_dir_sector v + sec)) in
         for_loop 16 0
           (λ i (_ : unit),
              let first := at_ root_sec (field i NAME) in
              if first =? 0 then inr none
              else if first =? 0xE5 then inl ()
              else if name_matches root_sec i target &&
                      (at_ root_sec (field i ATTRIBUTES) .& 0x10 =? 0)
              then inr (found sec i root_sec)
              else inl ()) ()) ()
  with
  | inr r => r
  | inl _ => none
  end.

(** ** Reading *)

Definition cluster_sector (cluster : Z) : Z :=
  u32 (data_sector v + (cluster - 2) * sectors_per_cluster (bpb v)).

(** The loop over the sectors of one cluster; [out] is what has been stored in
    the buffer. *)
Definition read_cluster (d : D) (cluster size : Z) (out : list Z) : list Z + list Z :=
  for_loop (Z.to_nat (sectors_per_cluster (bpb v))) 0
    (λ c out,
       let temp_sec := ata_read_sector d (u32 (cluster_sector cluster + c)) in
       let to_copy := Z.min 512 (u32 (size - Z.of_nat (length out))) in
       let out := out ++ take (Z.to_nat to_copy) temp_sec in
       if size <=? Z.of_nat (length out) then inr out else inl out) out.

Definition read_clusters (d : D) (cluster size : Z) : list Z :=
  match
    while (λ '(c, out),
             if in_chain c then
               match read_cluster d c size out with
               | inr out => inr out
               | inl out =>
                   if size <=? Z.of_nat (length out) then inr out
                   else inl (fat16_get_fat_entry d c, out)
               end
             else inr out) chain_fuel (cluster, [])
  with
  | inr out => out
  | inl (_, out) => out
  end.

(** The result and the bytes stored from [buffer] on. *)
Definition fat16_read_file (d : D) (filename : list Z) : Z * list Z :=
  find_file d (format_fat_name filename) (0, [])
    (λ sec i root_sec,
       let cluster := get16 root_sec (field i FIRST_CLUSTER) in
       let size := get32 root_sec (field i FILE_SIZE) in
       (s32 size, read_clusters d cluster size)).

Definition fat16_get_file_size (d : D) (filename : list Z) : Z :=
  find_file d (format_fat_name filename) 0
    (λ sec i root_sec, get32 root_sec (field i FILE_SIZE)).

(** ** Deleting *)

Definition fat16_delete_file (d : D) (filename : list Z) : Z * D :=
  find_file d (format_fat_name filename) (0, d)
    (λ sec i root_sec,
       let d := free_chain d (get16 root_sec (field i FIRST_CLUSTER)) in
       let root_sec := upd root_sec (field i NAME) 0xE5 in
       (1, ata_write_sector d (u32 (root_dir_sector v + sec)) root_sec)).

(** ** Writing *)

(** Step 1: the slot. The loop state is the first free slot seen so far; the
    inner [break] only leaves the sector. A match frees the old clusters. *)
Definition find_slot (d : D) (target : list Z) : option (Z * Z) * D :=
  match
    for_loop (Z.to_nat (root_dir_size v)) 0
      (λ sec slot,
         let root_sec := ata_read_sector d (u32 (root_dir_sector v + sec)) in
         match
           for_loop 16 0
             (λ i slot,
                let first := at_ root_sec (field i NAME) in
                if (first =? 0) || (first =? 0xE5) then
                  let slot := match slot with None => Some (sec, i) | Some s => Some s end in
                  if first =? 0 then inr (inl slot) else inl slot
                else if name_matches root_sec i target then
                  inr (inr (Some (sec, i),
                            free_chain d (get16 root_sec (field i FIRST_CLUSTER))))
                else inl slot) slot
         with
         | inl slot => inl slot
         | inr (inl slot) => inl slot          (* break *)
         | inr (inr found) => inr found        (* goto slot_found *)
         end) None
  with
  | inl slot => (slot, d)
  | inr found => found
  end.

(** One sector of file data: the next bytes of the buffer, then zeros. *)
Definition write_buf (buffer : list Z) (bytes_written : Z) : list Z :=
  let chunk := take 512 (drop (Z.to_nat bytes_written) buffer) in
  chunk ++ repeat 0 (512 - length chunk).

(** The loop over the sectors of the new cluster. [buffer] holds [size] bytes. *)
Definition write_cluster (d : D) (cluster : Z) (buffer : list Z) (size bytes_written : Z) : D * Z :=
  for_each (Z.to_nat (sectors_per_cluster (bpb v))) 0
    (λ c '(d, w),
       (ata_write_sector d (u32 (cluster_sector cluster + c)) (write_buf buffer w),
        Z.min size (w + 512))) (d, bytes_written).

(** Step 2: allocate and write; [inr (d, None)] is the rollback. *)
Definition write_step (buffer : list Z) (size : Z)
    : D * Z * Z * Z → (D * Z * Z * Z) + (D * option Z) :=
  λ '(d, first_cluster, current_cluster, w),
  if (w <? size) || ((size =? 0) && (first_cluster =? 0)) then
    let '(new_c, d) := fat16_alloc_cluster d in
    if new_c =? 0 then
      inr (if first_cluster =? 0 then d else free_chain d first_cluster, None)
    else
      let '(d, first_cluster) :=
        if first_cluster =? 0 then (d, new_c)
        else (fat16_set_fat_entry d current_cluster new_c, first_cluster) in
      let '(d, w) := write_cluster d new_c buffer size w in
      if size =? 0 then inr (d, Some first_cluster)
      else inl (d, first_cluster, new_c, w)
  else inr (d, Some first_cluster).

Definition write_data (d : D) (buffer : list Z) (size : Z) : D * option Z :=
  match while (write_step buffer size) chain_fuel (d, 0, 0, 0) with
  | inr r => r
  | inl (d, _, _, _) => (d, None)
  end.

(** Step 3: the directory entry. *)
Definition write_entry (d : D) (sec i : Z) (target : list Z) (first_cluster size : Z) : D :=
  let root_sec := ata_read_sector d (u32 (root_dir_sector v + sec)) in
  let root_sec := for_each 11 0 (λ j l, upd l (field i (NAME + j)) (at_ target j)) root_sec in
  let root_sec := upd root_sec (field i ATTRIBUTES) 0x20 in
  let root_sec := put16 root_sec (field i FIRST_CLUSTER) first_cluster in
  let root_sec := put32 root_sec (field i FILE_SIZE) size in
  ata_write_sector d (u32 (root_dir_sector v + sec)) root_sec.

Definition fat16_write_file (d : D) (filename buffer : list Z) (size : Z) : Z * D :=
  let target_name := format_fat_name filename in
  match find_slot d target_name with
  | (None, d) => (0, d)
  | (Some (sec, i), d) =>
      match write_data d buffer size with
      | (d, None) => (0, d)
      | (d, Some first_cluster) => (s32 size, write_entry d sec i target_name first_cluster size)
      end
  end.

(** ** Listing *)

Definition shown (l : list Z) : list Z := List.filter (λ c, negb (c =? 32)) l.

Definition dir_entry (root_sec : list Z) (i : Z) : list Z :=
  let name j := at_ root_sec (field i (NAME + j)) in
  shown (name <$> seqZ 0 8) ++
  (if negb (name 8 =? 32) then [46] ++ shown (name <$> seqZ 8 3) else []) ++
  (if negb (at_ root_sec (field i ATTRIBUTES) .& 0x10 =? 0) then [9] ++ str "<DIR>" ++ [10]
   else
     let sz := get32 root_sec (field i FILE_SIZE) in
     [9] ++ str "<ARQUIVO>" ++ [9] ++ (if sz =? 0 then str "0" else digits 16 sz) ++
     str " bytes" ++ [10]).

(** What [fat16_dir] prints. *)
Definition fat16_dir (d : D) : list Z :=
  let '(out, count) :=
    match
      for_loop (Z.to_nat (root_dir_size v)) 0
        (λ sec st,
           let root_sec := ata_read_sector d (u32 (root_dir_sector v + sec)) in
           for_loop 16 0
             (λ i '(out, count),
                let first := at_ root_sec (field i NAME) in
                if first =? 0 then inr (out, count)
                else if first =? 0xE5 then inl (out, count)
                else if at_ root_sec (field i ATTRIBUTES) =? 0x0F then inl (out, count)
                else inl (out ++ dir_entry root_sec i, count + 1)) st) ([], 0)
    with inl st => st | inr st => st end in
  [10] ++ str " Pasta do HD (FAT16):" ++ [10; 10] ++ out ++
  (if count =? 0 then str "Nenhum arquivo encontrado no HD." ++ [10] else []) ++ [10].

End Fat16.
