(* ===== verification/Fat16Table.v ===== *)
(** The file allocation table of Fat16.v: reading and setting entries,
    freeing a chain, allocating a cluster.

    [vol_ok] is the geometry of a FAT16 volume: the tables, the root directory
    and the data area follow each other and lie on the disk. [fat] is the table
    as a function of the cluster number; [linked] describes the chain that
    starts at a cluster. *)

From S2P Require Export Fat16.

Section Table.
Context {D : Type} `{DiskLaws D} (v : vol).
Implicit Types (d : D).

(** Clusters the code hands out: [for (i = 2; i < total_clusters && i < 0xFFF0; ...)]. *)
Definition limit : Z := Z.min (total_clusters v) 0xFFF0.
Definition valid (c : Z) : Prop := 2 ≤ c < limit.

Record vol_ok d : Prop := {
  ok_bps : bytes_per_sector (bpb v) = 512;
  ok_spc : 0 < sectors_per_cluster (bpb v) < 256;
  ok_reserved : 0 < reserved_sector_count (bpb v) < 2 ^ 16;
  ok_tables : 0 < table_count (bpb v) < 256;
  ok_tsize : 0 < table_size_16 (bpb v) < 2 ^ 16;
  ok_root : root_dir_sector v =
    reserved_sector_count (bpb v) + table_count (bpb v) * table_size_16 (bpb v);
  ok_root_size : 0 ≤ root_dir_size v < 2 ^ 12;
  ok_data : data_sector v = root_dir_sector v + root_dir_size v;
  (* the table has an entry for every cluster *)
  ok_fat : limit ≤ 256 * table_size_16 (bpb v);
  (* the clusters are on the disk *)
  ok_disk : data_sector v + (limit - 2) * sectors_per_cluster (bpb v) ≤ sectors d;
  ok_data_disk : data_sector v ≤ sectors d;
  ok_sectors : sectors d ≤ 2 ^ 28;
}.

(** Looking a file up, with two kinds of results. *)
Lemma find_file_rel {R R'} (P : R → R' → Prop) d target none none' found found' :
  P none none' → (∀ sec i rs, Forall is_byte rs → P (found sec i rs) (found' sec i rs)) →
  P (find_file v d target none found) (find_file v d target none' found').
Proof.
  intros Hn Hf. unfold find_file.
  match goal with |- P match for_loop ?n 0 ?f () with _ => _ end match for_loop _ _ ?g _ with _ => _ end =>
    assert (same_exit P (for_loop n 0 f ()) (for_loop n 0 g ())) as Hrel;
    [|by destruct (for_loop n 0 f ()), (for_loop n 0 g ())] end.
  apply for_loop_rel. intros sec []. apply for_loop_rel. intros i [].
  destruct (_ =? 0); [done|]. destruct (_ =? 0xE5); [done|]. destruct (_ && _); [|done].
  apply Hf, read_is_sector.
Qed.

Definition fat d (c : Z) : Z := fat16_get_fat_entry v d c.

(** Everything outside the tables is the same. *)
Definition same_files d d' : Prop :=
  sectors d' = sectors d ∧
  ∀ s, root_dir_sector v ≤ s < sectors d → ata_read_sector d' s = ata_read_sector d s.

#[export] Instance same_files_preorder : PreOrder same_files.
Proof.
  split; [done|]. intros d1 d2 d3 [Hs H1] [Hs2 H2]. split; [congruence|].
  intros s Hr. rewrite H2, H1; [done|lia|lia].
Qed.

Lemma vol_ok_sectors d d' : sectors d' = sectors d → vol_ok d → vol_ok d'.
Proof. intros Hs []. split; try rewrite Hs; done. Qed.

Lemma fat_sector_range d c :
  vol_ok d → 0 ≤ c < limit →
  fat_sector v c = reserved_sector_count (bpb v) + c / 256 ∧
  0 ≤ c / 256 < table_size_16 (bpb v) ∧ c * 2 mod 512 = 2 * (c mod 256) ∧
  fat_sector v c + table_size_16 (bpb v) < 2 ^ 32.
Proof.
  intros [] Hc. unfold fat_sector.
  assert (c * 2 / 512 = c / 256) as -> by dlia.
  assert (0 ≤ c / 256 < table_size_16 (bpb v)) by dlia.
  rewrite u32_small by lia. split; [done|]. split; [done|]. split; [dlia|lia].
Qed.

(** The first two copies of the table lie before the root directory. *)
Lemma tables_fit d :
  vol_ok d →
  0 < table_size_16 (bpb v) ∧ 0 < reserved_sector_count (bpb v) ∧
  reserved_sector_count (bpb v) + table_size_16 (bpb v) ≤ root_dir_sector v ≤ sectors d ∧
  (1 < table_count (bpb v) →
   reserved_sector_count (bpb v) + 2 * table_size_16 (bpb v) ≤ root_dir_sector v).
Proof.
  intros Hok. pose proof (ok_root _ Hok). pose proof (ok_tables _ Hok). pose proof (ok_tsize _ Hok).
  pose proof (ok_reserved _ Hok). pose proof (ok_data _ Hok). pose proof (ok_data_disk _ Hok).
  pose proof (ok_root_size _ Hok). clear Hok. nia.
Qed.

(** The sectors [fat16_set_fat_entry] writes: the one of the first copy and,
    with a second copy, its twin. *)
Lemma set_fat_sectors d c x :
  vol_ok d → 0 ≤ c < limit →
  let l := put16 (ata_read_sector d (fat_sector v c)) (c * 2 mod 512) x in
  let d' := fat16_set_fat_entry v d c x in
  sectors d' = sectors d ∧
  ∀ s, 0 ≤ s < sectors d → s < reserved_sector_count (bpb v) + table_size_16 (bpb v) ∨ root_dir_sector v ≤ s →
    ata_read_sector d' s = if decide (s = fat_sector v c) then l else ata_read_sector d s.
Proof.
  intros Hok Hc l d'. destruct (fat_sector_range d c Hok Hc) as (Hs & Hq & _ & Htop).
  destruct (tables_fit d Hok) as (Ht & Hr & [Hfit Hroot] & Htwo).
  assert (is_sector l) as Hl by apply put16_sector, read_is_sector.
  unfold d', fat16_set_fat_entry. fold l. set (d1 := ata_write_sector d (fat_sector v c) l).
  assert (sectors d1 = sectors d) as Hs1 by apply sectors_write.
  assert (∀ s, 0 ≤ s < sectors d →
    ata_read_sector d1 s = if decide (s = fat_sector v c) then l else ata_read_sector d s) as H1.
  { intros s Hsr. unfold d1. rewrite read_write by (done || lia).
    repeat case_decide; congruence. }
  destruct (Z.ltb_spec 1 (table_count (bpb v))) as [H2|]; [|split; [done|auto]].
  specialize (Htwo H2). rewrite u32_small by lia.
  split; [by rewrite sectors_write|]. intros s Hsr Hout.
  rewrite read_write_ne; [by apply H1|lia|lia|lia].
Qed.

(** Setting an entry changes that entry only, in every copy written. *)
Lemma set_fat_spec d c x :
  vol_ok d → 0 ≤ c < limit → 0 ≤ x < 2 ^ 16 →
  let d' := fat16_set_fat_entry v d c x in
  same_files d d' ∧ vol_ok d' ∧
  ∀ c', 0 ≤ c' < limit → fat d' c' = if decide (c' = c) then x else fat d c'.
Proof.
  intros Hok Hc Hx d'. destruct (set_fat_sectors d c x Hok Hc) as [Hsec Hread].
  fold d' in Hsec, Hread. destruct (tables_fit d Hok) as (Ht & Hr & [Hfit Hroot] & _).
  destruct (fat_sector_range d c Hok Hc) as (Hs & Hq & Ho & _).
  split; [|split; [by eapply vol_ok_sectors|]].
  - split; [done|]. intros s Hsr. rewrite Hread by lia. rewrite decide_False; [done|lia].
  - intros c' Hc'. destruct (fat_sector_range d c' Hok Hc') as (Hs' & Hq' & Ho' & _).
    unfold fat, fat16_get_fat_entry. rewrite Hread by lia. clear Hread.
    case_decide as Hsame.
    + rewrite Hsame, Ho, Ho', get16_put16;
        [|dlia|rewrite (proj1 (read_is_sector _ _)); change (Z.of_nat 512) with 512; dlia|dlia|dlia].
      rewrite (Z.mod_small x) by lia. repeat case_decide; try done; exfalso; [dlia|by subst].
    + rewrite decide_False; [done|]. intros ->. done.
Qed.

Lemma fat_range d c : 0 ≤ fat d c < 2 ^ 16.
Proof. apply get16_range, read_is_sector. Qed.

(** ** Allocating *)

Lemma alloc_spec d c d' :
  vol_ok d → fat16_alloc_cluster v d = (c, d') →
  (c = 0 ∧ d' = d ∧ ∀ i, valid i → fat d i ≠ 0) ∨
  (valid c ∧ fat d c = 0 ∧ (∀ i, 2 ≤ i < c → fat d i ≠ 0) ∧ same_files d d' ∧ vol_ok d' ∧
   ∀ c', 0 ≤ c' < limit → fat d' c' = if decide (c' = c) then 0xFFFF else fat d c').
Proof.
  intros Hok. unfold fat16_alloc_cluster. change (Z.min (total_clusters v) 0xFFF0) with limit.
  destruct (search_cases (λ i, fat16_get_fat_entry v d i =? 0)
    (λ i, (i, fat16_set_fat_entry v d i 0xFFFF)) d (Z.to_nat (limit - 2)) 2)
    as [[-> Hno]|(j & Hj & Ht & -> & Hno)].
  - intros [= <- <-]. left. split; [done|]. split; [done|]. intros i Hi. unfold valid in Hi.
    specialize (Hno i ltac:(lia)). by apply Z.eqb_neq.
  - intros [= <- <-]. right. apply Z.eqb_eq in Ht. assert (0 ≤ j < limit) as Hjl by lia.
    destruct (set_fat_spec d j 0xFFFF Hok Hjl) as (? & ? & ?); [lia|].
    unfold valid. split; [lia|]. split; [done|]. split; [|done].
    intros i Hi. specialize (Hno i ltac:(lia)). by apply Z.eqb_neq.
Qed.

(** ** Chains *)

Lemma in_chain_spec c : in_chain c = true ↔ 2 ≤ c ≤ 0xFFEF.
Proof. unfold in_chain. lia. Qed.

(** The clusters from [c] on, through valid clusters only. *)
Inductive linked (f : Z → Z) : Z → list Z → Prop :=
  | linked_end c : in_chain c = false → linked f c []
  | linked_next c l : in_chain c = true → valid c → linked f (f c) l → linked f c (c :: l).

Lemma linked_det f c l l' : linked f c l → linked f c l' → l = l'.
Proof.
  intros Hl. revert l'. induction Hl as [c He|c l Hc _ _ IH]; intros l' Hl'; inversion Hl'; subst;
    try congruence. f_equal. auto.
Qed.

Lemma linked_suffix f c l x : linked f c l → x ∈ l → ∃ l', linked f x l' ∧ (length l' ≤ length l)%nat.
Proof.
  intros Hl. induction Hl as [c He|c l Hc Hv Hl IH]; intros Hx; [by apply not_elem_of_nil in Hx|].
  apply elem_of_cons in Hx as [-> |Hx].
  - exists (c :: l). split; [by constructor|done].
  - destruct (IH Hx) as (l' & ? & ?). exists l'. split; [done|]. cbn. lia.
Qed.

(** A chain that ends does not meet itself. *)
Lemma linked_NoDup f c l : linked f c l → NoDup l.
Proof.
  intros Hl. induction Hl as [c He|c l Hc Hv Hl IH]; [constructor|]. constructor; [|done].
  intros Hin. destruct (linked_suffix _ _ _ c Hl Hin) as (l' & Hl' & Hlen).
  assert (l' = c :: l) as -> by (eapply linked_det; [exact Hl'|by constructor]). cbn in Hlen. lia.
Qed.

Lemma linked_valid f c l : linked f c l → Forall valid l.
Proof. intros Hl. induction Hl; by constructor. Qed.

Lemma linked_head f c l : valid c → linked f c l → ∃ l', l = c :: l'.
Proof.
  intros Hv Hl. destruct Hl as [c He|c l _ _ _]; [|by eexists].
  unfold valid, limit in Hv. unfold in_chain in He. lia.
Qed.

Lemma linked_ext f g c l : linked f c l → (∀ x, x ∈ l → g x = f x) → linked g c l.
Proof.
  intros Hl. induction Hl as [c He|c l Hc Hv Hl IH]; intros Hfg; [by constructor|].
  constructor; [done..|]. rewrite Hfg by set_solver. apply IH. set_solver.
Qed.

Lemma NoDup_valid_length l : NoDup l → Forall valid l → Z.of_nat (length l) < 65536.
Proof.
  intros Hnd Hv. assert (l ⊆+ seqZ 2 0xFFEE) as Hsub.
  { apply NoDup_submseteq; [done|]. intros x Hx. rewrite List.Forall_forall in Hv.
    apply list_elem_of_In, Hv in Hx. apply elem_of_seqZ. unfold valid, limit in Hx. lia. }
  apply submseteq_length in Hsub. rewrite length_seqZ in Hsub. lia.
Qed.

(** Freeing clears the entries of the chain and nothing else. *)
Definition free_step : D * Z → (D * Z) + D := λ '(d, c),
  if in_chain c then inl (fat16_set_fat_entry v d c 0, fat16_get_fat_entry v d c) else inr d.

Lemma free_steps d c l :
  vol_ok d → linked (fat d) c l → NoDup l →
  ∃ d', steps free_step (S (length l)) (d, c) = inr d' ∧ same_files d d' ∧ vol_ok d' ∧
    ∀ x, 0 ≤ x < limit → fat d' x = if decide (x ∈ l) then 0 else fat d x.
Proof.
  revert d c. induction l as [|c0 l IH]; intros d c Hok Hl Hnd; inversion Hl; subst.
  - exists d. split; [cbn; by rewrite H1|]. split; [done|]. split; [done|].
    intros x Hx. by rewrite decide_False by apply not_elem_of_nil.
  - rename c0 into c. inversion Hnd as [|? ? Hnin Hnd']; subst.
    assert (0 ≤ c < limit) as Hcl by (unfold valid in *; lia).
    destruct (set_fat_spec d c 0 Hok Hcl) as (Hsf & Hok1 & Hfat); [lia|].
    set (d1 := fat16_set_fat_entry v d c 0) in *.
    assert (linked (fat d1) (fat d c) l) as Hl1.
    { eapply linked_ext; [eassumption|]. intros x Hx.
      assert (Forall valid l) as Hval by (by eapply linked_valid).
      rewrite List.Forall_forall in Hval.
      assert (valid x) as Hvx by (by apply Hval, list_elem_of_In). unfold valid in Hvx.
      rewrite Hfat by lia. rewrite decide_False; [done|]. by intros ->. }
    destruct (IH d1 (fat d c) Hok1 Hl1 Hnd') as (d' & Hst & Hsf' & Hok' & Hfat').
    exists d'. split; [|split; [by etransitivity|split; [done|]]].
    + change (steps free_step (S (length (c :: l))) (d, c)) with
        (match free_step (d, c) with inl s' => steps free_step (S (length l)) s' | inr r => inr r end).
      assert (free_step (d, c) = inl (d1, fat d c)) as -> by (unfold free_step; by rewrite H3).
      exact Hst.
    + intros x Hx. rewrite Hfat', Hfat by done.
      repeat case_decide; subst; try done; set_solver.
Qed.

Lemma free_chain_linked d c l :
  vol_ok d → linked (fat d) c l →
  same_files d (free_chain v d c) ∧ vol_ok (free_chain v d c) ∧
  ∀ x, 0 ≤ x < limit → fat (free_chain v d c) x = if decide (x ∈ l) then 0 else fat d x.
Proof.
  intros Hok Hl. pose proof (linked_NoDup _ _ _ Hl) as Hnd.
  destruct (free_steps d c l Hok Hl Hnd) as (d' & Hst & Hsf & Hok' & Hfat).
  assert (free_chain v d c = d') as ->; [|done].
  unfold free_chain. rewrite while_steps.
  pose proof (NoDup_valid_length l Hnd (linked_valid _ _ _ Hl)) as Hlen.
  rewrite (steps_mono _ (S (length l)) _ _ d' Hst); [done|].
  unfold chain_fuel. lia.
Qed.

(** ** Freeing always ends

    Even on a table whose chains run in circles: an entry that is visited
    twice has been cleared in between. *)

Definition closed (f : Z → Z) : Prop := ∀ c, valid c → in_chain (f c) = true → valid (f c).

Definition nonzero_entries d : Z :=
  Z.of_nat (length (List.filter (λ c, negb (fat d c =? 0)) (seqZ 2 (limit - 2)))).

Lemma filter_length_le {A} (f g : A → bool) l :
  (∀ x, In x l → f x = true → g x = true) →
  (length (List.filter f l) ≤ length (List.filter g l))%nat.
Proof.
  induction l as [|x l IH]; intros Hfg; [done|]. cbn.
  specialize (IH (λ y Hy, Hfg y (or_intror Hy))).
  destruct (f x) eqn:Hf; [rewrite (Hfg x (or_introl eq_refl) Hf); cbn; lia|].
  destruct (g x); cbn; lia.
Qed.

Lemma filter_length_lt {A} (f g : A → bool) l y :
  (∀ x, In x l → f x = true → g x = true) → In y l → f y = false → g y = true →
  (length (List.filter f l) < length (List.filter g l))%nat.
Proof.
  induction l as [|x l IH]; intros Hfg Hin Hf Hg; [done|]. cbn.
  pose proof (filter_length_le f g l (λ y Hy, Hfg y (or_intror Hy))) as Hle.
  destruct Hin as [-> |Hin].
  - rewrite Hf, Hg. cbn. lia.
  - specialize (IH (λ y Hy, Hfg y (or_intror Hy)) Hin Hf Hg).
    destruct (f x) eqn:Hfx; [rewrite (Hfg x (or_introl eq_refl) Hfx); cbn; lia|].
    destruct (g x); cbn; lia.
Qed.

Lemma clear_decreases d c :
  vol_ok d → valid c → fat d c ≠ 0 →
  nonzero_entries (fat16_set_fat_entry v d c 0) < nonzero_entries d.
Proof.
  intros Hok Hv Hne. unfold valid in Hv.
  destruct (set_fat_spec d c 0 Hok) as (_ & _ & Hfat); [lia|lia|].
  unfold nonzero_entries. apply inj_lt, (filter_length_lt _ _ _ c).
  - intros x Hx%list_elem_of_In%elem_of_seqZ. rewrite Hfat by lia. by case_decide.
  - apply list_elem_of_In, elem_of_seqZ. lia.
  - rewrite Hfat by lia. by rewrite decide_True.
  - by apply negb_true_iff, Z.eqb_neq.
Qed.

Lemma free_chain_terminates d c :
  vol_ok d → closed (fat d) → (in_chain c = true → valid c) →
  ∃ d', while free_step chain_fuel (d, c) = inr d' ∧ free_chain v d c = d' ∧ same_files d d' ∧
    vol_ok d' ∧ ∀ x, 0 ≤ x < limit → fat d' x = fat d x ∨ fat d' x = 0.
Proof.
  intros Hok Hcl Hc.
  destruct (while_total free_step
    (λ '(s, x), vol_ok s ∧ same_files d s ∧ closed (fat s) ∧ (in_chain x = true → valid x) ∧
       ∀ y, 0 ≤ y < limit → fat s y = fat d y ∨ fat s y = 0)
    (λ s, vol_ok s ∧ same_files d s ∧ ∀ y, 0 ≤ y < limit → fat s y = fat d y ∨ fat s y = 0)
    (λ '(s, x), 2 * nonzero_entries s + (if in_chain x then 1 else 0))
    chain_fuel (d, c)) as (d' & Hw & Hok' & Hsf & Hfat).
  - split; [done|]. split; [done|]. split; [done|]. split; [done|]. by left.
  - intros [s x] (Hoks & Hsf & Hcls & Hx & Hfs). cbn [free_step].
    destruct (in_chain x) eqn:Hin; [|done]. specialize (Hx eq_refl).
    assert (0 ≤ x < limit) as Hxl by (unfold valid in Hx; lia).
    destruct (set_fat_spec s x 0 Hoks Hxl) as (Hsf1 & Hok1 & Hfat1); [lia|].
    set (s1 := fat16_set_fat_entry v s x 0) in *. change (fat16_get_fat_entry v s x) with (fat s x).
    split.
    + split; [done|]. split; [by etransitivity|]. split.
      { intros y Hy. rewrite Hfat1 by (unfold valid in Hy; lia). case_decide; [done|by apply Hcls]. }
      split; [by apply Hcls|]. intros y Hy. rewrite Hfat1 by done. case_decide; [by right|by apply Hfs].
    + assert (0 ≤ nonzero_entries s1) by (unfold nonzero_entries; lia).
      destruct (Z.eq_dec (fat s x) 0) as [Hz|Hnz].
      * rewrite Hz. change (in_chain 0) with false.
        assert (nonzero_entries s1 ≤ nonzero_entries s); [|lia].
        unfold nonzero_entries. apply inj_le, filter_length_le.
        intros y Hy%list_elem_of_In%elem_of_seqZ. rewrite Hfat1 by lia. by case_decide.
      * pose proof (clear_decreases s x Hoks Hx Hnz) as Hdec. fold s1 in Hdec.
        destruct (in_chain (fat s x)); lia.
  - assert (nonzero_entries d ≤ 65520); [|unfold chain_fuel; destruct (in_chain c); lia].
    unfold nonzero_entries. pose proof (List.filter_length_le (λ c, negb (fat d c =? 0)) (seqZ 2 (limit - 2))) as Hle.
    rewrite length_seqZ in Hle. unfold limit in *. lia.
  - exists d'. split; [done|]. split; [|done]. unfold free_chain.
    change (while _ chain_fuel (d, c)) with (while free_step chain_fuel (d, c)). by rewrite Hw.
Qed.

End Table.
