(* ===== verification/Fat16Data.v ===== *)
(** The data area of Fat16.v: what a cluster holds, reading a chain and writing
    a file into freshly allocated clusters. *)

From S2P Require Export Fat16Table.

(** The first [n] elements, filled up with zeros. *)
Definition padded (n : nat) (l : list Z) : list Z := take n l ++ repeat 0 (n - length l).

Lemma length_padded n l : length (padded n l) = n.
Proof. unfold padded. rewrite length_app, length_take, repeat_length. lia. Qed.

Lemma padded_app n m l : padded (n + m) l = padded n l ++ padded m (drop n l).
Proof.
  unfold padded. rewrite length_drop. destruct (decide (n ≤ length l)%nat).
  - replace (n - length l)%nat with 0%nat by lia. cbn [repeat]. rewrite app_nil_r.
    rewrite app_assoc, take_take_drop. do 2 f_equal. lia.
  - rewrite (take_ge l (n + m)), (take_ge l n), (drop_ge l n) by lia. rewrite take_nil. cbn [app].
    rewrite <- app_assoc, <- repeat_app. do 2 f_equal. lia.
Qed.

Lemma padded_nil n : padded n [] = repeat 0 n.
Proof. unfold padded. rewrite take_nil. cbn. by rewrite Nat.sub_0_r. Qed.

Lemma take_padded n m l : (m ≤ n)%nat → (m ≤ length l)%nat → take m (padded n l) = take m l.
Proof. intros. unfold padded. rewrite take_app_le by (rewrite length_take; lia). by rewrite take_take, Nat.min_l by lia. Qed.

Lemma padded_bytes n l : Forall is_byte l → Forall is_byte (padded n l).
Proof.
  intros Hl. apply Forall_app. split; [by apply Forall_take|].
  apply List.Forall_forall. intros x Hx%repeat_spec. by subst.
Qed.

Section Data.
Context {D : Type} `{DiskLaws D} (v : vol).
Implicit Types (d : D).

Local Abbreviation spc := (sectors_per_cluster (bpb v)).
Local Abbreviation valid := (valid v).
Local Abbreviation fat := (fat v).
Local Abbreviation vol_ok := (vol_ok v).

(** Bytes in a cluster. *)
Definition csize : nat := Z.to_nat spc * 512.

Definition cluster_part d (c : Z) (n : nat) : list Z :=
  concat ((λ k, ata_read_sector d (cluster_sector v c + k)) <$> seqZ 0 (Z.of_nat n)).
Definition cluster_data d (c : Z) : list Z := cluster_part d c (Z.to_nat spc).
Definition file_data d (l : list Z) : list Z := concat (cluster_data d <$> l).

(** [s] is one of the sectors of cluster [c]. *)
Definition in_cluster (c s : Z) : Prop := cluster_sector v c ≤ s < cluster_sector v c + spc.

Lemma cluster_range d c :
  vol_ok d → valid c →
  cluster_sector v c = data_sector v + (c - 2) * spc ∧ root_dir_sector v ≤ cluster_sector v c ∧
  data_sector v ≤ cluster_sector v c ∧ cluster_sector v c + spc ≤ sectors d ∧ sectors d ≤ 2 ^ 28.
Proof.
  intros Hok Hc. unfold valid in Hc. pose proof (ok_spc _ _ Hok). pose proof (ok_disk _ _ Hok).
  pose proof (ok_sectors _ _ Hok). pose proof (tables_fit v d Hok) as (? & ? & ? & _).
  pose proof (ok_data _ _ Hok). pose proof (ok_root_size _ _ Hok). clear Hok.
  assert ((c - 2) * spc + spc ≤ (limit v - 2) * spc) by nia. assert (0 ≤ (c - 2) * spc) by nia.
  unfold cluster_sector. rewrite u32_small by lia. lia.
Qed.

Lemma in_cluster_inj d c c' s :
  vol_ok d → valid c → valid c' → in_cluster c s → in_cluster c' s → c = c'.
Proof.
  intros Hok Hc Hc' Hs Hs'. unfold in_cluster in *.
  destruct (cluster_range d c Hok Hc) as (E & _), (cluster_range d c' Hok Hc') as (E' & _).
  rewrite E in Hs. rewrite E' in Hs'. pose proof (ok_spc _ _ Hok). nia.
Qed.

Lemma cluster_part_S d c n :
  cluster_part d c (S n) = cluster_part d c n ++ ata_read_sector d (cluster_sector v c + Z.of_nat n).
Proof.
  unfold cluster_part. replace (Z.of_nat (S n)) with (Z.of_nat n + 1) by lia.
  rewrite seqZ_snoc, fmap_app, concat_app by lia. cbn [fmap list_fmap concat].
  by rewrite app_nil_r.
Qed.

Lemma cluster_part_length d c n : length (cluster_part d c n) = (n * 512)%nat.
Proof.
  induction n as [|n IH]; [done|].
  rewrite cluster_part_S, length_app, IH, (proj1 (read_is_sector _ _)). lia.
Qed.

Lemma cluster_part_ext d d' c n :
  (∀ k, 0 ≤ k < Z.of_nat n → ata_read_sector d' (cluster_sector v c + k) = ata_read_sector d (cluster_sector v c + k)) →
  cluster_part d' c n = cluster_part d c n.
Proof.
  induction n as [|n IH]; intros He; [done|]. rewrite !cluster_part_S, IH, He; [done|lia|].
  intros k Hk. apply He. lia.
Qed.

Lemma cluster_data_same d d' c :
  vol_ok d → valid c →
  (∀ s, in_cluster c s → ata_read_sector d' s = ata_read_sector d s) →
  cluster_data d' c = cluster_data d c.
Proof.
  intros Hok Hc He. apply cluster_part_ext. intros k Hk. apply He. unfold in_cluster. lia.
Qed.

Lemma length_cluster_data d c : length (cluster_data d c) = csize.
Proof. apply cluster_part_length. Qed.

Lemma length_file_data d l : length (file_data d l) = (length l * csize)%nat.
Proof.
  induction l as [|c l IH]; [done|]. unfold file_data in *. cbn.
  by rewrite length_app, length_cluster_data, IH.
Qed.

Lemma file_data_same d d' l :
  vol_ok d → Forall valid l →
  (∀ c s, c ∈ l → in_cluster c s → ata_read_sector d' s = ata_read_sector d s) →
  file_data d' l = file_data d l.
Proof.
  intros Hok Hv He. unfold file_data. f_equal. apply list_fmap_ext. intros i c Hc.
  apply list_elem_of_lookup_2 in Hc. apply cluster_data_same; [done| |intros s Hs; by apply (He c)].
  rewrite List.Forall_forall in Hv. by apply Hv, list_elem_of_In.
Qed.

(** ** Reading *)

Lemma cluster_part_cons d c i n :
  concat ((λ k, ata_read_sector d (cluster_sector v c + k)) <$> seqZ i (Z.of_nat (S n))) =
  ata_read_sector d (cluster_sector v c + i) ++
  concat ((λ k, ata_read_sector d (cluster_sector v c + k)) <$> seqZ (i + 1) (Z.of_nat n)).
Proof.
  rewrite seqZ_cons by lia. cbn [fmap list_fmap concat].
  by replace (Z.pred (Z.of_nat (S n))) with (Z.of_nat n) by lia.
Qed.

(** The turns of the loop from sector [i] of the cluster on. *)
Lemma read_sectors d c size n i out :
  vol_ok d → valid c → 0 ≤ size < 2 ^ 32 → Z.of_nat (length out) ≤ size →
  0 ≤ i → i + Z.of_nat n ≤ spc →
  for_loop n i
    (λ c' out,
       let temp_sec := ata_read_sector d (u32 (cluster_sector v c + c')) in
       let to_copy := Z.min 512 (u32 (size - Z.of_nat (length out))) in
       let out := out ++ take (Z.to_nat to_copy) temp_sec in
       if size <=? Z.of_nat (length out) then inr out else inl out) out =
  let out' := out ++ take (Z.to_nat size - length out)
    (concat ((λ k, ata_read_sector d (cluster_sector v c + k)) <$> seqZ i (Z.of_nat n))) in
  if (0 <? Z.of_nat n) && (size <=? Z.of_nat (length out) + Z.of_nat n * 512) then inr out'
  else inl out'.
Proof.
  intros Hok Hc Hsz. destruct (cluster_range d c Hok Hc) as (_ & Hroot & Hlo & Hhi & Htop).
  pose proof (tables_fit v d Hok) as (Hts & Hres & Hr & _).
  revert i out. induction n as [|n IH]; intros i out Hout Hi Hn; cbn zeta.
  { change (seqZ i (Z.of_nat 0)) with (@nil Z). cbn [fmap list_fmap concat for_loop].
    by rewrite take_nil, app_nil_r. }
  rewrite cluster_part_cons. cbn [for_loop]. cbn zeta.
  rewrite (u32_small (size - _)), (u32_small (cluster_sector v c + i)) by lia.
  set (sec := ata_read_sector d (cluster_sector v c + i)).
  assert (length sec = 512%nat) as Hlen by apply (proj1 (read_is_sector _ _)).
  assert (take (Z.to_nat (Z.min 512 (size - Z.of_nat (length out)))) sec =
          take (Z.to_nat size - length out) sec) as ->.
  { destruct (decide (size - Z.of_nat (length out) ≤ 512)).
    - f_equal. lia.
    - rewrite !take_ge by lia. done. }
  rewrite length_app, length_take, Hlen.
  rewrite (proj2 (Z.ltb_lt 0 (Z.of_nat (S n)))) by lia. cbn [andb].
  destruct (Z.leb_spec size (Z.of_nat (length out + (Z.to_nat size - length out) `min` 512)))
    as [Hdone|Hmore].
  - rewrite (proj2 (Z.leb_le _ _)) by lia. by rewrite take_app_le by lia.
  - rewrite (take_ge sec) by lia. rewrite IH by (rewrite ?length_app; lia). cbn zeta.
    rewrite length_app, Hlen.
    assert ((0 <? Z.of_nat n) && (size <=? Z.of_nat (length out + 512) + Z.of_nat n * 512) =
            (size <=? Z.of_nat (length out) + Z.of_nat (S n) * 512)) as ->.
    { destruct (Z.leb_spec size (Z.of_nat (length out) + Z.of_nat (S n) * 512)) as [Hl|Hl].
      - rewrite (proj2 (Z.ltb_lt _ _)), (proj2 (Z.leb_le _ _)) by lia. done.
      - rewrite (proj2 (Z.leb_gt _ _)) by lia. apply andb_false_r. }
    assert (∀ tl, (out ++ sec) ++ take (Z.to_nat size - (length out + 512)) tl =
                  out ++ take (Z.to_nat size - length out) (sec ++ tl)) as Hassoc.
    { intros tl. rewrite take_app_ge, Hlen by lia. rewrite <- app_assoc. do 3 f_equal. lia. }
    by rewrite Hassoc.
Qed.

Lemma read_cluster_spec d c size out :
  vol_ok d → valid c → 0 ≤ size < 2 ^ 32 → Z.of_nat (length out) ≤ size →
  read_cluster v d c size out =
  let out' := out ++ take (Z.to_nat size - length out) (cluster_data d c) in
  if size <=? Z.of_nat (length out) + Z.of_nat csize then inr out' else inl out'.
Proof.
  intros Hok Hc Hsz Hout. pose proof (ok_spc _ _ Hok) as Hspc.
  unfold read_cluster. rewrite read_sectors by (done || lia). cbn zeta.
  rewrite (proj2 (Z.ltb_lt _ _)) by lia. cbn [andb].
  replace (Z.of_nat csize) with (Z.of_nat (Z.to_nat spc) * 512) by (unfold csize; lia). done.
Qed.

(** Reading follows the chain until the size is reached. *)
Definition read_step d size : Z * list Z → (Z * list Z) + list Z := λ '(c, out),
  if in_chain c then
    match read_cluster v d c size out with
    | inr out => inr out
    | inl out =>
        if size <=? Z.of_nat (length out) then inr out
        else inl (fat16_get_fat_entry v d c, out)
    end
  else inr out.

Lemma read_steps d c l size out :
  vol_ok d → linked v (fat d) c l → 0 ≤ size < 2 ^ 32 → Z.of_nat (length out) ≤ size →
  steps (read_step d size) (S (length l)) (c, out) =
  inr (out ++ take (Z.to_nat size - length out) (file_data d l)).
Proof.
  intros Hok Hl Hsz. revert out. induction Hl as [c He|c l Hc Hv _ IH]; intros out Hout.
  { cbn [steps read_step length]. rewrite He. cbn [file_data fmap list_fmap concat].
    by rewrite take_nil, app_nil_r. }
  change (steps (read_step d size) (S (length (c :: l))) (c, out)) with
    (match read_step d size (c, out) with
     | inl s' => steps (read_step d size) (S (length l)) s' | inr r => inr r end).
  unfold read_step at 1. rewrite Hc, read_cluster_spec by done. cbn zeta.
  unfold file_data. cbn [fmap list_fmap concat]. fold (file_data d l).
  pose proof (length_cluster_data d c) as Hlen.
  destruct (Z.leb_spec size (Z.of_nat (length out) + Z.of_nat csize)) as [Hdone|Hmore].
  - by rewrite take_app_le by lia.
  - rewrite (take_ge (cluster_data d c)) by lia.
    rewrite (proj2 (Z.leb_gt _ _)) by (rewrite length_app; lia).
    change (fat16_get_fat_entry v d c) with (fat d c).
    rewrite IH by (rewrite length_app; lia). f_equal.
    rewrite length_app, Hlen, take_app_ge, Hlen by lia. rewrite <- app_assoc. do 3 f_equal. lia.
Qed.

Lemma read_clusters_spec d c l size :
  vol_ok d → linked v (fat d) c l → 0 ≤ size < 2 ^ 32 →
  read_clusters v d c size = take (Z.to_nat size) (file_data d l).
Proof.
  intros Hok Hl Hsz. unfold read_clusters.
  change (while _ chain_fuel (c, [])) with (while (read_step d size) chain_fuel (c, [])).
  pose proof (NoDup_valid_length v l (linked_NoDup _ _ _ _ Hl) (linked_valid _ _ _ _ Hl)) as Hlen.
  rewrite while_steps.
  rewrite (steps_mono _ (S (length l)) _ _ _ (read_steps d c l size [] Hok Hl Hsz ltac:(cbn; lia)));
    [|unfold chain_fuel; lia].
  cbn. by rewrite Nat.sub_0_r.
Qed.


(** ** Writing *)

(** Everything outside cluster [c] is the same. *)
Definition same_but_cluster (c : Z) d d' : Prop :=
  sectors d' = sectors d ∧
  ∀ s, 0 ≤ s < sectors d → ¬ in_cluster c s → ata_read_sector d' s = ata_read_sector d s.

Lemma write_buf_padded buffer w : write_buf buffer w = padded 512 (drop (Z.to_nat w) buffer).
Proof. unfold write_buf, padded. rewrite length_take. do 2 f_equal. lia. Qed.

Lemma write_buf_sector buffer w : Forall is_byte buffer → is_sector (write_buf buffer w).
Proof.
  intros Hb. rewrite write_buf_padded. split; [apply length_padded|].
  by apply padded_bytes, Forall_drop.
Qed.

Lemma write_cluster_spec d c buffer w :
  vol_ok d → valid c → Forall is_byte buffer → 0 ≤ w ≤ Z.of_nat (length buffer) →
  ∃ d', write_cluster v d c buffer (Z.of_nat (length buffer)) w =
      (d', Z.min (Z.of_nat (length buffer)) (w + Z.of_nat csize)) ∧
    same_but_cluster c d d' ∧ cluster_data d' c = padded csize (drop (Z.to_nat w) buffer).
Proof.
  intros Hok Hc Hb Hw. destruct (cluster_range d c Hok Hc) as (_ & Hroot & _ & Hhi & Htop).
  pose proof (tables_fit v d Hok) as (Hts & Hres & Hr & _). pose proof (ok_spc _ _ Hok) as Hspc.
  set (size := Z.of_nat (length buffer)) in *.
  pose (P (k : Z) (st : D * Z) := st.2 = Z.min size (w + 512 * k) ∧ same_but_cluster c d st.1 ∧
    cluster_part st.1 c (Z.to_nat k) = padded (Z.to_nat k * 512) (drop (Z.to_nat w) buffer)).
  assert (P (0 + Z.of_nat (Z.to_nat spc)) (write_cluster v d c buffer size w)) as Hp.
  { unfold write_cluster. apply (for_each_ind P).
    - split; [cbn; lia|]. split; [done|]. done.
    - intros k [d1 w1] Hk (Hw1 & [Hs1 Hsame] & Hpart). cbn [fst snd] in *. subst w1.
      unfold P. cbn [fst snd]. rewrite u32_small by lia.
      pose proof (write_buf_sector buffer (Z.min size (w + 512 * k)) Hb) as Hsec.
      split; [lia|]. split; [split; [by rewrite sectors_write|]|].
      + intros s Hs Hout. rewrite read_write_ne; [by apply Hsame|lia|lia|].
        intros <-. apply Hout. unfold in_cluster. lia.
      + replace (Z.to_nat (k + 1)) with (S (Z.to_nat k)) by lia.
        rewrite cluster_part_S, Z2Nat.id by lia. rewrite read_write_eq by (done || lia).
        rewrite (cluster_part_ext d1).
        2: { intros j Hj. apply read_write_ne; lia. }
        rewrite Hpart, write_buf_padded.
        replace (S (Z.to_nat k) * 512)%nat with (Z.to_nat k * 512 + 512)%nat by lia.
        rewrite padded_app, drop_drop. do 2 f_equal.
        destruct (Z.le_ge_cases size (w + 512 * k)).
        * rewrite !drop_ge by lia. done.
        * f_equal. lia. }
  destruct (write_cluster v d c buffer size w) as [d' w']. destruct Hp as (Hw' & Hsame & Hpart).
  cbn [fst snd] in *. subst w'. exists d'. split; [f_equal; unfold csize; f_equal; lia|]. split; [done|].
  replace (Z.to_nat (0 + Z.of_nat (Z.to_nat spc))) with (Z.to_nat spc) in Hpart by lia. done.
Qed.

(** Writing a cluster touches neither the tables nor the root directory. *)
Lemma same_but_cluster_fat c d d' x :
  vol_ok d → valid c → same_but_cluster c d d' → 0 ≤ x < limit v → fat d' x = fat d x.
Proof.
  intros Hok Hc [Hs Hsame] Hx. destruct (cluster_range d c Hok Hc) as (_ & Hroot & _ & _ & _).
  pose proof (tables_fit v d Hok) as (Hts & Hres & Hr & _).
  destruct (fat_sector_range v d x Hok Hx) as (Hsec & Hq & _ & _).
  unfold fat, fat16_get_fat_entry. rewrite Hsame; [done|lia|]. unfold in_cluster. lia.
Qed.

(** A chain grows at its end. *)
Lemma linked_snoc f g c l cur new :
  linked v f c (l ++ [cur]) → valid new → new ∉ l ++ [cur] → in_chain (g new) = false →
  g cur = new → (∀ x, x ∈ l → g x = f x) → linked v g c ((l ++ [cur]) ++ [new]).
Proof.
  intros Hl Hv Hnin Hend. revert c Hl Hnin.
  assert (in_chain new = true) as Hin by (apply in_chain_spec; unfold valid, limit in Hv; lia).
  induction l as [|x l IH]; intros c Hl Hnin; cbn [app] in *; inversion Hl; subst; intros Hcur Hg.
  - constructor; [done|done|]. rewrite Hcur. constructor; [done|done|]. by constructor.
  - constructor; [done|done|]. rewrite Hg by set_solver. apply IH; [done|set_solver|done|].
    intros y Hy. apply Hg. set_solver.
Qed.

(** What is known while the file is being written: the clusters taken so far,
    in order, hold what has been written, and the rest is as it was. *)
Record written (buffer : list Z) d0 d (first cur w : Z) (l : list Z) : Prop := {
  wr_last : ∃ l', l = l' ++ [cur];
  wr_linked : linked v (fat d) first l;
  wr_nonzero x : x ∈ l → fat d x ≠ 0;
  wr_was_free x : x ∈ l → fat d0 x = 0;
  wr_w : w = Z.min (Z.of_nat (length buffer)) (Z.of_nat (length l * csize));
  wr_data : file_data d l = padded (length l * csize) buffer;
  wr_ok : vol_ok d;
  wr_sectors : sectors d = sectors d0;
  wr_fat x : 0 ≤ x < limit v → x ∉ l → fat d x = fat d0 x;
  wr_rest s : root_dir_sector v ≤ s < sectors d0 → (∀ c, c ∈ l → ¬ in_cluster c s) →
    ata_read_sector d s = ata_read_sector d0 s;
}.

(** The first cluster. *)
Lemma written_first buffer d0 d1 c d2 w :
  vol_ok d0 → Forall is_byte buffer →
  valid c → fat d0 c = 0 → same_files v d0 d1 → vol_ok d1 →
  (∀ x, 0 ≤ x < limit v → fat d1 x = if decide (x = c) then 0xFFFF else fat d0 x) →
  write_cluster v d1 c buffer (Z.of_nat (length buffer)) 0 = (d2, w) →
  written buffer d0 d2 c c w [c].
Proof.
  intros Hok0 Hb Hc Hfree [Hs1 Hsf] Hok1 Hfat Hwr.
  destruct (write_cluster_spec d1 c buffer 0 Hok1 Hc Hb) as (d' & Heq & Hsame & Hdata); [lia|].
  rewrite Heq in Hwr. injection Hwr as <- <-. pose proof Hsame as [Hs2 Hrest].
  assert (∀ x, 0 ≤ x < limit v → fat d' x = if decide (x = c) then 0xFFFF else fat d0 x) as Hfat'.
  { intros x Hx. rewrite <- Hfat by done. by apply (same_but_cluster_fat c). }
  assert (0 ≤ c < limit v) as Hcl by (unfold valid in Hc; lia).
  assert (fat d' c = 0xFFFF) as Hfc by (rewrite Hfat' by done; by rewrite decide_True).
  split.
  - by exists [].
  - constructor; [apply in_chain_spec; unfold valid, limit in Hc; lia|done|]. rewrite Hfc.
    by constructor.
  - intros x ->%list_elem_of_singleton. by rewrite Hfc.
  - by intros x ->%list_elem_of_singleton.
  - cbn [length]. lia.
  - unfold file_data. cbn [fmap list_fmap concat length]. by rewrite app_nil_r, Hdata, drop_0, Nat.mul_1_l.
  - eapply vol_ok_sectors; [|exact Hok1]. done.
  - congruence.
  - intros x Hx Hne. rewrite Hfat' by done. rewrite decide_False; [done|set_solver].
  - intros s Hs Hout. rewrite Hrest; [apply Hsf; lia| |apply Hout; set_solver].
    pose proof (tables_fit v d0 Hok0) as (? & ? & ? & _). lia.
Qed.

Lemma file_data_snoc d l c : file_data d (l ++ [c]) = file_data d l ++ cluster_data d c.
Proof. unfold file_data. rewrite fmap_app, concat_app. cbn. by rewrite app_nil_r. Qed.

(** The tables after a cluster was taken and linked behind the last one. *)
Lemma linked_extend f g first l cur new :
  linked v f first l → (∃ l', l = l' ++ [cur]) → valid new → new ∉ l →
  (∀ x, 0 ≤ x < limit v → g x = if decide (x = cur) then new else
    if decide (x = new) then 0xFFFF else f x) →
  linked v g first (l ++ [new]).
Proof.
  intros Hl [l' Hl'] Hnew Hnin Hg.
  pose proof (linked_valid _ _ _ _ Hl) as Hval. pose proof (linked_NoDup _ _ _ _ Hl) as Hnd.
  assert (∀ x, x ∈ l → 0 ≤ x < limit v) as Hvx.
  { intros x Hx%list_elem_of_In. rewrite List.Forall_forall in Hval.
    specialize (Hval x Hx). unfold valid in Hval. lia. }
  assert (0 ≤ new < limit v) as Hnl by (unfold valid in Hnew; lia).
  assert (cur ∈ l) as Hcur by (rewrite Hl'; set_solver).
  rewrite Hl'. apply (linked_snoc f); [by rewrite <- Hl'|done|by rewrite <- Hl'| | |].
  - rewrite Hg, decide_False, decide_True by (done || (intros ->; done)). done.
  - rewrite Hg by by apply Hvx. by rewrite decide_True.
  - intros x Hx. assert (x ∈ l) as Hxl by (rewrite Hl'; set_solver).
    rewrite Hg by by apply Hvx. rewrite !decide_False; [done|intros ->; done|].
    intros ->. rewrite Hl' in Hnd. apply list.NoDup_app in Hnd as (_ & Hd & _).
    apply (Hd cur Hx). set_solver.
Qed.

(** Writing the tables and a new cluster keeps the clusters taken before. *)
Lemma clusters_kept d d1 d2 d' new l :
  vol_ok d → Forall valid l → valid new → new ∉ l →
  same_files v d d1 → same_files v d1 d2 → same_but_cluster new d2 d' →
  ∀ c s, c ∈ l → in_cluster c s → ata_read_sector d' s = ata_read_sector d s.
Proof.
  intros Hok Hval Hnew Hnin [Hs1 Hsf1] [Hs2 Hsf2] [Hs3 Hrest] c s Hc Hs.
  assert (valid c) as Hvc.
  { rewrite List.Forall_forall in Hval. by apply Hval, list_elem_of_In. }
  destruct (cluster_range d c Hok Hvc) as (_ & ? & _ & ? & _).
  pose proof (tables_fit v d Hok) as (? & ? & ? & _). pose proof Hs as Hin. unfold in_cluster in Hs.
  rewrite Hrest; [rewrite Hsf2 by lia; apply Hsf1; lia|lia|].
  intros Hs'. apply Hnin. by rewrite <- (in_cluster_inj d c new s).
Qed.

(** One more cluster, linked behind the last one and filled. *)
Lemma written_extend buffer d0 d d' first cur w l new :
  written buffer d0 d first cur w l → w < Z.of_nat (length buffer) → vol_ok d0 → vol_ok d' →
  valid new → fat d new = 0 → sectors d' = sectors d →
  (∀ x, 0 ≤ x < limit v → fat d' x =
     if decide (x = cur) then new else if decide (x = new) then 0xFFFF else fat d x) →
  cluster_data d' new = padded csize (drop (Z.to_nat w) buffer) →
  (∀ s, root_dir_sector v ≤ s < sectors d → ¬ in_cluster new s → ata_read_sector d' s = ata_read_sector d s) →
  (∀ c s, c ∈ l → in_cluster c s → ata_read_sector d' s = ata_read_sector d s) →
  written buffer d0 d' first new (Z.min (Z.of_nat (length buffer)) (w + Z.of_nat csize)) (l ++ [new]).
Proof.
  intros W Hw Hok0 Hok' Hnew Hfree Hs' Hfat' Hdata Hrest Hkeep.
  pose proof (linked_valid _ _ _ _ (wr_linked _ _ _ _ _ _ _ W)) as Hval.
  assert (∀ x, x ∈ l → valid x) as Hvx.
  { intros x Hx. rewrite List.Forall_forall in Hval. by apply Hval, list_elem_of_In. }
  assert (new ∉ l) as Hnin by (intros Hin; by apply (wr_nonzero _ _ _ _ _ _ _ W new)).
  assert (cur ∈ l) as Hcur by (destruct (wr_last _ _ _ _ _ _ _ W) as [l' ->]; set_solver).
  assert (w = Z.of_nat (length l * csize)) as Hw' by (pose proof (wr_w _ _ _ _ _ _ _ W); lia).
  split.
  - by exists l.
  - by apply (linked_extend (fat d) _ _ _ cur); [apply W|apply (wr_last _ _ _ _ _ _ _ W)|..].
  - intros x Hx. rewrite Hfat'.
    + apply elem_of_app in Hx as [Hx| ->%list_elem_of_singleton]; repeat case_decide; try done.
      all: first [unfold valid in Hnew; lia|by apply W].
    + apply elem_of_app in Hx as [Hx| ->%list_elem_of_singleton]; [|unfold valid in Hnew; lia].
      pose proof (Hvx x Hx). unfold valid in *. lia.
  - intros x [Hx| ->%list_elem_of_singleton]%elem_of_app; [by apply W|].
    rewrite <- Hfree. symmetry. apply (wr_fat _ _ _ _ _ _ _ W); [unfold valid in Hnew; lia|done].
  - rewrite length_app. cbn [length]. rewrite Hw'. lia.
  - rewrite file_data_snoc, length_app, Hdata. cbn [length].
    replace ((length l + 1) * csize)%nat with (length l * csize + csize)%nat by lia.
    rewrite padded_app, <- (wr_data _ _ _ _ _ _ _ W). f_equal; [|do 2 f_equal; lia].
    apply file_data_same; [apply W|done|done].
  - done.
  - pose proof (wr_sectors _ _ _ _ _ _ _ W). congruence.
  - intros x Hx Hout. rewrite Hfat' by done. rewrite !decide_False by set_solver.
    apply (wr_fat _ _ _ _ _ _ _ W); [done|set_solver].
  - intros s Hs Hout. pose proof (wr_sectors _ _ _ _ _ _ _ W) as Hs0.
    rewrite Hrest; [|lia|apply Hout; set_solver].
    apply (wr_rest _ _ _ _ _ _ _ W); [done|]. intros c Hc. apply Hout. set_solver.
Qed.

(** The next cluster. *)
Lemma written_next buffer d0 d first cur w l new d1 d3 w' :
  written buffer d0 d first cur w l → Forall is_byte buffer → w < Z.of_nat (length buffer) →
  vol_ok d0 → valid new → fat d new = 0 → same_files v d d1 → vol_ok d1 →
  (∀ x, 0 ≤ x < limit v → fat d1 x = if decide (x = new) then 0xFFFF else fat d x) →
  write_cluster v (fat16_set_fat_entry v d1 cur new) new buffer (Z.of_nat (length buffer)) w = (d3, w') →
  written buffer d0 d3 first new w' (l ++ [new]).
Proof.
  intros W Hb Hw Hok0 Hnew Hfree [Hs1 Hsf1] Hok1 Hfat1 Hwr.
  pose proof (linked_valid _ _ _ _ (wr_linked _ _ _ _ _ _ _ W)) as Hval.
  assert (∀ x, x ∈ l → valid x) as Hvx.
  { intros x Hx. rewrite List.Forall_forall in Hval. by apply Hval, list_elem_of_In. }
  assert (cur ∈ l) as Hcur by (destruct (wr_last _ _ _ _ _ _ _ W) as [l' ->]; set_solver).
  assert (0 ≤ cur < limit v ∧ 0 ≤ new < limit v) as [Hcl Hnl]
    by (pose proof (Hvx cur Hcur); unfold valid in *; lia).
  destruct (set_fat_spec v d1 cur new Hok1 Hcl) as ([Hs2 Hsf2] & Hok2 & Hfat2);
    [unfold valid, limit in Hnew; lia|].
  set (d2 := fat16_set_fat_entry v d1 cur new) in *.
  destruct (write_cluster_spec d2 new buffer w Hok2 Hnew Hb) as (d' & Heq & Hsame & Hdata);
    [rewrite (wr_w _ _ _ _ _ _ _ W) in *; lia|].
  rewrite Heq in Hwr. injection Hwr as <- <-. pose proof Hsame as [Hs3 Hrest].
  apply (written_extend buffer d0 d d' first cur w l new); try done.
  - eapply vol_ok_sectors; [|exact Hok2]. done.
  - congruence.
  - intros x Hx. rewrite (same_but_cluster_fat new d2) by done. by rewrite Hfat2, Hfat1.
  - intros s Hs Hout. pose proof (tables_fit v d0 Hok0) as (? & ? & ? & _).
    rewrite Hrest by (done || lia). rewrite Hsf2, Hsf1 by lia. done.
  - assert (new ∉ l) as Hnin by (intros Hin; by apply (wr_nonzero _ _ _ _ _ _ _ W new)).
    by eapply (clusters_kept d d1 d2 d' new l (wr_ok _ _ _ _ _ _ _ W)).
Qed.

(** ** The whole write *)

(** Success: the file is in the clusters [l], which were free. *)
Definition stored (buffer : list Z) d0 d (first : Z) (l : list Z) : Prop :=
  (∃ cur w, written buffer d0 d first cur w l) ∧
  (length buffer ≤ length l * csize)%nat ∧ l ≠ [].

(** Failure: all free clusters [l] together are too small; the table is what
    it was, and so is every sector outside the free clusters. *)
Definition disk_full (buffer : list Z) d0 d (l : list Z) : Prop :=
  NoDup l ∧ (∀ c, valid c → fat d0 c = 0 ↔ c ∈ l) ∧ Forall valid l ∧
  (length l * csize < Nat.max 1 (length buffer))%nat ∧
  vol_ok d ∧ sectors d = sectors d0 ∧
  (∀ x, 0 ≤ x < limit v → fat d x = fat d0 x) ∧
  ∀ s, root_dir_sector v ≤ s < sectors d0 → (∀ c, c ∈ l → ¬ in_cluster c s) →
    ata_read_sector d s = ata_read_sector d0 s.

Definition write_inv buffer d0 (st : D * Z * Z * Z) : Prop :=
  let '(d, first, cur, w) := st in
  (first = 0 ∧ d = d0 ∧ w = 0) ∨
  (buffer ≠ [] ∧ ∃ l, l ≠ [] ∧ valid first ∧ written buffer d0 d first cur w l).

Definition write_post buffer d0 (r : D * option Z) : Prop :=
  match r with
  | (d, Some first) => ∃ l, stored buffer d0 d first l
  | (d, None) => ∃ l, disk_full buffer d0 d l
  end.

(** The rollback gives the clusters back. *)
Lemma rollback_full buffer d0 d first cur w l :
  written buffer d0 d first cur w l → vol_ok d0 → w < Z.of_nat (length buffer) →
  (∀ i, valid i → fat d i ≠ 0) → disk_full buffer d0 (free_chain v d first) l.
Proof.
  intros W Hok0 Hw Hfull.
  pose proof (wr_linked _ _ _ _ _ _ _ W) as Hl.
  destruct (free_chain_linked v d first l (wr_ok _ _ _ _ _ _ _ W) Hl) as ([Hs Hsf] & Hok' & Hfat).
  pose proof (linked_valid _ _ _ _ Hl) as Hval.
  assert (∀ x, x ∈ l → valid x) as Hvx.
  { intros x Hx. rewrite List.Forall_forall in Hval. by apply Hval, list_elem_of_In. }
  pose proof (wr_sectors _ _ _ _ _ _ _ W) as Hsec. pose proof (wr_w _ _ _ _ _ _ _ W) as Hww.
  split; [by eapply linked_NoDup|]. split; [|split; [done|split; [lia|split; [done|split; [congruence|]]]]].
  - intros c Hc. split; [|by apply W]. intros H0c. destruct (decide (c ∈ l)) as [|Hn]; [done|].
    exfalso. apply (Hfull c Hc). rewrite <- H0c. apply (wr_fat _ _ _ _ _ _ _ W); [|done].
    unfold valid in Hc. lia.
  - split.
    + intros x Hx. rewrite Hfat by done. case_decide as Hxl.
      * symmetry. by apply W.
      * by apply (wr_fat _ _ _ _ _ _ _ W).
    + intros s Hsr Hout. rewrite Hsf by lia. by apply (wr_rest _ _ _ _ _ _ _ W).
Qed.

(** One turn of the loop. *)
Lemma write_step_spec buffer d0 st :
  vol_ok d0 → Forall is_byte buffer → write_inv buffer d0 st →
  match write_step v buffer (Z.of_nat (length buffer)) st with
  | inl st' => write_inv buffer d0 st' ∧ st.2 < st'.2 ≤ Z.of_nat (length buffer) ∧
      (st'.2 = Z.of_nat (length buffer) ∨ st.2 + 512 ≤ st'.2)
  | inr r => write_post buffer d0 r
  end.
Proof.
  intros Hok0 Hb. destruct st as [[[d first] cur] w]. intros Hinv.
  unfold write_step. set (size := Z.of_nat (length buffer)) in *.
  assert (512 ≤ csize)%nat as Hcs by (pose proof (ok_spc _ _ Hok0); unfold csize; lia).
  destruct Hinv as [(-> & -> & ->)|(Hne & l & Hlne & Hfirst & W)].
  - (* nothing allocated yet *)
    assert ((0 <? size) || ((size =? 0) && (0 =? 0)) = true) as -> by lia.
    destruct (fat16_alloc_cluster v d0) as [c d1] eqn:Ha.
    destruct (alloc_spec v d0 c d1 Hok0 Ha) as [(-> & -> & Hfull)|(Hc & Hfree & _ & Hsf & Hok1 & Hfat)].
    { cbn [Z.eqb]. exists []. split; [constructor|]. split.
      { intros c Hc. split; [by intros ?%Hfull|by intros ?%not_elem_of_nil]. }
      split; [constructor|]. split; [cbn; lia|]. done. }
    rewrite (proj2 (Z.eqb_neq c 0)) by (unfold valid in Hc; lia). cbn [Z.eqb].
    destruct (write_cluster v d1 c buffer size 0) as [d2 w2] eqn:Hwr.
    pose proof (written_first buffer d0 d1 c d2 w2 Hok0 Hb Hc Hfree Hsf Hok1 Hfat Hwr) as W.
    pose proof (wr_w _ _ _ _ _ _ _ W) as Hw2. cbn [length] in Hw2.
    destruct (Z.eqb_spec size 0) as [Hz|Hz].
    + exists [c]. split; [by exists c, w2|]. split; [lia|done].
    + split; [|cbn [snd]; lia]. right. split; [by intros ->|]. by exists [c].
  - pose proof (wr_w _ _ _ _ _ _ _ W) as Hw. rewrite (proj2 (Z.eqb_neq first 0)) by (unfold valid in Hfirst; lia).
    rewrite andb_false_r, orb_false_r. destruct (Z.ltb_spec w size) as [Hlt|Hge].
    2: { exists l. split; [by exists cur, w|]. split; [lia|done]. }
    destruct (fat16_alloc_cluster v d) as [c d1] eqn:Ha.
    destruct (alloc_spec v d c d1 (wr_ok _ _ _ _ _ _ _ W) Ha)
      as [(-> & -> & Hfull)|(Hc & Hfree & _ & Hsf & Hok1 & Hfat)].
    { cbn [Z.eqb]. exists l. by eapply rollback_full. }
    rewrite (proj2 (Z.eqb_neq c 0)) by (unfold valid in Hc; lia).
    destruct (write_cluster v _ c buffer size w) as [d2 w2] eqn:Hwr.
    pose proof (written_next buffer d0 d first cur w l c d1 d2 w2 W Hb Hlt Hok0 Hc Hfree Hsf Hok1 Hfat Hwr) as W'.
    pose proof (wr_w _ _ _ _ _ _ _ W') as Hw2. rewrite length_app in Hw2. cbn [length] in Hw2.
    rewrite (proj2 (Z.eqb_neq size 0)) by lia.
    split; [|cbn [snd]; lia]. right. split; [done|]. exists (l ++ [c]). split; [by destruct l|done].
Qed.

(** The loop ends, in success or with a full disk. *)
Lemma write_data_spec d0 buffer :
  vol_ok d0 → Forall is_byte buffer → Z.of_nat (length buffer) < 2 ^ 31 →
  write_post buffer d0 (write_data v d0 buffer (Z.of_nat (length buffer))).
Proof.
  intros Hok0 Hb Hlen.
  destruct (while_total (write_step v buffer (Z.of_nat (length buffer))) (write_inv buffer d0)
    (write_post buffer d0) (λ st, (Z.of_nat (length buffer) - st.2 + 511) / 512) chain_fuel (d0, 0, 0, 0))
    as (r & Hw & Hpost).
  - by left.
  - intros st Hinv. pose proof (write_step_spec buffer d0 st Hok0 Hb Hinv) as Hst.
    destruct (write_step v buffer (Z.of_nat (length buffer)) st) as [st'|r]; [|done].
    destruct Hst as (? & ? & ?). split; [done|]. dlia.
  - cbn [snd]. unfold chain_fuel. dlia.
  - unfold write_data. by rewrite Hw.
Qed.
End Data.
