(* ===== verification/Fat16Dir.v ===== *)
(** The root directory of Fat16.v: entries by their number, looking a name up,
    choosing a slot, writing an entry. *)

From S2P Require Export Fat16Data.

Section Dir.
Context {D : Type} `{DiskLaws D} (v : vol).
Implicit Types (d : D).

Local Abbreviation vol_ok := (vol_ok v).

Definition entries : Z := 16 * root_dir_size v.
Definition is_entry (n : Z) : Prop := 0 ≤ n < entries.

(** The directory sector that holds entry [n], and the bytes of the entry. *)
Definition dir_sector d (n : Z) : list Z := ata_read_sector d (root_dir_sector v + n / 16).
Definition ebyte d (n f : Z) : Z := at_ (dir_sector d n) (field (n mod 16) f).

Definition e_cluster d n : Z := get16 (dir_sector d n) (field (n mod 16) FIRST_CLUSTER).
Definition e_size d n : Z := get32 (dir_sector d n) (field (n mod 16) FILE_SIZE).
Definition e_matches d n (target : list Z) : bool := name_matches (dir_sector d n) (n mod 16) target.

Definition is_end d n : bool := ebyte d n NAME =? 0.
Definition is_used d n : bool := negb (is_end d n) && negb (ebyte d n NAME =? 0xE5).
Definition is_dir d n : bool := negb (ebyte d n ATTRIBUTES .& 0x10 =? 0).

(** Entry [n] is the file [target]. *)
Definition is_file d n target : bool := is_used d n && e_matches d n target && negb (is_dir d n).

(** Nothing follows the first entry that was never used. *)
Definition dir_ok d : Prop :=
  ∀ m n, is_entry m → is_entry n → m < n → is_end d m = true → is_end d n = true.

Lemma root_sector d s :
  vol_ok d → 0 ≤ s < root_dir_size v →
  u32 (root_dir_sector v + s) = root_dir_sector v + s ∧
  0 ≤ root_dir_sector v + s < sectors d ∧ root_dir_sector v + s < data_sector v.
Proof.
  intros Hok Hs. pose proof (tables_fit v d Hok) as (? & ? & ? & _).
  pose proof (ok_data _ _ Hok). pose proof (ok_data_disk _ _ Hok). pose proof (ok_sectors _ _ Hok).
  rewrite u32_small by lia. lia.
Qed.

Lemma name_matches_spec l i target :
  name_matches l i target = true ↔ ∀ j, 0 ≤ j < 11 → at_ l (field i (NAME + j)) = at_ target j.
Proof.
  unfold name_matches.
  pose (P (k : Z) (m : bool) := m = true ↔ ∀ j, 0 ≤ j < k → at_ l (field i (NAME + j)) = at_ target j).
  assert (P (0 + Z.of_nat 11) (for_each 11 0
    (λ j m, if negb (at_ l (field i (NAME + j)) =? at_ target j) then false else m) true)) as Hp; [|done].
  apply (for_each_ind P).
  - split; [lia|done].
  - intros k m Hk IH. unfold P in *.
    destruct (Z.eqb_spec (at_ l (field i (NAME + k))) (at_ target k)) as [He|Hne]; cbn [negb].
    + rewrite IH. split; intros Hall j Hj; [|apply Hall; lia].
      destruct (Z.eq_dec j k) as [-> |]; [done|apply Hall; lia].
    + split; [done|]. intros Hall. by destruct Hne; apply Hall; lia.
Qed.

(** ** Looking up *)

Lemma find_file_flat {R} d target (none : R) found :
  vol_ok d →
  find_file v d target none found =
  match
    for_loop (16 * Z.to_nat (root_dir_size v)) 0
      (λ n (_ : unit),
         if is_end d n then inr none
         else if is_file d n target then inr (found (n / 16) (n mod 16) (dir_sector d n))
         else inl ()) ()
  with inr r => r | inl _ => none end.
Proof.
  intros Hok. unfold find_file.
  pose proof (for_loop_flat (Z.to_nat (root_dir_size v)) 16 0 (λ n (_ : unit),
         if is_end d n then inr none
         else if is_file d n target then inr (found (n / 16) (n mod 16) (dir_sector d n))
         else inl ()) ()) as Hflat.
  rewrite Z.mul_0_r in Hflat. rewrite <- Hflat. clear Hflat.
  erewrite for_loop_ext; [reflexivity|]. intros sec [] Hsec. cbn beta zeta.
  apply for_loop_ext. intros i [] Hi.
  assert ((Z.of_nat 16 * sec + i) / 16 = sec ∧ (Z.of_nat 16 * sec + i) mod 16 = i) as [Hq Hm] by dlia.
  destruct (root_sector d sec Hok) as [Hu _]; [lia|].
  unfold is_file, is_used, is_dir, is_end, ebyte, e_matches, dir_sector. rewrite Hq, Hm, Hu.
  destruct (_ =? 0); [done|]. destruct (_ =? 0xE5); [done|]. cbn [negb andb].
  rewrite negb_involutive. by destruct (name_matches _ _ _).
Qed.

Lemma find_file_cases {R} d target (none : R) found :
  vol_ok d → dir_ok d →
  (∃ n, is_entry n ∧ is_file d n target = true ∧ (∀ m, 0 ≤ m < n → is_file d m target = false) ∧
     find_file v d target none found = found (n / 16) (n mod 16) (dir_sector d n)) ∨
  ((∀ n, is_entry n → is_file d n target = false) ∧ find_file v d target none found = none).
Proof.
  intros Hok Hdir. rewrite find_file_flat by done.
  pose proof (ok_root_size _ _ Hok) as Hsize.
  set (test := λ n, is_end d n || is_file d n target).
  set (hit := λ n, if is_end d n then none else found (n / 16) (n mod 16) (dir_sector d n)).
  erewrite (for_loop_ext _ _ _ (λ n (u : unit), if test n then inr (hit n) else inl u)).
  2: { intros n [] _. unfold test, hit. destruct (is_end d n); [done|]. cbn [orb].
       by destruct (is_file d n target). }
  assert (∀ n, is_end d n = true → is_file d n target = false) as Hend.
  { intros n He. unfold is_file, is_used. by rewrite He. }
  destruct (search_cases test hit () (16 * Z.to_nat (root_dir_size v)) 0)
    as [[Heq Hno]|(n & Hn & Ht & Heq & Hno)]; unfold search in Heq; rewrite Heq.
  - right. split; [|done]. intros n Hn. unfold is_entry, entries in Hn.
    specialize (Hno n ltac:(lia)). by apply orb_false_iff in Hno as [_ ?].
  - assert (is_entry n) as Hen by (unfold is_entry, entries; lia). unfold hit.
    destruct (is_end d n) eqn:He.
    + right. split; [|done]. intros m Hm. destruct (Z.lt_trichotomy m n) as [Hlt|[-> |Hgt]].
      * unfold is_entry in Hm. specialize (Hno m ltac:(lia)). by apply orb_false_iff in Hno as [_ ?].
      * by apply Hend.
      * apply Hend. by apply (Hdir n m).
    + left. exists n. split; [done|]. split; [by unfold test in Ht; rewrite He in Ht|].
      split; [|done]. intros m Hm. specialize (Hno m ltac:(lia)). by apply orb_false_iff in Hno as [_ ?].
Qed.

(** ** Choosing a slot *)

Definition same_name d n target : bool := is_used d n && e_matches d n target.

(** What the scan knows before entry [n]. *)
Definition scanned d target (n : Z) (slot : option (Z * Z)) : Prop :=
  (∀ m, 0 ≤ m < n → same_name d m target = false) ∧
  match slot with
  | None => ∀ m, 0 ≤ m < n → is_used d m = true
  | Some (sec, i) => ∃ k, sec = k / 16 ∧ i = k mod 16 ∧ 0 ≤ k < n ∧ is_entry k ∧ is_used d k = false ∧
      ∀ m, 0 ≤ m < k → is_used d m = true
  end.

Definition overwritten d target (r : option (Z * Z) * D) : Prop :=
  ∃ n, is_entry n ∧ same_name d n target = true ∧ (∀ m, 0 ≤ m < n → same_name d m target = false) ∧
    r = (Some (n / 16, n mod 16), free_chain v d (e_cluster d n)).

Lemma scanned_step d target n slot :
  scanned d target n slot → is_entry n → same_name d n target = false →
  scanned d target (n + 1)
    (if is_used d n then slot
     else match slot with None => Some (n / 16, n mod 16) | Some s => Some s end).
Proof.
  intros [Hno Hslot] Hn Hsame. split.
  { intros m Hm. destruct (Z.eq_dec m n) as [-> |]; [done|apply Hno; lia]. }
  unfold is_entry in Hn. destruct (is_used d n) eqn:Hu.
  - destruct slot as [[sec i]|].
    + destruct Hslot as (k & ? & ? & Hk & ?). exists k. split; [done|]. split; [done|]. split; [lia|done].
    + intros m Hm. destruct (Z.eq_dec m n) as [-> |]; [done|apply Hslot; lia].
  - destruct slot as [[sec i]|].
    + destruct Hslot as (k & ? & ? & Hk & ?). exists k. split; [done|]. split; [done|]. split; [lia|done].
    + exists n. split; [done|]. split; [done|]. split; [lia|]. split; [done|]. split; [done|].
      intros m Hm. apply Hslot. lia.
Qed.

(** The [break] at the end mark skips entries that were never used. *)
Lemma scanned_break d target n n' s :
  dir_ok d → scanned d target (n + 1) (Some s) → is_entry n → is_end d n = true →
  n + 1 ≤ n' ≤ entries → scanned d target n' (Some s).
Proof.
  intros Hdir [Hno Hslot] Hn He Hn'. split.
  - intros m Hm. destruct (Z.lt_ge_cases m (n + 1)); [apply Hno; lia|].
    unfold same_name, is_used. rewrite (Hdir n m); [done|done| |lia|done].
    unfold is_entry in *. lia.
  - destruct s as [sec i]. destruct Hslot as (k & ? & ? & ? & ?). exists k.
    split; [done|]. split; [done|]. split; [lia|done].
Qed.

(** The body of the inner loop. *)
Definition slot_step d target (sec i : Z) (slot : option (Z * Z))
    : option (Z * Z) + (option (Z * Z) + option (Z * Z) * D) :=
  let root_sec := ata_read_sector d (root_dir_sector v + sec) in
  let first := at_ root_sec (field i NAME) in
  if (first =? 0) || (first =? 0xE5) then
    let slot := match slot with None => Some (sec, i) | Some s => Some s end in
    if first =? 0 then inr (inl slot) else inl slot
  else if name_matches root_sec i target then
    inr (inr (Some (sec, i), free_chain v d (get16 root_sec (field i FIRST_CLUSTER))))
  else inl slot.

Lemma slot_step_spec d target sec i slot :
  vol_ok d → dir_ok d → 0 ≤ sec < root_dir_size v → 0 ≤ i < 16 →
  scanned d target (16 * sec + i) slot →
  match slot_step d target sec i slot with
  | inl slot' => scanned d target (16 * sec + (i + 1)) slot'
  | inr (inl slot') => scanned d target (16 * (sec + 1)) slot'
  | inr (inr found) => overwritten d target found
  end.
Proof.
  intros Hok Hdir Hsec Hi Hst. unfold slot_step. cbn zeta. rewrite Z.add_assoc.
  set (n := 16 * sec + i) in *.
  assert (is_entry n) as Hn by (unfold is_entry, entries, n; lia).
  assert (n / 16 = sec ∧ n mod 16 = i) as [Hq Hm] by (unfold n; dlia).
  pose proof (scanned_step d target n slot Hst Hn) as Hnext.
  assert (at_ (ata_read_sector d (root_dir_sector v + sec)) (field i NAME) = ebyte d n NAME) as ->
    by (unfold ebyte, dir_sector; by rewrite Hq, Hm).
  assert (name_matches (ata_read_sector d (root_dir_sector v + sec)) i target = e_matches d n target) as ->
    by (unfold e_matches, dir_sector; by rewrite Hq, Hm).
  unfold same_name, is_used in Hnext. rewrite Hq, Hm in Hnext.
  change (ebyte d n NAME =? 0) with (is_end d n) in *.
  destruct (is_end d n) eqn:He; cbn [orb negb andb] in *.
  { specialize (Hnext eq_refl). destruct slot as [s|];
      (apply (scanned_break d target n); [done|exact Hnext|done|done|unfold n, entries; lia]). }
  destruct (ebyte d n NAME =? 0xE5) eqn:H5; cbn [negb andb] in *.
  { exact (Hnext eq_refl). }
  destruct (e_matches d n target) eqn:Hmatch; [|by apply Hnext].
  exists n. split; [done|]. split; [unfold same_name, is_used; by rewrite He, H5, Hmatch|].
  split; [by apply Hst|]. unfold e_cluster, dir_sector. by rewrite Hq, Hm.
Qed.

Lemma find_slot_sector d target sec slot :
  vol_ok d → dir_ok d → 0 ≤ sec < root_dir_size v → scanned d target (16 * sec) slot →
  match for_loop 16 0 (slot_step d target sec) slot with
  | inl slot | inr (inl slot) => scanned d target (16 * (sec + 1)) slot
  | inr (inr found) => overwritten d target found
  end.
Proof.
  intros Hok Hdir Hsec Hscan.
  pose proof (for_loop_ind (λ i slot, scanned d target (16 * sec + i) slot)
    (λ r, match r with inl slot => scanned d target (16 * (sec + 1)) slot
          | inr found => overwritten d target found end) 16 0 (slot_step d target sec) slot) as Hloop.
  assert (match for_loop 16 0 (slot_step d target sec) slot with
    | inl s => scanned d target (16 * sec + (0 + Z.of_nat 16)) s
    | inr (inl s) => scanned d target (16 * (sec + 1)) s
    | inr (inr found) => overwritten d target found end) as Hres.
  { apply Hloop; [by rewrite Z.add_0_r|]. intros i st Hi Hst.
    pose proof (slot_step_spec d target sec i st Hok Hdir Hsec Hi Hst) as Hs.
    by destruct (slot_step d target sec i st) as [|[|]]. }
  destruct (for_loop 16 0 _ slot) as [s|]; [|done].
  by replace (16 * (sec + 1)) with (16 * sec + (0 + Z.of_nat 16)) by lia.
Qed.

Lemma find_slot_spec d target :
  vol_ok d → dir_ok d →
  overwritten d target (find_slot v d target) ∨
  (∃ slot, find_slot v d target = (slot, d) ∧ scanned d target entries slot).
Proof.
  intros Hok Hdir. pose proof (ok_root_size _ _ Hok) as Hsize. unfold find_slot.
  match goal with |- context [for_loop ?n 0 ?b None] => set (body := b);
    pose proof (for_loop_ind (λ sec, scanned d target (16 * sec)) (overwritten d target) n 0 body None)
      as Hloop end.
  assert (scanned d target (16 * 0) None) as Hstart by (split; [lia|intros; lia]).
  assert (∀ j s', 0 ≤ j < 0 + Z.of_nat (Z.to_nat (root_dir_size v)) → scanned d target (16 * j) s' →
    match body j s' with
    | inl s'' => scanned d target (16 * (j + 1)) s''
    | inr r => overwritten d target r
    end) as Hbody.
  { intros sec slot Hsec Hst. unfold body. cbn zeta.
    destruct (root_sector d sec Hok) as [-> _]; [lia|].
    pose proof (find_slot_sector d target sec slot Hok Hdir) as Hs.
    specialize (Hs ltac:(lia) Hst). unfold slot_step in Hs. destruct (for_loop 16 0 _ slot) as [s|[s|found]]; exact Hs. }
  specialize (Hloop Hstart Hbody). destruct (for_loop _ 0 body None) as [slot|found].
  - right. exists slot. split; [done|].
    replace entries with (16 * (0 + Z.of_nat (Z.to_nat (root_dir_size v)))) by (unfold entries; lia).
    done.
  - by left.
Qed.

(** ** Entries after a change of the disk *)

(** All 32 bytes of entry [n] are the same. *)
Definition same_entry d d' n : Prop := ∀ f, 0 ≤ f < 32 → ebyte d' n f = ebyte d n f.

Lemma get16_ebyte d n f :
  0 ≤ f → 0 ≤ n mod 16 → get16 (dir_sector d n) (field (n mod 16) f) = ebyte d n f + 2 ^ 8 * ebyte d n (f + 1).
Proof. intros. unfold get16, ebyte. do 3 f_equal. unfold field. lia. Qed.

Lemma e_cluster_bytes d n : e_cluster d n = ebyte d n 26 + 2 ^ 8 * ebyte d n 27.
Proof. unfold e_cluster, FIRST_CLUSTER. apply get16_ebyte; [lia|dlia]. Qed.

Lemma e_size_bytes d n :
  e_size d n = ebyte d n 28 + 2 ^ 8 * ebyte d n 29 + 2 ^ 16 * (ebyte d n 30 + 2 ^ 8 * ebyte d n 31).
Proof.
  unfold e_size, get32, FILE_SIZE. rewrite get16_ebyte by (lia || dlia).
  replace (field (n mod 16) 28 + 2) with (field (n mod 16) 30) by (unfold field; lia).
  by rewrite get16_ebyte by (lia || dlia).
Qed.

Lemma e_size_range d n : 0 ≤ e_size d n < 2 ^ 32.
Proof.
  rewrite e_size_bytes. pose proof (λ f, read_byte d (root_dir_sector v + n / 16) (field (n mod 16) f)) as Hb.
  pose proof (Hb 28). pose proof (Hb 29). pose proof (Hb 30). pose proof (Hb 31).
  unfold is_byte, ebyte, dir_sector in *. lia.
Qed.

Lemma e_matches_spec d n target :
  e_matches d n target = true ↔ ∀ j, 0 ≤ j < 11 → ebyte d n j = at_ target j.
Proof. apply name_matches_spec. Qed.

Lemma same_entry_fields d d' n :
  same_entry d d' n →
  e_cluster d' n = e_cluster d n ∧ e_size d' n = e_size d n ∧ is_end d' n = is_end d n ∧
  is_used d' n = is_used d n ∧ is_dir d' n = is_dir d n ∧
  ∀ target, e_matches d' n target = e_matches d n target.
Proof.
  intros Hs. rewrite !e_cluster_bytes, !e_size_bytes. unfold is_used, is_end, is_dir, NAME, ATTRIBUTES.
  rewrite !Hs by lia. do 5 (split; [done|]). intros target. apply eq_bool_prop_intro.
  rewrite !Is_true_true, !e_matches_spec.
  split; intros Hall j Hj; [rewrite <- Hs by lia|rewrite Hs by lia]; by apply Hall.
Qed.

Lemma same_entry_file d d' n target :
  same_entry d d' n → is_file d' n target = is_file d n target.
Proof.
  intros Hs. destruct (same_entry_fields d d' n Hs) as (_ & _ & _ & Hu & Hd & Hm).
  unfold is_file. by rewrite Hu, Hd, Hm.
Qed.

Lemma same_sector_entry d d' n :
  ata_read_sector d' (root_dir_sector v + n / 16) = ata_read_sector d (root_dir_sector v + n / 16) →
  same_entry d d' n.
Proof. intros He f _. unfold ebyte, dir_sector. by rewrite He. Qed.

Lemma entry_sector d n :
  vol_ok d → is_entry n →
  0 ≤ n / 16 < root_dir_size v ∧ 0 ≤ n mod 16 < 16 ∧
  root_dir_sector v ≤ root_dir_sector v + n / 16 < data_sector v ∧
  u32 (root_dir_sector v + n / 16) = root_dir_sector v + n / 16 ∧
  0 ≤ root_dir_sector v + n / 16 < sectors d.
Proof.
  intros Hok Hn. unfold is_entry, entries in Hn. assert (0 ≤ n / 16 < root_dir_size v) as Hq by dlia.
  destruct (root_sector d (n / 16) Hok Hq) as (? & ? & ?). repeat split; try lia; dlia.
Qed.

(** Storing a changed copy of the sector of entry [n]. *)
Lemma store_entry d n l :
  vol_ok d → is_entry n → is_sector l →
  (∀ i f, 0 ≤ i < 16 → 0 ≤ f < 32 → i ≠ n mod 16 → at_ l (field i f) = at_ (dir_sector d n) (field i f)) →
  let d' := ata_write_sector d (u32 (root_dir_sector v + n / 16)) l in
  vol_ok d' ∧ sectors d' = sectors d ∧
  (∀ s, 0 ≤ s < sectors d → s ≠ root_dir_sector v + n / 16 → ata_read_sector d' s = ata_read_sector d s) ∧
  (∀ m, is_entry m → m ≠ n → same_entry d d' m) ∧
  (∀ f, ebyte d' n f = at_ l (field (n mod 16) f)).
Proof.
  intros Hok Hn Hl Hout d'. destruct (entry_sector d n Hok Hn) as (Hq & Hm & _ & Hu & Hin).
  assert (sectors d' = sectors d) as Hs by apply sectors_write.
  assert (∀ s, 0 ≤ s < sectors d → ata_read_sector d' s =
    if decide (s = root_dir_sector v + n / 16) then l else ata_read_sector d s) as Hread.
  { intros s Hsr. unfold d'. rewrite Hu, read_write by (done || lia). repeat case_decide; congruence. }
  split; [by eapply vol_ok_sectors|]. split; [done|]. split; [|split].
  - intros s Hsr Hne. rewrite Hread by done. by rewrite decide_False.
  - intros m Hme Hne f Hf. destruct (entry_sector d m Hok Hme) as (Hqm & Hmm & _ & _ & Hinm).
    unfold ebyte, dir_sector. rewrite Hread by done. case_decide as He; [|done].
    rewrite Hout; [unfold dir_sector; by rewrite He|done|done|].
    intros Heq. apply Hne. rewrite (Z.div_mod n 16), (Z.div_mod m 16) by lia. rewrite Heq. lia.
  - intros f. unfold ebyte, dir_sector. rewrite Hread by done. by rewrite decide_True.
Qed.

(** ** Writing an entry *)

Lemma write_name_spec l i target :
  is_sector l → 0 ≤ i < 16 → Forall is_byte target →
  let l' := for_each 11 0 (λ j l, upd l (field i (NAME + j)) (at_ target j)) l in
  is_sector l' ∧
  ∀ x, 0 ≤ x → at_ l' x = if decide (field i 0 ≤ x < field i 11) then at_ target (x - field i 0) else at_ l x.
Proof.
  intros Hl Hi Ht. cbn zeta.
  pose (P k l' := is_sector l' ∧ ∀ x, 0 ≤ x → at_ l' x =
    if decide (field i 0 ≤ x < field i k) then at_ target (x - field i 0) else at_ l x).
  assert (P (0 + Z.of_nat 11) (for_each 11 0 (λ j l, upd l (field i (NAME + j)) (at_ target j)) l)) as Hp;
    [|exact Hp].
  apply (for_each_ind P).
  - split; [done|]. intros x Hx. by rewrite decide_False by lia.
  - intros k l1 Hk [Hs1 Hat]. split; [apply upd_sector; [done|by apply at_byte]|].
    pose proof (proj1 Hs1) as Hlen. unfold field, NAME in *. intros x Hx. rewrite at_upd by lia.
    rewrite Hat by done. repeat case_decide; try lia; try done. f_equal. lia.
Qed.

Lemma write_entry_spec d n target first size :
  vol_ok d → is_entry n → length target = 11%nat → Forall is_byte target →
  0 ≤ first < 2 ^ 16 → 0 ≤ size < 2 ^ 32 →
  let d' := write_entry v d (n / 16) (n mod 16) target first size in
  vol_ok d' ∧ sectors d' = sectors d ∧
  (∀ s, 0 ≤ s < sectors d → s ≠ root_dir_sector v + n / 16 → ata_read_sector d' s = ata_read_sector d s) ∧
  (∀ m, is_entry m → m ≠ n → same_entry d d' m) ∧
  e_matches d' n target = true ∧ is_dir d' n = false ∧
  ebyte d' n NAME = at_ target 0 ∧ e_cluster d' n = first ∧ e_size d' n = size.
Proof.
  intros Hok Hn Hlen Ht Hf Hsz d'. destruct (entry_sector d n Hok Hn) as (Hq & Hm & _ & Hu & Hin).
  set (i := n mod 16) in *. unfold d', write_entry. rewrite Hu. fold (dir_sector d n).
  destruct (write_name_spec (dir_sector d n) i target) as [Hs1 Hat1]; [apply read_is_sector|done|done|].
  set (l1 := for_each 11 0 _ (dir_sector d n)) in *.
  set (l2 := upd l1 (field i ATTRIBUTES) 0x20).
  assert (is_sector l2) as Hs2 by (apply upd_sector; done).
  set (l3 := put16 l2 (field i FIRST_CLUSTER) first).
  assert (is_sector l3) as Hs3 by (by apply put16_sector).
  set (l4 := put32 l3 (field i FILE_SIZE) size).
  assert (is_sector l4) as Hs4 by (by apply put32_sector).
  pose proof (proj1 Hs1) as Hl1. pose proof (proj1 Hs2) as Hl2. pose proof (proj1 Hs3) as Hl3.
  assert (∀ x, 0 ≤ x → ¬ (field i 28 ≤ x < field i 32) → at_ l4 x = at_ l3 x) as H43.
  { intros x Hx Hout. unfold l4, put32. unfold field, FILE_SIZE in *.
    rewrite !at_put16 by (rewrite ?length_put16; lia). by rewrite !decide_False by lia. }
  assert (∀ x, 0 ≤ x → ¬ (field i 26 ≤ x < field i 28) → at_ l3 x = at_ l2 x) as H32.
  { intros x Hx Hout. unfold l3, field, FIRST_CLUSTER in *. rewrite at_put16 by lia.
    by rewrite !decide_False by lia. }
  assert (∀ x, 0 ≤ x → x ≠ field i 11 → at_ l2 x = at_ l1 x) as H21.
  { intros x Hx Hne. unfold l2, field, ATTRIBUTES in *. apply at_upd_ne; lia. }
  destruct (store_entry d n l4 Hok Hn Hs4) as (Hok' & Hs' & Hread & Hothers & Hbyte).
  { intros j f Hj Hf' Hne. fold i in Hne. unfold field in *.
    rewrite H43, H32, H21, Hat1 by lia. by rewrite decide_False by lia. }
  rewrite Hu in *. fold i in Hbyte. set (d2 := ata_write_sector d _ l4) in *.
  assert (∀ j, 0 ≤ j < 11 → ebyte d2 n j = at_ target j) as Hname.
  { intros j Hj. rewrite Hbyte. unfold field in *. rewrite H43, H32, H21, Hat1 by lia.
    rewrite decide_True by lia. f_equal. lia. }
  do 4 (split; [done|]). split; [by apply e_matches_spec|]. split.
  { unfold is_dir, ATTRIBUTES. rewrite Hbyte. unfold field in *. rewrite H43, H32 by lia.
    unfold l2, field, ATTRIBUTES. by rewrite at_upd_eq by lia. }
  split; [by apply Hname|]. split.
  - rewrite e_cluster_bytes, !Hbyte. unfold field in *. rewrite !H43 by lia.
    unfold l3, field, FIRST_CLUSTER. rewrite !at_put16 by lia.
    rewrite decide_True, (decide_False (P := 32 * i + 27 = 32 * i + 26)), decide_True by lia. dlia.
  - rewrite e_size_bytes, !Hbyte. rewrite <- (get32_put32 l3 (field i FILE_SIZE) size);
      [|unfold field, FILE_SIZE; lia..]. fold l4. unfold get32, get16, field, FILE_SIZE.
    replace (32 * i + 28 + 1) with (32 * i + 29) by lia.
    replace (32 * i + 28 + 2) with (32 * i + 30) by lia.
    by replace (32 * i + 30 + 1) with (32 * i + 31) by lia.
Qed.
End Dir.
