(* ===== verification/Fat16Proofs.v ===== *)
(** The theorems about the FAT16 file system of Fat16.v: reading back what was
    written, leaving other files alone, deleting, and what a full disk does.

    [fs_ok] is the invariant of a sound volume: the geometry, the directory,
    and one chain of allocated clusters per file, no two of which meet. *)

From S2P Require Export Fat16Dir.

(** ** Names *)

Lemma copy_name_length b s room : (length (copy_name b s room).1 ≤ room)%nat.
Proof.
  revert s. induction room as [|r IH]; intros s; [destruct s; cbn; lia|]. destruct s as [|c s]; [cbn; lia|].
  cbn. destruct (b && (c =? 46)); [cbn; lia|]. specialize (IH s).
  destruct (copy_name b s r). cbn in *. lia.
Qed.

Lemma upcase_byte c : is_byte c → is_byte (upcase c).
Proof. unfold is_byte, upcase. destruct (andb _ _) eqn:E; lia. Qed.

Lemma copy_name_bytes b s room :
  Forall is_byte s → Forall is_byte (copy_name b s room).1 ∧ Forall is_byte (copy_name b s room).2.
Proof.
  revert s. induction room as [|r IH]; intros s Hs; [by destruct s|]. destruct s as [|c s]; [done|].
  cbn. destruct (b && (c =? 46)); [done|]. apply Forall_cons_1 in Hs as [Hc Hs].
  specialize (IH s Hs). destruct (copy_name b s r). cbn in *. destruct IH.
  split; [|done]. constructor; [by apply upcase_byte|done].
Qed.

Lemma skip_to_dot_bytes s : Forall is_byte s → Forall is_byte (skip_to_dot s).
Proof.
  induction s as [|c s IH]; intros Hs; [done|]. cbn. destruct (c =? 46); [done|].
  apply Forall_cons_1 in Hs as [_ Hs]. by apply IH.
Qed.

Lemma pad_length n l : (length l ≤ n)%nat → length (pad n l) = n.
Proof. intros. unfold pad. rewrite length_app, repeat_length. lia. Qed.

Lemma pad_bytes n l : Forall is_byte l → Forall is_byte (pad n l).
Proof.
  intros. apply Forall_app. split; [done|]. apply List.Forall_forall. intros x Hx%repeat_spec. by subst.
Qed.

Lemma format_fat_name_ok s :
  Forall is_byte s → length (format_fat_name s) = 11%nat ∧ Forall is_byte (format_fat_name s).
Proof.
  intros Hs. unfold format_fat_name.
  pose proof (copy_name_length true s 8) as Hl. destruct (copy_name_bytes true s 8 Hs) as [Hb Hr].
  destruct (copy_name true s 8) as [base r]. cbn [fst snd] in *.
  assert (∃ ext, (length ext ≤ 3)%nat ∧ Forall is_byte ext ∧
    match skip_to_dot r with _ :: s' => (copy_name false s' 3).1 | [] => [] end = ext) as (ext & He & Hbe & ->).
  { eexists. split; [|split; [|reflexivity]].
    - destruct (skip_to_dot r); [cbn; lia|apply copy_name_length].
    - pose proof (skip_to_dot_bytes r Hr) as Hsk. destruct (skip_to_dot r); [done|].
      apply Forall_cons_1 in Hsk as [_ Hsk]. by apply copy_name_bytes. }
  split; [by rewrite length_app, !pad_length|]. apply Forall_app. split; by apply pad_bytes.
Qed.

(** A name that can be stored: no NUL inside, and its first character is not
    the mark of a deleted entry. *)
Definition name_ok (s : list Z) : Prop :=
  Forall is_byte s ∧ Forall (λ c, c ≠ 0) s ∧ match s with c :: _ => c ≠ 0xE5 | [] => True end.

Lemma format_first s : name_ok s → at_ (format_fat_name s) 0 ≠ 0 ∧ at_ (format_fat_name s) 0 ≠ 0xE5.
Proof.
  intros (Hb & Hz & H5). unfold format_fat_name.
  assert (∀ l k, l = [] → at_ (pad 8 l ++ k) 0 = 32) as Hnil by (by intros l k ->).
  destruct s as [|c s]; [by split|]. apply Forall_cons_1 in Hz as [Hc _].
  cbn [copy_name]. destruct (c =? 46) eqn:Hdot; cbn [andb]; [rewrite Hnil; [lia|done]|].
  destruct (copy_name true s 7) as [base r].
  unfold pad, at_. change (Z.to_nat 0) with 0%nat. cbn [nth app]. unfold upcase.
  apply Forall_cons_1 in Hb as [Hcb _]. unfold is_byte in Hcb. destruct (andb _ _) eqn:E; lia.
Qed.

Section FileSystem.
Context {D : Type} `{DiskLaws D} (v : vol).
Implicit Types (d : D).

Local Abbreviation vol_ok := (vol_ok v).
Local Abbreviation valid := (valid v).
Local Abbreviation fat := (fat v).
Local Abbreviation is_entry := (is_entry v).
Local Abbreviation e_cluster := (e_cluster v).
Local Abbreviation e_size := (e_size v).
Local Abbreviation is_used := (is_used v).
Local Abbreviation is_file := (is_file v).
Local Abbreviation e_matches := (e_matches v).

(** The clusters of entry [n]: a chain of allocated clusters. *)
Definition chain_of d n l : Prop := linked v (fat d) (e_cluster d n) l ∧ ∀ c, c ∈ l → fat d c ≠ 0.

Record fs_ok d : Prop := {
  fs_vol : vol_ok d;
  fs_dir : dir_ok v d;
  fs_chain n : is_entry n → is_used d n = true → ∃ l, chain_of d n l;
  fs_disjoint n m l l' : is_entry n → is_entry m → is_used d n = true → is_used d m = true →
    n ≠ m → chain_of d n l → chain_of d m l' → ∀ c, c ∈ l → c ∉ l';
  fs_unique n m target : is_entry n → is_entry m → is_used d n = true → is_used d m = true →
    e_matches d n target = true → e_matches d m target = true → n = m;
}.

(** The file [target] holds [content]. *)
Definition holds_file d (target content : list Z) : Prop :=
  ∃ n l, is_entry n ∧ is_file d n target = true ∧ chain_of d n l ∧
    e_size d n = Z.of_nat (length content) ∧
    take (length content) (file_data v d l) = content.

Definition no_file d (target : list Z) : Prop := ∀ n, is_entry n → is_file d n target = false.

Lemma is_file_parts d n target :
  is_file d n target = true ↔
  is_used d n = true ∧ e_matches d n target = true ∧ is_dir v d n = false.
Proof. unfold Fat16Dir.is_file. rewrite !andb_true_iff, negb_true_iff. tauto. Qed.

(** Looking a name up gives the entry that has it. *)
Lemma find_file_at {R} d target (none : R) found n :
  fs_ok d → is_entry n → is_file d n target = true →
  find_file v d target none found = found (n / 16) (n mod 16) (dir_sector v d n).
Proof.
  intros Hfs Hn Hf.
  destruct (find_file_cases v d target none found (fs_vol _ Hfs) (fs_dir _ Hfs))
    as [(m & Hm & Hfm & _ & ->)|[Hno _]]; [|by rewrite Hno in Hf].
  apply is_file_parts in Hf as (? & ? & _), Hfm as (? & ? & _).
  by rewrite (fs_unique _ Hfs m n target).
Qed.

Lemma find_file_none {R} d target (none : R) found :
  fs_ok d → no_file d target → find_file v d target none found = none.
Proof.
  intros Hfs Hno.
  destruct (find_file_cases v d target none found (fs_vol _ Hfs) (fs_dir _ Hfs))
    as [(m & Hm & Hfm & _)|[_ ->]]; [|done]. by rewrite Hno in Hfm.
Qed.

Lemma file_or_none d target :
  fs_ok d → (∃ n, is_entry n ∧ is_file d n target = true) ∨ no_file d target.
Proof.
  intros Hfs. destruct (find_file_cases v d target () (λ _ _ _, ()) (fs_vol _ Hfs) (fs_dir _ Hfs))
    as [(n & Hn & Hf & _)|[Hno _]]; [left; by exists n|by right].
Qed.

(** ** Reading *)

Lemma read_file_entry d name n l :
  fs_ok d → is_entry n → is_file d n (format_fat_name name) = true → chain_of d n l →
  fat16_read_file v d name = (s32 (e_size d n), take (Z.to_nat (e_size d n)) (file_data v d l)).
Proof.
  intros Hfs Hn Hf [Hl _]. unfold fat16_read_file. rewrite (find_file_at _ _ _ _ n) by done.
  fold (Fat16Dir.e_cluster v d n) (Fat16Dir.e_size v d n).
  rewrite (read_clusters_spec v d _ l); [done|apply Hfs|done|apply e_size_range].
Qed.

Lemma get_file_size_entry d name n :
  fs_ok d → is_entry n → is_file d n (format_fat_name name) = true →
  fat16_get_file_size v d name = e_size d n.
Proof. intros Hfs Hn Hf. unfold fat16_get_file_size. by rewrite (find_file_at _ _ _ _ n). Qed.

Lemma read_holds d name content :
  fs_ok d → holds_file d (format_fat_name name) content →
  fat16_read_file v d name = (s32 (Z.of_nat (length content)), content) ∧
  fat16_get_file_size v d name = Z.of_nat (length content).
Proof.
  intros Hfs (n & l & Hn & Hf & Hc & Hsz & Htake).
  rewrite (read_file_entry d name n l), (get_file_size_entry d name n) by done.
  rewrite Hsz, Nat2Z.id. by rewrite Htake.
Qed.

Lemma read_none d name :
  fs_ok d → no_file d (format_fat_name name) →
  fat16_read_file v d name = (0, []) ∧ fat16_get_file_size v d name = 0.
Proof.
  intros Hfs Hno. unfold fat16_read_file, fat16_get_file_size. by rewrite !find_file_none.
Qed.

(** The same entry with the same clusters reads the same. *)
Lemma chain_kept d d' n l :
  vol_ok d → e_cluster d' n = e_cluster d n → chain_of d n l →
  (∀ c, c ∈ l → fat d' c = fat d c) → chain_of d' n l.
Proof.
  intros Hok He [Hl Hnz] Hfat. split.
  - rewrite He. by apply (linked_ext v (fat d)).
  - intros c Hc. rewrite Hfat by done. by apply Hnz.
Qed.

Lemma chain_det d n l l' : chain_of d n l → chain_of d n l' → l = l'.
Proof. intros [Hl _] [Hl' _]. by eapply linked_det. Qed.


Lemma valid_in_chain f c l x : linked v f c l → x ∈ l → valid x.
Proof.
  intros Hl Hx. pose proof (linked_valid _ _ _ _ Hl) as Hv. rewrite List.Forall_forall in Hv.
  by apply Hv, list_elem_of_In.
Qed.

(** ** Changing one entry

    [d2] is the disk after the clusters have been taken care of: the chains of
    all entries but [n] are still there, and so are their sectors and the
    directory; [d3] then changes entry [n] only. *)

Section Change.
Context d d2 d3 (n : Z) (Hfs : fs_ok d) (Hn : is_entry n) (Hok2 : vol_ok d2)
  (Hs2 : sectors d2 = sectors d)
  (Hroot2 : ∀ s, root_dir_sector v ≤ s < data_sector v → ata_read_sector d2 s = ata_read_sector d s)
  (Hkeep : ∀ m l c, is_entry m → is_used d m = true → m ≠ n → chain_of d m l → c ∈ l →
     fat d2 c = fat d c ∧ ∀ s, in_cluster v c s → ata_read_sector d2 s = ata_read_sector d s)
  (Hs3 : sectors d3 = sectors d2)
  (Hread3 : ∀ s, 0 ≤ s < sectors d2 → s ≠ root_dir_sector v + n / 16 →
     ata_read_sector d3 s = ata_read_sector d2 s)
  (Hothers : ∀ m, is_entry m → m ≠ n → same_entry v d2 d3 m).

Lemma change_fat x : 0 ≤ x < limit v → fat d3 x = fat d2 x.
Proof.
  intros Hx. destruct (fat_sector_range v d2 x Hok2 Hx) as (Hsec & Hq & _ & _).
  pose proof (tables_fit v d2 Hok2) as (? & ? & ? & _).
  destruct (entry_sector v d2 n Hok2 Hn) as (? & _).
  unfold Fat16Table.fat, fat16_get_fat_entry. rewrite Hread3; [done|lia|lia].
Qed.

Lemma change_cluster c s : valid c → in_cluster v c s → ata_read_sector d3 s = ata_read_sector d2 s.
Proof.
  intros Hc Hs. destruct (cluster_range v d2 c Hok2 Hc) as (_ & ? & ? & ? & ?).
  pose proof (tables_fit v d2 Hok2) as (? & ? & ? & _).
  destruct (entry_sector v d2 n Hok2 Hn) as (_ & _ & ? & _). unfold in_cluster in Hs.
  apply Hread3; lia.
Qed.

Lemma change_entry m : is_entry m → m ≠ n → same_entry v d d3 m.
Proof.
  intros Hm Hne f Hf. rewrite Hothers by done.
  apply (same_sector_entry v d d2); [|done]. apply Hroot2.
  by destruct (entry_sector v d2 m Hok2 Hm) as (_ & _ & ? & _).
Qed.

Lemma change_used m : is_entry m → m ≠ n →
  e_cluster d3 m = e_cluster d m ∧ e_size d3 m = e_size d m ∧ is_end v d3 m = is_end v d m ∧
  is_used d3 m = is_used d m ∧ is_dir v d3 m = is_dir v d m ∧
  ∀ target, e_matches d3 m target = e_matches d m target.
Proof. intros. by apply same_entry_fields, change_entry. Qed.

Lemma change_chain m l :
  is_entry m → m ≠ n → is_used d m = true → chain_of d m l → chain_of d3 m l.
Proof.
  intros Hm Hne Hu Hc. apply (chain_kept d); [apply Hfs|by apply change_used|done|].
  intros c Hcl. destruct (Hkeep m l c Hm Hu Hne Hc Hcl) as [<- _]. apply change_fat.
  destruct Hc as [Hl _]. pose proof (valid_in_chain _ _ _ _ Hl Hcl). unfold Fat16Table.valid in *. lia.
Qed.

Lemma change_chain_inv m l :
  is_entry m → m ≠ n → is_used d3 m = true → chain_of d3 m l → chain_of d m l.
Proof.
  intros Hm Hne Hu Hc. destruct (change_used m Hm Hne) as (_ & _ & _ & Hue & _). rewrite Hue in Hu.
  destruct (fs_chain _ Hfs m Hm Hu) as [l' Hl'].
  pose proof (change_chain m l' Hm Hne Hu Hl') as Hl3. by rewrite (chain_det _ _ _ _ Hc Hl3).
Qed.

Lemma change_data m l :
  is_entry m → m ≠ n → is_used d m = true → chain_of d m l → file_data v d3 l = file_data v d l.
Proof.
  intros Hm Hne Hu Hc. apply file_data_same; [apply Hfs| |].
  - destruct Hc as [Hl _]. by eapply linked_valid.
  - intros c s Hcl Hs. rewrite (change_cluster c s); [|by eapply valid_in_chain; [apply Hc|]|done].
    by apply (Hkeep m l c Hm Hu Hne Hc Hcl).
Qed.

(** Every other file keeps its contents. *)
Lemma change_other_file target content :
  (∀ m, is_file d m target = true → m ≠ n) → holds_file d target content → holds_file d3 target content.
Proof.
  intros Hnot (m & l & Hm & Hf & Hc & Hsz & Htake). pose proof (Hnot m Hf) as Hne.
  destruct (change_used m Hm Hne) as (_ & Hsize & _).
  pose proof (proj1 (proj1 (is_file_parts d m target) Hf)) as Hu.
  exists m, l. split; [done|]. split; [by rewrite (same_entry_file v d d3) by (by apply change_entry)|].
  split; [by apply change_chain|]. split; [by rewrite Hsize|].
  by rewrite (change_data m l).
Qed.

Lemma change_no_file target :
  is_file d3 n target = false → no_file d target → no_file d3 target.
Proof.
  intros Hfn Hno m Hm. destruct (Z.eq_dec m n) as [-> |Hne]; [done|].
  rewrite (same_entry_file v d d3) by (by apply change_entry). by apply Hno.
Qed.

(** The invariant, when entry [n] is sound after the change. *)
Lemma change_fs_ok :
  (∀ m, is_entry m → m < n → is_end v d3 m = true → is_end v d3 n = true) →
  (∀ m, is_entry m → n < m → is_end v d3 n = true → is_end v d3 m = true) →
  (is_used d3 n = true → ∃ l, chain_of d3 n l ∧
     ∀ m l' c, is_entry m → is_used d m = true → m ≠ n → chain_of d m l' → c ∈ l → c ∉ l') →
  (∀ m target, is_entry m → m ≠ n → is_used d m = true → is_used d3 n = true →
     e_matches d3 n target = true → e_matches d m target = false) →
  fs_ok d3.
Proof.
  intros Hend1 Hend2 Hchain Huniq. split.
  - eapply vol_ok_sectors; [exact Hs3|done].
  - intros m k Hm Hk Hlt He. destruct (Z.eq_dec m n) as [-> |Hmn]; [by apply Hend2|].
    destruct (Z.eq_dec k n) as [-> |Hkn]; [by apply (Hend1 m)|].
    destruct (change_used m Hm Hmn) as (_ & _ & Hem & _), (change_used k Hk Hkn) as (_ & _ & Hek & _).
    rewrite Hek. rewrite Hem in He. by apply (fs_dir _ Hfs m k).
  - intros m Hm Hu. destruct (Z.eq_dec m n) as [-> |Hne].
    { destruct (Hchain Hu) as (l & Hl & _). by exists l. }
    destruct (change_used m Hm Hne) as (_ & _ & _ & Hue & _). rewrite Hue in Hu.
    destruct (fs_chain _ Hfs m Hm Hu) as [l Hl]. exists l. by apply change_chain.
  - assert (∀ m l' l, is_entry m → m ≠ n → is_used d3 m = true → is_used d3 n = true →
      chain_of d3 m l' → chain_of d3 n l → ∀ c, c ∈ l → c ∉ l') as Hwith.
    { intros m l' l Hm Hne Hum Hun Hl' Hl c Hcl. destruct (Hchain Hun) as (l0 & Hl0 & Hdis).
      rewrite (chain_det _ _ _ _ Hl Hl0) in Hcl.
      destruct (change_used m Hm Hne) as (_ & _ & _ & Hue & _).
      apply (Hdis m); [done|by rewrite <- Hue|done|by apply change_chain_inv|done]. }
    intros k m l l' Hk Hm Huk Hum Hne Hl Hl' c Hcl.
    destruct (Z.eq_dec k n) as [-> |Hkn]; [by apply (Hwith m l' l)|].
    destruct (Z.eq_dec m n) as [-> |Hmn].
    { intros Hcl'. by apply (Hwith k l l' Hk Hkn Huk Hum Hl Hl' c). }
    destruct (change_used k Hk Hkn) as (_ & _ & _ & Hue & _), (change_used m Hm Hmn) as (_ & _ & _ & Hue' & _).
    rewrite Hue in Huk. rewrite Hue' in Hum.
    apply (fs_disjoint _ Hfs k m l); try done; apply change_chain_inv; congruence.
  - intros k m target Hk Hm Huk Hum Hmk Hmm.
    destruct (Z.eq_dec k n) as [-> |Hkn], (Z.eq_dec m n) as [-> |Hmn]; [done| | |].
    + destruct (change_used m Hm Hmn) as (_ & _ & _ & Hue & _ & Hma). rewrite Hma in Hmm. rewrite Hue in Hum.
      by rewrite (Huniq m target) in Hmm.
    + destruct (change_used k Hk Hkn) as (_ & _ & _ & Hue & _ & Hma). rewrite Hma in Hmk. rewrite Hue in Huk.
      by rewrite (Huniq k target) in Hmk.
    + destruct (change_used k Hk Hkn) as (_ & _ & _ & Hue & _ & Hma),
        (change_used m Hm Hmn) as (_ & _ & _ & Hue' & _ & Hma').
      rewrite Hma in Hmk. rewrite Hue in Huk. rewrite Hma' in Hmm. rewrite Hue' in Hum.
      by apply (fs_unique _ Hfs k m target).
Qed.

(** Names whose entry is not [n] read the same. *)
Lemma change_read g :
  fs_ok d3 → is_file d n (format_fat_name g) = false → is_file d3 n (format_fat_name g) = false →
  fat16_read_file v d3 g = fat16_read_file v d g ∧
  fat16_get_file_size v d3 g = fat16_get_file_size v d g.
Proof.
  intros Hfs3 Hd Hd3. destruct (file_or_none d (format_fat_name g) Hfs) as [(m & Hm & Hf)|Hno].
  - assert (m ≠ n) as Hne by (intros ->; congruence).
    destruct (change_used m Hm Hne) as (_ & Hsize & _).
    pose proof (proj1 (proj1 (is_file_parts d m _) Hf)) as Hu.
    destruct (fs_chain _ Hfs m Hm Hu) as [l Hl].
    assert (is_file d3 m (format_fat_name g) = true) as Hf3
      by (by rewrite (same_entry_file v d d3) by (by apply change_entry)).
    rewrite (read_file_entry d3 g m l), (read_file_entry d g m l) by (done || by apply change_chain).
    rewrite (get_file_size_entry d3 g m), (get_file_size_entry d g m) by done.
    by rewrite Hsize, (change_data m l).
  - destruct (read_none d g Hfs Hno) as [-> ->]. apply read_none; [done|]. by apply change_no_file.
Qed.
End Change.

Lemma matches_inj d n t t' :
  length t = 11%nat → length t' = 11%nat → e_matches d n t = true → e_matches d n t' = true → t = t'.
Proof.
  intros Hl Hl' Ht Ht'. pose proof (proj1 (e_matches_spec v d n t) Ht) as E.
  pose proof (proj1 (e_matches_spec v d n t') Ht') as E'.
  apply at_ext; [congruence|]. intros i Hi. rewrite <- E, <- E' by lia. done.
Qed.

Lemma not_file_other d n t t' :
  length t = 11%nat → length t' = 11%nat → t ≠ t' → e_matches d n t' = true → is_file d n t = false.
Proof.
  intros Hl Hl' Hne Hm. apply not_true_iff_false. intros Hf. apply is_file_parts in Hf as (_ & Hmt & _).
  by apply Hne, (matches_inj d n).
Qed.

(** Every other name reads the same. *)
Definition others_read d d' (name : list Z) : Prop :=
  ∀ g, Forall is_byte g → format_fat_name g ≠ format_fat_name name →
    fat16_read_file v d' g = fat16_read_file v d g ∧
    fat16_get_file_size v d' g = fat16_get_file_size v d g.

(** Freeing the chain [l] of one file leaves the clusters of the others alone. *)
Lemma others_kept d d2 n l :
  fs_ok d → is_entry n → is_used d n = true → chain_of d n l → same_files v d d2 →
  (∀ c, 0 ≤ c < limit v → fat d2 c = if decide (c ∈ l) then 0 else fat d c) →
  ∀ m l' c, is_entry m → is_used d m = true → m ≠ n → chain_of d m l' → c ∈ l' →
    fat d2 c = fat d c ∧ ∀ s, in_cluster v c s → ata_read_sector d2 s = ata_read_sector d s.
Proof.
  intros Hfs Hn Hu Hc [_ Hsf] Hfat m l' c Hme Hum Hne Hl' Hcl. pose proof (fs_vol _ Hfs) as Hok.
  pose proof (valid_in_chain _ _ _ _ (proj1 Hl') Hcl) as Hv. split.
  - rewrite Hfat by (unfold Fat16Table.valid in Hv; lia). rewrite decide_False; [done|].
    intros Hin. by apply (fs_disjoint _ Hfs m n l' l) with (c := c).
  - intros s Hs. destruct (cluster_range v d c Hok Hv) as (_ & ? & ? & ? & ?).
    pose proof (tables_fit v d Hok) as (? & ? & ? & _). pose proof (ok_data_disk _ _ Hok).
    unfold in_cluster in Hs. apply Hsf. lia.
Qed.

(** ** Deleting *)

Lemma delete_entry d n l :
  fs_ok d → is_entry n → is_used d n = true → chain_of d n l →
  let d2 := free_chain v d (e_cluster d n) in
  let d3 := ata_write_sector d2 (u32 (root_dir_sector v + n / 16))
              (upd (dir_sector v d n) (field (n mod 16) NAME) 0xE5) in
  fs_ok d3 ∧ is_used d3 n = false ∧ (∀ m, is_entry m → m ≠ n → same_entry v d d3 m) ∧
  (∀ c, 0 ≤ c < limit v → fat d3 c = if decide (c ∈ l) then 0 else fat d c) ∧
  ∀ g, is_file d n (format_fat_name g) = false →
    fat16_read_file v d3 g = fat16_read_file v d g ∧
    fat16_get_file_size v d3 g = fat16_get_file_size v d g.
Proof.
  intros Hfs Hn Hu Hc d2 d3. pose proof (fs_vol _ Hfs) as Hok. pose proof Hc as [Hl _].
  destruct (free_chain_linked v d _ l Hok Hl) as (Hsame2 & Hok2 & Hfat2). fold d2 in Hsame2, Hok2, Hfat2.
  pose proof Hsame2 as [Hs2 Hsf].
  pose proof (tables_fit v d Hok) as (? & ? & ? & _). pose proof (ok_data_disk _ _ Hok).
  assert (∀ s, root_dir_sector v ≤ s < data_sector v → ata_read_sector d2 s = ata_read_sector d s) as Hroot2
    by (intros s Hs; apply Hsf; lia).
  destruct (entry_sector v d n Hok Hn) as (_ & Hm & Hes & _).
  assert (dir_sector v d n = dir_sector v d2 n) as Hds by (symmetry; by apply Hroot2).
  set (l3 := upd (dir_sector v d n) (field (n mod 16) NAME) 0xE5) in *.
  pose proof (read_is_sector d (root_dir_sector v + n / 16)) as Hsec. fold (dir_sector v d n) in Hsec.
  assert (is_sector l3) as Hl3 by (by apply upd_sector).
  destruct (store_entry v d2 n l3 Hok2 Hn Hl3) as (Hok3 & Hs3 & Hread3 & Hothers & Hbyte).
  { intros i f Hi Hf Hne. unfold l3. rewrite <- Hds. pose proof (proj1 Hsec).
    apply at_upd_ne; unfold field, NAME in *; lia. }
  fold d3 in Hok3, Hs3, Hread3, Hothers, Hbyte.
  assert (ebyte v d3 n NAME = 0xE5) as Hname.
  { rewrite Hbyte. unfold l3. apply at_upd_eq. rewrite (proj1 Hsec). unfold field, NAME. lia. }
  assert (is_used d3 n = false ∧ is_end v d3 n = false) as [Hu3 He3].
  { unfold Fat16Dir.is_used, is_end. by rewrite Hname. }
  assert (is_end v d n = false) as Hend.
  { unfold Fat16Dir.is_used in Hu. by destruct (is_end v d n). }
  pose proof (others_kept d d2 n l Hfs Hn Hu Hc Hsame2 Hfat2) as Hkeep.
  assert (∀ m, is_entry m → m ≠ n → is_end v d3 m = is_end v d m) as Hends.
  { intros m Hme Hne. by apply (change_used d d2 d3 n). }
  assert (fs_ok d3) as Hfs3.
  { apply (change_fs_ok d d2 d3 n); try done.
    - intros m Hme Hlt. rewrite Hends by (done || lia). intros He.
      by rewrite (fs_dir _ Hfs m n Hme Hn Hlt He) in Hend.
    - intros m Hme Hlt. by rewrite He3.
    - by rewrite Hu3.
    - intros m target _ _ _. by rewrite Hu3. }
  split; [done|]. split; [done|]. split; [|split].
  - intros m Hme Hne. by apply (change_entry d d2 d3 n).
  - intros c Hcr. by rewrite (change_fat d2 d3 n), Hfat2.
  - intros g Hg. apply (change_read d d2 d3 n); try done.
    unfold Fat16Dir.is_file. by rewrite Hu3.
Qed.

(** What a call of [fat16_delete_file] does. *)
Lemma delete_cases d name r d' :
  fs_ok d → Forall is_byte name → fat16_delete_file v d name = (r, d') →
  (r = 0 ∧ d' = d ∧ no_file d (format_fat_name name)) ∨
  (r = 1 ∧ fs_ok d' ∧ no_file d' (format_fat_name name) ∧
   (∃ n l, is_entry n ∧ is_file d n (format_fat_name name) = true ∧ chain_of d n l ∧
      ∀ c, 0 ≤ c < limit v → fat d' c = if decide (c ∈ l) then 0 else fat d c) ∧
   others_read d d' name).
Proof.
  intros Hfs Hb. unfold fat16_delete_file.
  destruct (file_or_none d (format_fat_name name) Hfs) as [(n & Hn & Hf)|Hno].
  2: { rewrite find_file_none by done. intros [= <- <-]. by left. }
  rewrite (find_file_at _ _ _ _ n) by done. fold (Fat16Dir.e_cluster v d n).
  intros [= <- <-]. right. split; [done|].
  pose proof (proj1 (is_file_parts d n _) Hf) as (Hu & Hm & _).
  destruct (fs_chain _ Hfs n Hn Hu) as [l Hl].
  destruct (delete_entry d n l Hfs Hn Hu Hl) as (Hfs3 & Hu3 & Hsame & Hfat & Hreads).
  set (d3 := ata_write_sector _ _ _) in *. split; [done|]. split.
  - intros m Hme. destruct (Z.eq_dec m n) as [-> |Hne].
    { unfold Fat16Dir.is_file. by rewrite Hu3. }
    rewrite (same_entry_file v d d3) by (by apply Hsame). apply not_true_iff_false. intros Hfm.
    apply is_file_parts in Hfm as (Hum & Hmm & _).
    by apply Hne, (fs_unique _ Hfs m n (format_fat_name name)).
  - split; [by exists n, l|]. intros g Hg Hne. apply Hreads.
    apply (not_file_other d n _ (format_fat_name name)); try done; by apply format_fat_name_ok.
Qed.

(** C24. Deleting a file of a sound volume removes it and nothing else: the
    result is 1 exactly when the file was there; then its clusters are free,
    the volume is sound, the name is not found any more, and every other name
    reads as before. Otherwise the disk is untouched. *)
Theorem delete_correct d name r d' :
  fs_ok d → Forall is_byte name → fat16_delete_file v d name = (r, d') →
  (r = 0 ∧ d' = d ∧ no_file d (format_fat_name name)) ∨
  (r = 1 ∧ fs_ok d' ∧ fat16_read_file v d' name = (0, []) ∧
   (∃ n l, is_entry n ∧ is_file d n (format_fat_name name) = true ∧ chain_of d n l ∧
      ∀ c, 0 ≤ c < limit v → fat d' c = if decide (c ∈ l) then 0 else fat d c) ∧
   ∀ g, Forall is_byte g → format_fat_name g ≠ format_fat_name name →
     fat16_read_file v d' g = fat16_read_file v d g ∧
     fat16_get_file_size v d' g = fat16_get_file_size v d g).
Proof.
  intros Hfs Hb Hd. destruct (delete_cases d name r d' Hfs Hb Hd) as [?|(-> & Hfs' & Hno & Hl & Ho)];
    [by left|right].
  split; [done|]. split; [done|]. split; [by apply read_none|by split].
Qed.

(** ** Writing *)

(** The slot chosen in step 1: the entry of the name itself, whose chain [old]
    has been freed, or else the first free entry. *)
Record slot_ready d d1 (n : Z) (target old : list Z) : Prop := {
  sl_entry : is_entry n;
  sl_ok : vol_ok d1;
  sl_files : same_files v d d1;
  sl_fat c : 0 ≤ c < limit v → fat d1 c = if decide (c ∈ old) then 0 else fat d c;
  sl_old : is_used d n = true ∧ e_matches d n target = true ∧ chain_of d n old ∨
           is_used d n = false ∧ old = [] ∧ (∀ m, 0 ≤ m < n → is_used d m = true) ∧
           ∀ m, is_entry m → same_name v d m target = false;
}.

Lemma find_slot_ready d target :
  fs_ok d →
  (∃ n old d1, find_slot v d target = (Some (n / 16, n mod 16), d1) ∧ slot_ready d d1 n target old) ∨
  (find_slot v d target = (None, d) ∧ (∀ n, is_entry n → is_used d n = true ∧ e_matches d n target = false)).
Proof.
  intros Hfs. pose proof (fs_vol _ Hfs) as Hok.
  destruct (find_slot_spec v d target Hok (fs_dir _ Hfs)) as [(n & Hn & Hs & Hno & ->)|(slot & -> & Hno & Hslot)].
  - left. apply andb_true_iff in Hs as [Hu Hm].
    destruct (fs_chain _ Hfs n Hn Hu) as [old Hold].
    destruct (free_chain_linked v d _ old Hok (proj1 Hold)) as (Hsf & Hok1 & Hfat).
    exists n, old, (free_chain v d (e_cluster d n)). split; [done|].
    split; [done|done|done|done|by left].
  - assert (∀ m, is_entry m → same_name v d m target = false) as Hnone
      by (intros m Hm; apply Hno; unfold Fat16Dir.is_entry in Hm; lia).
    destruct slot as [[sec i]|].
    + left. destruct Hslot as (n & -> & -> & Hn & Hne & Hu & Hbefore).
      exists n, [], d. split; [done|]. split; [done|done|done| |by right].
      intros c Hc. by rewrite decide_False by apply not_elem_of_nil.
    + right. split; [done|]. intros n Hn. specialize (Hnone n Hn).
      assert (is_used d n = true) as Hu by (apply Hslot; unfold Fat16Dir.is_entry in Hn; lia).
      unfold same_name in Hnone. by rewrite Hu in Hnone.
Qed.

(** No other used entry has the name. *)
Lemma slot_unique d d1 n target old m :
  fs_ok d → slot_ready d d1 n target old → is_entry m → m ≠ n → is_used d m = true →
  e_matches d m target = false.
Proof.
  intros Hfs S Hm Hne Hu. destruct (sl_old _ _ _ _ _ S) as [(Hun & Hmn & _)|(_ & _ & _ & Hno)].
  - apply not_true_iff_false. intros Hmm. apply Hne.
    by apply (fs_unique _ Hfs m n target); [|apply S| | | |].
  - specialize (Hno m Hm). unfold same_name in Hno. by rewrite Hu in Hno.
Qed.

(** The chains of the other entries have no cluster of [old]. *)
Lemma slot_chain d d1 n target old m l c :
  fs_ok d → slot_ready d d1 n target old → is_entry m → m ≠ n → is_used d m = true →
  chain_of d m l → c ∈ l → valid c ∧ fat d1 c = fat d c ∧ fat d c ≠ 0.
Proof.
  intros Hfs S Hm Hne Hu Hl Hc. pose proof (valid_in_chain _ _ _ _ (proj1 Hl) Hc) as Hv.
  split; [done|]. split; [|by apply Hl].
  rewrite (sl_fat _ _ _ _ _ S) by (unfold Fat16Table.valid in Hv; lia). rewrite decide_False; [done|].
  destruct (sl_old _ _ _ _ _ S) as [(Hun & _ & Hold)|(_ & -> & _)]; [|apply not_elem_of_nil].
  apply (fs_disjoint _ Hfs m n l old); try done. apply S.
Qed.

(** The end mark is not before the slot. *)
Lemma slot_end d d1 n target old m :
  fs_ok d → slot_ready d d1 n target old → is_entry m → m < n → is_end v d m = false.
Proof.
  intros Hfs S Hm Hlt. apply not_true_iff_false. intros He. unfold Fat16Dir.is_entry in Hm.
  destruct (sl_old _ _ _ _ _ S) as [(Hu & _)|(_ & _ & Hbefore & _)].
  - pose proof (fs_dir _ Hfs m n Hm (sl_entry _ _ _ _ _ S) Hlt He) as Hn.
    unfold Fat16Dir.is_used in Hu. by rewrite Hn in Hu.
  - specialize (Hbefore m ltac:(lia)). unfold Fat16Dir.is_used in Hbefore. by rewrite He in Hbefore.
Qed.

(** Storing the file in the clusters [l] leaves the directory and the clusters
    of all other entries alone. *)
Lemma stored_root d d1 d2 n target old buffer first l s :
  fs_ok d → slot_ready d d1 n target old → stored v buffer d1 d2 first l →
  root_dir_sector v ≤ s < data_sector v → ata_read_sector d2 s = ata_read_sector d s.
Proof.
  intros Hfs S ((cur & w & W) & _ & _) Hs. pose proof (sl_files _ _ _ _ _ S) as [Hs1 Hsf1].
  pose proof (ok_data_disk _ _ (fs_vol _ Hfs)).
  rewrite (wr_rest _ _ _ _ _ _ _ _ W); [apply Hsf1; lia|lia|]. intros c Hc Hin.
  pose proof (valid_in_chain _ _ _ _ (wr_linked _ _ _ _ _ _ _ _ W) Hc) as Hv.
  destruct (cluster_range v d2 c (wr_ok _ _ _ _ _ _ _ _ W) Hv) as (_ & _ & ? & _).
  unfold in_cluster in Hin. lia.
Qed.

Lemma stored_keeps d d1 d2 n target old buffer first l m l' c :
  fs_ok d → slot_ready d d1 n target old → stored v buffer d1 d2 first l →
  is_entry m → is_used d m = true → m ≠ n → chain_of d m l' → c ∈ l' →
  (c ∉ l) ∧ fat d2 c = fat d c ∧
  ∀ s, in_cluster v c s → ata_read_sector d2 s = ata_read_sector d s.
Proof.
  intros Hfs S ((cur & w & W) & _ & _) Hm Hum Hmn Hl' Hc. pose proof (fs_vol _ Hfs) as Hok.
  pose proof (sl_files _ _ _ _ _ S) as [Hs1 Hsf1]. pose proof (wr_ok _ _ _ _ _ _ _ _ W) as Hok2.
  destruct (slot_chain d d1 n target old m l' c Hfs S Hm Hmn Hum Hl' Hc) as (Hv & Hfat & Hnz).
  assert (c ∉ l) as Hout.
  { intros Hin. apply Hnz. rewrite <- Hfat. by apply (wr_was_free _ _ _ _ _ _ _ _ W). }
  split; [done|]. split.
  - rewrite (wr_fat _ _ _ _ _ _ _ _ W); [done| |done]. unfold Fat16Table.valid in Hv. lia.
  - intros s Hs. destruct (cluster_range v d c Hok Hv) as (_ & ? & ? & ? & ?).
    unfold in_cluster in Hs. rewrite (wr_rest _ _ _ _ _ _ _ _ W); [apply Hsf1; lia|lia|].
    intros c' Hc' Hs'. apply Hout.
    rewrite (in_cluster_inj v d2 c c' s); try done.
    by apply (valid_in_chain _ _ _ _ (wr_linked _ _ _ _ _ _ _ _ W)).
Qed.

(** The entry written in step 3, on the disk that holds the data. *)
Section WriteEntry.
Context d d1 d2 (n : Z) (name old buffer : list Z) (first : Z) (l : list Z)
  (Hfs : fs_ok d) (Hname : name_ok name) (Hlen : Z.of_nat (length buffer) < 2 ^ 31)
  (S : slot_ready d d1 n (format_fat_name name) old) (St : stored v buffer d1 d2 first l).
Let t := format_fat_name name.
Let d3 := write_entry v d2 (n / 16) (n mod 16) t first (Z.of_nat (length buffer)).

Lemma stored_ok : vol_ok d2 ∧ sectors d2 = sectors d ∧ linked v (fat d2) first l ∧ 0 ≤ first < 2 ^ 16.
Proof.
  destruct St as ((cur & w & W) & _ & _). pose proof (sl_files _ _ _ _ _ S) as [Hs1 _].
  pose proof (wr_linked _ _ _ _ _ _ _ _ W) as Hl. split; [by apply (wr_ok _ _ _ _ _ _ _ _ W)|].
  split; [rewrite (wr_sectors _ _ _ _ _ _ _ _ W); exact Hs1|]. split; [done|].
  destruct Hl as [c He|c l0 _ Hv _].
  - by destruct (wr_last _ _ _ _ _ _ _ _ W) as [[|] ?].
  - unfold Fat16Table.valid, limit in Hv. lia.
Qed.

Lemma entry_written :
  vol_ok d3 ∧ sectors d3 = sectors d2 ∧
  (∀ s, 0 ≤ s < sectors d2 → s ≠ root_dir_sector v + n / 16 → ata_read_sector d3 s = ata_read_sector d2 s) ∧
  (∀ m, is_entry m → m ≠ n → same_entry v d2 d3 m) ∧
  e_matches d3 n t = true ∧ is_dir v d3 n = false ∧ is_end v d3 n = false ∧ is_used d3 n = true ∧
  e_cluster d3 n = first ∧ e_size d3 n = Z.of_nat (length buffer).
Proof.
  destruct stored_ok as (Hok2 & _ & _ & Hfirst).
  destruct (format_fat_name_ok name (proj1 Hname)) as [Htl Htb].
  destruct (format_first name Hname) as [Hf0 Hf5].
  destruct (write_entry_spec v d2 n t first (Z.of_nat (length buffer)) Hok2 (sl_entry _ _ _ _ _ S) Htl Htb Hfirst)
    as (? & ? & ? & ? & ? & ? & Hn0 & ? & ?); [lia|]. fold d3 in Hn0.
  assert (is_end v d3 n = false ∧ is_used d3 n = true) as [? ?].
  { unfold Fat16Dir.is_used, is_end. rewrite Hn0.
    by rewrite (proj2 (Z.eqb_neq _ 0)), (proj2 (Z.eqb_neq _ 0xE5)). }
  repeat (split; [done|]). done.
Qed.

Lemma chain_written : chain_of d3 n l.
Proof.
  destruct stored_ok as (Hok2 & _ & Hl & _).
  destruct entry_written as (_ & _ & Hread3 & _ & _ & _ & _ & _ & Hcl & _).
  assert (∀ c, c ∈ l → fat d3 c = fat d2 c) as Hf3.
  { intros c Hc. apply (change_fat d2 d3 n (sl_entry _ _ _ _ _ S) Hok2 Hread3).
    pose proof (valid_in_chain _ _ _ _ Hl Hc) as Hv. unfold Fat16Table.valid in Hv. lia. }
  split; [rewrite Hcl; by apply (linked_ext v (fat d2))|].
  intros c Hc. rewrite Hf3 by done. destruct St as ((cur & w & W) & _ & _).
  by apply (wr_nonzero _ _ _ _ _ _ _ _ W).
Qed.

Lemma write_fs_ok : fs_ok d3.
Proof.
  destruct stored_ok as (Hok2 & Hs2 & Hl & _). pose proof (sl_entry _ _ _ _ _ S) as Hn.
  destruct entry_written as (Hok3 & Hs3 & Hread3 & Hothers & Hmatch & _ & He3 & Hu3 & _).
  assert (∀ s, root_dir_sector v ≤ s < data_sector v → ata_read_sector d2 s = ata_read_sector d s) as Hroot2
    by (intros s Hs; by apply (stored_root d d1 d2 n t old buffer first l)).
  apply (change_fs_ok d d2 d3 n); try done.
  - intros m l' c Hm Hum Hmn Hl' Hc.
    by apply (stored_keeps d d1 d2 n t old buffer first l m l' c).
  - intros m Hm Hlt.
    destruct (change_used d d2 d3 n Hok2 Hroot2 Hothers m Hm) as (_ & _ & -> & _); [lia|].
    by rewrite (slot_end d d1 n t old m).
  - by rewrite He3.
  - intros _. exists l. split; [apply chain_written|]. intros m l' c Hm Hum Hmn Hl' Hcl1 Hcl2.
    by destruct (stored_keeps d d1 d2 n t old buffer first l m l' c Hfs S St Hm Hum Hmn Hl' Hcl2).
  - intros m target Hm Hmn Hum _ Hmt. apply not_true_iff_false. intros Hmm.
    assert (e_matches d m t = true) as Hmt'; [|by rewrite (slot_unique d d1 n t old m) in Hmt'].
    apply (e_matches_spec v). intros j Hj. rewrite (proj1 (e_matches_spec v d m target) Hmm j Hj).
    rewrite <- (proj1 (e_matches_spec v d3 n target) Hmt j Hj).
    exact (proj1 (e_matches_spec v d3 n t) Hmatch j Hj).
Qed.

Lemma write_holds : holds_file d3 t buffer.
Proof.
  destruct stored_ok as (Hok2 & _ & Hl & _). pose proof (sl_entry _ _ _ _ _ S) as Hn.
  destruct entry_written as (_ & _ & Hread3 & _ & Hmatch & Hdir & _ & Hu3 & _ & Hsz).
  exists n, l. split; [done|]. split; [by apply is_file_parts|]. split; [apply chain_written|].
  split; [done|].
  assert (file_data v d3 l = file_data v d2 l) as ->.
  { apply file_data_same; [done|by eapply linked_valid|]. intros c s Hc Hs.
    apply (change_cluster d2 d3 n Hn Hok2 Hread3 c); [by apply (valid_in_chain _ _ _ _ Hl)|done]. }
  destruct St as ((cur & w & W) & Hfit & _).
  rewrite (wr_data _ _ _ _ _ _ _ _ W), take_padded, firstn_all by done. done.
Qed.

Lemma write_others g :
  Forall is_byte g → format_fat_name g ≠ t →
  fat16_read_file v d3 g = fat16_read_file v d g ∧
  fat16_get_file_size v d3 g = fat16_get_file_size v d g.
Proof.
  intros Hg Hgt. destruct stored_ok as (Hok2 & _ & Hl & _). pose proof (sl_entry _ _ _ _ _ S) as Hn.
  destruct entry_written as (_ & _ & Hread3 & Hothers & Hmatch & _).
  destruct (format_fat_name_ok g Hg) as [Hgl _].
  destruct (format_fat_name_ok name (proj1 Hname)) as [Htl _].
  apply (change_read d d2 d3 n); try done.
  - intros s Hs. by apply (stored_root d d1 d2 n t old buffer first l).
  - intros m l' c Hm Hum Hmn Hl' Hc. by apply (stored_keeps d d1 d2 n t old buffer first l m l' c).
  - apply write_fs_ok.
  - destruct (sl_old _ _ _ _ _ S) as [(_ & Hmn & _)|(Hun & _)].
    + by apply (not_file_other d n _ t).
    + unfold Fat16Dir.is_file. by rewrite Hun.
  - by apply (not_file_other d3 n _ t).
Qed.
End WriteEntry.

(** Why a write of [size] bytes fails: every entry of the directory belongs to
    another file, or the free clusters, together with those of the old file of
    that name, do not hold [size] bytes. *)
Definition no_space d target (size : nat) : Prop :=
  (∀ n, is_entry n → is_used d n = true ∧ e_matches d n target = false) ∨
  ∃ l old : list Z, NoDup l ∧ (∀ c, valid c → c ∈ l ↔ fat d c = 0 ∨ c ∈ old) ∧
    (old = [] ∨ ∃ n, is_entry n ∧ same_name v d n target = true ∧ chain_of d n old) ∧
    (length l * csize v < size)%nat.

(** What a call of [fat16_write_file] does. *)
Lemma write_cases d name buffer r d' :
  fs_ok d → name_ok name → Forall is_byte buffer → 0 < Z.of_nat (length buffer) < 2 ^ 31 →
  fat16_write_file v d name buffer (Z.of_nat (length buffer)) = (r, d') →
  (r = 0 ∧ no_space d (format_fat_name name) (length buffer)) ∨
  (r = Z.of_nat (length buffer) ∧ fs_ok d' ∧ holds_file d' (format_fat_name name) buffer ∧
   others_read d d' name).
Proof.
  intros Hfs Hname Hb Hlen. unfold fat16_write_file.
  destruct (find_slot_ready d (format_fat_name name) Hfs) as [(n & old & d1 & -> & S)|[-> Hfull]].
  2: { intros [= <- <-]. left. split; [done|]. by left. }
  pose proof (write_data_spec v d1 buffer (sl_ok _ _ _ _ _ S) Hb ltac:(lia)) as Hpost.
  destruct (write_data v d1 buffer _) as [d2 [first|]]; intros [= <- <-].
  - right. destruct Hpost as [l St]. split; [apply signed_small; lia|].
    split; [by apply (write_fs_ok d d1 d2 n name old buffer first l Hfs Hname (proj2 Hlen) S St)|].
    split; [by apply (write_holds d d1 d2 n name old buffer first l Hname (proj2 Hlen) S St)|].
    intros g Hg Hgt. apply (write_others d d1 d2 n name old buffer first l); (done || lia).
  - left. split; [done|]. right. destruct Hpost as (l & Hnd & Hfree & Hval & Hsmall & _).
    exists l, old. split; [done|]. split; [|split; [|lia]].
    + intros c Hc. rewrite <- Hfree by done. assert (0 ≤ c < limit v) as Hcl
        by (unfold Fat16Table.valid in Hc; lia).
      rewrite (sl_fat _ _ _ _ _ S) by done. case_decide; tauto.
    + destruct (sl_old _ _ _ _ _ S) as [(Hu & Hm & Hold)|(_ & -> & _)]; [right|by left].
      exists n. split; [apply S|]. split; [|done]. unfold same_name. by rewrite Hu, Hm.
Qed.

(** C11. Writing [buffer] to a file of a sound volume either fails for lack of
    space with result 0, or returns the number of bytes; then the volume is
    sound, reading the name gives [buffer] back, and every other name reads as
    before. *)
Theorem write_correct d name buffer r d' :
  fs_ok d → name_ok name → Forall is_byte buffer → 0 < Z.of_nat (length buffer) < 2 ^ 31 →
  fat16_write_file v d name buffer (Z.of_nat (length buffer)) = (r, d') →
  (r = 0 ∧ no_space d (format_fat_name name) (length buffer)) ∨
  (r = Z.of_nat (length buffer) ∧ fs_ok d' ∧
   fat16_read_file v d' name = (Z.of_nat (length buffer), buffer) ∧
   fat16_get_file_size v d' name = Z.of_nat (length buffer) ∧
   ∀ g, Forall is_byte g → format_fat_name g ≠ format_fat_name name →
     fat16_read_file v d' g = fat16_read_file v d g ∧
     fat16_get_file_size v d' g = fat16_get_file_size v d g).
Proof.
  intros Hfs Hname Hb Hlen Hw.
  destruct (write_cases d name buffer r d' Hfs Hname Hb Hlen Hw) as [?|(-> & Hfs' & Hh & Ho)];
    [by left|right].
  split; [done|]. split; [done|]. destruct (read_holds d' name buffer Hfs' Hh) as [-> ->].
  unfold s32. by rewrite signed_small by lia.
Qed.

(** C35. Overwriting a file on a disk that cannot hold the new contents loses
    the old ones: the old clusters have been freed before the new ones are
    asked for, the call returns 0, and the entry still refers to a free
    cluster, so the volume is not sound any more. *)
Theorem failed_overwrite d name buffer d' n c old :
  fs_ok d → is_entry n → same_name v d n (format_fat_name name) = true →
  chain_of d n (c :: old) → Forall is_byte buffer → 0 < Z.of_nat (length buffer) < 2 ^ 31 →
  fat16_write_file v d name buffer (Z.of_nat (length buffer)) = (0, d') →
  e_cluster d' n = c ∧ is_used d' n = true ∧ fat d' c = 0 ∧ ¬ fs_ok d'.
Proof.
  intros Hfs Hn Hs Hc Hb Hlen. unfold fat16_write_file.
  pose proof Hs as [Hu Hm]%andb_true_iff.
  destruct (find_slot_ready d (format_fat_name name) Hfs) as [(n' & old' & d1 & -> & S)|[-> Hfull]].
  2: { destruct (Hfull n Hn) as [_ Hm']. by rewrite Hm in Hm'. }
  assert (n' = n ∧ old' = c :: old) as [-> ->].
  { destruct (sl_old _ _ _ _ _ S) as [(Hu' & Hm' & Hc')|(_ & _ & _ & Hno)]; [|by rewrite Hno in Hs].
    assert (n' = n) as -> by (apply (fs_unique _ Hfs n' n (format_fat_name name)); [apply S|done..]).
    split; [done|]. by eapply chain_det. }
  pose proof (write_data_spec v d1 buffer (sl_ok _ _ _ _ _ S) Hb ltac:(lia)) as Hpost.
  destruct (write_data v d1 buffer _) as [d2 [first|]].
  { unfold s32. rewrite signed_small by lia. intros [= ? _]. lia. }
  intros [= <-]. destruct Hpost as (l & _ & Hfree & Hval & _ & Hok2 & Hs2 & Hfat2 & Hrest).
  pose proof (sl_files _ _ _ _ _ S) as [Hs1 Hsf1]. pose proof (fs_vol _ Hfs) as Hok.
  pose proof (valid_in_chain _ _ _ c (proj1 Hc) ltac:(set_solver)) as Hv.
  destruct (entry_sector v d n Hok Hn) as (_ & _ & Hes & _ & Hin).
  assert (same_entry v d d2 n) as Hsame.
  { apply same_sector_entry. rewrite Hrest; [apply Hsf1; lia|lia|]. intros x Hx Hinc.
    rewrite List.Forall_forall in Hval. apply list_elem_of_In, Hval in Hx.
    destruct (cluster_range v d x Hok Hx) as (_ & _ & ? & _). unfold in_cluster in Hinc. lia. }
  destruct (same_entry_fields v d d2 n Hsame) as (Hcl & _ & _ & Hu2 & _).
  assert (e_cluster d2 n = c) as Hec by (rewrite Hcl; destruct Hc as [Hl _]; by inversion Hl).
  assert (fat d2 c = 0) as Hz.
  { assert (0 ≤ c < limit v) by (unfold Fat16Table.valid in Hv; lia).
    rewrite Hfat2, (sl_fat _ _ _ _ _ S) by done. rewrite decide_True by set_solver. done. }
  rewrite Hu2. split; [done|]. split; [done|]. split; [done|]. intros Hfs'.
  destruct (fs_chain _ Hfs' n Hn) as [l' [Hl' Hnz]]; [by rewrite Hu2|]. rewrite Hec in Hl'.
  apply (Hnz c); [|done]. destruct (linked_head v _ c l' Hv Hl') as [l0 ->]. set_solver.
Qed.

(** The loop that frees a chain ends on every table whose links stay
    inside the volume, even when the chain runs in a circle, and clears
    entries only. *)
Theorem free_chain_ends d c :
  vol_ok d → closed v (fat d) → (in_chain c = true → valid c) →
  ∃ d', while (free_step v) chain_fuel (d, c) = inr d' ∧ free_chain v d c = d' ∧ same_files v d d' ∧
    ∀ x, 0 ≤ x < limit v → fat d' x = fat d x ∨ fat d' x = 0.
Proof.
  intros Hok Hcl Hc. destruct (free_chain_terminates v d c Hok Hcl Hc) as (d' & ? & ? & ? & _ & ?).
  by exists d'.
Qed.
End FileSystem.
