(* ===== verification/Fat16Demo.v ===== *)
(** A small FAT16 volume, on which the theorems of Fat16Proofs.v apply: one
    table of one sector, one directory sector, four sectors of data of which
    the code uses clusters 2 and 3. *)

From S2P Require Export Fat16Proofs.

Definition demo_vol : vol := mk_vol (mk_bpb 512 1 1 1 16 7 1 0) 2 1 3.

(** An empty volume. *)
Definition demo_empty : gmap_disk := mk_gdisk 8 ∅.

(** A volume with the file A.TXT of two bytes, whose chain is [links]. *)
Definition demo_disk (first : Z) (links : list (Z * Z)) : gmap_disk :=
  let table := foldr (λ '(c, x) l, put16 l (2 * c) x) zero_sector links in
  let entry := format_fat_name (str "a.txt") in
  let dir := entry ++ [0x20] ++ repeat 0 500 in
  let dir := put32 (put16 dir FIRST_CLUSTER first) FILE_SIZE 2 in
  mk_gdisk 8 (<[1 := table]> (<[2 := dir]> (<[3 := str "hi" ++ repeat 0 510]> ∅))).

Definition demo_file : gmap_disk := demo_disk 2 [(2, 3); (3, 0xFFFF)].
Definition demo_circle : gmap_disk := demo_disk 2 [(2, 3); (3, 2)].

Lemma demo_vol_ok d : sectors d = 8 → vol_ok demo_vol d.
Proof. intros Hs. split; cbn [demo_vol bpb bytes_per_sector sectors_per_cluster reserved_sector_count
  table_count table_size_16 root_dir_sector root_dir_size data_sector];
  try change (limit demo_vol) with 4; rewrite ?Hs; lia. Qed.

Lemma demo_entries (P : Z → bool) :
  forallb P (seqZ 0 16) = true → ∀ n, is_entry demo_vol n → P n = true.
Proof.
  intros HP n Hn. apply (forall_range P 0 16); [done|].
  unfold is_entry, entries in Hn. cbn in Hn. lia.
Qed.

Lemma demo_valid c : valid demo_vol c → c = 2 ∨ c = 3.
Proof. unfold valid. change (limit demo_vol) with 4. lia. Qed.

Lemma demo_empty_ok : fs_ok demo_vol demo_empty.
Proof.
  assert (∀ n, is_entry demo_vol n → is_end demo_vol demo_empty n = true) as Hend.
  { apply demo_entries. vm_compute. reflexivity. }
  assert (∀ n, is_entry demo_vol n → is_used demo_vol demo_empty n = true → False) as Hun.
  { intros n Hn. unfold is_used. by rewrite Hend. }
  split; [by apply demo_vol_ok|intros n m ? ? ? ?; by apply Hend|..].
  - intros n Hn Hu. by destruct (Hun n).
  - intros n m ? ? Hn ? Hu. by destruct (Hun n).
  - intros n m target Hn ? Hu. by destruct (Hun n).
Qed.

Lemma demo_file_entries n : is_entry demo_vol n →
  n = 0 ∨ (is_end demo_vol demo_file n = true ∧ is_used demo_vol demo_file n = false).
Proof.
  intros Hn.
  assert ((n =? 0) || is_end demo_vol demo_file n && negb (is_used demo_vol demo_file n) = true) as Hb.
  { revert n Hn. apply demo_entries. vm_compute. reflexivity. }
  apply orb_true_iff in Hb as [?|[? ?%negb_true_iff]%andb_true_iff]; [left; lia|by right].
Qed.

Lemma demo_chain : chain_of demo_vol demo_file 0 [2; 3].
Proof.
  assert (e_cluster demo_vol demo_file 0 = 2) as He by (vm_compute; reflexivity).
  assert (fat demo_vol demo_file 2 = 3) as H2 by (vm_compute; reflexivity).
  assert (fat demo_vol demo_file 3 = 0xFFFF) as H3 by (vm_compute; reflexivity).
  assert (limit demo_vol = 4) as Hlim by done.
  split.
  - rewrite He. apply linked_next; [done|unfold valid; lia|]. rewrite H2.
    apply linked_next; [done|unfold valid; lia|]. rewrite H3. by apply linked_end.
  - intros c Hc. apply list_elem_of_In in Hc as [<-|[<-|[]]]; [by rewrite H2|by rewrite H3].
Qed.

Lemma demo_file_ok : fs_ok demo_vol demo_file.
Proof.
  assert (∀ n, is_entry demo_vol n → is_used demo_vol demo_file n = true → n = 0) as Hu0.
  { intros n Hn Hu. destruct (demo_file_entries n Hn) as [?|[_ Hu']]; [done|by rewrite Hu in Hu']. }
  assert (is_end demo_vol demo_file 0 = false) as He0 by (vm_compute; reflexivity).
  split; [by apply demo_vol_ok| | | |].
  - intros n m Hn Hm Hlt He. destruct (demo_file_entries m Hm) as [-> |[? _]]; [|done].
    destruct Hn. lia.
  - intros n Hn Hu. rewrite (Hu0 n Hn Hu). exists [2; 3]. apply demo_chain.
  - intros n m l l' Hn Hm Hu Hu' Hne. by rewrite (Hu0 n Hn Hu), (Hu0 m Hm Hu') in Hne.
  - intros n m target Hn Hm Hu Hu' _ _. by rewrite (Hu0 n Hn Hu), (Hu0 m Hm Hu').
Qed.

Lemma pair_eq {A B} (p : A * B) a : p.1 = a → p = (a, p.2).
Proof. intros <-. by destruct p. Qed.

Lemma bytes_of (l : list Z) : forallb (λ b, (0 <=? b) && (b <? 256)) l = true → Forall is_byte l.
Proof.
  intros Hl. apply List.Forall_forall. intros b Hb. rewrite forallb_forall in Hl.
  apply Hl in Hb. unfold is_byte. lia.
Qed.

Lemma name_ok_of (s : list Z) :
  forallb (λ b, (0 <? b) && (b <? 256) && negb (b =? 0xE5)) s = true → name_ok s.
Proof.
  intros Hs. rewrite forallb_forall in Hs.
  assert (∀ b, In b s → 0 < b < 256 ∧ b ≠ 0xE5) as Hb by (intros b Hin; apply Hs in Hin; lia).
  split; [|split].
  - apply List.Forall_forall. intros b Hin. apply Hb in Hin. unfold is_byte. lia.
  - apply List.Forall_forall. intros b Hin. apply Hb in Hin. lia.
  - destruct s as [|c s]; [done|]. apply (Hb c). by left.
Qed.

(** Writing three bytes to a new file succeeds. *)
Lemma write_correct_witness :
  let w := fat16_write_file demo_vol demo_empty (str "b.txt") [1; 2; 3] 3 in
  w.1 = 3 ∧ fs_ok demo_vol w.2 ∧ fat16_read_file demo_vol w.2 (str "b.txt") = (3, [1; 2; 3]).
Proof.
  assert ((fat16_write_file demo_vol demo_empty (str "b.txt") [1; 2; 3] 3).1 = 3) as Hw
    by (vm_compute; reflexivity).
  destruct (write_correct demo_vol demo_empty (str "b.txt") [1; 2; 3] _ _ demo_empty_ok
    (name_ok_of (str "b.txt") eq_refl) (bytes_of [1; 2; 3] eq_refl) ltac:(cbn; lia) (pair_eq _ _ Hw))
    as [[? _]|(_ & Hok & Hr & _)]; [done|].
  split; [exact Hw|]. split; [exact Hok|exact Hr].
Defined.

(** A file of two clusters overwritten with three. *)
Lemma failed_overwrite_witness :
  let w := fat16_write_file demo_vol demo_file (str "A.TXT") (repeat 7 1025) 1025 in
  w.1 = 0 ∧ e_cluster demo_vol w.2 0 = 2 ∧ is_used demo_vol w.2 0 = true ∧ fat demo_vol w.2 2 = 0.
Proof.
  assert ((fat16_write_file demo_vol demo_file (str "A.TXT") (repeat 7 1025) 1025).1 = 0) as Hw
    by (vm_compute; reflexivity).
  assert (same_name demo_vol demo_file 0 (format_fat_name (str "A.TXT")) = true) as Hs
    by (vm_compute; reflexivity).
  assert (is_entry demo_vol 0) as H0 by (unfold is_entry, entries; cbn; lia).
  destruct (failed_overwrite demo_vol demo_file (str "A.TXT") (repeat 7 1025) _ 0 2 [3] demo_file_ok
    H0 Hs demo_chain (bytes_of (repeat 7 1025) eq_refl) ltac:(rewrite repeat_length; lia) (pair_eq _ _ Hw))
    as (H1 & H2 & H3 & _).
  split; [exact Hw|]. split; [exact H1|]. split; [exact H2|exact H3].
Defined.

(** A chain that runs in a circle is freed. *)
Lemma free_chain_ends_witness :
  ∃ d', free_chain demo_vol demo_circle 2 = d' ∧ same_files demo_vol demo_circle d'.
Proof.
  assert (fat demo_vol demo_circle 2 = 3) as H2 by (vm_compute; reflexivity).
  assert (fat demo_vol demo_circle 3 = 2) as H3 by (vm_compute; reflexivity).
  assert (limit demo_vol = 4) as Hlim by (vm_compute; reflexivity).
  destruct (free_chain_ends demo_vol demo_circle 2) as (d' & _ & Hd & Hf & _).
  - by apply demo_vol_ok.
  - intros c [-> | ->]%demo_valid _; unfold valid; [rewrite H2|rewrite H3]; lia.
  - intros _. unfold valid. lia.
  - exists d'. split; [exact Hd|exact Hf].
Defined.

(** Deleting the file. *)
Lemma delete_correct_witness :
  let r := fat16_delete_file demo_vol demo_file (str "a.TXT") in
  r.1 = 1 ∧ fs_ok demo_vol r.2 ∧ fat16_read_file demo_vol r.2 (str "a.TXT") = (0, []).
Proof.
  assert ((fat16_delete_file demo_vol demo_file (str "a.TXT")).1 = 1) as Hw by (vm_compute; reflexivity).
  destruct (delete_correct demo_vol demo_file (str "a.TXT") _ _ demo_file_ok
    (bytes_of (str "a.TXT") eq_refl) (pair_eq _ _ Hw)) as [[? _]|(_ & Hok & Hr & _)]; [done|].
  split; [exact Hw|]. split; [exact Hok|exact Hr].
Defined.
