(* ===== verification/Lisp.v ===== *)
(** The Lisp interpreter (src/tools/lisp.c).

    A [LispNode] is never changed once it is built, so a pointer to one is a
    tree ([ptr]); the pool it is carved from is the index
    [memory_pool_index]. A run threads the state [st] (pool, global
    variables, text printed, rest of the source) and ends in an [outcome]: a
    value, [sys_exit], a memory access C does not define ([Undefined]: a NULL
    pointer, an index outside an array), the divide trap ([Trap]: -2^31 / -1)
    or no fuel. [int] arithmetic wraps, as the machine's does. LispProofs.v
    holds the theorems. *)

From S2P Require Export Io CString.
Open Scope Z_scope.

Inductive LType := LVAL_ERR | LVAL_NUM | LVAL_SYM | LVAL_LIST | LVAL_NIL | LVAL_FUNC.

#[export] Instance LType_eq_dec : EqDecision LType.
Proof. solve_decision. Defined.

(** Unused fields of a node are zero: the pool is static and never reused. *)
Inductive ptr :=
  | NULL
  | LispNode (type : LType) (num : Z) (sym : list Z) (first rest : ptr).

Definition EnvVar : Type := list Z * ptr.

Record st := mk_st {
  memory_pool_index : Z;
  global_env : list EnvVar;
  out : list Z;
  lisp_src : list Z;
}.

Inductive outcome (A : Type) :=
  | Ok (a : A) (s : st)
  | Exit (s : st)
  | Undefined
  | Trap
  | NoFuel.
Arguments Ok {A}. Arguments Exit {A}. Arguments Undefined {A}. Arguments Trap {A}. Arguments NoFuel {A}.

Definition M (A : Type) : Type := st → outcome A.
#[export] Instance M_ret : MRet M := λ A a s, Ok a s.
#[export] Instance M_bind : MBind M := λ A B f m s,
  match m s with
  | Ok a s => f a s
  | Exit s => Exit s
  | Undefined => Undefined
  | Trap => Trap
  | NoFuel => NoFuel
  end.

Definition get : M st := λ s, Ok s s.
Definition undefined {A} : M A := λ _, Undefined.
Definition no_fuel {A} : M A := λ _, NoFuel.
Definition sys_exit {A} : M A := λ s, Exit s.
Definition vga_print (l : list Z) : M unit := λ s,
  Ok () (mk_st (memory_pool_index s) (global_env s) (out s ++ l) (lisp_src s)).
Definition vga_putchar (c : Z) : M unit := vga_print [c].
Definition set_src (l : list Z) : M unit := λ s,
  Ok () (mk_st (memory_pool_index s) (global_env s) (out s) l).
Definition set_env (l : list EnvVar) : M unit := λ s,
  Ok () (mk_st (memory_pool_index s) l (out s) (lisp_src s)).

(** [p->field]: undefined for a NULL pointer. *)
Definition deref {A} (p : ptr) (f : LType → Z → list Z → ptr → ptr → A) : M A :=
  match p with
  | NULL => undefined
  | LispNode t n s a b => mret (f t n s a b)
  end.
Definition get_type p : M LType := deref p (λ t _ _ _ _, t).
Definition get_num p : M Z := deref p (λ _ n _ _ _, n).
Definition get_sym p : M (list Z) := deref p (λ _ _ s _ _, s).
Definition get_first p : M ptr := deref p (λ _ _ _ a _, a).
Definition get_rest p : M ptr := deref p (λ _ _ _ _ b, b).

(** ** Utilities *)

Definition kstrcmp (s1 s2 : list Z) : Z := bytes_cmp s1 s2.
Definition same (s1 s2 : list Z) : bool := kstrcmp s1 s2 =? 0.

(** The string stored by [kstrcpy] in a field [char sym[32]]. *)
Definition kstrcpy (src : list Z) : M (list Z) :=
  if Z.of_nat (length src) <? 32 then mret src else undefined.

Definition print_int (n : Z) : M unit :=
  (if n <? 0 then vga_putchar "-"%char else mret ()) ;;
  let n := if n <? 0 then signed 32 (- n) else n in
  if n =? 0 then vga_putchar "0"%char else vga_print (digits 16 n).

(** ** Nodes *)

Definition MEMORY_POOL_SIZE : Z := 1024 * 1024.
Definition sizeof_LispNode : Z := 56.

(** The offset of the block in the pool. *)
Definition lisp_malloc (size : Z) : M (option Z) := λ s,
  if MEMORY_POOL_SIZE <? signed 32 (memory_pool_index s + size) then Ok None s
  else Ok (Some (memory_pool_index s))
    (mk_st (signed 32 (memory_pool_index s + size)) (global_env s) (out s) (lisp_src s)).

Definition alloc_node : M unit :=
  n ← lisp_malloc sizeof_LispNode;
  match n with
  | None => vga_print (str "Erro: AST estourou o Memory Pool do LISP (1 MB)." ++ [10]) ;; sys_exit
  | Some _ => mret ()
  end.

Definition new_lval_num (num : Z) : M ptr :=
  alloc_node ;; mret (LispNode LVAL_NUM num [] NULL NULL).
Definition new_lval_err (m : list Z) : M ptr :=
  alloc_node ;; sym ← kstrcpy m; mret (LispNode LVAL_ERR 0 sym NULL NULL).
Definition new_lval_sym (s : list Z) : M ptr :=
  alloc_node ;; sym ← kstrcpy s; mret (LispNode LVAL_SYM 0 sym NULL NULL).
Definition new_lval_list (first rest : ptr) : M ptr :=
  alloc_node ;; mret (LispNode LVAL_LIST 0 [] first rest).
Definition new_lval_nil : M ptr :=
  alloc_node ;; mret (LispNode LVAL_NIL 0 [] NULL NULL).
Definition new_lval_func (params body : ptr) : M ptr :=
  alloc_node ;; mret (LispNode LVAL_FUNC 0 [] params body).

(** ** Parser *)

Definition is_space (c : Z) : bool := (c =? 32) || (c =? 10) || (c =? 9) || (c =? 13).
Definition is_delim (c : Z) : bool := is_space c || (c =? "("%char) || (c =? ")"%char).
Definition is_digit (c : Z) : bool := negb ((c <? "0"%char) || ("9"%char <? c)).

Fixpoint skip_space (l : list Z) : list Z :=
  match l with
  | c :: l' => if is_space c then skip_space l' else l
  | [] => []
  end.

(** [*lisp_src] after the spaces; the end of the source is its NUL. *)
Definition peek : M Z :=
  s ← get;
  let src := skip_space (lisp_src s) in
  set_src src ;; mret (default 0 (head src)).

Definition advance : M unit := s ← get; set_src (tail (lisp_src s)).

(** The characters stored in [buf], of which [room] are free, and the rest. *)
Fixpoint atom_chars (l : list Z) (room : nat) : list Z * list Z :=
  match l with
  | [] => ([], [])
  | c :: l' =>
      if is_delim c then ([], l)
      else
        match room with
        | O => atom_chars l' O
        | S r => let '(buf, rest) := atom_chars l' r in (c :: buf, rest)
        end
  end.

Definition is_num (buf : list Z) : bool :=
  match buf with
  | [] => true
  | c :: l => ((c =? "-"%char) && (1 <? Z.of_nat (length buf)) || is_digit c) && forallb is_digit l
  end.

Definition atoi (l : list Z) : Z :=
  fold_left (λ n c, signed 32 (signed 32 (n * 10) + (c - "0"%char))) l 0.

Definition atom_value (buf : list Z) : Z :=
  match buf with
  | c :: l => if c =? "-"%char then signed 32 (- atoi l) else atoi buf
  | [] => 0
  end.

Definition read_atom : M ptr :=
  s ← get;
  let '(buf, rest) := atom_chars (lisp_src s) 31 in
  set_src rest ;;
  match buf with
  | [] => mret NULL
  | _ => if is_num buf then new_lval_num (atom_value buf) else new_lval_sym buf
  end.

Fixpoint read_expr (fuel : nat) : M ptr :=
  match fuel with
  | O => no_fuel
  | S fuel =>
      c ← peek;
      if c =? 0 then mret NULL
      else if c =? "("%char then advance ;; read_list fuel
      else if c =? ")"%char then new_lval_err (str "Unexpected ')'")
      else read_atom
  end
with read_list (fuel : nat) : M ptr :=
  match fuel with
  | O => no_fuel
  | S fuel =>
      c ← peek;
      if c =? ")"%char then advance ;; new_lval_nil
      else
        first ← read_expr fuel;
        match first with
        | NULL => new_lval_err (str "EOF")
        | LispNode LVAL_ERR _ _ _ _ => mret first
        | _ => rest ← read_list fuel; new_lval_list first rest
        end
  end.

(** ** Environment *)

Fixpoint lookup_sym (env : list EnvVar) (sym : list Z) : option ptr :=
  match env with
  | [] => None
  | (k, v) :: env => if same k sym then Some v else lookup_sym env sym
  end.

Fixpoint replace_sym (env : list EnvVar) (sym : list Z) (val : ptr) : list EnvVar :=
  match env with
  | [] => []
  | (k, v) :: env => if same k sym then (k, val) :: env else (k, v) :: replace_sym env sym val
  end.

Definition env_set (sym : list Z) (val : ptr) : M unit :=
  s ← get;
  let env := global_env s in
  match lookup_sym env sym with
  | Some _ => set_env (replace_sym env sym val)
  | None =>
      if Z.of_nat (length env) <? 128 then k ← kstrcpy sym; set_env (env ++ [(k, val)])
      else mret ()
  end.

Definition env_get (sym : list Z) (local_env : list EnvVar) : M ptr :=
  match lookup_sym local_env sym with
  | Some v => mret v
  | None =>
      s ← get;
      match lookup_sym (global_env s) sym with
      | Some v => mret v
      | None =>
          if same sym (str "+") || same sym (str "-") || same sym (str "*") ||
             same sym (str "/") || same sym (str "print")
          then new_lval_sym sym
          else new_lval_err (str "Variavel/Funcao nao definida")
      end
  end.

(** ** Evaluator *)

(** [while (curr && curr->type == LVAL_LIST)]: fill [args_eval[16]]. *)
Fixpoint eval_args (ev : ptr → M ptr) (curr : ptr) (args_eval : list ptr) : M (list ptr) :=
  match curr with
  | LispNode LVAL_LIST _ _ first rest =>
      v ← ev first;
      if Z.of_nat (length args_eval) <? 16 then eval_args ev rest (args_eval ++ [v]) else undefined
  | _ => mret args_eval
  end.

(** [for (i...) res = op(res, args_eval[i]->num)] *)
Fixpoint fold_args (op : Z → Z → Z) (res : Z) (args : list ptr) : M Z :=
  match args with
  | [] => mret res
  | a :: args => n ← get_num a; fold_args op (signed 32 (op res n)) args
  end.

Fixpoint print_args (args : list ptr) : M unit :=
  match args with
  | [] => mret ()
  | a :: args =>
      t ← get_type a;
      match t with
      | LVAL_NUM => n ← get_num a; print_int n
      | LVAL_SYM => s ← get_sym a; vga_print s
      | _ => mret ()
      end ;;
      vga_putchar " "%char ;;
      print_args args
  end.

Definition divide (a b : Z) : M Z := λ s,
  if (a =? - 2 ^ 31) && (b =? -1) then Trap else Ok (Z.quot a b) s.

Definition builtin (sym : list Z) (args : list ptr) : M ptr :=
  if same sym (str "+") then res ← fold_args Z.add 0 args; new_lval_num res
  else if same sym (str "-") then
    match args with
    | [] => undefined
    | [a] => n ← get_num a; new_lval_num (signed 32 (- n))
    | a :: args => n ← get_num a; res ← fold_args Z.sub n args; new_lval_num res
    end
  else if same sym (str "*") then res ← fold_args Z.mul 1 args; new_lval_num res
  else if same sym (str "/") then
    match args with
    | a :: b :: _ =>
        m ← get_num b;
        if m =? 0 then new_lval_err (str "Divisao por zero")
        else n ← get_num a; q ← divide n m; new_lval_num q
    | _ => new_lval_err (str "Divisao por zero")
    end
  else if same sym (str "print") then
    print_args args ;; vga_print [10] ;; new_lval_nil
  else new_lval_err (str "Nao e uma funcao valida").

(** [new_env]: the parameters paired with the arguments. *)
Fixpoint bind_params (p : ptr) (args : list ptr) : M (list EnvVar) :=
  match p, args with
  | LispNode LVAL_LIST _ _ first rest, a :: args =>
      s ← get_sym first; k ← kstrcpy s; env ← bind_params rest args; mret ((k, a) :: env)
  | _, _ => mret []
  end.

Fixpoint eval (fuel : nat) (ast : ptr) (local_env : list EnvVar) : M ptr :=
  match fuel with
  | O => no_fuel
  | S fuel =>
      match ast with
      | NULL => new_lval_nil
      | LispNode LVAL_NUM _ _ _ _ => mret ast
      | LispNode LVAL_SYM _ sym _ _ => env_get sym local_env
      | LispNode LVAL_NIL _ _ _ _ => mret ast
      | LispNode LVAL_LIST _ _ first rest =>
          t ← get_type first;
          fsym ← get_sym first;
          if bool_decide (t = LVAL_SYM) && same fsym (str "defun") then
            name ← get_first rest;
            rest2 ← get_rest rest;
            args ← get_first rest2;
            rest3 ← get_rest rest2;
            body ← get_first rest3;
            func ← new_lval_func args body;
            sym ← get_sym name;
            env_set sym func ;;
            new_lval_sym (str "ok")
          else if bool_decide (t = LVAL_SYM) && same fsym (str "setq") then
            name ← get_first rest;
            rest2 ← get_rest rest;
            e ← get_first rest2;
            val ← eval fuel e local_env;
            sym ← get_sym name;
            env_set sym val ;;
            mret val
          else
            f ← eval fuel first local_env;
            match f with
            | NULL => undefined
            | LispNode LVAL_ERR _ _ _ _ => mret f
            | LispNode ft _ fs params body =>
                args_eval ← eval_args (λ a, eval fuel a local_env) rest [];
                match ft with
                | LVAL_SYM => builtin fs args_eval
                | LVAL_FUNC => new_env ← bind_params params args_eval; eval fuel body new_env
                | _ => new_lval_err (str "Nao e uma funcao valida")
                end
            end
      | LispNode _ _ _ _ _ => new_lval_err (str "Erro de avaliacao")
      end
  end.

(** ** The program *)

Definition is_err (p : ptr) : bool :=
  match p with LispNode LVAL_ERR _ _ _ _ => true | _ => false end.

Definition fail_with (msg : list Z) (p : ptr) : M ptr :=
  vga_print msg ;; sym ← get_sym p; vga_print sym ;; vga_print [10] ;; sys_exit.

(** The loop over the forms of the script, with [n] turns, [rf] of fuel for the
    reader and [ef] for the evaluator. *)
Fixpoint run_forms (rf ef n : nat) (last_res : ptr) : M ptr :=
  match n with
  | O => no_fuel
  | S n =>
      c ← peek;
      if c =? 0 then mret last_res
      else
        ast ← read_expr rf;
        match ast with
        | NULL => mret last_res
        | _ =>
            if is_err ast then fail_with (str "LISP PARSE ERROR: ") ast
            else
              res ← eval ef ast [];
              if is_err res then fail_with (str "LISP EVAL ERROR: ") res
              else run_forms rf ef n res
        end
  end.

Definition print_result (p : ptr) : M unit :=
  match p with
  | NULL => mret ()
  | LispNode t num sym _ _ =>
      vga_print (str "Resultado: ") ;;
      match t with
      | LVAL_NUM => print_int num
      | LVAL_SYM => vga_print sym
      | LVAL_NIL => vga_print (str "nil")
      | LVAL_FUNC => vga_print (str "#<function>")
      | _ => mret ()
      end ;;
      vga_print [10]
  end.

(** The characters before the first NUL. *)
Fixpoint c_string (l : list Z) : list Z :=
  match l with
  | c :: l' => if c =? 0 then [] else c :: c_string l'
  | [] => []
  end.

Definition exec (rf ef n : nat) : M unit :=
  last_res ← run_forms rf ef n NULL; print_result last_res ;; sys_exit.

(** [file_size] and [read_file] answer the system calls; [read_file] gives its
    result and the bytes stored in the buffer. A reply outside the block the
    program reserved writes outside it. *)
Definition _start (ef : nat) (args : list Z) (file_size : list Z → Z)
    (read_file : list Z → Z * list Z) : M unit :=
  let filename := match args with [] => str "lisp.txt" | _ => args end in
  let fsize := signed 32 (file_size filename) in
  if fsize =? 0 then
    vga_print (str "Erro: Arquivo nao encontrado ou vazio no HD." ++ [10]) ;; sys_exit
  else
    buffer ← lisp_malloc (signed 32 (fsize + 1));
    match buffer with
    | None =>
        vga_print (str "Erro: Script muito grande para o Memory Pool (1 MB)." ++ [10]) ;; sys_exit
    | Some _ =>
        let '(r, bytes) := read_file filename in
        let size := signed 32 r in
        if size =? 0 then vga_print (str "Erro ao ler arquivo do HD." ++ [10]) ;; sys_exit
        else if negb ((0 <? size) && (size <=? fsize)) then undefined
        else
          set_env [] ;;
          vga_print (str "Executando Script LISP..." ++ [10]) ;;
          let src := c_string (take (Z.to_nat size) bytes) in
          set_src src ;;
          exec (2 * length src + 2) ef (S (length src))
    end.
