(* ===== verification/LispParse.v ===== *)
(** The reader of Lisp.v: it gives back what is printed, it ends on every
    source and it never leaves its buffers. *)

From S2P Require Export Lisp.

(** ** Allocation *)

Definition used (s : st) (n : Z) : st :=
  mk_st (memory_pool_index s + n) (global_env s) (out s) (lisp_src s).
Definition with_src (s : st) (l : list Z) : st :=
  mk_st (memory_pool_index s) (global_env s) (out s) l.
Definition pool_left (s : st) : Z := MEMORY_POOL_SIZE - memory_pool_index s.
Definition pool_ok (s : st) : Prop := 0 ≤ memory_pool_index s ≤ MEMORY_POOL_SIZE.

Lemma used_used s n m : used (used s n) m = used s (n + m).
Proof. unfold used. cbn. f_equal. lia. Qed.
Lemma used_0 s : used s 0 = s.
Proof. destruct s. unfold used. cbn. f_equal. lia. Qed.
Lemma used_src s n l : used (with_src s l) n = with_src (used s n) l.
Proof. done. Qed.

Lemma signed_pool x : 0 ≤ x ≤ 2 * MEMORY_POOL_SIZE → signed 32 x = x.
Proof. intros. apply signed_small; unfold MEMORY_POOL_SIZE in *; lia. Qed.

Lemma alloc_room s : pool_ok s → 56 ≤ pool_left s → alloc_node s = Ok () (used s 56).
Proof.
  unfold pool_ok, pool_left. intros Hok Hroom. unfold alloc_node, lisp_malloc, mbind, M_bind, sizeof_LispNode.
  rewrite signed_pool by (unfold MEMORY_POOL_SIZE in *; lia).
  destruct (Z.ltb_spec MEMORY_POOL_SIZE (memory_pool_index s + 56)); [lia|done].
Qed.

(** Without room the program ends. *)
Lemma alloc_full s : pool_ok s → pool_left s < 56 → ∃ s', alloc_node s = Exit s'.
Proof.
  unfold pool_ok, pool_left. intros Hok Hroom. unfold alloc_node, lisp_malloc, mbind, M_bind, sizeof_LispNode.
  rewrite signed_pool by (unfold MEMORY_POOL_SIZE in *; lia).
  destruct (Z.ltb_spec MEMORY_POOL_SIZE (memory_pool_index s + 56)); [by eexists|lia].
Qed.

Lemma bind_ok {A B} (m : M A) (f : A → M B) s a s' : m s = Ok a s' → (m ≫= f) s = f a s'.
Proof. intros Hm. unfold mbind, M_bind. by rewrite Hm. Qed.

Lemma bind_exit {A B} (m : M A) (f : A → M B) s s' : m s = Exit s' → (m ≫= f) s = Exit s'.
Proof. intros Hm. unfold mbind, M_bind. by rewrite Hm. Qed.

(** ** Printing *)

Definition show_int (n : Z) : list Z :=
  (if n <? 0 then [code "-"%char] else []) ++
  (if n =? 0 then [code "0"%char] else digits 16 (Z.abs n)).

Definition num_node (n : Z) : ptr := LispNode LVAL_NUM n [] NULL NULL.
Definition sym_node (s : list Z) : ptr := LispNode LVAL_SYM 0 s NULL NULL.
Definition nil_node : ptr := LispNode LVAL_NIL 0 [] NULL NULL.
Definition err_node (s : list Z) : ptr := LispNode LVAL_ERR 0 s NULL NULL.
Definition list_node (a b : ptr) : ptr := LispNode LVAL_LIST 0 [] a b.
Definition func_node (a b : ptr) : ptr := LispNode LVAL_FUNC 0 [] a b.

(** The text of an expression, or of the rest of a list. *)
Fixpoint show (rest_of_list : bool) (p : ptr) : list Z :=
  match p with
  | LispNode LVAL_NUM n _ _ _ => show_int n
  | LispNode LVAL_SYM _ s _ _ => s
  | LispNode LVAL_NIL _ _ _ _ => if rest_of_list then [code ")"] else [code "("; code ")"]
  | LispNode LVAL_LIST _ _ a b =>
      (if rest_of_list then code " " else code "(") :: show false a ++ show true b
  | _ => []
  end.

Fixpoint nodes (p : ptr) : nat :=
  match p with
  | NULL => 0
  | LispNode _ _ _ a b => S (nodes a + nodes b)
  end.

(** A symbol the reader reads back. *)
Definition sym_ok (s : list Z) : Prop :=
  s ≠ [] ∧ (length s ≤ 31)%nat ∧ Forall (λ c, c ≠ 0 ∧ is_delim c = false) s ∧ is_num s = false.

Definition is_tail (p : ptr) : bool :=
  match p with LispNode (LVAL_NIL | LVAL_LIST) _ _ _ _ => true | _ => false end.

(** The expressions of the language. *)
Inductive expr : ptr → Prop :=
  | expr_num n : - 2 ^ 31 ≤ n < 2 ^ 31 → expr (num_node n)
  | expr_sym s : sym_ok s → expr (sym_node s)
  | expr_nil : expr nil_node
  | expr_list a b : expr a → expr b → is_tail b = true → expr (list_node a b).

(** ** Numbers *)

Lemma atoi_value l : atoi l = signed 32 (digits_value l).
Proof.
  unfold atoi, digits_value.
  assert (∀ n, fold_left (λ n c, signed 32 (signed 32 (n * 10) + (c - code "0"))) l (signed 32 n) =
    signed 32 (fold_left (λ n c, n * 10 + (c - 48)) l n)) as Hl; [|exact (Hl 0)].
  induction l as [|c l IH]; intros n; [done|]. cbn [fold_left]. rewrite <- IH. f_equal.
  apply cong_signed. by rewrite !signed_cong by lia.
Qed.

Lemma digit_range c : is_digit c = true ↔ 48 ≤ c ≤ 57.
Proof. unfold is_digit. change (code "0") with 48. change (code "9") with 57. lia. Qed.

Lemma digit_plain c : 48 ≤ c ≤ 57 → c ≠ 0 ∧ is_delim c = false.
Proof. unfold is_delim, is_space. change (code "(") with 40. change (code ")") with 41. lia. Qed.

Lemma digits_all l : Forall (λ c, 48 ≤ c ≤ 57) l → forallb is_digit l = true.
Proof.
  induction 1 as [|c l Hc Hl IH]; [done|]. cbn. by rewrite (proj2 (digit_range c) Hc), IH.
Qed.

Lemma show_int_digits n : - 2 ^ 31 ≤ n < 2 ^ 31 → ∃ l, l ≠ [] ∧ (length l ≤ 16)%nat ∧
  Forall (λ c, 48 ≤ c ≤ 57) l ∧ digits_value l = Z.abs n ∧
  show_int n = (if n <? 0 then [code "-"%char] else []) ++ l.
Proof.
  intros Hn. unfold show_int. destruct (Z.eqb_spec n 0) as [-> |Hne].
  { exists [48]. split; [done|]. split; [cbn; lia|]. split; [|done]. by repeat constructor. }
  destruct (digits_spec 16 (Z.abs n)) as (Hv & Hd & Hl); [lia|].
  exists (digits 16 (Z.abs n)). split; [|done]. apply digits_nonempty. lia.
Qed.

Lemma show_int_spec n : - 2 ^ 31 ≤ n < 2 ^ 31 →
  show_int n ≠ [] ∧ (length (show_int n) ≤ 31)%nat ∧
  Forall (λ c, c ≠ 0 ∧ is_delim c = false) (show_int n) ∧
  is_num (show_int n) = true ∧ atom_value (show_int n) = n.
Proof.
  intros Hn. destruct (show_int_digits n Hn) as (l & Hne & Hlen & Hd & Hv & ->).
  assert (Forall (λ c, c ≠ 0 ∧ is_delim c = false) l) as Hpl
    by (eapply Forall_impl; [|exact Hd]; apply digit_plain).
  pose proof (digits_all l Hd) as Hall.
  destruct l as [|c l]; [done|]. apply Forall_cons_1 in Hd as [Hc _].
  destruct (Z.ltb_spec n 0); cbn [app].
  - split; [done|]. split; [cbn in *; lia|]. split; [constructor; [by vm_compute|done]|]. split.
    + cbn [is_num]. rewrite Hall, Z.eqb_refl.
      destruct (Z.ltb_spec 1 (Z.of_nat (length (code "-" :: c :: l)))); [done|cbn [length] in *; lia].
    + cbn [atom_value]. rewrite Z.eqb_refl, atoi_value, Hv.
      transitivity (signed 32 (- Z.abs n)); [apply cong_signed; by rewrite signed_cong by lia|].
      rewrite signed_id; lia.
  - split; [done|]. split; [cbn in *; lia|]. split; [done|]. split.
    + cbn [is_num]. cbn [forallb] in Hall. apply andb_true_iff in Hall as [-> ->].
      by rewrite orb_true_r.
    + cbn [atom_value]. destruct (Z.eqb_spec c (code "-")) as [-> |_]; [by compute in Hc|].
      rewrite atoi_value, Hv, signed_id; lia.
Qed.

(** ** Reading an atom *)

(** The text after an atom ends it. *)
Definition stops (l : list Z) : Prop := match l with [] => True | c :: _ => is_delim c = true end.

Lemma atom_chars_app l rest room :
  Forall (λ c, c ≠ 0 ∧ is_delim c = false) l → (length l ≤ room)%nat → stops rest →
  atom_chars (l ++ rest) room = (l, rest).
Proof.
  intros Hl. revert room. induction Hl as [|c l [_ Hc] Hl IH]; intros room Hlen Hr; cbn [app].
  - destruct rest as [|c rest]; [done|]. cbn in Hr |- *. by rewrite Hr.
  - cbn [atom_chars]. rewrite Hc. cbn in Hlen. destruct room as [|room]; [lia|].
    rewrite IH by (done || lia). done.
Qed.

Lemma read_atom_spec s l rest p :
  lisp_src s = l ++ rest → l ≠ [] → (length l ≤ 31)%nat →
  Forall (λ c, c ≠ 0 ∧ is_delim c = false) l → stops rest → pool_ok s → 56 ≤ pool_left s →
  p = (if is_num l then num_node (atom_value l) else sym_node l) →
  read_atom s = Ok p (with_src (used s 56) rest).
Proof.
  intros Hs Hne Hlen Hl Hr Hok Hroom ->. unfold read_atom. rewrite (bind_ok get _ s s s eq_refl).
  rewrite Hs, (atom_chars_app l rest 31) by done. rewrite (bind_ok _ _ s tt (with_src s rest) eq_refl).
  pose proof (alloc_room (with_src s rest) Hok Hroom) as Ha. rewrite used_src in Ha.
  destruct l as [|c l]; [done|]. destruct (is_num (c :: l)).
  - unfold new_lval_num. by rewrite (bind_ok _ _ _ _ _ Ha).
  - unfold new_lval_sym. rewrite (bind_ok _ _ _ _ _ Ha). unfold kstrcpy.
    destruct (Z.ltb_spec (Z.of_nat (length (c :: l))) 32); [done|lia].
Qed.

Lemma expr_starts p : expr p → ∃ c l, show false p = c :: l ∧ c ≠ 0 ∧ is_space c = false ∧ c ≠ code ")" ∧
  (is_tail p = true ↔ c = code "(").
Proof.
  intros Hp.
  assert (∀ c, is_delim c = false → is_space c = false ∧ c ≠ code ")" ∧ c ≠ code "(") as Hd.
  { unfold is_delim. intros c [[Hs H1]%orb_false_iff H2]%orb_false_iff.
    apply Z.eqb_neq in H1, H2. done. }
  destruct Hp as [n Hn|sy (Hne & _ & Hp & _)| |a b _ _ _]; cbn [show is_tail num_node sym_node nil_node list_node].
  - destruct (show_int_spec n Hn) as (Hne & _ & Hp & _). destruct (show_int n) as [|c l]; [done|].
    apply Forall_cons_1 in Hp as [[? Hc] _]. apply Hd in Hc as (? & ? & ?). exists c, l. done.
  - destruct sy as [|c l]; [done|]. apply Forall_cons_1 in Hp as [[? Hc] _].
    apply Hd in Hc as (? & ? & ?). exists c, l. done.
  - by exists (code "("), [code ")"].
  - by eexists _, _.
Qed.

Lemma peek_at s c l :
  skip_space (lisp_src s) = c :: l → peek s = Ok c (with_src s (c :: l)).
Proof. intros Hs. unfold peek, mbind, M_bind, get, set_src, mret, M_ret. by rewrite Hs. Qed.

Lemma advance_at s c l : advance (with_src s (c :: l)) = Ok () (with_src s l).
Proof. done. Qed.

Lemma skip_nonspace c l : is_space c = false → skip_space (c :: l) = c :: l.
Proof. cbn. by intros ->. Qed.

(** [p] takes [56 * nodes p] bytes of the pool; [2 * nodes p] of fuel is
    enough. *)
Definition reads (r : nat → M ptr) (fuel : nat) (s : st) (p : ptr) (rest : list Z) : Prop :=
  r fuel s = Ok p (with_src (used s (56 * Z.of_nat (nodes p))) rest).

Lemma read_list_nil s rest fuel :
  skip_space (lisp_src s) = code ")" :: rest → pool_ok s → 56 ≤ pool_left s → (0 < fuel)%nat →
  reads read_list fuel s nil_node rest.
Proof.
  intros Hs Hok Hroom Hf. destruct fuel as [|fuel]; [lia|]. unfold reads. cbn [read_list].
  rewrite (bind_ok _ _ _ _ _ (peek_at s _ _ Hs)). cbn [code]. change (code ")" =? code ")") with true. cbv iota.
  rewrite (bind_ok _ _ _ _ _ (advance_at s _ _)).
  unfold new_lval_nil. by rewrite (bind_ok _ _ _ _ _ (alloc_room (with_src s rest) Hok Hroom)).
Qed.

Lemma read_list_cons s a b rest fuel :
  expr a → (∀ s', pool_ok s' → lisp_src s' = show false a ++ show true b ++ rest →
     56 * Z.of_nat (nodes a) ≤ pool_left s' → reads read_expr fuel s' a (show true b ++ rest)) →
  (∀ s', pool_ok s' → lisp_src s' = show true b ++ rest → 56 * Z.of_nat (nodes b) ≤ pool_left s' →
     reads read_list fuel s' b rest) →
  skip_space (lisp_src s) = show false a ++ show true b ++ rest → pool_ok s →
  56 * Z.of_nat (nodes (list_node a b)) ≤ pool_left s →
  reads read_list (S fuel) s (list_node a b) rest.
Proof.
  intros Ha IHa IHb Hs Hok Hroom. unfold reads. cbn [read_list nodes list_node] in *.
  rewrite Nat2Z.inj_succ, Nat2Z.inj_add in *.
  destruct (expr_starts a Ha) as (c & l & Hshow & _ & _ & Hne & _).
  rewrite Hshow in Hs. rewrite (bind_ok _ _ _ _ _ (peek_at s _ _ Hs)).
  destruct (Z.eqb_spec c (code ")")); [done|].
  unfold pool_ok, pool_left, reads in *.
  rewrite (bind_ok _ _ _ _ _ (IHa (with_src s (c :: l ++ show true b ++ rest)) Hok
    ltac:(cbn; by rewrite Hshow) ltac:(cbn; lia))).
  set (s1 := with_src (used _ _) _).
  assert (read_list fuel s1 = Ok b (with_src (used s1 (56 * Z.of_nat (nodes b))) rest)) as Hb
    by (apply IHb; [unfold s1; cbn [used with_src memory_pool_index] in *; lia|done|unfold s1; cbn [used with_src memory_pool_index] in *; lia]).
  assert (((read_list fuel ≫= new_lval_list a) s1) =
    Ok (list_node a b) (with_src (used s (56 * Z.succ (Z.of_nat (nodes a) + Z.of_nat (nodes b)))) rest)) as Hfin.
  { rewrite (bind_ok _ _ _ _ _ Hb). unfold new_lval_list. set (s2 := with_src _ _).
    assert (alloc_node s2 = Ok () (used s2 56)) as Halloc by
      (apply alloc_room; unfold pool_ok, pool_left, s2, s1; cbn [used with_src memory_pool_index] in *; lia).
    rewrite (bind_ok _ _ _ _ _ Halloc). unfold s2.
    unfold mret, M_ret, used, with_src, s1. cbn. do 2 f_equal. lia. }
  by destruct Ha.
Qed.

(** An atom of at most 31 characters. *)
Lemma read_expr_atom l q s rest fuel :
  l ≠ [] → (length l ≤ 31)%nat → Forall (λ c, c ≠ 0 ∧ is_delim c = false) l → nodes q = 1%nat →
  q = (if is_num l then num_node (atom_value l) else sym_node l) →
  skip_space (lisp_src s) = l ++ rest → stops rest → pool_ok s → 56 ≤ pool_left s → (0 < fuel)%nat →
  reads read_expr fuel s q rest.
Proof.
  intros Hne Hlen Hl Hn Hq Hs Hr Hok Hroom Hf. destruct fuel as [|fuel]; [lia|].
  unfold reads. rewrite Hn. cbn [read_expr]. destruct l as [|c l]; [done|].
  rewrite (bind_ok _ _ _ _ _ (peek_at s _ _ Hs)).
  pose proof Hl as [[Hc0 Hcd] _]%Forall_cons_1. unfold is_delim in Hcd. rewrite !orb_false_iff in Hcd.
  destruct Hcd as [[_ ->] ->]. destruct (Z.eqb_spec c 0); [done|].
  by rewrite (read_atom_spec _ (c :: l) rest q).
Qed.

(** An opening parenthesis hands over to [read_list]. *)
Lemma read_expr_open l q s rest fuel :
  skip_space (lisp_src s) = code "(" :: l → reads read_list fuel (with_src s l) q rest →
  reads read_expr (S fuel) s q rest.
Proof.
  intros Hs Hl. unfold reads in *. cbn [read_expr]. rewrite (bind_ok _ _ _ _ _ (peek_at s _ _ Hs)).
  change (code "(" =? 0) with false. change (code "(" =? code "(") with true. cbv iota.
  by rewrite (bind_ok _ _ _ _ _ (advance_at s _ _)).
Qed.

Lemma read_show_gen p : expr p →
  (∀ s rest fuel, skip_space (lisp_src s) = show false p ++ rest → stops rest → pool_ok s →
     56 * Z.of_nat (nodes p) ≤ pool_left s → (2 * nodes p ≤ fuel)%nat → reads read_expr fuel s p rest) ∧
  (is_tail p = true → ∀ s rest fuel, lisp_src s = show true p ++ rest → pool_ok s →
     56 * Z.of_nat (nodes p) ≤ pool_left s → (2 * nodes p ≤ S fuel)%nat → reads read_list fuel s p rest).
Proof.
  induction 1 as [n Hn|sy Hsy| |a b Ha [IHa _] Hb [_ IHb] Ht].
  - split; [|done]. intros s rest fuel Hs Hr Hok Hroom Hf.
    destruct (show_int_spec n Hn) as (? & ? & ? & Hnum & Hval). cbn in Hf.
    apply (read_expr_atom (show_int n)); try done; [by rewrite Hnum, Hval|lia].
  - split; [|done]. intros s rest fuel Hs Hr Hok Hroom Hf. destruct Hsy as (? & ? & ? & Hnum). cbn in Hf.
    apply (read_expr_atom sy); try done; [by rewrite Hnum|lia].
  - split.
    + intros s rest fuel Hs Hr Hok Hroom Hf. cbn in Hf, Hroom. destruct fuel as [|fuel]; [lia|].
      apply (read_expr_open (code ")" :: rest)); [exact Hs|].
      apply (read_list_nil (with_src s (code ")" :: rest))); [done|done|done|lia].
    + intros _ s rest fuel Hs Hok Hroom Hf. cbn in Hf, Hroom.
      apply read_list_nil; [by rewrite Hs|done|lia|lia].
  - specialize (IHb Ht).
    assert (stops (show true b ++ [])) as Hstop by (by destruct Hb).
    assert (∀ rest, stops (show true b ++ rest)) as Hstop' by (intros rest; by destruct Hb).
    assert (∀ s rest fuel, skip_space (lisp_src s) = show false a ++ show true b ++ rest → pool_ok s →
      56 * Z.of_nat (nodes (list_node a b)) ≤ pool_left s → (2 * nodes (list_node a b) ≤ S fuel)%nat →
      reads read_list fuel s (list_node a b) rest) as Hlist.
    { intros s rest fuel Hs Hok Hroom Hf. cbn in Hf. destruct fuel as [|fuel]; [lia|].
      destruct (expr_starts a Ha) as (c & l & Hshow & _ & Hsp & _).
      apply read_list_cons; [done| | |done|done|done].
      - intros s' Hok' Hs' Hroom'. apply IHa; [|done|done|done|lia].
        rewrite Hs', Hshow. by apply skip_nonspace.
      - intros s' Hok' Hs' Hroom'. apply IHb; [done|done|done|lia]. }
    split.
    + intros s rest fuel Hs Hr Hok Hroom Hf. destruct fuel as [|fuel]; [cbn in Hf; lia|].
      apply (read_expr_open (show false a ++ show true b ++ rest)).
      { rewrite Hs. cbn [show list_node app]. by rewrite <- app_assoc. }
      destruct (expr_starts a Ha) as (c & l & Hshow & _ & Hsp & _).
      apply Hlist; [|done|done|lia]. cbn. rewrite Hshow. by apply skip_nonspace.
    + intros _ s rest fuel Hs Hok Hroom Hf. apply Hlist; [|done|done|lia].
      rewrite Hs. cbn [show list_node app]. rewrite <- app_assoc.
      destruct (expr_starts a Ha) as (c & l & Hshow & _ & Hsp & _). rewrite Hshow.
      by apply (skip_nonspace c (l ++ show true b ++ rest)).
Qed.

Lemma nodes_show (b : bool) p : expr p → (b = true → is_tail p = true) → (nodes p ≤ length (show b p))%nat.
Proof.
  intros Hp. revert b. induction Hp as [n Hn|sy Hsy| |x y Hx IHx Hy IHy Ht]; intros b Hb.
  - destruct (show_int_spec n Hn) as (Hne & _). cbn. destruct (show_int n); [done|cbn; lia].
  - destruct Hsy as (Hne & _). cbn. destruct sy; [done|cbn; lia].
  - destruct b; cbn; lia.
  - specialize (IHx false ltac:(done)). specialize (IHy true ltac:(done)). cbn. rewrite length_app. lia.
Qed.

Lemma length_skip l : (length (skip_space l) ≤ length l)%nat.
Proof. induction l as [|c l IH]; [done|]. cbn. destruct (is_space c); cbn; lia. Qed.

Lemma read_show_spec p rest s :
  expr p → stops rest → skip_space (lisp_src s) = show false p ++ rest → pool_ok s →
  56 * Z.of_nat (nodes p) ≤ pool_left s →
  reads read_expr (2 * length (lisp_src s) + 2) s p rest.
Proof.
  intros Hp Hr Hs Hok Hroom. apply (proj1 (read_show_gen p Hp)); try done.
  pose proof (length_skip (lisp_src s)) as Hl. rewrite Hs, length_app in Hl.
  pose proof (nodes_show false p Hp ltac:(done)). lia.
Qed.

(** C27. Reading the text of an expression gives the expression back and leaves
    the text after it; it takes one node of the pool for each node. Numbers are
    those of [int], symbols have at most 31 characters. *)
Theorem read_show p rest s :
  expr p → stops rest → skip_space (lisp_src s) = show false p ++ rest → pool_ok s →
  56 * Z.of_nat (nodes p) ≤ pool_left s →
  read_expr (2 * length (lisp_src s) + 2) s =
    Ok p (with_src (used s (56 * Z.of_nat (nodes p))) rest).
Proof. apply read_show_spec. Qed.

(** ** Every source *)

(** The result of [m] from [s] is not an undefined access and satisfies [P];
    [total] also excludes running out of fuel and the divide trap. *)
Definition post {A} (total : bool) (m : M A) (s : st) (P : A → st → Prop) : Prop :=
  match m s with
  | Ok a s' => P a s'
  | Exit _ => True
  | Undefined => False
  | Trap | NoFuel => total = false
  end.

Lemma post_bind {A B} t (m : M A) (f : A → M B) s P Q :
  post t m s P → (∀ a s', P a s' → post t (f a) s' Q) → post t (m ≫= f) s Q.
Proof.
  unfold post, mbind, M_bind. intros Hm Hf. destruct (m s); try done. by apply Hf.
Qed.

Lemma post_mono {A} t (m : M A) s (P Q : A → st → Prop) :
  post t m s P → (∀ a s', P a s' → Q a s') → post t m s Q.
Proof. unfold post. intros Hm HPQ. destruct (m s); try done. by apply HPQ. Qed.

(** The symbols of a tree fit their fields, and its lists have first elements. *)
Fixpoint fits (p : ptr) : Prop :=
  match p with
  | NULL => True
  | LispNode t _ s a b => (length s ≤ 31)%nat ∧ (t = LVAL_LIST → a ≠ NULL) ∧ fits a ∧ fits b
  end.

(** [s'] is [s] with more of the pool used and the source [l]. *)
Definition grown (s s' : st) : Prop :=
  pool_ok s' ∧ global_env s' = global_env s ∧ out s' = out s.

#[export] Instance grown_trans : Transitive grown.
Proof. intros s1 s2 s3 (? & ? & ?) (? & ? & ?). split; [done|]. split; congruence. Qed.

Lemma post_alloc t s : pool_ok s →
  post t alloc_node s (λ _ s', grown s s' ∧ lisp_src s' = lisp_src s).
Proof.
  intros Hok. unfold post. destruct (Z_le_gt_dec 56 (pool_left s)).
  - rewrite alloc_room by done. unfold grown, pool_ok, pool_left in *. cbn. split; [|done]. split; [lia|done].
  - destruct (alloc_full s) as [s' ->]; [done|lia|done].
Qed.

Lemma post_node t s (P : ptr → st → Prop) (m : M ptr) : pool_ok s →
  (∀ s', grown s s' → lisp_src s' = lisp_src s → post t m s' P) → post t (alloc_node ;; m) s P.
Proof. intros Hok Hm. eapply post_bind; [by apply post_alloc|]. intros _ s' [? ?]. by apply Hm. Qed.

Lemma post_string t s l (P : ptr → st → Prop) tag : (length l ≤ 31)%nat → pool_ok s →
  (∀ s', grown s s' → lisp_src s' = lisp_src s → P (LispNode tag 0 l NULL NULL) s') →
  post t (alloc_node ;; sym ← kstrcpy l; mret (LispNode tag 0 sym NULL NULL)) s P.
Proof.
  intros Hl Hok HP. apply post_node; [done|]. intros s' Hg Hsrc. unfold post, mbind, M_bind, kstrcpy.
  destruct (Z.ltb_spec (Z.of_nat (length l)) 32); [by apply HP|lia].
Qed.

(** What reading promises: [n] is the length of the source before. *)
Definition read_ok (s : st) (n : nat) (p : ptr) (s' : st) : Prop :=
  grown s s' ∧ fits p ∧ (length (lisp_src s') ≤ n)%nat ∧
  (p = NULL ∨ is_err p = true ∨ (length (lisp_src s') < n)%nat).

Lemma read_ok_mono s n s0 n0 p s' :
  read_ok s0 n0 p s' → grown s s0 → (n0 ≤ n)%nat → read_ok s n p s'.
Proof.
  intros (Hg & Hp & Hle & Hlt) Hg0 Hn. split; [by etrans|]. split; [done|]. split; [lia|].
  destruct Hlt as [?|[?|?]]; [by left|right; by left|right; right; lia].
Qed.

Lemma read_ok_less s n p s' :
  grown s s' → fits p → (length (lisp_src s') < n)%nat → read_ok s n p s'.
Proof. intros. split; [done|]. split; [done|]. split; [lia|]. right. right. lia. Qed.

Lemma read_ok_null s l : (length (lisp_src s) ≤ l)%nat → pool_ok s → read_ok s l NULL s.
Proof. intros. split; [done|]. split; [done|]. split; [done|]. by left. Qed.

Lemma read_ok_with_src s l n p s' : read_ok (with_src s l) n p s' → read_ok s n p s'.
Proof. done. Qed.

Lemma atom_chars_length l room :
  (length (atom_chars l room).1 ≤ room)%nat ∧ (length (atom_chars l room).2 ≤ length l)%nat ∧
  ((atom_chars l (S room)).1 ≠ [] → (length (atom_chars l (S room)).2 < length l)%nat).
Proof.
  assert (∀ l room, (length (atom_chars l room).2 ≤ length l)%nat) as Hrest.
  { intros l'. induction l' as [|c l' IH]; intros [|r]; cbn; [done..| |]; destruct (is_delim c); cbn; [done| |done|].
    - specialize (IH 0%nat). lia.
    - specialize (IH r). destruct (atom_chars l' r). cbn in *. lia. }
  split; [|split; [apply Hrest|]].
  - revert room. induction l as [|c l IH]; intros [|r]; cbn; [lia..| |]; destruct (is_delim c); cbn; [lia| |lia|].
    + apply IH.
    + specialize (IH r). destruct (atom_chars l r). cbn in *. lia.
  - destruct l as [|c l]; [done|]. cbn. destruct (is_delim c); [done|].
    specialize (Hrest l room). destruct (atom_chars l room). cbn in *. lia.
Qed.

Lemma read_atom_total t s : pool_ok s → post t read_atom s (read_ok s (length (lisp_src s))).
Proof.
  intros Hok. unfold read_atom. eapply (post_bind _ _ _ _ (λ a s', a = s ∧ s' = s)); [done|].
  intros a s' [-> ->]. destruct (atom_chars_length (lisp_src s) 30) as (_ & _ & Hlt).
  destruct (atom_chars_length (lisp_src s) 31) as (Hbuf & Hle & _).
  destruct (atom_chars (lisp_src s) 31) as [buf rest]. cbn [fst snd] in *.
  eapply (post_bind _ _ _ _ (λ _ s', s' = with_src s rest)); [done|]. intros _ s' ->.
  destruct buf as [|c buf]; [by apply (read_ok_null (with_src s rest))|]. specialize (Hlt ltac:(done)).
  destruct (is_num (c :: buf)).
  - apply post_node; [done|]. intros s' Hg Hsrc.
    apply read_ok_less; [done|by (cbn; split; [lia|])|by rewrite Hsrc].
  - apply post_string; [lia|done|]. intros s' Hg Hsrc.
    apply read_ok_less; [done|by (cbn in *; split; [lia|])|by rewrite Hsrc].
Qed.

Lemma read_err_total t s l n : pool_ok s → (length l ≤ 31)%nat → (length (lisp_src s) ≤ n)%nat →
  post t (new_lval_err l) s (λ p s', read_ok s n p s' ∧ p ≠ NULL).
Proof.
  intros Hok Hl Hn. apply post_string; [done|done|]. intros s' Hg Hsrc. split; [|done].
  split; [done|]. split; [by (cbn; split; [lia|])|]. rewrite Hsrc. split; [done|]. right. by left.
Qed.

Lemma peek_post t s : pool_ok s →
  post t peek s (λ c s', s' = with_src s (skip_space (lisp_src s)) ∧
    c = default 0 (head (skip_space (lisp_src s)))).
Proof. done. Qed.

(** The two induction hypotheses. *)
Definition expr_total (fuel : nat) : Prop := ∀ s, pool_ok s → (2 * length (lisp_src s) < fuel)%nat →
  post true (read_expr fuel) s (read_ok s (length (lisp_src s))).
Definition list_total (fuel : nat) : Prop := ∀ s, pool_ok s → (2 * length (lisp_src s) + 1 < fuel)%nat →
  post true (read_list fuel) s (λ p s', read_ok s (length (lisp_src s)) p s' ∧ p ≠ NULL).

Lemma read_expr_total fuel : list_total fuel → expr_total (S fuel).
Proof.
  intros IHl s Hok Hf. cbn [read_expr]. eapply post_bind; [by apply peek_post|]. intros c s' [-> ->].
  pose proof (length_skip (lisp_src s)) as Hskip.
  destruct (skip_space (lisp_src s)) as [|c l]; cbn [default head hd_error id] in *; unfold id.
  { by apply (read_ok_null (with_src s [])). }
  destruct (c =? 0); [by apply (read_ok_null (with_src s (c :: l)))|].
  destruct (c =? code "("); [|destruct (c =? code ")")].
  - eapply (post_bind _ _ _ _ (λ _ s', s' = with_src s l)); [done|]. intros _ s' ->.
    eapply post_mono; [apply IHl; [done|cbn in *; lia]|]. intros p s' [Hr _].
    by eapply read_ok_mono; [exact Hr|done|cbn in *; lia].
  - eapply post_mono; [by apply read_err_total; [done|cbn; lia|exact Hskip]|]. by intros p s' [Hr _].
  - eapply post_mono; [by apply read_atom_total|]. intros p s' Hr. by eapply read_ok_mono.
Qed.

(** The rest of a list after its first element [p]. *)
Lemma read_rest_total fuel s p :
  list_total fuel → pool_ok s → fits p → p ≠ NULL → (2 * length (lisp_src s) + 1 < fuel)%nat →
  post true (rest ← read_list fuel; new_lval_list p rest) s
    (λ q s', grown s s' ∧ fits q ∧ (length (lisp_src s') ≤ length (lisp_src s))%nat ∧ q ≠ NULL).
Proof.
  intros IHl Hok Hp Hn Hf. eapply post_bind; [by apply IHl|]. intros r s' ((Hg & Hr & Hle & _) & _).
  apply post_node; [apply Hg|]. intros s2 Hg2 Hsrc2. split; [by etrans|].
  split; [by (cbn; split; [lia|])|]. by rewrite Hsrc2.
Qed.

Lemma read_list_total fuel : expr_total fuel → list_total fuel → list_total (S fuel).
Proof.
  intros IHe IHl s Hok Hf. cbn [read_list]. eapply post_bind; [by apply peek_post|]. intros c s' [-> ->].
  pose proof (length_skip (lisp_src s)) as Hskip. set (l := skip_space (lisp_src s)) in *.
  destruct (default 0 (head l) =? code ")") eqn:Hc.
  { destruct l as [|c l'] eqn:Hl; [done|].
    eapply (post_bind _ _ _ _ (λ _ s', s' = with_src s l')); [done|]. intros _ s' ->.
    apply post_node; [done|]. intros s' Hg Hsrc. split; [|done].
    apply read_ok_less; [done|by (cbn; split; [lia|])|]. rewrite Hsrc. cbn in *. lia. }
  eapply post_bind; [apply IHe; [done|cbn; lia]|].
  intros p s' (Hg & Hp & Hle & Hlt). change (grown s s') in Hg. cbn [with_src lisp_src] in *.
  assert (is_err p = false → p ≠ NULL → post true (rest ← read_list fuel; new_lval_list p rest) s'
    (λ p s', read_ok s (length (lisp_src s)) p s' ∧ p ≠ NULL)) as Hcont.
  { intros He Hn. assert (length (lisp_src s') < length l)%nat as Hless
      by (destruct Hlt as [?|[He'|?]]; [done|by rewrite He in He'|done]).
    eapply post_mono; [apply read_rest_total; [done|apply Hg|done|done|lia]|].
    intros q s'' (Hg' & Hq & Hle' & Hqn). split; [|done]. apply read_ok_less; [by etrans|done|lia]. }
  destruct p as [|tag n sy a b].
  - eapply post_mono; [apply read_err_total; [apply Hg|cbn; lia|done]|].
    intros p s'' (Hr & Hn). split; [|done]. by eapply read_ok_mono; [exact Hr|exact Hg|lia].
  - destruct tag; try (by apply Hcont). split; [|done]. split; [done|]. split; [done|]. split; [lia|].
    right. by left.
Qed.

Lemma read_total_gen fuel : expr_total fuel ∧ list_total fuel.
Proof.
  induction fuel as [|fuel [IHe IHl]]; [split; intros s ? ?; lia|].
  split; [by apply read_expr_total|by apply read_list_total].
Qed.

(** C36. The reader ends on every source, with the fuel the program gives it,
    and stays inside its buffers: it makes the program exit when the pool is
    used up, or returns NULL, an error, or an expression after reading at least
    one character; every symbol fits its field and every list has a first
    element. *)
Theorem read_total s :
  pool_ok s →
  match read_expr (2 * length (lisp_src s) + 2) s with
  | Ok p s' => pool_ok s' ∧ global_env s' = global_env s ∧ out s' = out s ∧ fits p ∧
      (p = NULL ∨ is_err p = true ∨ (length (lisp_src s') < length (lisp_src s))%nat)
  | Exit _ => True
  | _ => False
  end.
Proof.
  intros Hok. pose proof (proj1 (read_total_gen (2 * length (lisp_src s) + 2)) s Hok ltac:(lia)) as Hp.
  unfold post in Hp. destruct (read_expr _ s); [|done..].
  destruct Hp as ((? & ? & ?) & ? & _ & ?). done.
Qed.
