(* ===== verification/LispEval.v ===== *)
(** The evaluator of Lisp.v: what arithmetic, functions and variables mean,
    that a run of well-formed code makes no undefined access, and that running
    a script is evaluating its forms in order. *)

From S2P Require Export LispParse.

(** ** The meaning of arithmetic

    A value is a number or, after an error, nothing ([None]); an operator takes
    an argument that is an error for 0. *)

Definition number (p : ptr) : option (option Z) :=
  match p with
  | LispNode LVAL_NUM n _ _ _ => Some (Some n)
  | LispNode LVAL_ERR 0 _ _ _ => Some None
  | _ => None
  end.

(** What a symbol stands for. *)
Inductive binding := Unbound | Other | Val (v : option Z).

Definition lookup_var (g ρ : list EnvVar) (x : list Z) : option ptr :=
  match lookup_sym ρ x with Some v => Some v | None => lookup_sym g x end.

Definition binding_of (p : option ptr) : binding :=
  match p with
  | None => Unbound
  | Some p => match number p with Some v => Val v | None => Other end
  end.

Definition env_sem (g ρ : list EnvVar) (x : list Z) : binding := binding_of (lookup_var g ρ x).

Definition is_builtin (s : list Z) : bool :=
  same s (str "+") || same s (str "-") || same s (str "*") || same s (str "/") || same s (str "print").

Definition total (l : list Z) : Z := foldr Z.add 0 l.
Definition product (l : list Z) : Z := foldr Z.mul 1 l.

(** The outer [None]: no meaning is given. *)
Definition apply_op (s : list Z) (vs : list (option Z)) : option (option Z) :=
  let nums := default 0 <$> vs in
  if same s (str "+") then Some (Some (signed 32 (total nums)))
  else if same s (str "-") then
    match nums with
    | [] => None
    | [n] => Some (Some (signed 32 (- n)))
    | n :: l => Some (Some (signed 32 (n - total l)))
    end
  else if same s (str "*") then Some (Some (signed 32 (product nums)))
  else if same s (str "/") then
    match nums with
    | n :: m :: _ =>
        if m =? 0 then Some None
        else if (n =? - 2 ^ 31) && (m =? -1) then None
        else Some (Some (Z.quot n m))
    | _ => Some None
    end
  else None.

Definition values_of (f : ptr → option (option Z)) : ptr → option (list (option Z)) :=
  fix go r :=
    match r with
    | LispNode LVAL_LIST _ _ a b =>
        match f a, go b with Some v, Some vs => Some (v :: vs) | _, _ => None end
    | _ => Some []
    end.

Fixpoint value (look : list Z → binding) (p : ptr) : option (option Z) :=
  match p with
  | LispNode LVAL_NUM n _ _ _ => Some (Some n)
  | LispNode LVAL_SYM _ s _ _ =>
      match look s with
      | Val v => Some v
      | Unbound => if is_builtin s then None else Some None
      | Other => None
      end
  | LispNode LVAL_LIST _ _ (LispNode LVAL_SYM _ s _ _) rest =>
      match look s, values_of (value look) rest with
      | Unbound, Some vs => if (length vs <=? 16)%nat && (length s <=? 31)%nat then apply_op s vs else None
      | _, _ => None
      end
  | _ => None
  end.

(** ** Single steps *)

Lemma env_get_bound s ρ x r :
  lookup_var (global_env s) ρ x = Some r → env_get x ρ s = Ok r s.
Proof.
  unfold lookup_var, env_get. destruct (lookup_sym ρ x); [by intros [= ->]|].
  intros Hg. unfold mbind, M_bind, get. by rewrite Hg.
Qed.

Lemma new_node_string s l tag :
  pool_ok s → 56 ≤ pool_left s → (length l ≤ 31)%nat →
  (alloc_node ;; sym ← kstrcpy l; mret (LispNode tag 0 sym NULL NULL)) s =
    Ok (LispNode tag 0 l NULL NULL) (used s 56).
Proof.
  intros Hok Hroom Hl. rewrite (bind_ok _ _ _ _ _ (alloc_room s Hok Hroom)). unfold kstrcpy.
  destruct (Z.ltb_spec (Z.of_nat (length l)) 32); [done|lia].
Qed.

Lemma env_get_unbound s ρ x :
  lookup_var (global_env s) ρ x = None → pool_ok s → 56 ≤ pool_left s →
  (is_builtin x = true → (length x ≤ 31)%nat) →
  env_get x ρ s = Ok (if is_builtin x then sym_node x else err_node (str "Variavel/Funcao nao definida"))
    (used s 56).
Proof.
  unfold lookup_var, env_get. destruct (lookup_sym ρ x); [done|]. intros Hg Hok Hroom Hx.
  unfold mbind at 1, M_bind at 1, get. rewrite Hg. fold (is_builtin x).
  destruct (is_builtin x); apply new_node_string; try done; [by apply Hx|by apply Nat.leb_le].
Qed.

Lemma number_get r v s : number r = Some v → get_num r s = Ok (default 0 v) s.
Proof.
  destruct r as [|[] n sy a b]; cbn; try done; [|by intros [= <-]].
  destruct n; [|done..]. by intros [= <-].
Qed.

Definition numbers (rs : list ptr) (vs : list (option Z)) : Prop := Forall2 (λ r v, number r = Some v) rs vs.

(** The loops over the arguments wrap at every turn; wrapping once at the end is
    the same. *)
Lemma fold_args_spec rs vs s (op : Z → Z → Z) (tot : list Z → Z) res :
  numbers rs vs → (∀ a, op a (tot []) = a) →
  (∀ a n l, op (op a n) (tot l) = op a (tot (n :: l))) →
  (∀ n, Proper (cong 32 ==> cong 32) (λ a, op a n)) →
  ∃ x, fold_args op res rs s = Ok x s ∧ cong 32 x (op res (tot (default 0 <$> vs))) ∧
    (rs ≠ [] → signed 32 x = x).
Proof.
  intros Hrs Hnil Hcons Hcong. revert res. induction Hrs as [|r v rs vs Hr Hrs IH]; intros res.
  { exists res. split; [done|]. split; [|done]. cbn. by rewrite Hnil. }
  cbn [fold_args]. rewrite (bind_ok _ _ _ _ _ (number_get r _ s Hr)).
  destruct (IH (signed 32 (op res (default 0 v)))) as (x & Hx & Hc & Hw). exists x. split; [done|]. split.
  - etrans; [exact Hc|]. cbn [fmap list_fmap]. rewrite <- Hcons. apply Hcong. by apply signed_cong.
  - intros _. destruct rs as [|r' rs]; [|by apply Hw].
    cbn in Hx. injection Hx as <-. apply cong_signed. by apply signed_cong.
Qed.

Lemma fold_args_eq rs vs s op tot res :
  numbers rs vs → rs ≠ [] → (∀ a, op a (tot []) = a) →
  (∀ a n l, op (op a n) (tot l) = op a (tot (n :: l))) →
  (∀ n, Proper (cong 32 ==> cong 32) (λ a, op a n)) →
  fold_args op res rs s = Ok (signed 32 (op res (tot (default 0 <$> vs)))) s.
Proof.
  intros Hrs Hne Hnil Hcons Hcong.
  destruct (fold_args_spec rs vs s op tot res Hrs Hnil Hcons Hcong) as (x & -> & Hc & Hw).
  rewrite <- (Hw Hne). f_equal. by apply cong_signed.
Qed.

Lemma add_args rs vs s n : numbers rs vs → rs ≠ [] →
  fold_args Z.add n rs s = Ok (signed 32 (n + total (default 0 <$> vs))) s.
Proof.
  intros. apply fold_args_eq; [done|done|intros; apply Z.add_0_r| |].
  - intros a m l. cbn. symmetry. apply Z.add_assoc.
  - intros m x y Hxy. by rewrite Hxy.
Qed.

Lemma sub_args rs vs s n : numbers rs vs → rs ≠ [] →
  fold_args Z.sub n rs s = Ok (signed 32 (n - total (default 0 <$> vs))) s.
Proof.
  intros. apply fold_args_eq; [done|done|intros; apply Z.sub_0_r| |].
  - intros a m l. change (total (m :: l)) with (m + total l). lia.
  - intros m x y Hxy. by rewrite Hxy.
Qed.

Lemma mul_args rs vs s n : numbers rs vs → rs ≠ [] →
  fold_args Z.mul n rs s = Ok (signed 32 (n * product (default 0 <$> vs))) s.
Proof.
  intros. apply fold_args_eq; [done|done|intros; apply Z.mul_1_r| |].
  - intros a m l. cbn. symmetry. apply Z.mul_assoc.
  - intros m x y Hxy. by rewrite Hxy.
Qed.

Lemma new_node_num s n : pool_ok s → 56 ≤ pool_left s → new_lval_num n s = Ok (num_node n) (used s 56).
Proof. intros. unfold new_lval_num. by rewrite (bind_ok _ _ _ _ _ (alloc_room s ltac:(done) ltac:(done))). Qed.

(** The result node of an operator applied to [rs]. *)
Lemma builtin_spec sy rs vs s v :
  numbers rs vs → apply_op sy vs = Some v → pool_ok s → 56 ≤ pool_left s →
  ∃ r, builtin sy rs s = Ok r (used s 56) ∧ number r = Some v.
Proof.
  intros Hrs Hop Hok Hroom. unfold apply_op in Hop. unfold builtin.
  destruct (same sy (str "+")).
  { injection Hop as <-. destruct rs as [|r rs].
    - inversion Hrs; subst. cbn [fold_args]. exists (num_node 0). split; [by apply (new_node_num s 0)|done].
    - eexists. rewrite (bind_ok _ _ _ _ _ (add_args (r :: rs) vs s 0 Hrs ltac:(done))).
      rewrite new_node_num by done. split; [reflexivity|]. cbn. by rewrite Z.add_0_l. }
  destruct (same sy (str "-")).
  { destruct Hrs as [|r w rs vs Hr Hrs]; [done|]. cbn [fmap list_fmap] in Hop.
    destruct Hrs as [|r' w' rs vs Hr' Hrs].
    - cbn in Hop. injection Hop as <-. rewrite (bind_ok _ _ _ _ _ (number_get r _ s Hr)).
      rewrite new_node_num by done. by eexists.
    - injection Hop as <-. rewrite (bind_ok _ _ _ _ _ (number_get r _ s Hr)).
      rewrite (bind_ok _ _ _ _ _ (sub_args (r' :: rs) (w' :: vs) s _ ltac:(by constructor) ltac:(done))).
      rewrite new_node_num by done. by eexists. }
  destruct (same sy (str "*")).
  { injection Hop as <-. destruct rs as [|r rs].
    - inversion Hrs; subst. cbn [fold_args]. exists (num_node 1). split; [by apply (new_node_num s 1)|done].
    - eexists. rewrite (bind_ok _ _ _ _ _ (mul_args (r :: rs) vs s 1 Hrs ltac:(done))).
      rewrite new_node_num by done. split; [reflexivity|]. cbn. by rewrite Z.mul_1_l. }
  destruct (same sy (str "/")); [|done].
  assert (∃ r, new_lval_err (str "Divisao por zero") s = Ok r (used s 56) ∧ number r = Some None) as Herr.
  { exists (err_node (str "Divisao por zero")). split; [|done].
    apply (new_node_string s (str "Divisao por zero")); [done|done|by apply Nat.leb_le]. }
  destruct Hrs as [|r w rs vs Hr [|r' w' rs' vs' Hr' _]]; cbn [fmap list_fmap] in Hop;
    [injection Hop as <-; exact Herr..|].
  rewrite (bind_ok _ _ _ _ _ (number_get r' _ s Hr')). destruct (_ =? 0); [injection Hop as <-; exact Herr|].
  rewrite (bind_ok _ _ _ _ _ (number_get r _ s Hr)).
  destruct (andb _ _) eqn:Htrap; [done|]. injection Hop as <-. unfold divide, mbind, M_bind. rewrite Htrap.
  rewrite new_node_num by done. by eexists.
Qed.

(** ** Arithmetic *)

(** [m] gives a node with the number [v] and takes at most [n] nodes. *)
Definition gives (m : M ptr) (s : st) (n : nat) (v : option Z) : Prop :=
  ∃ r k, m s = Ok r (used s (56 * Z.of_nat k)) ∧ (k ≤ n)%nat ∧ number r = Some v.

Definition room (s : st) (n : nat) : Prop := pool_ok s ∧ 56 * Z.of_nat n ≤ pool_left s.

Lemma room_used s n k : room s n → (k ≤ n)%nat → room (used s (56 * Z.of_nat k)) (n - k).
Proof. unfold room, pool_ok, pool_left. cbn [used memory_pool_index]. lia. Qed.

Lemma room_less s n m : room s n → (m ≤ n)%nat → room s m.
Proof. intros [? ?] ?. split; [done|lia]. Qed.

Lemma room_alloc s n : room s (S n) → pool_ok s ∧ 56 ≤ pool_left s.
Proof. intros [? ?]. split; [done|lia]. Qed.

(** Evaluating arguments after those in [acc]. *)
Definition gives_args (ev : ptr → M ptr) (s : st) (p : ptr) (acc : list ptr) (vs : list (option Z)) : Prop :=
  ∃ rs k, eval_args ev p acc s = Ok (acc ++ rs) (used s (56 * Z.of_nat k)) ∧ (k ≤ nodes p)%nat ∧ numbers rs vs.

Lemma gives_args_nil ev s p acc :
  (∀ n sy a b, p ≠ LispNode LVAL_LIST n sy a b) → gives_args ev s p acc [].
Proof.
  intros Hp. exists [], 0%nat. rewrite app_nil_r, used_0. split; [|split; [lia|constructor]].
  destruct p as [|[] n sy a b]; try done. by destruct (Hp n sy a b).
Qed.

Lemma gives_args_cons ev s n sy a b acc v vs :
  gives (ev a) s (nodes a) v → (length acc < 16)%nat →
  (∀ r k, (k ≤ nodes a)%nat → gives_args ev (used s (56 * Z.of_nat k)) b (acc ++ [r]) vs) →
  gives_args ev s (LispNode LVAL_LIST n sy a b) acc (v :: vs).
Proof.
  intros (r & k & Hev & Hk & Hnum) Hacc Hb. destruct (Hb r k Hk) as (rs & k' & Hrs & Hk' & Hnums).
  exists (r :: rs), (k + k')%nat. cbn [eval_args]. rewrite (bind_ok _ _ _ _ _ Hev).
  destruct (Z.ltb_spec (Z.of_nat (length acc)) 16); [|lia]. rewrite Hrs, used_used, <- app_assoc.
  split; [cbn; do 2 f_equal; lia|]. split; [cbn; lia|by constructor].
Qed.

Lemma values_of_length f p vs : values_of f p = Some vs → (length vs ≤ nodes p)%nat.
Proof.
  revert vs. induction p as [|t n sy a _ b IHb]; intros vs; [by intros [= <-]|].
  destruct t; cbn; try (intros [= <-]; cbn; lia).
  destruct (f a), (values_of f b) as [vs'|]; try done. intros [= <-]. specialize (IHb vs' eq_refl). cbn. lia.
Qed.

Lemma same_head x c l : c ≠ 0 → same x (c :: l) = true → head x = Some c.
Proof.
  unfold same, kstrcmp. intros Hc. destruct x as [|d x]; cbn [bytes_cmp]; [rewrite Z.eqb_eq; lia|].
  destruct (Z.eqb_spec d c) as [-> |]; [done|]. rewrite Z.eqb_eq. lia.
Qed.

(** [apply_call f]: what is done with the value of the head of a list. *)
Definition apply_call (fuel : nat) (rest : ptr) (local_env : list EnvVar) (f : ptr) : M ptr :=
  match f with
  | NULL => undefined
  | LispNode LVAL_ERR _ _ _ _ => mret f
  | LispNode ft _ fs params body =>
      args_eval ← eval_args (λ a, eval fuel a local_env) rest [];
      match ft with
      | LVAL_SYM => builtin fs args_eval
      | LVAL_FUNC => new_env ← bind_params params args_eval; eval fuel body new_env
      | _ => new_lval_err (str "Nao e uma funcao valida")
      end
  end.

Definition special (p : ptr) : bool :=
  match p with
  | LispNode LVAL_SYM _ s _ _ => same s (str "defun") || same s (str "setq")
  | _ => false
  end.

Lemma eval_list fuel n sy a rest ρ s :
  a ≠ NULL → special a = false →
  eval (S fuel) (LispNode LVAL_LIST n sy a rest) ρ s = (eval fuel a ρ ≫= apply_call fuel rest ρ) s.
Proof.
  intros Ha Hsp. destruct a as [|t n' x c d]; [done|].
  assert (bool_decide (t = LVAL_SYM) && same x (str "defun") = false ∧
    bool_decide (t = LVAL_SYM) && same x (str "setq") = false) as [Hd Hq].
  { destruct t; try done. cbn in Hsp. by apply orb_false_iff in Hsp. }
  remember (LispNode t n' x c d) as p eqn:Hp.
  cbn [eval]. rewrite (bind_ok (get_type p) _ s t s) by (by subst p).
  rewrite (bind_ok (get_sym p) _ s x s) by (by subst p). by rewrite Hd, Hq.
Qed.

Lemma builtin_plain x : is_builtin x = true → same x (str "defun") || same x (str "setq") = false.
Proof.
  intros Hb. apply not_true_iff_false. unfold is_builtin in Hb. rewrite !orb_true_iff in Hb.
  intros [Hs|Hs]%orb_true_iff; apply same_head in Hs; try done; cbn in Hs;
    repeat destruct Hb as [Hb|Hb]; apply same_head in Hb; try done; cbn in Hb; by rewrite Hs in Hb.
Qed.

Lemma apply_op_builtin x vs v : apply_op x vs = Some v → is_builtin x = true.
Proof.
  unfold apply_op, is_builtin. repeat (destruct (same x _); [done|]). done.
Qed.

Lemma env_sem_unbound g ρ x : env_sem g ρ x = Unbound → lookup_var g ρ x = None.
Proof. unfold env_sem. destruct (lookup_var _ _ _) as [r|]; [|done]. cbn. by destruct (number r). Qed.

Lemma env_sem_val g ρ x v : env_sem g ρ x = Val v → ∃ r, lookup_var g ρ x = Some r ∧ number r = Some v.
Proof.
  unfold env_sem. destruct (lookup_var _ _ _) as [r|]; [|done]. cbn.
  destruct (number r) eqn:Hn; [|done]. intros [= <-]. by exists r.
Qed.

(** A call of an operator, given what its arguments give. *)
Lemma eval_operator fuel n sy n' x c d rest ρ s vs v :
  env_sem (global_env s) ρ x = Unbound → apply_op x vs = Some v → (length x ≤ 31)%nat →
  (∀ s', global_env s' = global_env s → room s' (nodes rest) →
     gives_args (λ a, eval (S fuel) a ρ) s' rest [] vs) →
  room s (S (S (nodes c + nodes d) + nodes rest)) →
  gives (eval (S (S fuel)) (LispNode LVAL_LIST n sy (LispNode LVAL_SYM n' x c d) rest) ρ) s
    (S (S (nodes c + nodes d) + nodes rest)) v.
Proof.
  intros Hsem%env_sem_unbound Hop Hx Hargs Hroom. pose proof (apply_op_builtin _ _ _ Hop) as Hb.
  destruct (room_alloc _ _ Hroom) as [Hok H56].
  assert (eval (S fuel) (LispNode LVAL_SYM n' x c d) ρ s = Ok (sym_node x) (used s 56)) as Hhead.
  { cbn [eval]. rewrite env_get_unbound by done. by rewrite Hb. }
  unfold gives. rewrite eval_list by (done || by apply builtin_plain).
  rewrite (bind_ok _ _ _ _ _ Hhead). cbn [apply_call sym_node].
  pose proof (room_used s _ 1 Hroom ltac:(lia)) as Hroom1. change (56 * Z.of_nat 1) with 56 in Hroom1.
  destruct (Hargs (used s 56) eq_refl) as (rs & k & Heval & Hk & Hnums); [eapply room_less; [done|lia]|].
  rewrite (bind_ok _ _ _ _ _ Heval). cbn [app]. rewrite used_used.
  destruct (room_alloc (used s (56 + 56 * Z.of_nat k)) 0) as [Hok2 H562].
  { pose proof (room_used s _ (S k) Hroom ltac:(lia)) as Hr. rewrite Nat2Z.inj_succ in Hr.
    replace (56 + 56 * Z.of_nat k) with (56 * Z.succ (Z.of_nat k)) by lia. eapply room_less; [done|lia]. }
  destruct (builtin_spec x rs vs _ v Hnums Hop Hok2 H562) as (r & -> & Hr).
  exists r, (S (S k)). rewrite used_used. split; [do 2 f_equal; lia|]. split; [lia|done].
Qed.

Lemma eval_arith_gen p :
  (∀ fuel s ρ v, value (env_sem (global_env s) ρ) p = Some v → (nodes p ≤ fuel)%nat → room s (nodes p) →
     gives (eval fuel p ρ) s (nodes p) v) ∧
  (∀ fuel s ρ acc vs, values_of (value (env_sem (global_env s) ρ)) p = Some vs → (nodes p ≤ fuel)%nat →
     room s (nodes p) → (length acc + length vs ≤ 16)%nat →
     gives_args (λ a, eval fuel a ρ) s p acc vs).
Proof.
  induction p as [|t n sy a [IHa _] b [_ IHb]].
  { split; [done|]. intros fuel s ρ acc vs [= <-] _ _ _. by apply gives_args_nil. }
  split.
  - intros fuel s ρ v Hv Hf Hroom. destruct fuel as [|fuel]; [cbn in Hf; lia|].
    destruct (room_alloc _ _ Hroom) as [Hok H56].
    destruct t; try done.
    + injection Hv as <-. exists (LispNode LVAL_NUM n sy a b), 0%nat. rewrite used_0.
      split; [done|]. split; [lia|done].
    + cbn [value eval] in *. destruct (env_sem (global_env s) ρ sy) as [| |w] eqn:Hsem; [|done|].
      * destruct (is_builtin sy) eqn:Hb; [done|]. injection Hv as <-.
        exists (err_node (str "Variavel/Funcao nao definida")), 1%nat.
        rewrite env_get_unbound by (first [by apply env_sem_unbound|by rewrite Hb|done]). rewrite Hb.
        split; [done|]. split; [cbn; lia|done].
      * injection Hv as <-. apply env_sem_val in Hsem as (r & Hr & Hn). exists r, 0%nat. rewrite used_0.
        split; [by apply env_get_bound|]. split; [lia|done].
    + cbn [value] in Hv. destruct a as [|[] n' x c d]; try done.
      destruct (env_sem (global_env s) ρ x) eqn:Hsem; try done.
      destruct (values_of _ b) as [vs|] eqn:Hvs; [|done].
      destruct (andb _ _) eqn:Hlen; [|done]. apply andb_true_iff in Hlen as [Hlen Hx].
      apply Nat.leb_le in Hlen, Hx. cbn [nodes] in *. destruct fuel as [|fuel]; [lia|].
      apply (eval_operator fuel n sy n' x c d b ρ s vs v); try done.
      intros s' Hg Hroom'. apply IHb; [by rewrite Hg|lia|done|done].
  - intros fuel s ρ acc vs Hvs Hf Hroom Hlen. destruct t; try (injection Hvs as <-; by apply gives_args_nil).
    cbn [values_of] in Hvs. cbn [nodes] in *.
    destruct (value _ a) as [v|] eqn:Hv; [|done]. fold (values_of (value (env_sem (global_env s) ρ)) b) in Hvs.
    destruct (values_of _ b) as [vs'|] eqn:Hvs'; [|done]. injection Hvs as <-. cbn [length] in Hlen.
    apply gives_args_cons; [apply IHa; [done|lia|eapply room_less; [done|lia]]|lia|].
    intros r k Hk. apply IHb; [done|lia| |rewrite length_app; cbn; lia].
    pose proof (room_used s _ k Hroom ltac:(lia)) as Hr. eapply room_less; [done|lia].
Qed.

(** C28. Evaluating an arithmetic expression: [+], [-] and [*] give the sum, the
    difference and the product of their arguments wrapped to 32 bits, [/] the
    quotient rounded to zero or an error, a symbol the value of the nearest
    variable of that name, first among the locals, or an error; an argument that
    is an error counts as 0. [nodes p] of fuel and of pool is enough, and
    nothing but the pool changes. *)
Theorem eval_arith p fuel s ρ v :
  value (env_sem (global_env s) ρ) p = Some v → (nodes p ≤ fuel)%nat → pool_ok s →
  56 * Z.of_nat (nodes p) ≤ pool_left s →
  ∃ r k, eval fuel p ρ s = Ok r (used s (56 * Z.of_nat k)) ∧ (k ≤ nodes p)%nat ∧ number r = Some v.
Proof. intros Hv Hf Hok Hroom. by apply (proj1 (eval_arith_gen p)). Qed.

(** ** Functions *)

Lemma value_ext look look' p : (∀ x, look x = look' x) → value look p = value look' p.
Proof.
  intros Hx.
  enough (value look p = value look' p ∧ values_of (value look) p = values_of (value look') p) by tauto.
  induction p as [|t n sy a [IHa _] b [_ IHb]]; [done|]. split.
  - destruct t; try done; cbn [value]; [by rewrite Hx|]. destruct a as [|[] n' x c d]; try done.
    by rewrite Hx, IHb.
  - destruct t; try done. cbn [values_of]. fold (values_of (value look)) (values_of (value look')).
    by rewrite IHa, IHb.
Qed.

(** The names of the parameters. *)
Fixpoint param_names (p : ptr) : option (list (list Z)) :=
  match p with
  | LispNode LVAL_LIST _ _ (LispNode _ _ x _ _) rest =>
      if (length x <=? 31)%nat then
        match param_names rest with Some xs => Some (x :: xs) | None => None end
      else None
  | LispNode LVAL_LIST _ _ NULL _ => None
  | _ => Some []
  end.

(** The bindings of the body of a function called with the values [vs]. *)
Fixpoint call_sem (g : list EnvVar) (xs : list (list Z)) (vs : list (option Z)) (x : list Z) : binding :=
  match xs, vs with
  | y :: xs, v :: vs => if same y x then Val v else call_sem g xs vs x
  | _, _ => env_sem g [] x
  end.

Lemma bind_params_spec p xs rs vs s :
  param_names p = Some xs → numbers rs vs →
  ∃ ρ, bind_params p rs s = Ok ρ s ∧ ∀ g x, env_sem g ρ x = call_sem g xs vs x.
Proof.
  revert xs rs vs. induction p as [|t n sy a _ b IHb]; intros xs rs vs Hxs Hrs.
  { injection Hxs as <-. by exists []. }
  destruct t; try (injection Hxs as <-; by exists []).
  cbn [param_names] in Hxs. destruct a as [|t' n' y c d]; [done|].
  destruct (length y <=? 31)%nat eqn:Hy; [|done]. apply Nat.leb_le in Hy.
  destruct (param_names b) as [xs'|] eqn:Hb; [|done]. injection Hxs as <-.
  inversion Hrs as [|r v rs' vs' Hr Hrs' Hr1 Hr2]; subst.
  { by exists []. }
  destruct (IHb xs' rs' vs' eq_refl Hrs') as (ρ & Hbind & Hsem).
  exists ((y, r) :: ρ). cbn [bind_params]. remember (LispNode t' n' y c d) as q eqn:Hq.
  rewrite (bind_ok (get_sym q) _ s y s) by (by subst q).
  rewrite (bind_ok (kstrcpy y) _ s y s).
  2: { unfold kstrcpy. by destruct (Z.ltb_spec (Z.of_nat (length y)) 32); [|lia]. }
  rewrite (bind_ok _ _ _ _ _ Hbind). split; [done|]. intros g x. cbn [call_sem].
  rewrite <- Hsem. unfold env_sem, lookup_var. cbn [lookup_sym]. destruct (same y x); [|done].
  cbn. by rewrite Hr.
Qed.

(** What the definition of a function leaves behind. *)
Lemma same_refl x : same x x = true.
Proof. unfold same, kstrcmp. by rewrite bytes_cmp_refl. Qed.

Lemma lookup_replace g x v : lookup_sym g x ≠ None → lookup_sym (replace_sym g x v) x = Some v.
Proof.
  induction g as [|[k w] g IH]; [done|]. cbn. destruct (same k x) eqn:Hk; cbn; rewrite Hk; [done|apply IH].
Qed.

Lemma lookup_snoc g x v : lookup_sym g x = None → lookup_sym (g ++ [(x, v)]) x = Some v.
Proof.
  induction g as [|[k w] g IH]; cbn; [by rewrite same_refl|]. by destruct (same k x).
Qed.

Definition with_env (s : st) (g : list EnvVar) : st := mk_st (memory_pool_index s) g (out s) (lisp_src s).

(** The globals after [x] has been given the value [v]. *)
Definition define (g : list EnvVar) (x : list Z) (v : ptr) : list EnvVar :=
  match lookup_sym g x with Some _ => replace_sym g x v | None => g ++ [(x, v)] end.

Lemma lookup_define g x v : lookup_sym (define g x v) x = Some v.
Proof.
  unfold define. destruct (lookup_sym g x) eqn:Hl; [apply lookup_replace; by rewrite Hl|by apply lookup_snoc].
Qed.

Definition can_define (g : list EnvVar) (x : list Z) : Prop :=
  (length x ≤ 31)%nat ∧ (lookup_sym g x ≠ None ∨ (length g < 128)%nat).

Lemma env_set_spec x v s :
  can_define (global_env s) x → env_set x v s = Ok () (with_env s (define (global_env s) x v)).
Proof.
  intros [Hx Hroom]. unfold env_set, define. rewrite (bind_ok get _ s s s eq_refl).
  destruct (lookup_sym (global_env s) x) as [w|] eqn:Hl; [done|].
  destruct Hroom as [?|Hroom]; [done|].
  destruct (Z.ltb_spec (Z.of_nat (length (global_env s))) 128); [|lia].
  unfold kstrcpy. destruct (Z.ltb_spec (Z.of_nat (length x)) 32); [done|lia].
Qed.

Lemma get_first_node t n x a b s : get_first (LispNode t n x a b) s = Ok a s.
Proof. done. Qed.
Lemma get_rest_node t n x a b s : get_rest (LispNode t n x a b) s = Ok b s.
Proof. done. Qed.

Definition defun (name params body : ptr) : ptr :=
  list_node (sym_node (str "defun")) (list_node name (list_node params (list_node body nil_node))).

Lemma eval_defun fuel f params body ρ s :
  can_define (global_env s) f → room s 2 →
  eval (S fuel) (defun (sym_node f) params body) ρ s =
    Ok (sym_node (str "ok"))
      (with_env (used s 112) (define (global_env s) f (func_node params body))).
Proof.
  intros Hf [Hok Hroom]. unfold pool_ok, pool_left in *.
  pose proof (env_set_spec f (func_node params body) (used s 56) Hf) as Hset. unfold defun, list_node. cbn [eval].
  set (first := sym_node (str "defun")). set (rest := LispNode _ _ _ (sym_node f) _).
  rewrite (bind_ok (get_type first) _ s LVAL_SYM s eq_refl).
  rewrite (bind_ok (get_sym first) _ s (str "defun") s eq_refl).
  change (bool_decide (LVAL_SYM = LVAL_SYM) && same (str "defun") (str "defun")) with true. cbv iota.
  unfold rest.
  rewrite (bind_ok _ _ _ _ _ (get_first_node _ _ _ _ _ s)), (bind_ok _ _ _ _ _ (get_rest_node _ _ _ _ _ s)).
  rewrite (bind_ok _ _ _ _ _ (get_first_node _ _ _ _ _ s)), (bind_ok _ _ _ _ _ (get_rest_node _ _ _ _ _ s)).
  rewrite (bind_ok _ _ _ _ _ (get_first_node _ _ _ _ _ s)).
  assert (new_lval_func params body s = Ok (func_node params body) (used s 56)) as Hfunc.
  { unfold new_lval_func. assert (alloc_node s = Ok () (used s 56)) as Ha by (apply alloc_room; unfold pool_left; [done|lia]).
    by rewrite (bind_ok _ _ _ _ _ Ha). }
  rewrite (bind_ok _ _ _ _ _ Hfunc). rewrite (bind_ok (get_sym (sym_node f)) _ _ f (used s 56) eq_refl).
  rewrite (bind_ok _ _ _ _ _ Hset). unfold new_lval_sym.
  rewrite new_node_string; [|unfold pool_ok; cbn; lia|unfold pool_left; cbn; lia|by apply Nat.leb_le].
  unfold used, with_env, sym_node. cbn. do 2 f_equal. lia.
Qed.

Lemma same_special x : special (sym_node x) = same x (str "defun") || same x (str "setq").
Proof. done. Qed.

(** Calling a function with arithmetic arguments and body. *)
Lemma eval_call fuel f args params body xs vs v ρ s :
  lookup_var (global_env s) ρ f = Some (func_node params body) → special (sym_node f) = false →
  param_names params = Some xs → values_of (value (env_sem (global_env s) ρ)) args = Some vs →
  (length vs ≤ 16)%nat → value (call_sem (global_env s) xs vs) body = Some v →
  (1 + nodes args + nodes body ≤ fuel)%nat → room s (nodes args + nodes body) →
  gives (eval (S fuel) (list_node (sym_node f) args) ρ) s (nodes args + nodes body) v.
Proof.
  intros Hf Hsp Hxs Hvs Hlen Hv Hfuel Hroom.
  assert (eval fuel (sym_node f) ρ s = Ok (func_node params body) s) as Hhead.
  { destruct fuel as [|fuel]; [lia|]. by apply env_get_bound. }
  unfold gives, list_node. rewrite eval_list by done. rewrite (bind_ok _ _ _ _ _ Hhead).
  cbn [apply_call func_node].
  destruct (proj2 (eval_arith_gen args) fuel s ρ [] vs Hvs ltac:(lia) ltac:(eapply room_less; [done|lia]) Hlen)
    as (rs & k & Heval & Hk & Hnums).
  rewrite (bind_ok _ _ _ _ _ Heval). cbn [app]. set (s1 := used s _).
  destruct (bind_params_spec params xs rs vs s1 Hxs Hnums) as (ρ' & Hbind & Hsem).
  rewrite (bind_ok _ _ _ _ _ Hbind).
  assert (value (env_sem (global_env s1) ρ') body = Some v) as Hv'.
  { rewrite <- Hv. apply value_ext. intros x. by rewrite Hsem. }
  destruct (proj1 (eval_arith_gen body) fuel s1 ρ' v Hv' ltac:(lia)) as (r & k' & Hr & Hk' & Hn).
  { pose proof (room_used s _ k Hroom ltac:(lia)) as Hr. eapply room_less; [done|lia]. }
  exists r, (k + k')%nat. rewrite Hr. unfold s1. rewrite used_used. split; [do 2 f_equal; lia|]. split; [lia|done].
Qed.
