(* ===== verification/LispProofs.v ===== *)
(** The theorems about whole Lisp programs: functions that are defined and
    called, memory safety of well-formed code, and the run of a script. *)

From S2P Require Export LispEval.

(** A function that is defined and then called with arithmetic arguments
    has the value of its body with the parameters standing for the values of
    the arguments (a parameter without an argument, and any other name, for a
    global variable: the caller's locals are not seen). *)
Theorem defun_call f params body args xs vs v fuel ρ s :
  let s1 := with_env (used s 112) (define (global_env s) f (func_node params body)) in
  can_define (global_env s) f → special (sym_node f) = false → lookup_sym ρ f = None →
  param_names params = Some xs → values_of (value (env_sem (global_env s1) ρ)) args = Some vs →
  (length vs ≤ 16)%nat → value (call_sem (global_env s1) xs vs) body = Some v →
  (1 + nodes args + nodes body ≤ fuel)%nat → pool_ok s →
  56 * Z.of_nat (2 + nodes args + nodes body) ≤ pool_left s →
  eval (S fuel) (defun (sym_node f) params body) ρ s = Ok (sym_node (str "ok")) s1 ∧
  ∃ r k, eval (S fuel) (list_node (sym_node f) args) ρ s1 = Ok r (used s1 k) ∧ number r = Some v.
Proof.
  intros s1 Hf Hsp Hρ Hxs Hvs Hlen Hv Hfuel Hok Hroom. split.
  { apply eval_defun; [done|]. split; [done|lia]. }
  destruct (eval_call fuel f args params body xs vs v ρ s1) as (r & k & Hr & _ & Hn); try done.
  - unfold lookup_var. rewrite Hρ. apply lookup_define.
  - unfold room, pool_ok, pool_left in *. cbn [s1 with_env used memory_pool_index]. lia.
  - by exists r, (56 * Z.of_nat k).
Qed.

(** ** Memory safety *)

Definition short (s : list Z) : bool := (length s <=? 31)%nat.

Definition has_sym (p : ptr) : bool :=
  match p with LispNode _ _ s _ _ => short s | NULL => false end.

Definition params_ok (p : ptr) : bool := bool_decide (param_names p ≠ None).

Definition codes (f : ptr → bool) : ptr → bool :=
  fix go r := match r with LispNode LVAL_LIST _ _ a b => f a && go b | _ => true end.

Fixpoint arg_count (r : ptr) : nat :=
  match r with LispNode LVAL_LIST _ _ _ b => S (arg_count b) | _ => 0 end.

(** A call has 1 to 16 arguments, a definition a name, parameters and a body. *)
Fixpoint wf_code (p : ptr) : bool :=
  match p with
  | NULL => true
  | LispNode LVAL_LIST _ _ a b =>
      match a with
      | NULL => false
      | LispNode t _ x _ _ =>
          if bool_decide (t = LVAL_SYM) && same x (str "defun") then
            match b with
            | LispNode _ _ _ name (LispNode _ _ _ params (LispNode _ _ _ body _)) =>
                has_sym name && params_ok params && wf_code body
            | _ => false
            end
          else if bool_decide (t = LVAL_SYM) && same x (str "setq") then
            match b with
            | LispNode _ _ _ name (LispNode _ _ _ e _) => has_sym name && wf_code e
            | _ => false
            end
          else wf_code a && codes wf_code b && (1 <=? arg_count b)%nat && (arg_count b <=? 16)%nat
      end
  | LispNode _ _ s _ _ => short s
  end.

(** Results and the values of variables. *)
Definition val_ok (p : ptr) : bool :=
  match p with
  | NULL | LispNode LVAL_LIST _ _ _ _ => false
  | LispNode LVAL_FUNC _ s a b => short s && params_ok a && wf_code b
  | LispNode _ _ s _ _ => short s
  end.

Definition env_ok (g : list EnvVar) : Prop := Forall (λ e, val_ok e.2 = true) g.

(** The state after a step of a safe run. *)
Definition safe_state (s s' : st) : Prop :=
  pool_ok s' ∧ env_ok (global_env s') ∧ lisp_src s' = lisp_src s.

Definition safe (m : M ptr) (s : st) : Prop :=
  post false m s (λ r s', val_ok r = true ∧ safe_state s s').

#[export] Instance safe_state_trans : Transitive safe_state.
Proof. intros s1 s2 s3 (? & ? & ?) (? & ? & ?). split; [done|]. split; [done|congruence]. Qed.

Lemma lookup_ok g x v : env_ok g → lookup_sym g x = Some v → val_ok v = true.
Proof.
  induction 1 as [|[k w] g Hw Hg IH]; [done|]. cbn. destruct (same k x); [by intros [= <-]|done].
Qed.

Lemma define_ok g x v : env_ok g → val_ok v = true → env_ok (define g x v).
Proof.
  intros Hg Hv. unfold define. destruct (lookup_sym g x).
  - unfold env_ok in *. induction Hg as [|[k w] g Hw Hg IH]; [done|]. cbn.
    by destruct (same k x); constructor.
  - apply Forall_app. split; [done|]. by constructor.
Qed.

Lemma safe_string s l tag : pool_ok s → env_ok (global_env s) → short l = true →
  val_ok (LispNode tag 0 l NULL NULL) = true →
  safe (alloc_node ;; sym ← kstrcpy l; mret (LispNode tag 0 sym NULL NULL)) s.
Proof.
  intros Hok Hg Hl%Nat.leb_le Hv. apply post_string; [done|done|]. intros s' (Hok' & Hg' & _) Hsrc.
  split; [done|]. split; [done|]. split; [by rewrite Hg'|done].
Qed.

Lemma safe_node s p : pool_ok s → env_ok (global_env s) → val_ok p = true → safe (alloc_node ;; mret p) s.
Proof.
  intros Hok Hg Hp. apply post_node; [done|]. intros s' (Hok' & Hg' & _) Hsrc.
  split; [done|]. split; [done|]. split; [by rewrite Hg'|done].
Qed.

(** A step followed by a safe run. *)
Lemma safe_bind (m : M ptr) f s :
  safe m s → (∀ r s', val_ok r = true → safe_state s s' → safe (f r) s') → safe (m ≫= f) s.
Proof.
  intros Hm Hf. eapply post_bind; [exact Hm|]. intros r s' [Hr Hs]. cbn.
  eapply post_mono; [by apply Hf|]. intros r' s'' [Hr' Hs']. split; [done|]. by etrans.
Qed.

(** A step that does not touch the state. *)
Lemma safe_pure {A} (m : M A) f s P :
  post false m s (λ a s', P a ∧ s' = s) → (∀ a, P a → safe (f a) s) → safe (m ≫= f) s.
Proof. intros Hm Hf. eapply post_bind; [exact Hm|]. intros a s' [Ha ->]. by apply Hf. Qed.

(** A step that prints. *)
Lemma safe_unit (m : M unit) f s :
  post false m s (λ _ s', safe_state s s') → (∀ s', safe_state s s' → safe (f tt) s') → safe (m ≫= f) s.
Proof.
  intros Hm Hf. eapply post_bind; [exact Hm|]. intros [] s' Hs. cbn.
  eapply post_mono; [by apply Hf|]. intros r' s'' [Hr' Hs']. split; [done|]. by etrans.
Qed.

Lemma safe_refl s : pool_ok s → env_ok (global_env s) → safe_state s s.
Proof. done. Qed.

Lemma safe_env_get x ρ s :
  short x = true → env_ok ρ → pool_ok s → env_ok (global_env s) → safe (env_get x ρ) s.
Proof.
  intros Hx Hρ Hok Hg. unfold env_get. destruct (lookup_sym ρ x) as [v|] eqn:Hl.
  { split; [exact (lookup_ok _ _ _ Hρ Hl)|done]. }
  apply (safe_pure get _ s (λ a, a = s)); [done|]. intros a ->.
  destruct (lookup_sym (global_env s) x) as [v|] eqn:Hl'.
  { split; [exact (lookup_ok _ _ _ Hg Hl')|done]. }
  fold (is_builtin x). destruct (is_builtin x); by apply safe_string.
Qed.

(** Reading a field of a node that is not NULL. *)
Lemma safe_deref {A} p (f : LType → Z → list Z → ptr → ptr → A) (k : A → M ptr) s :
  (∀ t n x a b, p = LispNode t n x a b → safe (k (f t n x a b)) s) → p ≠ NULL →
  safe (deref p f ≫= k) s.
Proof.
  intros Hk Hp. destruct p as [|t n x a b]; [done|].
  apply (safe_pure _ _ s (λ r, r = f t n x a b)); [done|]. intros r ->. by eapply Hk.
Qed.

Lemma val_not_null p : val_ok p = true → p ≠ NULL.
Proof. by destruct p. Qed.

Lemma fold_args_safe op res args s :
  Forall (λ a, val_ok a = true) args → post false (fold_args op res args) s (λ _ s', s' = s).
Proof.
  intros Ha. revert res. induction Ha as [|a args Ha _ IH]; intros res; [done|].
  cbn [fold_args]. destruct a as [|t n x c d]; [done|].
  eapply (post_bind _ _ _ _ (λ _ s', s' = s)); [done|]. intros m s' ->. apply IH.
Qed.

Lemma print_post l s : pool_ok s → env_ok (global_env s) →
  post false (vga_print l) s (λ _ s', safe_state s s').
Proof. done. Qed.

Lemma print_int_safe n s : pool_ok s → env_ok (global_env s) →
  post false (print_int n) s (λ _ s', safe_state s s').
Proof.
  intros Hok Hg. unfold print_int.
  eapply (post_bind _ _ _ _ (λ _ s', safe_state s s')); [by destruct (n <? 0)|].
  intros _ s' (Hok' & Hg' & Hs'). destruct (_ =? 0); by split.
Qed.

Lemma print_args_safe args s : pool_ok s → env_ok (global_env s) →
  Forall (λ a, val_ok a = true) args → post false (print_args args) s (λ _ s', safe_state s s').
Proof.
  intros Hok Hg Ha. revert s Hok Hg. induction Ha as [|a args Ha _ IH]; intros s Hok Hg; [done|].
  cbn [print_args]. destruct a as [|t n x c d]; [done|].
  eapply (post_bind _ _ _ _ (λ r s', r = t ∧ s' = s)); [done|]. intros r s' [-> ->].
  eapply (post_bind _ _ _ _ (λ _ s', safe_state s s')).
  { destruct t; try done.
    eapply (post_bind _ _ _ _ (λ _ s', s' = s)); [done|]. intros m s' ->. by apply print_int_safe. }
  intros _ s1 (Hok1 & Hg1 & Hs1).
  eapply (post_bind _ _ _ _ (λ _ s', safe_state s s')); [done|]. intros _ s2 (Hok2 & Hg2 & Hs2).
  eapply post_mono; [by apply IH|]. intros _ s3 (? & ? & ?). split; [done|]. split; [done|congruence].
Qed.

Lemma safe_divide a b k s : (∀ q, safe (k q) s) → safe (divide a b ≫= k) s.
Proof.
  intros Hk. apply (safe_pure _ _ s (λ _, True)); [|by intros q _].
  unfold post, divide. by destruct (andb _ _).
Qed.

Lemma safe_num n s : pool_ok s → env_ok (global_env s) → safe (new_lval_num n) s.
Proof. intros. by apply safe_node. Qed.

Lemma safe_fold op res args k s :
  Forall (λ a, val_ok a = true) args → (∀ n, safe (k n) s) → safe (fold_args op res args ≫= k) s.
Proof.
  intros Ha Hk. apply (safe_pure _ _ s (λ _, True)); [|by intros n _].
  eapply post_mono; [by apply fold_args_safe|]. by intros n s' ->.
Qed.

Lemma builtin_safe x args s :
  pool_ok s → env_ok (global_env s) → Forall (λ a, val_ok a = true) args → args ≠ [] → safe (builtin x args) s.
Proof.
  intros Hok Hg Ha Hne. unfold builtin.
  destruct (same x (str "+")); [apply safe_fold; [done|]; intros; by apply safe_num|].
  destruct args as [|a args]; [done|]. pose proof (Forall_cons_1 _ _ _ Ha) as [Hva Hvargs].
  destruct (same x (str "-")).
  { destruct args as [|b args].
    - apply safe_deref; [|by apply val_not_null]. intros t n y c d _. by apply safe_num.
    - apply safe_deref; [|by apply val_not_null]. intros t n y c d _.
      apply safe_fold; [done|]. intros; by apply safe_num. }
  destruct (same x (str "*")); [apply safe_fold; [done|]; intros; by apply safe_num|].
  destruct (same x (str "/")).
  { destruct args as [|b args]; [by apply safe_string|]. pose proof (Forall_cons_1 _ _ _ Hvargs) as [Hvb _].
    apply safe_deref; [|by apply val_not_null]. intros t n y c d _.
    destruct (n =? 0); [by apply safe_string|].
    apply safe_deref; [|by apply val_not_null]. intros t' n' y' c' d' _.
    apply safe_divide. intros q. by apply safe_num. }
  destruct (same x (str "print")); [|by apply safe_string].
  apply safe_unit; [by apply print_args_safe|]. intros s1 (? & ? & ?).
  apply safe_unit; [done|]. intros s2 (? & ? & ?). by apply safe_node.
Qed.

Lemma eval_args_safe ev r acc s :
  (∀ a s, wf_code a = true → pool_ok s → env_ok (global_env s) → safe (ev a) s) →
  codes wf_code r = true → (length acc + arg_count r ≤ 16)%nat → Forall (λ a, val_ok a = true) acc →
  pool_ok s → env_ok (global_env s) →
  post false (eval_args ev r acc) s (λ rs s', safe_state s s' ∧ Forall (λ a, val_ok a = true) rs ∧
    length rs = (length acc + arg_count r)%nat).
Proof.
  intros Hev. revert acc s. induction r as [|t n x a _ b IHb]; intros acc s Hc Hlen Hacc Hok Hg.
  { cbn. split; [done|]. split; [done|lia]. }
  destruct t; try (cbn; split; [done|]; split; [done|lia]).
  cbn [codes] in Hc. fold (codes wf_code) in Hc. apply andb_true_iff in Hc as [Hca Hcb].
  cbn [eval_args arg_count] in *. eapply post_bind; [by apply Hev|]. intros v s1 (Hv & Hok1 & Hg1 & Hs1). cbn.
  destruct (Z.ltb_spec (Z.of_nat (length acc)) 16); [|lia].
  eapply post_mono; [apply IHb; [done|rewrite length_app; cbn; lia| |done|done]|].
  - apply Forall_app. split; [done|]. by constructor.
  - intros rs s2 ((? & ? & ?) & ? & Hrs). rewrite length_app in Hrs. cbn in Hrs.
    split; [|split; [done|lia]]. split; [done|]. split; [done|congruence].
Qed.

Lemma bind_params_safe p args s :
  params_ok p = true → Forall (λ a, val_ok a = true) args →
  post false (bind_params p args) s (λ ρ s', env_ok ρ ∧ s' = s).
Proof.
  unfold params_ok. rewrite bool_decide_eq_true. revert args.
  induction p as [|t n x a _ b IHb]; intros args Hp Ha; [split; [constructor|done]|].
  destruct t; try (split; [constructor|done]). cbn [param_names] in Hp.
  destruct a as [|t' n' y c d]; [done|]. destruct (length y <=? 31)%nat eqn:Hy; [|done].
  apply Nat.leb_le in Hy. destruct args as [|v args]; [split; [constructor|done]|].
  apply Forall_cons_1 in Ha as [Hv Ha]. cbn [bind_params].
  eapply (post_bind _ _ _ _ (λ r s', r = y ∧ s' = s)); [done|]. intros r s' [-> ->].
  eapply (post_bind _ _ _ _ (λ r s', s' = s)).
  { unfold post, kstrcpy. by destruct (Z.ltb_spec (Z.of_nat (length y)) 32); [|lia]. }
  intros r s' ->. eapply post_bind; [apply IHb; [by destruct (param_names b)|done]|].
  intros ρ s' [Hρ ->]. split; [|done]. by constructor.
Qed.

(** The special forms. *)
Lemma env_set_safe (x : list Z) v s (k : unit → M ptr) :
  short x = true → val_ok v = true → pool_ok s → env_ok (global_env s) →
  (∀ s', safe_state s s' → safe (k tt) s') → safe (env_set x v ≫= k) s.
Proof.
  intros Hx Hv Hok Hg Hk. apply safe_unit; [|done]. unfold env_set.
  eapply (post_bind _ _ _ _ (λ a s', a = s ∧ s' = s)); [done|]. intros a s' [-> ->].
  pose proof (define_ok (global_env s) x v Hg Hv) as Hdef. unfold define in Hdef.
  destruct (lookup_sym (global_env s) x); [done|].
  destruct (_ <? 128); [|done].
  eapply (post_bind _ _ _ _ (λ r s', r = x ∧ s' = s)).
  { unfold post, kstrcpy. apply Nat.leb_le in Hx.
    destruct (Z.ltb_spec (Z.of_nat (length x)) 32); [done|lia]. }
  by intros r s' [-> ->].
Qed.

(** What [eval] does with a list, by its first element. *)
Definition eval_special (fuel : nat) (defun : bool) (rest : ptr) (local_env : list EnvVar) : M ptr :=
  if defun then
    name ← get_first rest;
    rest2 ← get_rest rest;
    args ← get_first rest2;
    rest3 ← get_rest rest2;
    body ← get_first rest3;
    func ← new_lval_func args body;
    sym ← get_sym name;
    env_set sym func ;;
    new_lval_sym (str "ok")
  else
    name ← get_first rest;
    rest2 ← get_rest rest;
    e ← get_first rest2;
    val ← eval fuel e local_env;
    sym ← get_sym name;
    env_set sym val ;;
    mret val.

Lemma eval_unfold fuel n sy t n' x c d rest ρ s :
  eval (S fuel) (LispNode LVAL_LIST n sy (LispNode t n' x c d) rest) ρ s =
    if bool_decide (t = LVAL_SYM) && same x (str "defun") then eval_special fuel true rest ρ s
    else if bool_decide (t = LVAL_SYM) && same x (str "setq") then eval_special fuel false rest ρ s
    else (eval fuel (LispNode t n' x c d) ρ ≫= apply_call fuel rest ρ) s.
Proof.
  remember (LispNode t n' x c d) as p eqn:Hp. cbn [eval].
  rewrite (bind_ok (get_type p) _ s t s) by (by subst p).
  rewrite (bind_ok (get_sym p) _ s x s) by (by subst p).
  by repeat destruct (andb _ _).
Qed.

Lemma has_sym_node p : has_sym p = true → ∃ t n x a b, p = LispNode t n x a b ∧ short x = true.
Proof. destruct p as [|t n x a b]; [done|]. intros Hx. by exists t, n, x, a, b. Qed.

Lemma defun_safe fuel ρ s t n x name t' n' x' params t'' n'' x'' body e :
  has_sym name = true → params_ok params = true → wf_code body = true → pool_ok s → env_ok (global_env s) →
  safe (eval_special fuel true
    (LispNode t n x name (LispNode t' n' x' params (LispNode t'' n'' x'' body e))) ρ) s.
Proof.
  intros Hname Hparams Hbody Hok Hg. cbn [eval_special].
  do 5 (apply safe_deref; [|done]; intros ? ? ? ? ? [= <- <- <- <- <-]).
  apply safe_bind; [apply safe_node; [done|done|by cbn; rewrite Hparams, Hbody]|].
  intros func s1 Hfunc (Hok1 & Hg1 & _).
  destruct (has_sym_node name Hname) as (t1 & n1 & y & c & d & -> & Hy).
  apply safe_deref; [|done]. intros ? ? ? ? ? [= <- <- <- <- <-].
  apply env_set_safe; [done..|]. intros s2 (? & ? & ?). by apply safe_string.
Qed.

Lemma setq_safe fuel ρ s t n x name t' n' x' e b :
  has_sym name = true → safe (eval fuel e ρ) s →
  safe (eval_special fuel false (LispNode t n x name (LispNode t' n' x' e b)) ρ) s.
Proof.
  intros Hname He. cbn [eval_special].
  do 3 (apply safe_deref; [|done]; intros ? ? ? ? ? [= <- <- <- <- <-]).
  apply safe_bind; [done|]. intros v s1 Hv (Hok1 & Hg1 & _).
  destruct (has_sym_node name Hname) as (t1 & n1 & y & c & d & -> & Hy).
  apply safe_deref; [|done]. intros ? ? ? ? ? [= <- <- <- <- <-].
  apply env_set_safe; [done..|]. intros s2 (? & ? & ?). by split.
Qed.

Lemma apply_call_safe fuel rest ρ f s :
  (∀ ast ρ s, wf_code ast = true → env_ok ρ → pool_ok s → env_ok (global_env s) → safe (eval fuel ast ρ) s) →
  val_ok f = true → codes wf_code rest = true → (1 ≤ arg_count rest ≤ 16)%nat → env_ok ρ →
  pool_ok s → env_ok (global_env s) → safe (apply_call fuel rest ρ f) s.
Proof.
  intros IH Hf Hc Hn Hρ Hok Hg. destruct f as [|t n x params body]; [done|].
  assert (∀ k : list ptr → M ptr,
    (∀ rs s', safe_state s s' → Forall (λ a, val_ok a = true) rs → rs ≠ [] → safe (k rs) s') →
    safe (eval_args (λ a, eval fuel a ρ) rest [] ≫= k) s) as Hargs.
  { intros k Hk. eapply post_bind.
    { apply eval_args_safe; [|done|cbn; lia|done|done|done]. intros a s0 Ha Hok0 Hg0. by apply IH. }
    intros rs s' (Hs & Hrs & Hlen). cbn in Hlen |- *.
    eapply post_mono; [apply Hk; [done|done|by destruct rs; [cbn in Hlen; lia|]]|].
    intros r s'' [Hr Hs']. split; [done|]. by etrans. }
  destruct t; cbn [apply_call]; try (by split); try (apply Hargs; intros rs s' (? & ? & ?) Hrs Hne);
    try (by apply safe_string).
  - by apply builtin_safe.
  - cbn in Hf. rewrite !andb_true_iff in Hf. destruct Hf as [[_ Hparams] Hbody].
    apply (safe_pure _ _ s' env_ok); [by apply bind_params_safe|]. intros ρ' Hρ'. by apply IH.
Qed.

Lemma eval_safe_gen fuel ast ρ s :
  wf_code ast = true → env_ok ρ → pool_ok s → env_ok (global_env s) → safe (eval fuel ast ρ) s.
Proof.
  revert ast ρ s. induction fuel as [|fuel IH]; intros ast ρ s Hc Hρ Hok Hg; [done|].
  destruct ast as [|t n x a b]; [by apply safe_node|].
  destruct t; try (by split); try (by apply safe_string).
  { by apply safe_env_get. }
  destruct a as [|t n' y c d]; [done|]. unfold safe, post. rewrite eval_unfold.
  cbn [wf_code] in Hc. fold (codes wf_code) in Hc.
  destruct (bool_decide (t = LVAL_SYM) && same y (str "defun")).
  { destruct b as [|t1 n1 x1 name [|t2 n2 x2 params [|t3 n3 x3 body e]]]; try done.
    rewrite !andb_true_iff in Hc. destruct Hc as [[? ?] ?]. by apply defun_safe. }
  destruct (bool_decide (t = LVAL_SYM) && same y (str "setq")).
  { destruct b as [|t1 n1 x1 name [|t2 n2 x2 e b]]; try done.
    apply andb_true_iff in Hc as [? ?]. apply setq_safe; [done|]. by apply IH. }
  rewrite !andb_true_iff, !Nat.leb_le in Hc. destruct Hc as [[[Hca Hcb] H1] H16].
  apply safe_bind; [by apply IH|]. intros f s1 Hf (? & ? & ?). by apply apply_call_safe.
Qed.

(** C21. Evaluating well-formed code (definitions complete, calls with 1 to 16
    arguments) with well-formed variables never touches memory outside its
    objects, with any fuel: no NULL pointer is followed and no array is left.
    It gives a value, or makes the program exit; the variables stay well-formed
    and the source pointer where it was. *)
Theorem eval_safe fuel ast ρ s :
  wf_code ast = true → env_ok ρ → pool_ok s → env_ok (global_env s) →
  match eval fuel ast ρ s with
  | Ok r s' => val_ok r = true ∧ pool_ok s' ∧ env_ok (global_env s') ∧ lisp_src s' = lisp_src s
  | Undefined => False
  | _ => True
  end.
Proof.
  intros Hc Hρ Hok Hg. pose proof (eval_safe_gen fuel ast ρ s Hc Hρ Hok Hg) as Hsafe.
  unfold safe, post in Hsafe. by destruct (eval fuel ast ρ s).
Qed.

(** ** Running a script *)

(** The text of a script: a form per line. *)
Fixpoint script_of (ps : list ptr) : list Z :=
  match ps with
  | [] => []
  | p :: ps => show false p ++ [10] ++ script_of ps
  end.

(** The nodes of a form are taken from the pool; [Undefined] stands for a pool
    that is too small for them. *)
Definition take_form (p : ptr) (rest : list Z) : M unit := λ s,
  if bool_decide (room s (nodes p)) then Ok () (with_src (used s (56 * Z.of_nat (nodes p))) rest)
  else Undefined.

(** The forms evaluated one after another, up to the first error. *)
Fixpoint run_list (ef : nat) (ps : list ptr) (last_res : ptr) : M ptr :=
  match ps with
  | [] => set_src [] ;; mret last_res
  | p :: ps =>
      take_form p ([10] ++ script_of ps) ;;
      res ← eval ef p [];
      if is_err res then fail_with (str "LISP EVAL ERROR: ") res else run_list ef ps res
  end.

(** What the forms of a script mean: they are evaluated in order, and the value of
    the last one is printed. *)
Definition meaning (ef : nat) (ps : list ptr) : M unit :=
  last_res ← run_list ef ps NULL; print_result last_res ;; sys_exit.

Lemma nodes_script p ps : p ∈ ps → expr p → (nodes p ≤ length (script_of ps))%nat.
Proof.
  induction 1 as [p ps|p q ps _ IH]; intros Hp; cbn [script_of]; rewrite !length_app.
  - pose proof (nodes_show false p Hp ltac:(done)). lia.
  - specialize (IH Hp). lia.
Qed.

Lemma length_script ps : (length ps ≤ length (script_of ps))%nat.
Proof. induction ps as [|p ps IH]; [done|]. cbn [script_of]. rewrite !length_app. cbn. lia. Qed.

Lemma expr_not_err p : expr p → is_err p = false ∧ p ≠ NULL.
Proof. by destruct 1. Qed.

(** Reading the next form of a script. *)
Lemma read_form rf p ps s :
  expr p → room s (nodes p) → (2 * nodes p ≤ rf)%nat → skip_space (lisp_src s) = script_of (p :: ps) →
  ∃ c l, script_of (p :: ps) = c :: l ∧ c ≠ 0 ∧
    read_expr rf (with_src s (c :: l)) =
      Ok p (with_src (used s (56 * Z.of_nat (nodes p))) ([10] ++ script_of ps)).
Proof.
  intros Hp [Hok Hroom] Hrf Hs. destruct (expr_starts p Hp) as (c & l & Hshow & Hc & Hsp & _).
  exists c, (l ++ [10] ++ script_of ps). cbn [script_of]. rewrite Hshow. split; [done|]. split; [done|].
  apply (proj1 (read_show_gen p Hp) (with_src s (c :: l ++ [10] ++ script_of ps)) ([10] ++ script_of ps));
    try done. cbn [with_src lisp_src]. rewrite Hshow. by apply skip_nonspace.
Qed.

Lemma skip_script p ps : expr p → skip_space (script_of (p :: ps)) = script_of (p :: ps).
Proof.
  intros Hp. destruct (expr_starts p Hp) as (c & l & Hshow & _ & Hsp & _). cbn [script_of].
  rewrite Hshow. by apply skip_nonspace.
Qed.

Lemma run_forms_spec rf ef ps n last s :
  Forall expr ps → Forall (λ p, wf_code p = true) ps → (∀ p, p ∈ ps → (2 * nodes p ≤ rf)%nat) →
  (length ps < n)%nat → skip_space (lisp_src s) = skip_space (script_of ps) →
  pool_ok s → env_ok (global_env s) → run_list ef ps last s ≠ Undefined →
  run_forms rf ef n last s = run_list ef ps last s.
Proof.
  intros Hps. revert n last s. induction Hps as [|p ps Hp Hps IH]; intros n last s Hc Hrf Hn Hs Hok Hg Hdef;
    (destruct n as [|n]; [cbn in Hn; lia|]).
  { cbn [run_forms run_list script_of skip_space] in *. unfold peek.
    rewrite (bind_ok _ _ s 0 (with_src s [])); [done|]. unfold mbind, M_bind, get, set_src, mret, M_ret.
    by rewrite Hs. }
  apply Forall_cons_1 in Hc as [Hcp Hc]. rewrite skip_script in Hs by done.
  cbn [run_list] in Hdef |- *. unfold take_form in Hdef |- *.
  unfold mbind at 1, M_bind at 1. unfold mbind at 1, M_bind at 1 in Hdef.
  case_bool_decide as Hroom; [|done].
  destruct (read_form rf p ps s Hp Hroom (Hrf p ltac:(by left)) Hs) as (c & l & Hscript & Hc0 & Hread).
  set (s1 := with_src _ _) in *. cbn [run_forms].
  rewrite (bind_ok _ _ _ _ _ (peek_at s c l ltac:(by rewrite Hs))). destruct (Z.eqb_spec c 0); [done|].
  rewrite (bind_ok _ _ _ _ _ Hread). destruct (expr_not_err p Hp) as [He Hn0].
  assert (∀ q : M ptr, match p with NULL => mret last | _ => q end = q) as Hmatch by (by destruct p).
  rewrite Hmatch, He. clear Hmatch.
  assert (pool_ok s1) as Hok1.
  { pose proof (room_used s _ (nodes p) Hroom ltac:(lia)) as [Hok1 _]. exact Hok1. }
  pose proof (eval_safe_gen ef p [] s1 Hcp ltac:(constructor) Hok1 Hg) as Hsafe.
  unfold safe, post in Hsafe.
  destruct (eval ef p [] s1) as [r s2|s2| | |] eqn:Heval; [|unfold mbind, M_bind; by rewrite Heval..].
  rewrite (bind_ok _ _ _ _ _ Heval) in Hdef. rewrite !(bind_ok (eval ef p []) _ _ _ _ Heval).
  destruct Hsafe as (_ & Hok2 & Hg2 & Hsrc2). destruct (is_err r); [done|].
  apply IH; [done|set_solver|cbn in Hn; lia|by rewrite Hsrc2|done|done|done].
Qed.

Lemma show_plain b p : expr p → Forall (λ c, c ≠ 0) (show b p).
Proof.
  assert (∀ l, Forall (λ c, c ≠ 0 ∧ is_delim c = false) l → Forall (λ c, c ≠ 0) l) as Hl.
  { intros l Hl. eapply Forall_impl; [|exact Hl]. by intros c [? _]. }
  intros Hp. revert b. induction Hp as [n Hn|sy Hsy| |a c Ha IHa Hc IHc Ht]; intros b.
  - apply Hl. by destruct (show_int_spec n Hn) as (_ & _ & ? & _).
  - apply Hl. by destruct Hsy as (_ & _ & ? & _).
  - by destruct b; repeat constructor.
  - cbn. constructor; [by destruct b|]. by apply Forall_app.
Qed.

Lemma c_string_plain l : Forall (λ c, c ≠ 0) l → c_string l = l.
Proof.
  induction 1 as [|c l Hc _ IH]; [done|]. cbn. destruct (Z.eqb_spec c 0); [done|]. by rewrite IH.
Qed.

Lemma script_plain ps : Forall expr ps → Forall (λ c, c ≠ 0) (script_of ps).
Proof.
  induction 1 as [|p ps Hp _ IH]; [constructor|]. cbn [script_of].
  apply Forall_app. split; [by apply show_plain|]. by constructor.
Qed.

(** The program, started on a file with the text of well-formed forms,
    evaluates the forms in order, each with the globals the ones before it left,
    stops with a message at the first one that gives an error, and otherwise
    prints the last result and exits. [ef] bounds the depth of the evaluator. *)
Theorem script_correct ef args file_size read_file ps :
  let filename := match args with [] => str "lisp.txt" | _ => args end in
  let len := Z.of_nat (length (script_of ps)) in
  let s := mk_st (len + 1) [] (str "Executando Script LISP..." ++ [10]) (script_of ps) in
  file_size filename = len → read_file filename = (len, script_of ps) → 0 < len < MEMORY_POOL_SIZE →
  Forall expr ps → Forall (λ p, wf_code p = true) ps → run_list ef ps NULL s ≠ Undefined →
  _start ef args file_size read_file (mk_st 0 [] [] []) =
    meaning ef ps s.
Proof.
  intros filename len s Hsize Hread Hlen Hps Hcode Hdef. unfold _start. fold filename.
  rewrite Hsize, Hread. assert (∀ x, 0 ≤ x ≤ MEMORY_POOL_SIZE → signed 32 x = x) as Hs.
  { intros x Hx. apply signed_pool. unfold MEMORY_POOL_SIZE in *. lia. }
  rewrite !Hs by lia. destruct (Z.eqb_spec len 0); [lia|].
  assert (lisp_malloc (len + 1) (mk_st 0 [] [] []) = Ok (Some 0) (mk_st (len + 1) [] [] [])) as Hm.
  { unfold lisp_malloc. cbn [memory_pool_index]. rewrite Hs by lia.
    destruct (Z.ltb_spec MEMORY_POOL_SIZE (0 + (len + 1))); [lia|done]. }
  rewrite (bind_ok _ _ _ _ _ Hm). rewrite ?(proj2 (Z.eqb_neq len 0)) by lia.
  destruct (Z.ltb_spec 0 len); [|lia]. rewrite Z.leb_refl. cbn [negb andb].
  assert (c_string (take (Z.to_nat len) (script_of ps)) = script_of ps) as ->.
  { unfold len. rewrite Nat2Z.id, firstn_all. by apply c_string_plain, script_plain. }
  change (exec (2 * length (script_of ps) + 2) ef (S (length (script_of ps))) s = meaning ef ps s).
  unfold exec, meaning. unfold mbind at 1, M_bind at 1. unfold mbind at 2, M_bind at 2.
  rewrite (run_forms_spec _ ef ps); try done.
  - intros p Hp. pose proof (nodes_script p ps Hp) as Hn. rewrite List.Forall_forall in Hps.
    specialize (Hn (Hps p ltac:(by apply list_elem_of_In))). lia.
  - pose proof (length_script ps). lia.
  - unfold pool_ok. cbn. lia.
  - constructor.
Qed.

(** ** Runs on concrete programs *)

Definition lst (l : list ptr) : ptr := foldr list_node nil_node l.
Definition sy (s : string) : ptr := sym_node (str s).

(** (defun sq (x) ( * x x)), (sq 7), ( + 1 (/ 5 0)). *)
Definition demo_body : ptr := lst [sy "*"; sy "x"; sy "x"].
Definition demo_defun : ptr := defun (sy "sq") (lst [sy "x"]) demo_body.
Definition demo_call : ptr := lst [sy "sq"; num_node 7].
Definition demo_sum : ptr := lst [sy "+"; num_node 1; lst [sy "/"; num_node 5; num_node 0]].
Definition demo_state : st := mk_st 0 [] [] [].

Lemma demo_exprs : Forall expr [demo_defun; demo_call; demo_sum].
Proof.
  assert (∀ s, sym_ok (str s) → expr (sy s)) as Hsym by (intros; by constructor).
  assert (∀ s, (length s <=? 31)%nat && negb (is_num s) &&
    forallb (λ c, negb (c =? 0) && negb (is_delim c)) s = true → s ≠ [] → sym_ok s) as Hok.
  { intros s Hs Hne. rewrite !andb_true_iff, forallb_forall in Hs. destruct Hs as [[Hl Hn] Hc].
    split; [done|]. split; [by apply Nat.leb_le|]. split; [|by apply negb_true_iff].
    apply List.Forall_forall. intros c Hin%Hc. apply andb_true_iff in Hin as [H1 H2].
    apply negb_true_iff in H1, H2. split; [lia|done]. }
  repeat apply Forall_cons_2; [..|constructor]; unfold demo_defun, demo_call, demo_sum, demo_body, defun, lst;
    cbn [foldr]; repeat (apply expr_list || apply expr_nil || (apply expr_num; lia));
    first [apply Hsym, Hok; [by vm_compute|done]|done].
Qed.

Lemma read_show_witness :
  let s := mk_st 0 [] [] (show false demo_sum) in
  read_expr (2 * length (lisp_src s) + 2) s =
    Ok demo_sum (with_src (used s (56 * Z.of_nat (nodes demo_sum))) []).
Proof.
  apply (read_show demo_sum [] (mk_st 0 [] [] (show false demo_sum))).
  - pose proof demo_exprs as He. rewrite List.Forall_forall in He. apply He. right. right. by left.
  - exact I.
  - vm_compute. reflexivity.
  - unfold pool_ok, MEMORY_POOL_SIZE. cbn. lia.
  - vm_compute. discriminate.
Defined.

Lemma read_total_witness :
  let s := mk_st 0 [] [] (str "(a (b") in
  pool_ok s ∧ match read_expr (2 * length (lisp_src s) + 2) s with Ok p s' => fits p | Exit _ => True | _ => False end.
Proof.
  set (s := mk_st 0 [] [] (str "(a (b")). cbv zeta.
  assert (pool_ok s) as Hok by (unfold pool_ok, MEMORY_POOL_SIZE; cbn; lia).
  split; [exact Hok|]. pose proof (read_total s Hok) as Hr.
  destruct (read_expr _ s); [|exact Hr..]. destruct Hr as (_ & _ & _ & Hf & _). exact Hf.
Defined.

(** An error in an argument counts as 0. *)
Lemma eval_arith_witness :
  value (env_sem [] []) demo_sum = Some (Some 1) ∧
  ∃ r k, eval 20 demo_sum [] demo_state = Ok r (used demo_state (56 * Z.of_nat k)) ∧ number r = Some (Some 1).
Proof.
  assert (value (env_sem [] []) demo_sum = Some (Some 1)) as Hv by (vm_compute; reflexivity).
  split; [exact Hv|].
  destruct (eval_arith demo_sum 20 demo_state [] (Some 1) Hv) as (r & k & Hr & _ & Hn).
  - vm_compute. lia.
  - unfold pool_ok, MEMORY_POOL_SIZE. cbn. lia.
  - vm_compute. discriminate.
  - exists r, k. split; [exact Hr|exact Hn].
Defined.

Lemma defun_call_witness :
  let s1 := with_env (used demo_state 112) (define [] (str "sq") (func_node (lst [sy "x"]) demo_body)) in
  eval 20 demo_defun [] demo_state = Ok (sy "ok") s1 ∧
  ∃ r k, eval 20 demo_call [] s1 = Ok r (used s1 k) ∧ number r = Some (Some 49).
Proof.
  apply (defun_call (str "sq") (lst [sy "x"]) demo_body (lst [num_node 7]) [str "x"] [Some 7] (Some 49)
    19 [] demo_state).
  - split; [vm_compute; lia|right; vm_compute; lia].
  - vm_compute. reflexivity.
  - reflexivity.
  - vm_compute. reflexivity.
  - vm_compute. reflexivity.
  - vm_compute. lia.
  - vm_compute. reflexivity.
  - vm_compute. lia.
  - unfold pool_ok, MEMORY_POOL_SIZE. cbn. lia.
  - vm_compute. discriminate.
Defined.

Lemma eval_safe_witness :
  wf_code demo_sum = true ∧
  match eval 20 demo_sum [] demo_state with Ok r _ => val_ok r = true | Undefined => False | _ => True end.
Proof.
  assert (wf_code demo_sum = true) as Hc by (vm_compute; reflexivity). split; [exact Hc|].
  assert (pool_ok demo_state) as Hok by (unfold pool_ok, MEMORY_POOL_SIZE; cbn; lia).
  pose proof (eval_safe 20 demo_sum [] demo_state Hc (Forall_nil _) Hok (Forall_nil _)) as Hsafe.
  destruct (eval 20 demo_sum [] demo_state); [destruct Hsafe as [Hr _]; exact Hr|exact I|exact Hsafe|exact I|exact I].
Defined.

(** What a run prints. *)
Definition printed {A} (m : outcome A) : list Z :=
  match m with Ok _ s | Exit s => out s | _ => [] end.

Definition demo_script : list Z := script_of [demo_defun; demo_call].

Lemma script_correct_witness :
  printed (_start 20 [] (λ _, Z.of_nat (length demo_script))
    (λ _, (Z.of_nat (length demo_script), demo_script)) (mk_st 0 [] [] [])) =
  str "Executando Script LISP..." ++ [10] ++ str "Resultado: 49" ++ [10].
Proof.
  rewrite (script_correct 20 [] (λ _, Z.of_nat (length demo_script))
    (λ _, (Z.of_nat (length demo_script), demo_script)) [demo_defun; demo_call]).
  - vm_compute. reflexivity.
  - reflexivity.
  - reflexivity.
  - vm_compute. split; reflexivity.
  - pose proof demo_exprs as He. apply Forall_cons_1 in He as [H1 He]. apply Forall_cons_1 in He as [H2 _].
    constructor; [exact H1|]. constructor; [exact H2|constructor].
  - repeat constructor; vm_compute; reflexivity.
  - vm_compute. discriminate.
Defined.

(** A list that is not closed is accepted, and the closing error is lost. *)
Example unclosed_list_accepted :
  let text := str "(+ 1 2" in
  printed (_start 20 [] (λ _, 6) (λ _, (6, text)) (mk_st 0 [] [] [])) =
  str "Executando Script LISP..." ++ [10] ++ str "Resultado: 3" ++ [10].
Proof. vm_compute. reflexivity. Qed.

(** A form with too few parts follows a NULL pointer, a call with more than 16
    arguments leaves the array [args_eval]. *)
Example incomplete_setq_undefined :
  _start 20 [] (λ _, 6) (λ _, (6, str "(setq)")) (mk_st 0 [] [] []) = Undefined.
Proof. vm_compute. reflexivity. Qed.

Example too_many_arguments_undefined :
  eval 20 (lst (sy "+" :: repeat (num_node 1) 17)) [] demo_state = Undefined.
Proof. vm_compute. reflexivity. Qed.
