(* ===== verification/TarFs.v ===== *)
(** The read-only file system of drive C: (src/kernel/tarfs.c): a tar archive
    that the boot loader has put in memory.

    [tarfs] holds the two static variables; the archive is bytes of the memory
    [m], and so is the name looked for, at the address [filename]. A member
    that the archive stores is a [member]; [archive] is the layout of a tar
    file, against which the four walks over the headers are proved. The walks
    run with the fuel of string.c, 2^64: an offset advances by 512 or more. *)

From S2P Require Export Io CString.
Open Scope Z_scope.

Record tarfs := mk_tarfs { ramdisk_base : Z; ramdisk_size : Z }.

(** Before [tarfs_init]: no ram disk. *)
Definition tarfs_boot : tarfs := mk_tarfs 0 0.

(** Offsets of the fields of [struct tar_header]. *)
Definition F_SIZE : Z := 124.
Definition F_TYPEFLAG : Z := 156.

(** The loop [while (size-- > 0 && *str)] over a field of [n] characters. *)
Fixpoint octal_loop (m : mem) (s : Z) (n : nat) (acc : Z) : Z :=
  match n with
  | O => acc
  | S n =>
      let c := rd8 m s in
      if c =? 0 then acc
      else
        let acc := if (48 <=? c) && (c <=? 55) then u64 (acc * 8 + (c - 48)) else acc in
        octal_loop m (s + 1) n acc
  end.

Definition octal_to_int (m : mem) (s : Z) (size : nat) : Z := octal_loop m s size 0.

(** The modules the boot loader reports: base and size of each. *)
Definition tarfs_init (fs : tarfs) (modules : option (list (Z * Z))) : tarfs * list Z :=
  match modules with
  | Some ((address, size) :: _) =>
      (mk_tarfs address size, str "TarFS: Unidade C: (Initramfs) montada com sucesso." ++ [10])
  | _ => (fs, str "Aviso: Nenhum modulo (RAM disk) detectado pelo Limine." ++ [10])
  end.

(** The offset of the header after one whose data has [size] bytes. *)
Definition next_header (offset size : Z) : Z :=
  let file_blocks := u64 (size + 511) / 512 in
  u64 (offset + u64 (512 + u64 (file_blocks * 512))).

(** The loop over the headers: [visit acc offset size] is the body between the
    size and the advance, and may leave the loop. *)
Definition walk_step {A R} (m : mem) (fs : tarfs) (visit : A → Z → Z → A + R) :
    Z * A → (Z * A) + (A + R) :=
  λ '(offset, acc),
  if offset <? ramdisk_size fs then
    let header := ramdisk_base fs + offset in
    if rd8 m header =? 0 then inr (inl acc)
    else
      let size := octal_to_int m (header + F_SIZE) 11 in
      match visit acc offset size with
      | inl acc => inl (next_header offset size, acc)
      | inr r => inr (inr r)
      end
  else inr (inl acc).

Definition walk {A R} (m : mem) (fs : tarfs) (visit : A → Z → Z → A + R) (acc : A) : unit + (A + R) :=
  match while (walk_step m fs visit) addr_fuel (0, acc) with
  | inr r => inr r
  | inl _ => inl ()
  end.

(** [strcmp(s1, s2) == 0]; [false] too where the C loop would not stop. *)
Definition names_equal (m : mem) (s1 s2 : Z) : bool :=
  match strcmp m s1 s2 with inr r => r =? 0 | inl _ => false end.

(** The string printed from address [s], up to its NUL. *)
Definition string_at (m : mem) (s : Z) : list Z :=
  match strlen m s with inr n => rd_bytes (Z.to_nat n) m s | inl _ => [] end.

Definition no_disk : list Z := str "Volume sem formato ou sem disco." ++ [10].

(** The body of the loop of [tarfs_dir]; it never leaves the loop. *)
Definition dir_body (m : mem) (fs : tarfs) (st : list Z * Z) (offset size : Z) : (list Z * Z) + unit :=
  let '(out, count) := st in
  let header := ramdisk_base fs + offset in
  if negb (rd8 m (header + F_TYPEFLAG) =? 53) then
    inl (out ++ string_at m header ++ str "    <ARQUIVO>" ++ [10], count + 1)
  else inl (out, count).

Definition tarfs_dir (m : mem) (fs : tarfs) : list Z :=
  if ramdisk_base fs =? 0 then no_disk
  else
    let '(out, count) :=
      match walk m fs (dir_body m fs) ([], 0)
      with
      | inr (inl st) => st
      | _ => ([], 0)
      end in
    [10] ++ str " Pasta de C:\" ++ [10; 10] ++ out ++
    (if count =? 0 then str "Arquivo nao encontrado" ++ [10] else [10]).

(** The loop that skips the blanks before the name. *)
Definition skip_blanks (m : mem) (filename : Z) : unit + Z :=
  match while (λ p, if rd8 m p =? 32 then inl (p + 1) else inr p) addr_fuel filename with
  | inr p => inr p
  | inl _ => inl ()
  end.

Definition not_cr (c : Z) : bool := negb (c =? 13).

Definition tarfs_type (m : mem) (fs : tarfs) (filename : Z) : list Z :=
  if ramdisk_base fs =? 0 then no_disk
  else
    match skip_blanks m filename with
    | inl _ => []
    | inr filename =>
        match
          walk m fs
            (λ (_ : unit) offset size,
               if names_equal m (ramdisk_base fs + offset) filename then
                 inr (List.filter not_cr
                   (rd_bytes (Z.to_nat size) m (ramdisk_base fs + offset + 512)) ++ [10])
               else inl ()) ()
        with
        | inr (inr out) => out
        | _ => str "O sistema nao pode encontrar o arquivo especificado." ++ [10]
        end
    end.

Definition tarfs_get_file_size (m : mem) (fs : tarfs) (filename : Z) : Z :=
  if ramdisk_base fs =? 0 then 0
  else
    match
      walk m fs
        (λ (_ : unit) offset size,
           if names_equal m (ramdisk_base fs + offset) filename then inr size else inl ()) ()
    with
    | inr (inr size) => size
    | _ => 0
    end.

(** The result and the bytes stored from [buffer] on. *)
Definition tarfs_read_file (m : mem) (fs : tarfs) (filename : Z) : Z * list Z :=
  if ramdisk_base fs =? 0 then (0, [])
  else
    match
      walk m fs
        (λ (_ : unit) offset size,
           if names_equal m (ramdisk_base fs + offset) filename then
             inr (s32 size, rd_bytes (Z.to_nat size) m (ramdisk_base fs + offset + 512))
           else inl ()) ()
    with
    | inr (inr r) => r
    | _ => (0, [])
    end.

(** ** The layout of an archive *)

Record member := mk_member { name : list Z; typeflag : Z; data : list Z }.

(** The octal digits of a number in a field of [n] characters. *)
Fixpoint octal (n : nat) (z : Z) : list Z :=
  match n with
  | O => []
  | S n => octal n (z / 8) ++ [48 + z mod 8]
  end.

Definition is_byte (b : Z) : Prop := 0 ≤ b < 256.

(** The name field has 100 bytes and the code needs its NUL. *)
Definition member_ok (e : member) : Prop :=
  name e ≠ [] ∧ (length (name e) < 100)%nat ∧ Z.of_nat (length (data e)) < 8 ^ 11 ∧
  Forall is_byte (data e).

Definition header_at (m : mem) (a : Z) (e : member) : Prop :=
  cstr m a (name e) ∧
  rd_bytes 11 m (a + F_SIZE) = octal 11 (Z.of_nat (length (data e))) ∧
  rd8 m (a + F_TYPEFLAG) = typeflag e ∧
  rd_bytes (length (data e)) m (a + 512) = data e.

(** The size of a member: its header and its data in whole blocks. *)
Definition member_size (e : member) : Z := 512 + (Z.of_nat (length (data e)) + 511) / 512 * 512.

(** The members lie one after another from offset [o] on; a zero byte or the
    end of the module ends the archive. *)
Fixpoint archive (m : mem) (fs : tarfs) (o : Z) (es : list member) : Prop :=
  match es with
  | [] => ramdisk_size fs ≤ o ∨ rd8 m (ramdisk_base fs + o) = 0
  | e :: es =>
      o < ramdisk_size fs ∧ member_ok e ∧ header_at m (ramdisk_base fs + o) e ∧
      archive m fs (o + member_size e) es
  end.

Definition mounted (m : mem) (fs : tarfs) (es : list member) : Prop :=
  ramdisk_base fs ≠ 0 ∧ ramdisk_size fs < 2 ^ 63 ∧ archive m fs 0 es.

(** The first member of that name. *)
Definition find_member (es : list member) (n : list Z) : option member :=
  List.find (λ e, bool_decide (name e = n)) es.

(** ** Octal fields *)

Lemma octal_length n z : length (octal n z) = n.
Proof. revert z. induction n as [|n IH]; intros z; [done|]. cbn. rewrite length_app, IH. cbn. lia. Qed.

Lemma octal_loop_app m s n k acc :
  (∀ i, 0 ≤ i < Z.of_nat n → rd8 m (s + i) ≠ 0) →
  octal_loop m s (n + k) acc = octal_loop m (s + Z.of_nat n) k (octal_loop m s n acc).
Proof.
  revert s acc. induction n as [|n IH]; intros s acc Hnz; cbn [octal_loop Nat.add].
  { by rewrite Z.add_0_r. }
  pose proof (Hnz 0 ltac:(lia)) as H0. rewrite Z.add_0_r in H0.
  destruct (Z.eqb_spec (rd8 m s) 0); [done|]. rewrite IH.
  - by replace (s + 1 + Z.of_nat n) with (s + Z.of_nat (S n)) by lia.
  - intros i Hi. replace (s + 1 + i) with (s + (i + 1)) by lia. apply Hnz. lia.
Qed.

Lemma octal_digits n z : Forall (λ c, 48 ≤ c ≤ 55) (octal n z).
Proof.
  revert z. induction n as [|n IH]; intros z; [constructor|]. cbn. apply Forall_app. split; [apply IH|].
  constructor; [dlia|constructor].
Qed.

Lemma octal_loop_spec m s n z :
  rd_bytes n m s = octal n z → 0 ≤ z < 8 ^ Z.of_nat n → z < 2 ^ 64 → octal_loop m s n 0 = z.
Proof.
  revert z. induction n as [|n IH]; intros z Hs Hz Hw; [cbn in *; lia|].
  rewrite Nat2Z.inj_succ, Z.pow_succ_r in Hz by lia.
  assert (∀ i, (i < S n)%nat → octal (S n) z !! i = Some (rd8 m (s + Z.of_nat i))) as Hat.
  { intros i Hi. rewrite <- Hs. by apply rd_bytes_lookup. }
  assert (rd_bytes n m s = octal n (z / 8)) as Hs'.
  { apply list_eq. intros i. destruct (decide (i < n)%nat) as [Hi|Hi].
    - rewrite rd_bytes_lookup by done. rewrite <- Hat by lia. cbn.
      by rewrite lookup_app_l by (rewrite octal_length; lia).
    - rewrite !lookup_ge_None_2; [done|rewrite octal_length; lia|rewrite length_rd_bytes; lia]. }
  assert (rd8 m (s + Z.of_nat n) = 48 + z mod 8) as Hlast.
  { pose proof (Hat n ltac:(lia)) as Hn. cbn in Hn.
    rewrite lookup_app_r, octal_length, Nat.sub_diag in Hn by (rewrite octal_length; lia). by injection Hn. }
  replace (S n) with (n + 1)%nat by lia. rewrite octal_loop_app.
  - rewrite (IH (z / 8)) by (done || dlia). cbn [octal_loop]. rewrite Hlast.
    destruct (Z.eqb_spec (48 + z mod 8) 0); [dlia|].
    destruct (Z.leb_spec 48 (48 + z mod 8)); [|dlia]. destruct (Z.leb_spec (48 + z mod 8) 55); [|dlia].
    cbn [andb]. rewrite u64_small; dlia.
  - intros i Hi. pose proof (Hat (Z.to_nat i) ltac:(lia)) as Hc. rewrite Z2Nat.id in Hc by lia.
    pose proof (proj1 (Forall_lookup _ _) (octal_digits (S n) z) _ _ Hc). cbn in *. lia.
Qed.

(** ** Walking over the headers *)

Lemma header_size m a e : member_ok e → header_at m a e →
  octal_to_int m (a + F_SIZE) 11 = Z.of_nat (length (data e)).
Proof.
  intros (_ & _ & Hsz & _) (_ & Ho & _). apply octal_loop_spec; [done|split; [lia|done]|].
  etrans; [exact Hsz|done].
Qed.

Lemma header_name m a e : member_ok e → header_at m a e → rd8 m a ≠ 0.
Proof.
  intros (Hne & _) ((Hb & Hc & _) & _). destruct (name e) as [|c l]; [done|].
  pose proof (Hc 0%nat c eq_refl) as Hr. rewrite Z.add_0_r in Hr. apply Forall_cons_1 in Hb as [? _]. lia.
Qed.

Lemma next_header_spec o e : 0 ≤ o < 2 ^ 63 → member_ok e →
  next_header o (Z.of_nat (length (data e))) = o + member_size e.
Proof.
  intros Ho (_ & _ & Hsz & _). unfold next_header, member_size.
  assert (8 ^ 11 = 2 ^ 33) as H8 by done. rewrite H8 in Hsz.
  set (n := Z.of_nat (length (data e))) in *. assert (0 ≤ n) by (unfold n; lia).
  assert (0 ≤ (n + 511) / 512 * 512 ≤ n + 511) as Hblocks by dlia.
  rewrite (u64_small (n + 511)) by lia. rewrite (u64_small ((n + 511) / 512 * 512)) by lia.
  rewrite (u64_small (512 + _)) by lia. apply u64_small. lia.
Qed.

Lemma member_size_pos e : 512 ≤ member_size e.
Proof. unfold member_size. dlia. Qed.

(** What the loop computes on an archive. *)
Fixpoint visit_all {A R} (visit : A → Z → Z → A + R) (o : Z) (es : list member) (acc : A) : A + R :=
  match es with
  | [] => inl acc
  | e :: es =>
      match visit acc o (Z.of_nat (length (data e))) with
      | inl acc => visit_all visit (o + member_size e) es acc
      | inr r => inr r
      end
  end.

Lemma walk_steps {A R} m fs (visit : A → Z → Z → A + R) es o acc :
  archive m fs o es → 0 ≤ o → ramdisk_size fs < 2 ^ 63 →
  steps (walk_step m fs visit) (S (length es)) (o, acc) = inr (visit_all visit o es acc).
Proof.
  revert o acc. induction es as [|e es IH]; intros o acc Ha Ho Hfs; cbn [steps visit_all length] in *.
  - unfold walk_step. destruct Ha as [Ha|Ha].
    + by destruct (Z.ltb_spec o (ramdisk_size fs)); [lia|].
    + rewrite Ha, Z.eqb_refl. by destruct (_ <? _).
  - destruct Ha as (Hlt & Hok & Hh & Ha). unfold walk_step at 1.
    destruct (Z.ltb_spec o (ramdisk_size fs)); [|lia].
    destruct (Z.eqb_spec (rd8 m (ramdisk_base fs + o)) 0) as [Hz|];
      [by destruct (header_name m _ e Hok Hh)|].
    rewrite (header_size m _ e) by done. destruct (visit _ _ _); [|done].
    rewrite next_header_spec by (done || lia). pose proof (member_size_pos e).
    apply IH; [done|lia|done].
Qed.

Lemma archive_length m fs o es :
  archive m fs o es → 0 ≤ o → ramdisk_size fs < 2 ^ 63 → 512 * Z.of_nat (length es) < 2 ^ 63 + 512.
Proof.
  intros Ha Ho Hfs. enough (es = [] ∨ o + 512 * (Z.of_nat (length es) - 1) < ramdisk_size fs) as [-> |?] by (cbn; lia).
  clear Hfs. revert o Ha Ho. induction es as [|e es IH]; intros o Ha Ho; [by left|]. right.
  destruct Ha as (Hlt & _ & _ & Ha). pose proof (member_size_pos e).
  destruct (IH _ Ha ltac:(lia)) as [-> |?]; cbn [length] in *; lia.
Qed.

Lemma walk_spec {A R} m fs (visit : A → Z → Z → A + R) es acc :
  mounted m fs es → walk m fs visit acc = inr (visit_all visit 0 es acc).
Proof.
  intros (_ & Hfs & Ha). unfold walk. rewrite while_steps.
  pose proof (archive_length _ _ _ _ Ha ltac:(lia) Hfs).
  rewrite (steps_mono _ (S (length es)) _ _ (visit_all visit 0 es acc)); [done| |].
  - apply walk_steps; (done || lia).
  - unfold addr_fuel. lia.
Qed.

Lemma names_equal_spec m a e p n :
  member_ok e → header_at m a e → cstr m p n → names_equal m a p = bool_decide (name e = n).
Proof.
  intros (_ & Hlen & _) ((Hb & Hc) & _) Hn. unfold names_equal.
  rewrite (strcmp_cstr m a p (name e) n) by (done || lia).
  pose proof (bytes_cmp_zero (name e) n Hb (proj1 Hn)) as Hz.
  case_bool_decide as He; destruct (Z.eqb_spec (bytes_cmp (name e) n) 0); tauto.
Qed.

(** Looking a name up. *)
Lemma find_visit {R} m fs es o p n (f : Z → Z → R) :
  archive m fs o es → cstr m p n →
  let visit := λ (_ : unit) offset size,
    if names_equal m (ramdisk_base fs + offset) p then inr (f offset size) else inl () in
  match find_member es n with
  | Some e => ∃ o', member_ok e ∧ header_at m (ramdisk_base fs + o') e ∧
      visit_all visit o es () = inr (f o' (Z.of_nat (length (data e))))
  | None => visit_all visit o es () = inl ()
  end.
Proof.
  intros Ha Hn visit. revert o Ha. induction es as [|e es IH]; intros o Ha; [done|].
  destruct Ha as (_ & Hok & Hh & Ha). cbn. unfold visit at 1 3.
  rewrite (names_equal_spec m _ e p n) by done. case_bool_decide; [by exists o|by apply IH].
Qed.

(** On a mounted archive, looking a name up finds the first member of that
    name: its size, and its bytes; a name the archive does not have gives size 0
    and result 0. *)
Theorem tar_lookup m fs es filename n :
  mounted m fs es → cstr m filename n →
  match find_member es n with
  | Some e =>
      tarfs_get_file_size m fs filename = Z.of_nat (length (data e)) ∧
      tarfs_read_file m fs filename = (s32 (Z.of_nat (length (data e))), data e)
  | None => tarfs_get_file_size m fs filename = 0 ∧ tarfs_read_file m fs filename = (0, [])
  end.
Proof.
  intros Hm Hn. pose proof Hm as (Hb & _ & Ha). unfold tarfs_get_file_size, tarfs_read_file.
  destruct (Z.eqb_spec (ramdisk_base fs) 0); [done|]. rewrite !(walk_spec m fs _ es) by done.
  pose proof (find_visit m fs es 0 filename n (λ _ size, size) Ha Hn) as Hs.
  pose proof (find_visit m fs es 0 filename n (λ o size,
    (s32 size, rd_bytes (Z.to_nat size) m (ramdisk_base fs + o + 512))) Ha Hn) as Hr.
  destruct (find_member es n) as [e|]; [|by rewrite Hs, Hr].
  destruct Hs as (o1 & _ & _ & ->), Hr as (o2 & _ & (_ & _ & _ & Hdata) & ->).
  by rewrite Nat2Z.id, Hdata.
Qed.

(** ** The bytes of an archive *)

(** The bytes from its start to the one that ends it. *)
Definition span (es : list member) : Z := foldr (λ e n, member_size e + n) 1 es.

Lemma span_pos es : 1 ≤ span es.
Proof.
  induction es as [|e es IH]; [done|]. change (span (e :: es)) with (member_size e + span es).
  pose proof (member_size_pos e). lia.
Qed.

Lemma rd_bytes_ext n m m' p :
  (∀ x, p ≤ x < p + Z.of_nat n → rd8 m' x = rd8 m x) → rd_bytes n m' p = rd_bytes n m p.
Proof.
  intros Hx. apply list_eq. intros i. destruct (decide (i < n)%nat).
  - rewrite !rd_bytes_lookup by done. f_equal. apply Hx. lia.
  - by rewrite !lookup_ge_None_2 by (rewrite length_rd_bytes; lia).
Qed.

Lemma cstr_ext m m' p l :
  (∀ x, p ≤ x ≤ p + Z.of_nat (length l) → rd8 m' x = rd8 m x) → cstr m p l → cstr m' p l.
Proof.
  intros Hx (Hb & Hc & Hz). split; [done|]. split; [|by rewrite Hx by lia].
  intros i c Hi. pose proof (lookup_lt_Some _ _ _ Hi). rewrite Hx by lia. by apply Hc.
Qed.

Lemma header_ext m m' a e :
  member_ok e → (∀ x, a ≤ x < a + member_size e → rd8 m' x = rd8 m x) → header_at m a e → header_at m' a e.
Proof.
  intros (_ & Hlen & _) Hx (Hn & Ho & Ht & Hd). unfold member_size in Hx.
  assert (0 ≤ (Z.of_nat (length (data e)) + 511) / 512 * 512 - Z.of_nat (length (data e))) by dlia.
  split; [|split; [|split]].
  - apply (cstr_ext m); [|done]. intros x Hr. apply Hx. lia.
  - rewrite <- Ho. apply rd_bytes_ext. unfold F_SIZE. intros x Hr. apply Hx. lia.
  - rewrite <- Ht. apply Hx. unfold F_TYPEFLAG. lia.
  - rewrite <- Hd at 2. rewrite <- Hd. rewrite !length_rd_bytes. apply rd_bytes_ext. intros x Hr. apply Hx. lia.
Qed.

Lemma archive_ext m m' fs o es :
  (∀ x, ramdisk_base fs + o ≤ x < ramdisk_base fs + o + span es → rd8 m' x = rd8 m x) →
  archive m fs o es → archive m' fs o es.
Proof.
  revert o. induction es as [|e es IH]; intros o Hx; cbn [archive].
  - change (span []) with 1 in Hx. intros [?|Hz]; [by left|right]. by rewrite Hx by lia.
  - intros (Ho & Hok & Hh & Ha). change (span (e :: es)) with (member_size e + span es) in Hx. pose proof (span_pos es). pose proof (member_size_pos e).
    split; [done|]. split; [done|]. split.
    + apply (header_ext m); [done| |done]. intros x Hr. apply Hx. lia.
    + apply IH; [|done]. intros x Hr. apply Hx. lia.
Qed.

Lemma mounted_ext m m' fs es :
  (∀ x, ramdisk_base fs ≤ x < ramdisk_base fs + span es → rd8 m' x = rd8 m x) →
  mounted m fs es → mounted m' fs es.
Proof.
  intros Hx (Hb & Hs & Ha). split; [done|]. split; [done|]. apply (archive_ext m); [|done].
  intros x. rewrite Z.add_0_r. apply Hx.
Qed.

(** ** Printing a member *)

Lemma cstr_drop m p l1 l2 : cstr m p (l1 ++ l2) → cstr m (p + Z.of_nat (length l1)) l2.
Proof.
  intros (Hb & Hc & Hz). apply Forall_app in Hb as [_ Hb]. split; [done|]. split.
  - intros i c Hi. rewrite <- (Hc (length l1 + i)%nat c).
    + f_equal. lia.
    + rewrite lookup_app_r by lia. by replace (length l1 + i - length l1)%nat with i by lia.
  - rewrite <- Hz. f_equal. rewrite length_app. lia.
Qed.

Lemma skip_blanks_spec m p k n :
  cstr m p (repeat 32 k ++ n) → head n ≠ Some 32 → Z.of_nat k < 2 ^ 63 →
  skip_blanks m p = inr (p + Z.of_nat k).
Proof.
  intros Hs Hn Hk. unfold skip_blanks. set (body := λ p, _). rewrite while_steps.
  assert (steps body (S k) p = inr (p + Z.of_nat k)) as Hsteps.
  { clear Hk. revert p Hs. induction k as [|k IH]; intros p Hs.
    - cbn [steps]. unfold body. rewrite Z.add_0_r. cbn [repeat app] in Hs.
      destruct (Z.eqb_spec (rd8 m p) 32) as [He|]; [|done]. destruct Hs as (_ & Hc & Hz).
      destruct n as [|c n]; cbn in Hz; [rewrite Z.add_0_r in Hz; lia|].
      pose proof (Hc 0%nat c eq_refl) as H0. rewrite Z.add_0_r in H0. destruct Hn. cbn. congruence.
    - change (steps body (S (S k)) p) with
        (match body p with inl s' => steps body (S k) s' | inr r => inr r end).
      unfold body at 1. pose proof (proj1 (proj2 Hs) 0%nat 32 eq_refl) as H0.
      rewrite Z.add_0_r in H0. rewrite H0, Z.eqb_refl.
      rewrite (IH (p + 1)); [f_equal; lia|]. apply (cstr_drop m p [32] (repeat 32 k ++ n)). exact Hs. }
  rewrite (steps_mono _ _ _ _ _ Hsteps); [done|]. unfold addr_fuel. lia.
Qed.

(** Typing a file, with blanks before its name, prints the bytes of the
    first member of that name without its carriage returns, and a line feed; a
    name the archive does not have gives a message. *)
Theorem tar_type m fs es filename k n :
  mounted m fs es → cstr m filename (repeat 32 k ++ n) → head n ≠ Some 32 → Z.of_nat k < 2 ^ 63 →
  tarfs_type m fs filename =
    match find_member es n with
    | Some e => List.filter not_cr (data e) ++ [10]
    | None => str "O sistema nao pode encontrar o arquivo especificado." ++ [10]
    end.
Proof.
  intros Hm Hs Hn Hk. pose proof Hm as (Hb & _ & Ha). unfold tarfs_type.
  destruct (Z.eqb_spec (ramdisk_base fs) 0); [done|]. rewrite (skip_blanks_spec m filename k n) by done.
  apply cstr_drop in Hs. rewrite repeat_length in Hs. rewrite (walk_spec m fs _ es) by done.
  pose proof (find_visit m fs es 0 _ n (λ o size, List.filter not_cr
    (rd_bytes (Z.to_nat size) m (ramdisk_base fs + o + 512)) ++ [10]) Ha Hs) as Hr.
  destruct (find_member es n) as [e|]; [|by rewrite Hr].
  destruct Hr as (o & _ & (_ & _ & _ & Hdata) & ->). by rewrite Nat2Z.id, Hdata.
Qed.

(** ** Listing *)

Definition is_file (e : member) : bool := negb (typeflag e =? 53).
Definition dir_line (e : member) : list Z := name e ++ str "    <ARQUIVO>" ++ [10].

Lemma string_at_spec m a l : cstr m a l → Z.of_nat (length l) < 2 ^ 64 → string_at m a = l.
Proof.
  intros Hs Hl. unfold string_at. rewrite (strlen_cstr m a l) by done. rewrite Nat2Z.id.
  apply list_eq. intros i. destruct (decide (i < length l)%nat) as [Hi|Hi].
  - rewrite rd_bytes_lookup by done. destruct (lookup_lt_is_Some_2 l i Hi) as [c Hc].
    by rewrite Hc, (proj1 (proj2 Hs) i c Hc).
  - by rewrite !lookup_ge_None_2 by (rewrite ?length_rd_bytes; lia).
Qed.

Lemma dir_visit m fs es o out count :
  archive m fs o es →
  visit_all (dir_body m fs) o es (out, count) =
  inl (out ++ concat (dir_line <$> List.filter is_file es),
       count + Z.of_nat (length (List.filter is_file es))).
Proof.
  revert o out count. induction es as [|e es IH]; intros o out count Ha.
  { cbn. by rewrite app_nil_r, Z.add_0_r. }
  destruct Ha as (_ & Hok & (Hname & _ & Hflag & _) & Ha). cbn [visit_all List.filter]. unfold dir_body at 1.
  rewrite Hflag. fold (is_file e). destruct (is_file e); [|by apply IH].
  destruct Hok as (_ & Hlen & _). rewrite (string_at_spec _ _ (name e)) by (done || lia).
  rewrite (IH _ _ _ Ha). cbn [fmap list_fmap concat length]. unfold dir_line at 2.
  rewrite <- !app_assoc. do 2 f_equal. lia.
Qed.

(** The listing names every member that is not a directory, in the order of
    the archive, and says so when there is none. *)
Theorem tar_dir m fs es :
  mounted m fs es →
  tarfs_dir m fs =
    [10] ++ str " Pasta de C:\" ++ [10; 10] ++ concat (dir_line <$> List.filter is_file es) ++
    match List.filter is_file es with
    | [] => str "Arquivo nao encontrado" ++ [10]
    | _ => [10]
    end.
Proof.
  intros Hm. pose proof Hm as (Hb & _ & Ha). unfold tarfs_dir.
  destruct (Z.eqb_spec (ramdisk_base fs) 0); [done|].
  rewrite (walk_spec m fs _ es) by done. rewrite (dir_visit m fs es 0 [] 0 Ha). cbn [app].
  destruct (List.filter is_file es) as [|e l]; [done|].
  by destruct (Z.eqb_spec (0 + Z.of_nat (length (e :: l))) 0); [cbn in *; lia|].
Qed.

(** ** A concrete archive *)

Definition demo_file : member := mk_member (str "A.TXT") 48 [104; 105; 13; 10].
Definition demo_dir : member := mk_member (str "bin/") 53 [].

Definition put_member (m : mem) (a : Z) (e : member) : mem :=
  let m := wr_bytes m a (name e) in
  let m := wr_bytes m (a + F_SIZE) (octal 11 (Z.of_nat (length (data e)))) in
  let m := wr8 m (a + F_TYPEFLAG) (typeflag e) in
  wr_bytes m (a + 512) (data e).

(** The archive at 4096, and the name "  A.TXT" at 64. *)
Definition demo_mem : mem :=
  wr_bytes (put_member (put_member ∅ 4096 demo_file) (4096 + 1024) demo_dir) 64 (str "  A.TXT").
Definition demo_fs : tarfs := mk_tarfs 4096 10240.

Lemma cstr_of m p l :
  rd_bytes (length l) m p = l → forallb (λ c, (0 <? c) && (c <? 256)) l = true →
  rd8 m (p + Z.of_nat (length l)) = 0 → cstr m p l.
Proof.
  intros Hl Hb Hz. split; [|split; [|done]].
  - apply List.Forall_forall. intros c Hc. rewrite forallb_forall in Hb. apply Hb in Hc. lia.
  - intros i c Hi. pose proof (lookup_lt_Some _ _ _ Hi) as Hlt. rewrite <- Hl, rd_bytes_lookup in Hi by done.
    by injection Hi.
Qed.

Lemma demo_mounted : mounted demo_mem demo_fs [demo_file; demo_dir].
Proof.
  assert (∀ e, Forall is_byte (data e) → (length (name e) <? 100)%nat = true →
    (Z.of_nat (length (data e)) <? 8 ^ 11) = true → name e ≠ [] → member_ok e) as Hok.
  { intros e ? ?%Nat.ltb_lt ?%Z.ltb_lt ?. done. }
  split; [done|]. split; [done|]. split; [done|]. split.
  { apply Hok; [repeat (constructor; [done|]); constructor|done|done|done]. }
  split.
  { split; [apply cstr_of; vm_compute; reflexivity|]. vm_compute. done. }
  split; [done|]. split; [apply Hok; [constructor|done|done|done]|]. split.
  { split; [apply cstr_of; vm_compute; reflexivity|]. vm_compute. done. }
  right. vm_compute. reflexivity.
Qed.

Lemma tar_lookup_witness :
  tarfs_get_file_size demo_mem demo_fs 66 = 4 ∧ tarfs_read_file demo_mem demo_fs 66 = (4, [104; 105; 13; 10]).
Proof.
  apply (tar_lookup demo_mem demo_fs [demo_file; demo_dir] 66 (str "A.TXT") demo_mounted).
  apply cstr_of; vm_compute; reflexivity.
Defined.

Lemma tar_type_witness : tarfs_type demo_mem demo_fs 64 = [104; 105; 10; 10].
Proof.
  apply (tar_type demo_mem demo_fs [demo_file; demo_dir] 64 2 (str "A.TXT") demo_mounted).
  - apply cstr_of; vm_compute; reflexivity.
  - discriminate.
  - vm_compute. reflexivity.
Defined.

Lemma tar_dir_witness :
  tarfs_dir demo_mem demo_fs =
    [10] ++ str " Pasta de C:\" ++ [10; 10] ++ str "A.TXT    <ARQUIVO>" ++ [10; 10].
Proof. exact (tar_dir demo_mem demo_fs [demo_file; demo_dir] demo_mounted). Defined.
