(* ===== verification/Shell.v ===== *)
(** The command loop of the kernel (src/kernel/main.c, [_start] after the
    initialisations).

    What a command does is done by the other parts of the kernel; the class
    [Services] lists them, and the loop is proved against any of them. Keys come
    from [keyboard_getchar] as a list; a turn of the loop that runs out of keys
    waits for more. [turn] says how a turn ends; [Overflow] is a write past the
    end of [args]. *)

From S2P Require Export Io.
Open Scope Z_scope.

Class Services (W : Type) := {
  vga_print : W → list Z → W;
  vga_putchar : W → Z → W;
  vga_clear : W → W;
  tarfs_dir : W → W;
  fat16_dir : W → W;
  tarfs_type : W → list Z → W;
  process_exec : W → list Z → option (list Z) → W;
  fat16_delete_file : W → list Z → Z * W;
  acpi_poweroff : W → W;
  inb : W → Z → Z * W;
  outb : W → Z → Z → W;
}.

Inductive turn (W : Type) :=
  | Next (w : W) (keys : list Z)     (* the prompt is printed again *)
  | Waiting (w : W)                  (* no key left *)
  | Halted (w : W)                   (* [cli; hlt] *)
  | Overflow.
Arguments Next {W}. Arguments Waiting {W}. Arguments Halted {W}. Arguments Overflow {W}.

(** [char command[256]]: the index of the last byte is kept for the NUL. *)
Definition COMMAND_MAX : Z := 255.
Definition NAME_MAX : Z := 31.
Definition ARGS_SIZE : Z := 224.

Section Shell.
Context {W : Type} `{Services W}.

(** The inner loop: [None] when the keys run out before a line feed. [cmd] is
    what [command] holds. *)
Fixpoint read_command (w : W) (keys cmd : list Z) : W * option (list Z * list Z) :=
  match keys with
  | [] => (w, None)
  | c :: keys =>
      if c =? 10 then (vga_putchar w 10, Some (cmd, keys))
      else if c =? 8 then
        if 0 <? Z.of_nat (length cmd) then read_command (vga_putchar w 8) keys (removelast cmd)
        else read_command w keys cmd
      else
        read_command (vga_putchar w c) keys
          (if Z.of_nat (length cmd) <? COMMAND_MAX then cmd ++ [c] else cmd)
  end.

(** The index of the first blank, or -1. *)
Fixpoint space_from (i : Z) (cmd : list Z) : Z :=
  match cmd with
  | [] => -1
  | c :: cmd => if c =? 32 then i else space_from (i + 1) cmd
  end.
Definition space_idx (cmd : list Z) : Z := space_from 0 cmd.

(** [cmd_name] and [args]; [None]: [args] overflows. *)
Definition split_command (cmd : list Z) : option (list Z * list Z) :=
  let space := space_idx cmd in
  if negb (space =? -1) then
    let len := if space <? NAME_MAX then space else NAME_MAX in
    let args := drop (Z.to_nat (space + 1)) cmd in
    if Z.of_nat (length args) <? ARGS_SIZE then Some (take (Z.to_nat len) cmd, args) else None
  else
    let len := if Z.of_nat (length cmd) <? NAME_MAX then Z.of_nat (length cmd) else NAME_MAX in
    Some (take (Z.to_nat len) cmd, []).

(** [strcmp(cmd_name, s) == 0]; the characters of a command are never NUL. *)
Definition is_cmd (cmd_name : list Z) (s : string) : bool := bool_decide (cmd_name = str s).

(** The wait for the keyboard controller, at most [fuel] times. *)
Definition wait_controller (fuel : positive) (w : W) : option W :=
  match
    while (λ '(good, w), if negb (good .& 2 =? 0) then inl (inb w 0x64) else inr w) fuel (2, w)
  with
  | inr w => Some w
  | inl _ => None
  end.

(** [fuel]: how often the controller is polled before a reboot is given up in
    the model; the code polls for ever. *)
Definition run_command (fuel : positive) (w : W) (keys cmd_name args : list Z) : turn W :=
  if is_cmd cmd_name "echo" then Next (vga_print (vga_print w args) [10]) keys
  else if is_cmd cmd_name "cls" || is_cmd cmd_name "clear" then Next (vga_clear w) keys
  else if is_cmd cmd_name "dir" then Next (fat16_dir (tarfs_dir w)) keys
  else if is_cmd cmd_name "edit" then Next (process_exec w (str "bin/editor.elf") (Some args)) keys
  else if is_cmd cmd_name "lisp" then Next (process_exec w (str "bin/lisp.elf") (Some args)) keys
  else if is_cmd cmd_name "type" then Next (tarfs_type w args) keys
  else if is_cmd cmd_name "exec" then Next (process_exec w args None) keys
  else if is_cmd cmd_name "rm" then
    match args with
    | [] => Next (vga_print w (str "Sintaxe: rm <arquivo>" ++ [10])) keys
    | _ =>
        let '(status, w) := fat16_delete_file w args in
        if status =? 1 then Next (vga_print w (str "Arquivo removido." ++ [10])) keys
        else Next (vga_print w (str "Arquivo nao encontrado ou erro ao remover." ++ [10])) keys
    end
  else if is_cmd cmd_name "poweroff" || is_cmd cmd_name "exit" then
    let w := vga_print w (str "Sincronizando discos e buffers na RAM..." ++ [10]) in
    let w := vga_print w (str "Sincronizacao completa." ++ [10]) in
    let w := vga_print w (str "Desligando o sistema..." ++ [10]) in
    Halted (acpi_poweroff w)
  else if is_cmd cmd_name "reboot" then
    let w := vga_print w (str "Reiniciando o sistema..." ++ [10]) in
    match wait_controller fuel w with
    | Some w => Halted (outb w 0x64 0xFE)
    | None => Waiting w
    end
  else Next (vga_print w (str "Comando invalido ou nome de arquivo incorreto" ++ [10])) keys.

(** One turn of the outer loop. *)
Definition shell_turn (fuel : positive) (w : W) (keys : list Z) : turn W :=
  let w := vga_print w (str "C:\> ") in
  match read_command w keys [] with
  | (w, None) => Waiting w
  | (w, Some (cmd, keys)) =>
      match cmd with
      | [] => Next w keys
      | _ =>
          match split_command cmd with
          | Some (cmd_name, args) => run_command fuel w keys cmd_name args
          | None => Overflow
          end
      end
  end.

(** The loop, for at most [n] turns. *)
Fixpoint shell_loop (fuel : positive) (n : nat) (w : W) (keys : list Z) : turn W :=
  match n with
  | O => Next w keys
  | S n =>
      match shell_turn fuel w keys with
      | Next w keys => shell_loop fuel n w keys
      | r => r
      end
  end.

(** ** The line editor *)

(** The line the keys leave: a backspace takes back the last character, and
    characters typed into a full line are lost. *)
Definition type_key (cmd : list Z) (c : Z) : list Z :=
  if c =? 8 then removelast cmd
  else if Z.of_nat (length cmd) <? COMMAND_MAX then cmd ++ [c] else cmd.
Definition typed (keys : list Z) : list Z := fold_left type_key keys [].

(** What the keys print. *)
Fixpoint echo (w : W) (keys cmd : list Z) : W :=
  match keys with
  | [] => w
  | c :: keys =>
      echo (if (c =? 8) && bool_decide (cmd = []) then w else vga_putchar w c) keys (type_key cmd c)
  end.

Lemma read_command_spec w keys rest cmd :
  Forall (λ c, c ≠ 10) keys →
  read_command w (keys ++ 10 :: rest) cmd =
    (vga_putchar (echo w keys cmd) 10, Some (fold_left type_key keys cmd, rest)).
Proof.
  intros Hk. revert w cmd. induction Hk as [|c keys Hc Hk IH]; intros w cmd; [done|].
  cbn [app read_command fold_left echo]. destruct (Z.eqb_spec c 10); [done|].
  assert (type_key cmd c = if c =? 8 then removelast cmd
    else if Z.of_nat (length cmd) <? COMMAND_MAX then cmd ++ [c] else cmd) as -> by done.
  destruct (Z.eqb_spec c 8) as [-> |]; cbn [andb]; [|by rewrite IH].
  destruct cmd as [|d cmd]; [rewrite bool_decide_true by done; by apply IH|].
  rewrite bool_decide_false by done. destruct (Z.ltb_spec 0 (Z.of_nat (length (d :: cmd)))); [by rewrite IH|].
  cbn in *. lia.
Qed.

Lemma length_type_key cmd c : (length cmd ≤ 255)%nat → (length (type_key cmd c) ≤ 255)%nat.
Proof.
  intros Hl. unfold type_key, COMMAND_MAX. destruct (c =? 8).
  - destruct (decide (cmd = [])) as [-> |Hne]; [done|].
    rewrite (app_removelast_last 0 Hne), length_app in Hl. lia.
  - destruct (Z.ltb_spec (Z.of_nat (length cmd)) 255); [rewrite length_app; cbn; lia|done].
Qed.

Lemma length_typed keys cmd : (length cmd ≤ 255)%nat → (length (fold_left type_key keys cmd) ≤ 255)%nat.
Proof.
  revert cmd. induction keys as [|c keys IH]; intros cmd Hl; [done|]. by apply IH, length_type_key.
Qed.

(** ** Splitting the line *)

Lemma space_from_none i cmd : Forall (λ c, c ≠ 32) cmd → space_from i cmd = -1.
Proof.
  intros Hc. revert i. induction Hc as [|c cmd Hc _ IH]; intros i; [done|]. cbn.
  destruct (Z.eqb_spec c 32); [done|apply IH].
Qed.

Lemma space_from_at i name args :
  Forall (λ c, c ≠ 32) name → space_from i (name ++ 32 :: args) = i + Z.of_nat (length name).
Proof.
  intros Hc. revert i. induction Hc as [|c name Hc _ IH]; intros i; cbn; [lia|].
  destruct (Z.eqb_spec c 32); [done|]. rewrite IH. lia.
Qed.

Lemma split_args name args :
  Forall (λ c, c ≠ 32) name →
  split_command (name ++ 32 :: args) =
    if Z.of_nat (length args) <? ARGS_SIZE then Some (take 31 name, args) else None.
Proof.
  intros Hn. unfold split_command, space_idx. rewrite space_from_at by done. rewrite Z.add_0_l.
  destruct (Z.eqb_spec (Z.of_nat (length name)) (-1)); [lia|]. cbn [negb].
  assert (drop (Z.to_nat (Z.of_nat (length name) + 1)) (name ++ 32 :: args) = args) as ->.
  { replace (Z.to_nat _) with (length name + 1)%nat by lia. by rewrite <- drop_drop, drop_app_length. }
  destruct (Z.of_nat (length args) <? ARGS_SIZE); [|done]. do 2 f_equal. unfold NAME_MAX.
  destruct (Z.ltb_spec (Z.of_nat (length name)) 31).
  - rewrite Nat2Z.id, take_app_length. by rewrite take_ge by lia.
  - change (Z.to_nat 31) with 31%nat. by rewrite take_app_le by lia.
Qed.

Lemma split_plain name : Forall (λ c, c ≠ 32) name → split_command name = Some (take 31 name, []).
Proof.
  intros Hn. unfold split_command, space_idx. rewrite space_from_none by done. cbn [negb Z.eqb].
  do 2 f_equal. unfold NAME_MAX. destruct (Z.ltb_spec (Z.of_nat (length name)) 31).
  - rewrite Nat2Z.id. by rewrite firstn_all, take_ge by lia.
  - done.
Qed.
End Shell.

(** ** The command line *)

(** The text before the first blank and the text after it. *)
Fixpoint words (l : list Z) : list Z * list Z :=
  match l with
  | [] => ([], [])
  | c :: l => if c =? 32 then ([], l) else let '(name, args) := words l in (c :: name, args)
  end.

Lemma words_spec l name args : words l = (name, args) →
  Forall (λ c, c ≠ 32) name ∧ (l = name ++ 32 :: args ∨ (l = name ∧ args = [])).
Proof.
  revert name args. induction l as [|c l IH]; intros name args; cbn [words].
  { intros [= <- <-]. split; [constructor|by right]. }
  destruct (Z.eqb_spec c 32) as [-> |Hc]; [intros [= <- <-]; split; [constructor|by left]|].
  destruct (words l) as [n a]. intros [= <- <-]. destruct (IH n a eq_refl) as [Hn Hl].
  split; [by constructor|]. destruct Hl as [-> |[-> ->]]; [by left|by right].
Qed.

Lemma split_words l :
  split_command l =
    let '(name, args) := words l in
    if Z.of_nat (length args) <? ARGS_SIZE then Some (take 31 name, args) else None.
Proof.
  destruct (words l) as [name args] eqn:Hw. apply words_spec in Hw as [Hn [-> |[-> ->]]].
  - by apply split_args.
  - by apply split_plain.
Qed.

Section Turn.
Context {W : Type} `{Services W}.

(** What the screen shows of a line: the prompt, the keys, a line feed. *)
Definition shown_line (w : W) (keys : list Z) : W :=
  vga_putchar (echo (vga_print w (str "C:\> ")) keys []) 10.

Lemma shell_turn_typed fuel w keys rest :
  Forall (λ c, c ≠ 10) keys →
  shell_turn fuel w (keys ++ 10 :: rest) =
    match typed keys with
    | [] => Next (shown_line w keys) rest
    | line =>
        let '(name, args) := words line in
        if Z.of_nat (length args) <? ARGS_SIZE
        then run_command fuel (shown_line w keys) rest (take 31 name) args else Overflow
    end.
Proof.
  intros Hk. unfold shell_turn. rewrite read_command_spec by done. fold (typed keys).
  destruct (typed keys) as [|c l] eqn:Ht; [done|]. rewrite split_words.
  destruct (words (c :: l)) as [name args]. by destruct (_ <? ARGS_SIZE).
Qed.

(** A line of keys runs the command whose name is the text typed before the
    first blank, cut to 31 characters, with the text after that blank as
    arguments; an empty line does nothing. The text is what the backspaces
    leave of the keys, at most 255 characters. *)
Theorem shell_line fuel w keys rest :
  Forall (λ c, c ≠ 10) keys → Z.of_nat (length (words (typed keys)).2) < ARGS_SIZE →
  (length (typed keys) ≤ 255)%nat ∧
  shell_turn fuel w (keys ++ 10 :: rest) =
    if bool_decide (typed keys = []) then Next (shown_line w keys) rest
    else run_command fuel (shown_line w keys) rest (take 31 (words (typed keys)).1) (words (typed keys)).2.
Proof.
  intros Hk Hargs. split; [apply length_typed; cbn; lia|]. rewrite shell_turn_typed by done.
  destruct (typed keys) as [|c l]; [by rewrite bool_decide_true|]. rewrite bool_decide_false by done.
  destruct (words (c :: l)) as [name args]. cbn [fst snd] in *.
  by destruct (Z.ltb_spec (Z.of_nat (length args)) ARGS_SIZE); [|lia].
Qed.

(** A line whose arguments have 224 characters or more is copied past the
    end of [args], whatever the command: the array has room for 223 and the NUL,
    and a line has room for 255. *)
Theorem shell_args_overflow fuel w keys rest :
  Forall (λ c, c ≠ 10) keys → ARGS_SIZE ≤ Z.of_nat (length (words (typed keys)).2) →
  shell_turn fuel w (keys ++ 10 :: rest) = Overflow.
Proof.
  intros Hk Hargs. rewrite shell_turn_typed by done.
  destruct (typed keys) as [|c l]; [done|]. destruct (words (c :: l)) as [name args]. cbn [fst snd] in *.
  by destruct (Z.ltb_spec (Z.of_nat (length args)) ARGS_SIZE); [lia|].
Qed.
End Turn.

(** ** A recorded run *)

Inductive event :=
  | EPrint (s : list Z) | EPut (c : Z) | EClear | ETarDir | EFatDir | EType (s : list Z)
  | EExec (f : list Z) (a : option (list Z)) | EDelete (f : list Z) | EPoweroff
  | EIn (port : Z) | EOut (port v : Z).

#[export] Instance recorder : Services (list event) := {
  vga_print w s := w ++ [EPrint s];
  vga_putchar w c := w ++ [EPut c];
  vga_clear w := w ++ [EClear];
  tarfs_dir w := w ++ [ETarDir];
  fat16_dir w := w ++ [EFatDir];
  tarfs_type w s := w ++ [EType s];
  process_exec w f a := w ++ [EExec f a];
  fat16_delete_file w f := (1, w ++ [EDelete f]);
  acpi_poweroff w := w ++ [EPoweroff];
  inb w p := (0, w ++ [EIn p]);
  outb w p v := w ++ [EOut p v];
}.

(** "rx", a backspace, "m a b". *)
Definition demo_keys : list Z := str "rx" ++ [8] ++ str "m a b".

Lemma plain_keys (l : list Z) : forallb (λ c, negb (c =? 10)) l = true → Forall (λ c, c ≠ 10) l.
Proof.
  intros Hl. apply List.Forall_forall. intros c Hc. rewrite forallb_forall in Hl. apply Hl in Hc.
  apply negb_true_iff in Hc. lia.
Qed.

Lemma shell_line_witness :
  shell_turn 5 [] (demo_keys ++ [10]) =
    Next (shown_line [] demo_keys ++ [EDelete (str "a b"); EPrint (str "Arquivo removido." ++ [10])]) [].
Proof.
  destruct (shell_line 5 [] demo_keys []) as [_ Ht].
  - apply plain_keys. vm_compute. reflexivity.
  - vm_compute. reflexivity.
  - rewrite Ht. vm_compute. reflexivity.
Defined.

Lemma shell_args_overflow_witness :
  shell_turn 5 ([] : list event) (str "echo " ++ repeat 120 224 ++ [10]) = Overflow.
Proof.
  apply (shell_args_overflow 5 [] (str "echo " ++ repeat 120 224) []).
  - apply plain_keys. vm_compute. reflexivity.
  - vm_compute. discriminate.
Defined.
