(* ===== verification/Vga.v ===== *)
(** The text screen (src/hal/vga.c) and its font (src/hal/font8x8_basic.h).

    [vga] holds the static variables of vga.c, the pixels of the frame buffer
    (an array of 32-bit words, indexed as the C array is, so that a write outside
    the screen is visible; what other memory it would hit is not modelled, and
    [draws_inside] says when there is none), and what was sent to the serial port. The bytes
    after the font, which the code reads for characters from 128 on, are the
    parameter [after_font]. *)

From S2P Require Export Io.
Open Scope Z_scope.

Definition font8x8_basic : list (list Z) :=
  [[0x00; 0x00; 0x00; 0x00; 0x00; 0x00; 0x00; 0x00];
   [0x00; 0x00; 0x00; 0x00; 0x00; 0x00; 0x00; 0x00];
   [0x00; 0x00; 0x00; 0x00; 0x00; 0x00; 0x00; 0x00];
   [0x00; 0x00; 0x00; 0x00; 0x00; 0x00; 0x00; 0x00];
   [0x00; 0x00; 0x00; 0x00; 0x00; 0x00; 0x00; 0x00];
   [0x00; 0x00; 0x00; 0x00; 0x00; 0x00; 0x00; 0x00];
   [0x00; 0x00; 0x00; 0x00; 0x00; 0x00; 0x00; 0x00];
   [0x00; 0x00; 0x00; 0x00; 0x00; 0x00; 0x00; 0x00];
   [0x00; 0x00; 0x00; 0x00; 0x00; 0x00; 0x00; 0x00];
   [0x00; 0x00; 0x00; 0x00; 0x00; 0x00; 0x00; 0x00];
   [0x00; 0x00; 0x00; 0x00; 0x00; 0x00; 0x00; 0x00];
   [0x00; 0x00; 0x00; 0x00; 0x00; 0x00; 0x00; 0x00];
   [0x00; 0x00; 0x00; 0x00; 0x00; 0x00; 0x00; 0x00];
   [0x00; 0x00; 0x00; 0x00; 0x00; 0x00; 0x00; 0x00];
   [0x00; 0x00; 0x00; 0x00; 0x00; 0x00; 0x00; 0x00];
   [0x00; 0x00; 0x00; 0x00; 0x00; 0x00; 0x00; 0x00];
   [0x00; 0x00; 0x00; 0x00; 0x00; 0x00; 0x00; 0x00];
   [0x00; 0x00; 0x00; 0x00; 0x00; 0x00; 0x00; 0x00];
   [0x00; 0x00; 0x00; 0x00; 0x00; 0x00; 0x00; 0x00];
   [0x00; 0x00; 0x00; 0x00; 0x00; 0x00; 0x00; 0x00];
   [0x00; 0x00; 0x00; 0x00; 0x00; 0x00; 0x00; 0x00];
   [0x00; 0x00; 0x00; 0x00; 0x00; 0x00; 0x00; 0x00];
   [0x00; 0x00; 0x00; 0x00; 0x00; 0x00; 0x00; 0x00];
   [0x00; 0x00; 0x00; 0x00; 0x00; 0x00; 0x00; 0x00];
   [0x00; 0x00; 0x00; 0x00; 0x00; 0x00; 0x00; 0x00];
   [0x00; 0x00; 0x00; 0x00; 0x00; 0x00; 0x00; 0x00];
   [0x00; 0x00; 0x00; 0x00; 0x00; 0x00; 0x00; 0x00];
   [0x00; 0x00; 0x00; 0x00; 0x00; 0x00; 0x00; 0x00];
   [0x00; 0x00; 0x00; 0x00; 0x00; 0x00; 0x00; 0x00];
   [0x00; 0x00; 0x00; 0x00; 0x00; 0x00; 0x00; 0x00];
   [0x00; 0x00; 0x00; 0x00; 0x00; 0x00; 0x00; 0x00];
   [0x00; 0x00; 0x00; 0x00; 0x00; 0x00; 0x00; 0x00];
   [0x00; 0x00; 0x00; 0x00; 0x00; 0x00; 0x00; 0x00];
   [0x18; 0x3C; 0x3C; 0x18; 0x18; 0x00; 0x18; 0x00];
   [0x36; 0x36; 0x00; 0x00; 0x00; 0x00; 0x00; 0x00];
   [0x36; 0x36; 0x7F; 0x36; 0x7F; 0x36; 0x36; 0x00];
   [0x0C; 0x3E; 0x03; 0x1E; 0x30; 0x1F; 0x0C; 0x00];
   [0x00; 0x63; 0x33; 0x18; 0x0C; 0x66; 0x63; 0x00];
   [0x1C; 0x36; 0x1C; 0x6E; 0x3B; 0x33; 0x6E; 0x00];
   [0x06; 0x06; 0x03; 0x00; 0x00; 0x00; 0x00; 0x00];
   [0x18; 0x0C; 0x06; 0x06; 0x06; 0x0C; 0x18; 0x00];
   [0x06; 0x0C; 0x18; 0x18; 0x18; 0x0C; 0x06; 0x00];
   [0x00; 0x66; 0x3C; 0xFF; 0x3C; 0x66; 0x00; 0x00];
   [0x00; 0x0C; 0x0C; 0x3F; 0x0C; 0x0C; 0x00; 0x00];
   [0x00; 0x00; 0x00; 0x00; 0x00; 0x0C; 0x0C; 0x06];
   [0x00; 0x00; 0x00; 0x3F; 0x00; 0x00; 0x00; 0x00];
   [0x00; 0x00; 0x00; 0x00; 0x00; 0x0C; 0x0C; 0x00];
   [0x60; 0x30; 0x18; 0x0C; 0x06; 0x03; 0x01; 0x00];
   [0x3E; 0x63; 0x73; 0x7B; 0x6F; 0x67; 0x3E; 0x00];
   [0x0C; 0x0E; 0x0C; 0x0C; 0x0C; 0x0C; 0x3F; 0x00];
   [0x1E; 0x33; 0x30; 0x1C; 0x06; 0x33; 0x3F; 0x00];
   [0x1E; 0x33; 0x30; 0x1C; 0x30; 0x33; 0x1E; 0x00];
   [0x38; 0x3C; 0x36; 0x33; 0x7F; 0x30; 0x78; 0x00];
   [0x3F; 0x03; 0x1F; 0x30; 0x30; 0x33; 0x1E; 0x00];
   [0x1C; 0x06; 0x03; 0x1F; 0x33; 0x33; 0x1E; 0x00];
   [0x3F; 0x33; 0x30; 0x18; 0x0C; 0x0C; 0x0C; 0x00];
   [0x1E; 0x33; 0x33; 0x1E; 0x33; 0x33; 0x1E; 0x00];
   [0x1E; 0x33; 0x33; 0x3E; 0x30; 0x18; 0x0E; 0x00];
   [0x00; 0x0C; 0x0C; 0x00; 0x00; 0x0C; 0x0C; 0x00];
   [0x00; 0x0C; 0x0C; 0x00; 0x00; 0x0C; 0x0C; 0x06];
   [0x18; 0x0C; 0x06; 0x03; 0x06; 0x0C; 0x18; 0x00];
   [0x00; 0x00; 0x3F; 0x00; 0x00; 0x3F; 0x00; 0x00];
   [0x06; 0x0C; 0x18; 0x30; 0x18; 0x0C; 0x06; 0x00];
   [0x1E; 0x33; 0x30; 0x18; 0x0C; 0x00; 0x0C; 0x00];
   [0x3E; 0x63; 0x7B; 0x7B; 0x7B; 0x03; 0x1E; 0x00];
   [0x0C; 0x1E; 0x33; 0x33; 0x3F; 0x33; 0x33; 0x00];
   [0x3F; 0x66; 0x66; 0x3E; 0x66; 0x66; 0x3F; 0x00];
   [0x3C; 0x66; 0x03; 0x03; 0x03; 0x66; 0x3C; 0x00];
   [0x1F; 0x36; 0x66; 0x66; 0x66; 0x36; 0x1F; 0x00];
   [0x7F; 0x46; 0x16; 0x1E; 0x16; 0x46; 0x7F; 0x00];
   [0x7F; 0x46; 0x16; 0x1E; 0x16; 0x06; 0x0F; 0x00];
   [0x3C; 0x66; 0x03; 0x03; 0x73; 0x66; 0x7C; 0x00];
   [0x33; 0x33; 0x33; 0x3F; 0x33; 0x33; 0x33; 0x00];
   [0x1E; 0x0C; 0x0C; 0x0C; 0x0C; 0x0C; 0x1E; 0x00];
   [0x78; 0x30; 0x30; 0x30; 0x33; 0x33; 0x1E; 0x00];
   [0x67; 0x66; 0x36; 0x1E; 0x36; 0x66; 0x67; 0x00];
   [0x0F; 0x06; 0x06; 0x06; 0x46; 0x66; 0x7F; 0x00];
   [0x63; 0x77; 0x7F; 0x7F; 0x6B; 0x63; 0x63; 0x00];
   [0x63; 0x67; 0x6F; 0x7B; 0x73; 0x63; 0x63; 0x00];
   [0x1C; 0x36; 0x63; 0x63; 0x63; 0x36; 0x1C; 0x00];
   [0x3F; 0x66; 0x66; 0x3E; 0x06; 0x06; 0x0F; 0x00];
   [0x1E; 0x33; 0x33; 0x33; 0x3B; 0x1E; 0x38; 0x00];
   [0x3F; 0x66; 0x66; 0x3E; 0x36; 0x66; 0x67; 0x00];
   [0x1E; 0x33; 0x07; 0x0E; 0x38; 0x33; 0x1E; 0x00];
   [0x3F; 0x2D; 0x0C; 0x0C; 0x0C; 0x0C; 0x1E; 0x00];
   [0x33; 0x33; 0x33; 0x33; 0x33; 0x33; 0x3F; 0x00];
   [0x33; 0x33; 0x33; 0x33; 0x33; 0x1E; 0x0C; 0x00];
   [0x63; 0x63; 0x63; 0x6B; 0x7F; 0x77; 0x63; 0x00];
   [0x63; 0x63; 0x36; 0x1C; 0x1C; 0x36; 0x63; 0x00];
   [0x33; 0x33; 0x33; 0x1E; 0x0C; 0x0C; 0x1E; 0x00];
   [0x7F; 0x63; 0x31; 0x18; 0x4C; 0x66; 0x7F; 0x00];
   [0x1E; 0x06; 0x06; 0x06; 0x06; 0x06; 0x1E; 0x00];
   [0x03; 0x06; 0x0C; 0x18; 0x30; 0x60; 0x40; 0x00];
   [0x1E; 0x18; 0x18; 0x18; 0x18; 0x18; 0x1E; 0x00];
   [0x08; 0x1C; 0x36; 0x63; 0x00; 0x00; 0x00; 0x00];
   [0x00; 0x00; 0x00; 0x00; 0x00; 0x00; 0x00; 0xFF];
   [0x0C; 0x0C; 0x18; 0x00; 0x00; 0x00; 0x00; 0x00];
   [0x00; 0x00; 0x1E; 0x30; 0x3E; 0x33; 0x6E; 0x00];
   [0x07; 0x06; 0x06; 0x3E; 0x66; 0x66; 0x3B; 0x00];
   [0x00; 0x00; 0x1E; 0x33; 0x03; 0x33; 0x1E; 0x00];
   [0x38; 0x30; 0x30; 0x3e; 0x33; 0x33; 0x6E; 0x00];
   [0x00; 0x00; 0x1E; 0x33; 0x3f; 0x03; 0x1E; 0x00];
   [0x1C; 0x36; 0x06; 0x0f; 0x06; 0x06; 0x0F; 0x00];
   [0x00; 0x00; 0x6E; 0x33; 0x33; 0x3E; 0x30; 0x1F];
   [0x07; 0x06; 0x36; 0x6E; 0x66; 0x66; 0x67; 0x00];
   [0x0C; 0x00; 0x0E; 0x0C; 0x0C; 0x0C; 0x1E; 0x00];
   [0x30; 0x00; 0x30; 0x30; 0x30; 0x33; 0x33; 0x1E];
   [0x07; 0x06; 0x66; 0x36; 0x1E; 0x36; 0x67; 0x00];
   [0x0E; 0x0C; 0x0C; 0x0C; 0x0C; 0x0C; 0x1E; 0x00];
   [0x00; 0x00; 0x33; 0x7F; 0x7F; 0x6B; 0x63; 0x00];
   [0x00; 0x00; 0x1F; 0x33; 0x33; 0x33; 0x33; 0x00];
   [0x00; 0x00; 0x1E; 0x33; 0x33; 0x33; 0x1E; 0x00];
   [0x00; 0x00; 0x3B; 0x66; 0x66; 0x3E; 0x06; 0x0F];
   [0x00; 0x00; 0x6E; 0x33; 0x33; 0x3E; 0x30; 0x78];
   [0x00; 0x00; 0x3B; 0x6E; 0x66; 0x06; 0x0F; 0x00];
   [0x00; 0x00; 0x3E; 0x03; 0x1E; 0x30; 0x1F; 0x00];
   [0x08; 0x0C; 0x3E; 0x0C; 0x0C; 0x2C; 0x18; 0x00];
   [0x00; 0x00; 0x33; 0x33; 0x33; 0x33; 0x6E; 0x00];
   [0x00; 0x00; 0x33; 0x33; 0x33; 0x1E; 0x0C; 0x00];
   [0x00; 0x00; 0x63; 0x6B; 0x7F; 0x7F; 0x36; 0x00];
   [0x00; 0x00; 0x63; 0x36; 0x1C; 0x36; 0x63; 0x00];
   [0x00; 0x00; 0x33; 0x33; 0x33; 0x3E; 0x30; 0x1F];
   [0x00; 0x00; 0x3F; 0x19; 0x0C; 0x26; 0x3F; 0x00];
   [0x38; 0x0C; 0x0C; 0x07; 0x0C; 0x0C; 0x38; 0x00];
   [0x18; 0x18; 0x18; 0x00; 0x18; 0x18; 0x18; 0x00];
   [0x07; 0x0C; 0x0C; 0x38; 0x0C; 0x0C; 0x07; 0x00];
   [0x6E; 0x3B; 0x00; 0x00; 0x00; 0x00; 0x00; 0x00];
   [0x00; 0x00; 0x00; 0x00; 0x00; 0x00; 0x00; 0x00]].

Record framebuffer := mk_fb { width : Z; height : Z; pitch : Z }.

Record vga := mk_vga {
  fb : option framebuffer;
  terminal_row : Z;
  terminal_column : Z;
  fg_color : Z;
  bg_color : Z;
  pixels : gmap Z Z;
  serial : list Z;
}.

Definition FONT_SCALE : Z := 2.

Definition set_cell (v : vga) (row col : Z) : vga :=
  mk_vga (fb v) row col (fg_color v) (bg_color v) (pixels v) (serial v).
Definition set_pixels (v : vga) (m : gmap Z Z) : vga :=
  mk_vga (fb v) (terminal_row v) (terminal_column v) (fg_color v) (bg_color v) m (serial v).

Definition vga_clear (v : vga) : vga :=
  match fb v with
  | None => v
  | Some f =>
      let m := for_each (Z.to_nat (u64 (width f * height f))) 0
        (λ i m, <[i := bg_color v]> m) (pixels v) in
      set_cell (set_pixels v m) 0 0
  end.

(** Before [vga_init], [fb] is NULL and the colours are green on black. *)
Definition vga_boot : vga := mk_vga None 0 0 0x00FF00 0x000000 ∅ [].

(** [framebuffers]: what the boot loader reports. *)
Definition vga_init (v : vga) (framebuffers : option (list framebuffer)) : vga :=
  match framebuffers with
  | Some (f :: _) =>
      vga_clear (mk_vga (Some f) (terminal_row v) (terminal_column v) (fg_color v) (bg_color v)
        (pixels v) (serial v))
  | _ => v
  end.

Definition vga_set_cursor (v : vga) (row col : Z) : vga := set_cell v row col.

Definition max_rows (f : framebuffer) : Z := height f / (8 * FONT_SCALE).
Definition max_cols (f : framebuffer) : Z := width f / (8 * FONT_SCALE).
Definition vga_get_max_rows (v : vga) : Z := match fb v with None => 25 | Some f => max_rows f end.
Definition vga_get_max_cols (v : vga) : Z := match fb v with None => 80 | Some f => max_cols f end.

Definition colors : list Z :=
  [0x000000; 0x0000AA; 0x00AA00; 0x00AAAA; 0xAA0000; 0xAA00AA; 0xAA5500; 0xAAAAAA;
   0x555555; 0x5555FF; 0x55FF55; 0x55FFFF; 0xFF5555; 0xFF55FF; 0xFFFF55; 0xFFFFFF].

(** The parameters are [uint8_t]. *)
Definition vga_set_color (v : vga) (fg bg : Z) : vga :=
  mk_vga (fb v) (terminal_row v) (terminal_column v)
    (at_ colors (u8 fg .& 0x0F)) (at_ colors (u8 bg .& 0x0F)) (pixels v) (serial v).

(** The store to pixel [x] of row [y]. *)
Definition put_pixel (f : framebuffer) (m : gmap Z Z) (y x color : Z) : gmap Z Z :=
  <[u64 (u64 (y * (pitch f / 4)) + x) := color]> m.

Definition erase_cell (f : framebuffer) (bg : Z) (start_y start_x : Z) (m : gmap Z Z) : gmap Z Z :=
  for_each 16 0
    (λ y m, for_each 16 0
       (λ x m, put_pixel f m (u64 (start_y + y)) (u64 (start_x + x)) bg) m) m.

(** The row after [row], back to the top after the last one. *)
Definition next_row (f : framebuffer) (row : Z) : Z :=
  let row := u64 (row + 1) in if max_rows f <=? row then 0 else row.

Section Glyphs.
Context (after_font : Z → Z).

(** Byte [y] of the glyph of [c]: [font8x8_basic] has 128 of them. *)
Definition glyph (c y : Z) : Z :=
  if c <? 128 then at_ (nth (Z.to_nat c) font8x8_basic []) y else u8 (after_font (8 * (c - 128) + y)).

(** The colour of bit [x] of row [y] of the glyph. *)
Definition bit_color (fg bg c y x : Z) : Z :=
  let set := glyph c y .& Z.shiftl 1 x in if negb (set =? 0) then fg else bg.

Definition draw_cell (f : framebuffer) (fg bg c start_y start_x : Z) (m : gmap Z Z) : gmap Z Z :=
  for_each 8 0
    (λ y m, for_each 8 0
       (λ x m,
          let color := bit_color fg bg c y x in
          for_each 2 0
            (λ sy m, for_each 2 0
               (λ sx m,
                  let fb_y := u64 (start_y + y * FONT_SCALE + sy) in
                  let fb_x := u64 (start_x + x * FONT_SCALE + sx) in
                  put_pixel f m fb_y fb_x color) m) m) m) m.

(** [c] is the character's code, 0 to 255. *)
Definition vga_putchar (v : vga) (c : Z) : vga :=
  let v := mk_vga (fb v) (terminal_row v) (terminal_column v) (fg_color v) (bg_color v) (pixels v)
    (serial v ++ [c]) in
  match fb v with
  | None => v
  | Some f =>
      if c =? 8 then
        let '(row, col) :=
          if 0 <? terminal_column v then (terminal_row v, terminal_column v - 1)
          else if 0 <? terminal_row v then (terminal_row v - 1, u64 (max_cols f - 1))
          else (terminal_row v, terminal_column v) in
        let start_x := u64 (col * 16) in
        let start_y := u64 (row * 16) in
        set_cell (set_pixels v (erase_cell f (bg_color v) start_y start_x (pixels v))) row col
      else if c =? 10 then set_cell v (next_row f (terminal_row v)) 0
      else
        let start_x := u64 (terminal_column v * 16) in
        let start_y := u64 (terminal_row v * 16) in
        let v := set_pixels v
          (draw_cell f (fg_color v) (bg_color v) c start_y start_x (pixels v)) in
        let col := u64 (terminal_column v + 1) in
        if max_cols f <=? col then set_cell v (next_row f (terminal_row v)) 0
        else set_cell v (terminal_row v) col
  end.

(** [data] is the string without its NUL. *)
Definition vga_print (v : vga) (data : list Z) : vga := fold_left vga_putchar data v.

(** The hexadecimal digits of a 64-bit number, at most [n] of them. *)
Fixpoint hex_digits (n : nat) (z : Z) : list Z :=
  match n with
  | O => []
  | S n' =>
      if 0 <? z then
        let rem := z mod 16 in
        hex_digits n' (z / 16) ++ [if rem <? 10 then 48 + rem else 65 + (rem - 10)]
      else []
  end.

Definition vga_print_hex (v : vga) (n : Z) : vga :=
  vga_print (vga_print v (str "0x")) (if n =? 0 then [48] else hex_digits 20 n).
End Glyphs.

(** ** Painting rectangles *)

(** [m'] is [m] with the rectangle of [w] by [h] pixels at column [x0] and row
    [y0] painted by [color]; [p] pixels lie between two rows. *)
Definition paints (p : Z) (m m' : gmap Z Z) (x0 y0 w h : Z) (color : Z → Z → Z) : Prop :=
  ∀ x y, 0 ≤ x < p →
    m' !! (y * p + x) =
      if bool_decide (x0 ≤ x < x0 + w ∧ y0 ≤ y < y0 + h) then Some (color x y) else m !! (y * p + x).

Lemma paints_empty p m x0 y0 w h color : w = 0 ∨ h = 0 → paints p m m x0 y0 w h color.
Proof. intros Hz x y Hx. case_bool_decide; [lia|done]. Qed.

Lemma paint_rows p n x0 y0 w h color f m :
  0 ≤ h → (∀ k m, 0 ≤ k < Z.of_nat n → paints p m (f k m) x0 (y0 + k * h) w h color) →
  paints p m (for_each n 0 f m) x0 y0 w (Z.of_nat n * h) color.
Proof.
  intros Hh Hf.
  apply (for_each_ind (λ k m', paints p m m' x0 y0 w (k * h) color)); [apply paints_empty; by right|].
  intros k m' Hk Hm' x y Hx. rewrite (Hf k m' ltac:(lia) x y Hx), (Hm' x y Hx).
  assert ((k + 1) * h = k * h + h) as -> by lia. assert (0 ≤ k * h) by nia.
  repeat case_bool_decide; (done || lia).
Qed.

Lemma paint_cols p n x0 y0 w h color f m :
  0 ≤ w → (∀ k m, 0 ≤ k < Z.of_nat n → paints p m (f k m) (x0 + k * w) y0 w h color) →
  paints p m (for_each n 0 f m) x0 y0 (Z.of_nat n * w) h color.
Proof.
  intros Hw Hf.
  apply (for_each_ind (λ k m', paints p m m' x0 y0 (k * w) h color)); [apply paints_empty; by left|].
  intros k m' Hk Hm' x y Hx. rewrite (Hf k m' ltac:(lia) x y Hx), (Hm' x y Hx).
  assert ((k + 1) * w = k * w + w) as -> by lia. assert (0 ≤ k * w) by nia.
  repeat case_bool_decide; (done || lia).
Qed.

Lemma paints_ext p m m' x0 y0 w h color color' :
  paints p m m' x0 y0 w h color →
  (∀ x y, x0 ≤ x < x0 + w → y0 ≤ y < y0 + h → color x y = color' x y) →
  paints p m m' x0 y0 w h color'.
Proof.
  intros Hp Hc x y Hx. rewrite (Hp x y Hx). case_bool_decide; [|done]. f_equal. apply Hc; lia.
Qed.

(** ** The screen *)

Record fb_ok (f : framebuffer) : Prop := {
  fb_width : 16 ≤ width f ≤ pitch f / 4;
  fb_height : 16 ≤ height f;
  fb_size : height f * (pitch f / 4) < 2 ^ 63;
}.

(** A cell of the screen. *)
Definition cell_ok (f : framebuffer) (row col : Z) : Prop := 0 ≤ row < max_rows f ∧ 0 ≤ col < max_cols f.

Definition vga_ok (v : vga) : Prop :=
  ∀ f, fb v = Some f → fb_ok f ∧ cell_ok f (terminal_row v) (terminal_column v).

Definition on_screen (f : framebuffer) (i : Z) : Prop := 0 ≤ i < height f * (pitch f / 4).

Ltac vga_cbn :=
  cbn [set_cell set_pixels fb terminal_row terminal_column fg_color bg_color pixels serial fst snd].

Section Screen.
Context (f : framebuffer) (Hf : fb_ok f).

Local Abbreviation P := (pitch f / 4).

Lemma fb_small : height f < 2 ^ 63 ∧ width f < 2 ^ 63 ∧ 0 < max_rows f ∧ 0 < max_cols f.
Proof.
  destruct Hf. unfold max_rows, max_cols, FONT_SCALE. split; [nia|]. split; [nia|]. split; dlia.
Qed.

Lemma put_pixel_paints m x y color :
  0 ≤ x < P → 0 ≤ y < height f → paints P m (put_pixel f m y x color) x y 1 1 (λ _ _, color).
Proof.
  intros Hx Hy x' y' Hx'. unfold put_pixel. destruct Hf.
  assert (0 ≤ y * P ∧ y * P + x < 2 ^ 63) by nia.
  rewrite (u64_small (y * P)) by lia. rewrite u64_small by lia.
  case_bool_decide as Hin.
  - assert (x' = x ∧ y' = y) as [-> ->] by lia. apply lookup_insert_eq.
  - apply lookup_insert_ne. intros He. apply Hin.
    assert (y' = y) as ->; [|lia]. nia.
Qed.

Lemma cell_range row col : cell_ok f row col →
  0 ≤ row * 16 ∧ row * 16 + 16 ≤ height f ∧ 0 ≤ col * 16 ∧ col * 16 + 16 ≤ width f ∧
  u64 (row * 16) = row * 16 ∧ u64 (col * 16) = col * 16.
Proof.
  intros [Hr Hc]. unfold max_rows, max_cols, FONT_SCALE in *. pose proof fb_small as (? & ? & _).
  assert (row * 16 + 16 ≤ height f) by dlia. assert (col * 16 + 16 ≤ width f) by dlia.
  split; [lia|]. split; [lia|]. split; [lia|]. split; [lia|]. split; apply u64_small; lia.
Qed.

Lemma erase_cell_paints bg row col m : cell_ok f row col →
  paints P m (erase_cell f bg (row * 16) (col * 16) m) (col * 16) (row * 16) 16 16 (λ _ _, bg).
Proof.
  intros Hc. pose proof (cell_range row col Hc) as (? & ? & ? & ? & _). destruct Hf. unfold erase_cell.
  pose proof fb_small as (? & ? & _).
  apply (paint_rows P 16 _ _ 16 1); [lia|]. intros y m' Hy. rewrite Z.mul_1_r.
  apply (paint_cols P 16 _ _ 1 1); [lia|]. intros x m'' Hx. rewrite Z.mul_1_r.
  rewrite !u64_small by lia. apply put_pixel_paints; lia.
Qed.

(** The cell after [row], [col]. *)
Definition next_cell (row col : Z) : Z * Z :=
  if col + 1 <? max_cols f then (row, col + 1)
  else if row + 1 <? max_rows f then (row + 1, 0) else (0, 0).

(** The cell before [row], [col]; the first cell stays. *)
Definition prev_cell (row col : Z) : Z * Z :=
  if 0 <? col then (row, col - 1)
  else if 0 <? row then (row - 1, max_cols f - 1) else (row, col).

Lemma max_small : max_rows f < 2 ^ 62 ∧ max_cols f < 2 ^ 62.
Proof. pose proof fb_small as (? & ? & _). unfold max_rows, max_cols, FONT_SCALE. split; dlia. Qed.

Lemma next_row_spec row : 0 ≤ row < max_rows f →
  next_row f row = (if row + 1 <? max_rows f then row + 1 else 0) ∧ 0 ≤ next_row f row < max_rows f.
Proof.
  intros Hr. pose proof max_small. pose proof fb_small as (_ & _ & ? & _). unfold next_row.
  rewrite u64_small by lia. bcase; lia.
Qed.

Lemma next_cell_ok row col : cell_ok f row col → cell_ok f (next_cell row col).1 (next_cell row col).2.
Proof.
  intros [Hr Hc]. unfold next_cell, cell_ok. bcase; cbn [fst snd]; lia.
Qed.

Lemma prev_cell_ok row col : cell_ok f row col → cell_ok f (prev_cell row col).1 (prev_cell row col).2.
Proof.
  intros [Hr Hc]. unfold prev_cell, cell_ok. pose proof fb_small as (_ & _ & ? & ?).
  bcase; cbn [fst snd]; lia.
Qed.

Context (after_font : Z → Z).

(** The colour of the pixel of a cell. *)
Definition cell_color (fg bg c x0 y0 x y : Z) : Z :=
  bit_color after_font fg bg c ((y - y0) / 2) ((x - x0) / 2).

Lemma draw_cell_paints fg bg c row col m : cell_ok f row col →
  paints P m (draw_cell after_font f fg bg c (row * 16) (col * 16) m) (col * 16) (row * 16) 16 16
    (cell_color fg bg c (col * 16) (row * 16)).
Proof.
  intros Hc. pose proof (cell_range row col Hc) as (? & ? & ? & ? & _). destruct Hf. unfold draw_cell, FONT_SCALE.
  pose proof fb_small as (? & ? & _).
  apply (paint_rows P 8 _ _ 16 2); [lia|]. intros y m1 Hy.
  apply (paint_cols P 8 _ _ 2 2); [lia|]. intros x m2 Hx.
  apply (paints_ext _ _ _ _ _ _ _ (λ _ _, bit_color after_font fg bg c y x)).
  - apply (paint_rows P 2 _ _ 2 1); [lia|]. intros sy m3 Hsy. rewrite Z.mul_1_r.
    apply (paint_cols P 2 _ _ 1 1); [lia|]. intros sx m4 Hsx. rewrite Z.mul_1_r.
    rewrite !u64_small by lia. apply put_pixel_paints; lia.
  - intros x' y' Hx' Hy'. unfold cell_color.
    assert ((y' - row * 16) / 2 = y) as -> by dlia. by assert ((x' - col * 16) / 2 = x) as -> by dlia.
Qed.

(** What a character does to the cursor and the pixels. *)
Definition shows (v v' : vga) (c : Z) : Prop :=
  let row := terminal_row v in
  let col := terminal_column v in
  if c =? 10 then
    terminal_row v' = (if row + 1 <? max_rows f then row + 1 else 0) ∧ terminal_column v' = 0 ∧
    pixels v' = pixels v
  else if c =? 8 then
    let '(r, k) := prev_cell row col in
    terminal_row v' = r ∧ terminal_column v' = k ∧
    paints P (pixels v) (pixels v') (k * 16) (r * 16) 16 16 (λ _ _, bg_color v)
  else
    (terminal_row v', terminal_column v') = next_cell row col ∧
    paints P (pixels v) (pixels v') (col * 16) (row * 16) 16 16
      (cell_color (fg_color v) (bg_color v) c (col * 16) (row * 16)).

Local Opaque draw_cell erase_cell.

Lemma putchar_spec v c : fb v = Some f → cell_ok f (terminal_row v) (terminal_column v) →
  let v' := vga_putchar after_font v c in
  fb v' = Some f ∧ cell_ok f (terminal_row v') (terminal_column v') ∧
  fg_color v' = fg_color v ∧ bg_color v' = bg_color v ∧ serial v' = serial v ++ [c] ∧ shows v v' c.
Proof.
  intros Hfb Hc v'. unfold v', vga_putchar, shows. vga_cbn.
  rewrite Hfb. pose proof (cell_range _ _ Hc) as (_ & _ & _ & _ & Hur & Huc). pose proof Hc as [Hr Hk].
  pose proof max_small. pose proof (next_row_spec _ Hr) as [Hnr Hnrok]. pose proof fb_small as (_ & _ & ? & ?).
  destruct (Z.eqb_spec c 8) as [-> |Hc8]; [change (8 =? 10) with false; cbv iota|destruct (Z.eqb_spec c 10) as [-> |Hc10]].
  - pose proof (prev_cell_ok _ _ Hc) as Hprev.
    assert ((if 0 <? terminal_column v then (terminal_row v, terminal_column v - 1)
      else if 0 <? terminal_row v then (terminal_row v - 1, u64 (max_cols f - 1))
      else (terminal_row v, terminal_column v)) = prev_cell (terminal_row v) (terminal_column v)) as ->.
    { unfold prev_cell. by rewrite (u64_small (max_cols f - 1)) by lia. }
    destruct (prev_cell _ _) as [r k]. cbn [fst snd] in Hprev. vga_cbn. split; [done|]. split; [done|].
    split; [done|]. split; [done|]. split; [done|]. split; [done|]. split; [done|].
    pose proof (cell_range _ _ Hprev) as (_ & _ & _ & _ & -> & ->). by apply erase_cell_paints.
  - vga_cbn. split; [done|]. split; [split; [done|lia]|]. split; [done|]. split; [done|]. split; [done|].
    split; [done|]. split; done.
  - vga_cbn. rewrite (u64_small (terminal_column v + 1)) by lia.
    pose proof (next_cell_ok _ _ Hc) as Hnext. pose proof (draw_cell_paints (fg_color v) (bg_color v) c _ _ (pixels v) Hc) as Hd.
    rewrite <- Hur, <- Huc in Hd at 1. unfold next_cell in *. rewrite Hnr.
    destruct (Z.leb_spec (max_cols f) (terminal_column v + 1)), (Z.ltb_spec (terminal_column v + 1) (max_cols f));
      try lia; vga_cbn; cbn [fst snd] in Hnext; (split; [done|]); (split; [|split; [done|split; [done|split; [done|split; [|done]]]]]);
      try done; by destruct (_ <? max_rows f).
Qed.

(** Painting a cell leaves everything outside the screen alone. *)
Lemma paints_outside m m' row col color i :
  cell_ok f row col → paints P m m' (col * 16) (row * 16) 16 16 color → ¬ on_screen f i → m' !! i = m !! i.
Proof.
  intros Hc Hp Hi. pose proof (cell_range _ _ Hc) as (? & ? & ? & ? & _). destruct Hf.
  assert (0 < P) by lia. pose proof (Z.mod_pos_bound i P ltac:(lia)) as Hm.
  pose proof (Z.div_mod i P ltac:(lia)) as Hd.
  pose proof (Hp (i mod P) (i / P) Hm) as Hpi. rewrite Z.mul_comm, <- Hd in Hpi. rewrite Hpi.
  rewrite bool_decide_false; [done|]. intros [_ Hy]. apply Hi. unfold on_screen. nia.
Qed.

Lemma putchar_outside v c i : fb v = Some f → cell_ok f (terminal_row v) (terminal_column v) →
  ¬ on_screen f i → pixels (vga_putchar after_font v c) !! i = pixels v !! i.
Proof.
  intros Hfb Hc Hi. destruct (putchar_spec v c Hfb Hc) as (_ & _ & _ & _ & _ & Hs). unfold shows in Hs.
  destruct (c =? 10); [by destruct Hs as (_ & _ & ->)|]. destruct (c =? 8).
  - pose proof (prev_cell_ok _ _ Hc) as Hp. destruct (prev_cell _ _) as [r k].
    destruct Hs as (_ & _ & Hs). by eapply paints_outside.
  - destruct Hs as [_ Hs]. by eapply paints_outside.
Qed.
End Screen.

(** ** Drawing inside the frame buffer *)

(** A word of the frame buffer, if there is one. *)
Definition frame_word (v : vga) (i : Z) : Prop := ∃ f, fb v = Some f ∧ on_screen f i.

(** The cursor stays on the screen, and no word outside the frame buffer is
    written. *)
Record draws_inside (v v' : vga) : Prop := {
  di_fb : fb v' = fb v;
  di_ok : vga_ok v';
  di_outside i : ¬ frame_word v i → pixels v' !! i = pixels v !! i;
}.

Lemma draws_inside_refl v : vga_ok v → draws_inside v v.
Proof. by split. Qed.

Lemma draws_inside_trans v1 v2 v3 : draws_inside v1 v2 → draws_inside v2 v3 → draws_inside v1 v3.
Proof.
  intros [Hf1 _ Ho1] [Hf2 Hv2 Ho2]. split; [congruence|done|]. intros i Hi.
  rewrite Ho2, Ho1; [done..|]. unfold frame_word. by rewrite Hf1.
Qed.

(** The cursor and the pixels are all that counts. *)
Lemma vga_ok_cell v row col fg bg m out :
  vga_ok v → (∀ f, fb v = Some f → cell_ok f row col) → vga_ok (mk_vga (fb v) row col fg bg m out).
Proof. intros Hv Hc f Hf. split; [by apply (Hv f)|by apply Hc]. Qed.

Lemma set_cursor_inside v row col :
  vga_ok v → (∀ f, fb v = Some f → cell_ok f row col) → draws_inside v (vga_set_cursor v row col).
Proof. intros Hv Hc. split; [done|by apply vga_ok_cell|done]. Qed.

Lemma set_color_inside v fg bg : vga_ok v → draws_inside v (vga_set_color v fg bg).
Proof. intros Hv. split; [done| |done]. apply vga_ok_cell; [done|]. intros f Hf. by apply (Hv f). Qed.

Lemma clear_inside v : vga_ok v → draws_inside v (vga_clear v).
Proof.
  intros Hv. unfold vga_clear. destruct (fb v) as [f|] eqn:Hfb; [|by apply draws_inside_refl].
  destruct (Hv f Hfb) as [Hf _]. pose proof (fb_small f Hf) as (_ & _ & ? & ?).
  split; [done| |].
  - intros f' Hf'. cbn in Hf'. rewrite Hfb in Hf'. injection Hf' as <-. split; [done|]. cbn. split; lia.
  - intros i Hi. cbn [pixels set_cell set_pixels].
    apply (for_each_ind (λ k m, m !! i = pixels v !! i)); [done|]. intros k m Hk <-.
    apply lookup_insert_ne. intros ->. apply Hi. exists f. split; [done|]. unfold on_screen. destruct Hf.
    assert (0 ≤ width f * height f ∧ width f * height f ≤ height f * (pitch f / 4)) by nia.
    rewrite u64_small in Hk by lia. lia.
Qed.

Section Printing.
Context (after_font : Z → Z).

Lemma putchar_inside v c : vga_ok v → draws_inside v (vga_putchar after_font v c).
Proof.
  intros Hv. destruct (fb v) as [f|] eqn:Hfb.
  - destruct (Hv f Hfb) as [Hf Hc].
    destruct (putchar_spec f Hf after_font v c Hfb Hc) as (Hfb' & Hc' & _). split; [congruence| |].
    + intros f' Hf'. rewrite Hfb' in Hf'. by injection Hf' as <-.
    + intros i Hi. apply (putchar_outside f Hf after_font); [done|done|]. intros Hs. apply Hi. by exists f.
  - unfold vga_putchar. cbn [fb]. rewrite Hfb. split; [by rewrite Hfb|by intros f|done].
Qed.

Lemma print_inside v data : vga_ok v → draws_inside v (vga_print after_font v data).
Proof.
  revert v. induction data as [|c data IH]; intros v Hv; [by apply draws_inside_refl|].
  pose proof (putchar_inside v c Hv) as Hc. apply (draws_inside_trans _ _ _ Hc), IH, Hc.
Qed.

Lemma print_hex_inside v n : vga_ok v → draws_inside v (vga_print_hex after_font v n).
Proof.
  intros Hv. pose proof (print_inside v (str "0x") Hv) as H1.
  apply (draws_inside_trans _ _ _ H1), print_inside, H1.
Qed.

(** Printing after other drawing. *)
Lemma then_print v v' data : draws_inside v v' → draws_inside v (vga_print after_font v' data).
Proof. intros Hd. apply (draws_inside_trans _ _ _ Hd), print_inside, Hd. Qed.
Lemma then_print_hex v v' n : draws_inside v v' → draws_inside v (vga_print_hex after_font v' n).
Proof. intros Hd. apply (draws_inside_trans _ _ _ Hd), print_hex_inside, Hd. Qed.
End Printing.

Section Theorems.
Context (after_font : Z → Z).


(** C37. Printing a string from a cursor on the screen keeps the cursor there and
    writes to no word outside the frame buffer, whatever the string. *)
Theorem print_safe v data f :
  vga_ok v → fb v = Some f →
  vga_ok (vga_print after_font v data) ∧
  ∀ i, ¬ on_screen f i → pixels (vga_print after_font v data) !! i = pixels v !! i.
Proof.
  revert v. induction data as [|c data IH]; intros v Hok Hfb; [done|]. destruct (Hok f Hfb) as [Hf Hc].
  destruct (putchar_spec f Hf after_font v c Hfb Hc) as (Hfb' & Hc' & _).
  cbn [vga_print fold_left]. destruct (IH (vga_putchar after_font v c)) as [Hok' Hpix].
  { intros f' Hf'. rewrite Hfb' in Hf'. by injection Hf' as <-. }
  { done. }
  split; [done|]. intros i Hi. unfold vga_print in Hpix. rewrite Hpix by done.
  by apply (putchar_outside f Hf after_font).
Qed.

(** [vga_set_cursor] does not test its arguments: after a row below the
    screen, the next printable character is painted outside the frame buffer. *)
Theorem set_cursor_unbounded v f row col c :
  fb v = Some f → fb_ok f → max_rows f ≤ row → 0 ≤ col < max_cols f →
  (row * 16 + 16) * (pitch f / 4) < 2 ^ 63 → c ≠ 8 → c ≠ 10 →
  let v' := vga_putchar after_font (vga_set_cursor v row col) c in
  ∃ i, ¬ on_screen f i ∧ is_Some (pixels v' !! i).
Proof.
  intros Hfb Hf Hr Hc Hbig Hc8 Hc10 v'. set (big := mk_fb (width f) (row * 16 + 16) (pitch f)).
  pose proof (fb_small f Hf) as (_ & _ & ? & _).
  assert (fb_ok big) as Hb by (destruct Hf; split; cbn; lia).
  assert (cell_ok big row col) as Hcell.
  { split; [|exact Hc]. unfold max_rows, FONT_SCALE. cbn. dlia. }
  pose proof (draw_cell_paints big Hb after_font (fg_color v) (bg_color v) c row col (pixels v) Hcell) as Hp.
  exists ((row * 16 + 15) * (pitch f / 4) + col * 16).
  pose proof (cell_range big Hb row col Hcell) as (_ & _ & ? & Hw & Hur & Huc). cbn in Hw. destruct Hf.
  split.
  - unfold on_screen, max_rows, FONT_SCALE in *. intros [_ Hlt].
    assert (height f ≤ row * 16 + 15) by dlia. nia.
  - specialize (Hp (col * 16) (row * 16 + 15) ltac:(cbn; lia)). rewrite bool_decide_true in Hp by lia.
    assert (pixels v' = draw_cell after_font f (fg_color v) (bg_color v) c (row * 16) (col * 16) (pixels v)) as ->.
    { unfold v', vga_putchar, vga_set_cursor. vga_cbn. rewrite Hfb.
      destruct (Z.eqb_spec c 8), (Z.eqb_spec c 10); try done. rewrite Hur, Huc. by destruct (_ <=? _). }
    by eexists.
Qed.
End Theorems.

(** ** A screen of two by two cells *)

Definition demo_fb : framebuffer := mk_fb 32 32 128.
Definition demo_vga : vga := mk_vga (Some demo_fb) 1 1 7 0 ∅ [].

Lemma demo_fb_ok : fb_ok demo_fb.
Proof. split; cbn; (done || lia). Qed.

Lemma demo_vga_ok : vga_ok demo_vga.
Proof. intros f [= <-]. split; [apply demo_fb_ok|]. by split. Qed.


Lemma print_safe_witness : vga_ok (vga_print (λ _, 0) demo_vga (str "abc")).
Proof. exact (proj1 (print_safe (λ _, 0) demo_vga (str "abc") demo_fb demo_vga_ok eq_refl)). Defined.

Lemma set_cursor_unbounded_witness :
  ∃ i, ¬ on_screen demo_fb i ∧ is_Some (pixels (vga_putchar (λ _, 0) (vga_set_cursor demo_vga 50 0) 65) !! i).
Proof.
  apply (set_cursor_unbounded (λ _, 0) demo_vga demo_fb 50 0 65).
  - reflexivity.
  - exact demo_fb_ok.
  - vm_compute. discriminate.
  - vm_compute. split; [discriminate|reflexivity].
  - vm_compute. reflexivity.
  - discriminate.
  - discriminate.
Defined.
