(* ===== verification/AddrSpace.v ===== *)
(** The address space of a process while it is being built.

    [space] is the invariant of a page map whose user pages are frames of its
    own: allocated, none of them a table, no frame mapped twice. [grows a0 a map]
    says that between the state [a0] before the page map was created and [a] every
    frame taken from the allocator belongs to the page map, and that no frame
    allocated before was written. [user_view] is what user code reads. *)

From S2P Require Export Vmm.

Section AddrSpace.
Context {St : Type} `{PageAllocatorLaws St}.
Implicit Types (a : St).

Definition user (v : Z) : Prop := 0 ≤ v < USER_LIMIT.

Definition user_view a (map v : Z) : option Z :=
  match lookup_page a map v with
  | Some e => Some (rd8 (ram a) (table a (page_base e) + v .& 4095))
  | None => None
  end.

Record space a (map : Z) : Prop := {
  sp_wf : alloc_wf a;
  sp_tree : pagemap_wf a map;
  sp_page v e : user v → lookup_page a map v = Some e →
    table_frame a (page_base e) ∧ ¬ is_table a map (page_base e);
  sp_apart v w e e' : user v → user w → lookup_page a map v = Some e →
    lookup_page a map w = Some e' → page_base e = page_base e' → page_base v = page_base w;
  sp_open : open_tables a map;
  sp_flags v e : user v → lookup_page a map v = Some e →
    has e PAGE_USER = true ∧ has e PAGE_WRITE = true;
}.

(** User code may load and store wherever a page is mapped. *)
Lemma space_access a map v e wr :
  space a map → user v → lookup_page a map v = Some e → user_access a map v wr.
Proof.
  intros Sp Hv He. destruct (sp_flags _ _ Sp v e Hv He).
  by apply (open_access a map v e); [apply Sp|..].
Qed.

(** ** Bytes of a frame *)

Lemma rd_le_byte n m x k :
  (k < n)%nat → rd8 m (x + Z.of_nat k) = rd_le n m x / 2 ^ (8 * Z.of_nat k) mod 2 ^ 8.
Proof.
  revert x k. induction n as [|n IH]; intros x k Hk; [lia|]. cbn [rd_le].
  pose proof (rd8_range m x) as Hb. destruct k as [|k].
  - rewrite Z.add_0_r, Z.div_1_r. dlia.
  - replace (x + Z.of_nat (S k)) with (x + 1 + Z.of_nat k) by lia. rewrite IH by lia.
    replace (8 * Z.of_nat (S k)) with (8 + 8 * Z.of_nat k) by lia.
    rewrite Z.pow_add_r, <- Z.div_div by lia. do 2 f_equal. dlia.
Qed.

(** A frame whose entries are kept has all its bytes kept. *)
Lemma kept_byte a a' u o :
  kept a a' u → 0 ≤ o < 4096 → rd8 (ram a') (table a' u + o) = rd8 (ram a) (table a u + o).
Proof.
  intros Hk Ho. specialize (Hk (o / 8) ltac:(dlia)). unfold ent, rd64 in Hk.
  assert (∀ b, b + o = b + 8 * (o / 8) + Z.of_nat (Z.to_nat (o mod 8))) as He.
  { intros b. pose proof (Z.mod_pos_bound o 8). rewrite Z2Nat.id by lia. dlia. }
  rewrite !He, !(rd_le_byte 8); [by rewrite Hk|dlia..].
Qed.

Lemma kept_outside a m k u :
  alloc_wf a → usable a k → table_frame a u → u ≠ k * PAGE_SIZE →
  same_outside (hhdm a + k * PAGE_SIZE) PAGE_SIZE (ram a) m → kept a (set_ram a m) u.
Proof.
  intros Hwf Hk Hu Hne Hout j Hj. unfold ent. rewrite ram_set_ram.
  rewrite (table_layout a (set_ram a m)) by apply set_ram_layout.
  apply (same_outside_rd64 _ _ _ _ _ Hout). rewrite table_small by done.
  destruct Hu as (i & -> & _). unfold PAGE_SIZE in *. lia.
Qed.

(** What the allocator does in its own memory leaves every frame as it is. *)
Lemma kept_ram a a' u :
  alloc_wf a → same_layout a a' → ram_kept a a' → table_frame a u → kept a a' u.
Proof.
  intros Hwf Hl Hk (k & -> & Hu & _) j Hj. apply ent_kept; [done..| |done]. by exists k.
Qed.

Lemma offset_range v : 0 ≤ v .& 4095 < 4096.
Proof. change 4095 with (Z.ones 12). rewrite Z.land_ones by lia. apply Z.mod_pos_bound. lia. Qed.

Lemma offset_eq v : v .& 4095 = v - page_base v.
Proof. change 4095 with (Z.ones 12). rewrite Z.land_ones, page_base_spec by lia. change (2 ^ 12) with 4096. lia. Qed.

(** ** States with the same page map *)

Lemma lookup_ext a a' map :
  (∀ q, upath q → descend (sub a') map q = descend (sub a) map q) →
  (∀ u, is_table a map u → kept a a' u) →
  ∀ v, user v → lookup_page a' map v = lookup_page a map v.
Proof.
  intros Htree Hk v Hv. unfold lookup_page. rewrite Htree by by apply upath_vpath.
  destruct (descend (sub a) map (vpath v)) as [t|] eqn:Hd; [|done].
  assert (is_table a map t) as Ht by (exists (vpath v); split; [by apply upath_vpath|done]).
  by rewrite (Hk t Ht _ (proj2 (proj2 (proj2 (idx_range v))))).
Qed.

Lemma descend_kept a a' map :
  (∀ u, is_table a map u → kept a a' u) →
  ∀ q, upath q → descend (sub a') map q = descend (sub a) map q.
Proof.
  intros Hk. apply descend_ext. intros q u j Hq Hd. destruct (upath_snoc _ _ Hq) as (Hq0 & _ & Hj).
  unfold sub. assert (is_table a map u) as Hu by by exists q. by rewrite (Hk u Hu j Hj).
Qed.

Lemma space_same a a' map :
  space a map → alloc_wf a' → same_layout a a' → (∀ u, is_table a map u → kept a a' u) →
  (∀ u, holds a map u → table_frame a' u) →
  space a' map ∧ (∀ v, user v → lookup_page a' map v = lookup_page a map v) ∧
  (∀ x, is_table a' map x ↔ is_table a map x).
Proof.
  intros S Hwf Hl Hk Hh. pose proof (descend_kept a a' map Hk) as Htree.
  assert (open_tables a' map) as Hopen.
  { apply (open_tables_kept a); [done| |apply (sp_open _ _ S)]. intros q t i Hq Hd.
    destruct (upath_snoc _ _ Hq) as (Hq0 & _ & Hi). apply Hk; [by exists q|done]. }
  pose proof (lookup_ext a a' map Htree Hk) as Hlk.
  assert (∀ x, is_table a' map x ↔ is_table a map x) as Htab.
  { intros x. split; intros (q & Hq & Hd); exists q; (split; [done|]); by rewrite Htree in *. }
  split; [|done]. split; [done| | | |done|].
  - split.
    + intros p t Hp. rewrite Htree by done. intros Hd. apply Hh. right. left. by exists p.
    + intros p q t Hp Hq. rewrite !Htree by done. by apply (sp_tree _ _ S).
  - intros v e Hv. rewrite Hlk by done. intros He. rewrite Htab.
    split; [|by eapply sp_page]. apply Hh. right. right. by exists v, e.
  - intros v w e e' Hv Hw. rewrite !Hlk by done. by apply (sp_apart _ _ S).
  - intros v e Hv. rewrite Hlk by done. by apply (sp_flags _ _ S).
Qed.

Lemma table_holds a map u : is_table a map u → holds a map u.
Proof. intros (p & Hp & Hd). right. left. by exists p. Qed.

(** Everything a space holds is an allocated frame. *)
Lemma space_holds a map u : space a map → holds a map u → table_frame a u.
Proof.
  intros S [->|[(p & Hp & Hd)|(v & e & Hv & Hlk & ->)]].
  - by apply (pm_frames _ _ (sp_tree _ _ S) [] map upath_nil).
  - by eapply pm_frames; [apply (sp_tree _ _ S)|..].
  - by apply (sp_page _ _ S v).
Qed.

Lemma holds_same a a' map :
  (∀ v, user v → lookup_page a' map v = lookup_page a map v) →
  (∀ x, is_table a' map x ↔ is_table a map x) → ∀ x, holds a' map x ↔ holds a map x.
Proof.
  intros Hlk Htab x. unfold holds. fold (is_table a' map x) (is_table a map x). rewrite Htab.
  split; (intros [?|[?|(v & e & Hv & He & Hx)]]; [by left|by right; left|right; right; exists v, e]);
    rewrite Hlk in *; done.
Qed.

Lemma view_same a a' map :
  (∀ v, user v → lookup_page a' map v = lookup_page a map v) →
  (∀ v e, user v → lookup_page a map v = Some e → kept a a' (page_base e)) →
  ∀ v, user v → user_view a' map v = user_view a map v.
Proof.
  intros Hlk Hk v Hv. unfold user_view. rewrite Hlk by done.
  destruct (lookup_page a map v) as [e|] eqn:He; [|done].
  f_equal. apply kept_byte; [by apply (Hk v)|apply offset_range].
Qed.

(** ** What was allocated before *)

(** Every frame allocated in [a] still is, with the same contents. *)
Record preserves a a' : Prop := {
  pv_layout : same_layout a a';
  pv_frame u : table_frame a u → table_frame a' u;
  pv_kept u : table_frame a u → kept a a' u;
}.

#[export] Instance preserves_preorder : PreOrder preserves.
Proof.
  split.
  - intros a. by split.
  - intros a1 a2 a3 [Hl Hf Hk] [Hl' Hf' Hk']. split.
    + by etransitivity.
    + auto.
    + intros u Hu. apply (kept_trans a1 a2); auto.
Qed.

(** Giving frames back that were not allocated then. *)
Lemma released_preserves (P : Z → Prop) a0 a a' :
  alloc_wf a → preserves a0 a → released P a a' → (∀ u, P u → ¬ table_frame a0 u) → preserves a0 a'.
Proof.
  intros Hwf [Hl Hf Hk] (_ & Hl' & Hram & Hfs) HP. split; [by etransitivity| |].
  - intros u Hu. destruct (Hf u Hu) as (k & -> & Huk & Hnk).
    exists k. split; [done|]. split; [by apply (usable_mono a)|]. rewrite Hfs.
    intros [?|Hp]; [done|]. by apply (HP _ Hp).
  - intros u Hu. apply (kept_trans a0 a); [auto|]. apply kept_ram; auto.
Qed.

(** ** Growing a page map *)

Lemma page_base_frame k : page_base (k * PAGE_SIZE) = k * PAGE_SIZE.
Proof. rewrite page_base_spec. unfold PAGE_SIZE. dlia. Qed.

(** The allocator's own step. *)
Lemma alloc_step a map p a1 :
  space a map → alloc_page a = (p, a1) →
  same_layout a a1 ∧ (∀ u, table_frame a u → kept a a1 u) ∧ space a1 map ∧
  (∀ v, user v → lookup_page a1 map v = lookup_page a map v) ∧
  (∀ x, is_table a1 map x ↔ is_table a map x) ∧
  (∀ q, upath q → descend (sub a1) map q = descend (sub a) map q) ∧
  (p = 0 ∧ free_set a = ∅ ∧ free_set a1 = ∅ ∨
   ∃ k, p = k * PAGE_SIZE ∧ k ∈ free_set a ∧ free_set a1 = free_set a ∖ {[k]}).
Proof.
  intros S Ha. pose proof (sp_wf _ _ S) as Hwf.
  destruct (alloc_page_law _ _ _ Hwf Ha) as (Hwf1 & Hl1 & Hk1 & Hcase).
  assert (free_set a1 ⊆ free_set a) as Hsub.
  { destruct Hcase as [(_ & -> & ->)|(k & _ & _ & ->)]; set_solver. }
  assert (∀ u, table_frame a u → kept a a1 u) as Hkept by (intros; by apply kept_ram).
  assert (∀ u, is_table a map u → kept a a1 u) as Hkt.
  { intros u Hu. by apply Hkept, (space_holds a map), table_holds. }
  destruct (space_same a a1 map S Hwf1 Hl1 Hkt) as (S1 & Hlk & Htab).
  { intros u Hu. apply (table_frame_mono a); [done|done|]. by apply (space_holds a map). }
  pose proof (descend_kept a a1 map Hkt) as Hd. done.
Qed.

(** The frames a page map holds after [vmm_map_page] of a frame [p]. *)
Lemma holds_mapped a1 a2 map v p flags :
  pagemap_wf a1 map → user v → 0 ≤ p < 2 ^ 64 → 0 ≤ flags < 4096 → page_base p = p →
  grown a1 a2 map → lookup_page a1 map v = None →
  (∀ w, user w → lookup_page a2 map w =
     if decide (page_base w = page_base v) then Some (leaf_value p flags)
     else lookup_page a1 map w) →
  ∀ x, holds a2 map x ↔
    holds a1 map x ∨ x = p ∨ ∃ k, x = k * PAGE_SIZE ∧ k ∈ free_set a1 ∧ k ∉ free_set a2.
Proof.
  intros Hpm Hv Hp Hf Hpb Hg Hnone Hlk x.
  destruct (leaf_value_ok p flags Hp Hf) as (_ & _ & Hbase & _). rewrite Hpb in Hbase.
  unfold holds. fold (is_table a1 map x) (is_table a2 map x). rewrite (gr_table _ _ _ Hg).
  split.
  - intros [?|[[?|?]|(w & e & Hw & He & ->)]]; [tauto..|].
    rewrite Hlk in He by done. case_decide; [|left; right; right; by exists w, e].
    injection He as <-. right. by left.
  - intros [[?|[?|(w & e & Hw & He & ->)]]|[->|?]]; [tauto..| | |tauto].
    + right. right. exists w, e. rewrite Hlk by done. rewrite decide_False; [done|].
      intros Hwv. unfold lookup_page, vpath in *.
      destruct (idx_page w v Hwv) as (E4 & E3 & E2 & E1). rewrite E4, E3, E2, E1 in He. congruence.
    + right. right. exists v. eexists. rewrite Hlk, decide_True by done. done.
Qed.

(** [K] is the kernel half of the root. *)
Section Growing.
Context {K : Z → Z}.

(** The frames of [a0] that are not free any more are those [map] holds. *)
Definition owned a0 a map : Prop :=
  ∀ i, i ∈ free_set a0 ↔ i ∈ free_set a ∨ holds a map (i * PAGE_SIZE).

Record grows a0 a (map : Z) : Prop := {
  gw_space : space a map;
  gw_layout : same_layout a0 a;
  gw_owned : owned a0 a map;
  gw_kept u : table_frame a0 u → kept a0 a u;
  gw_kernel i : 256 ≤ i < 512 → ent a map i = K i;
}.

Section Grows.
Context a0 a map (G : grows a0 a map).

Lemma grows_free : free_set a ⊆ free_set a0.
Proof. intros i Hi. apply (gw_owned _ _ _ G). by left. Qed.

Lemma grows_frame u : table_frame a0 u → table_frame a u.
Proof. apply table_frame_mono; [apply G|apply grows_free]. Qed.

(** A frame allocated before the page map is none of its frames. *)
Lemma grows_not_held u : table_frame a0 u → ¬ holds a map u.
Proof.
  intros (k & -> & _ & Hk) Hh. apply Hk, (gw_owned _ _ _ G). by right.
Qed.

Lemma grows_not_table u : table_frame a0 u → ¬ is_table a map u.
Proof. intros Hu Ht. by apply (grows_not_held u), table_holds. Qed.
End Grows.

(** When nothing is free the allocator changes nothing that counts. *)
Lemma grows_alloc_none a0 a map p a1 :
  grows a0 a map → free_set a = ∅ → alloc_page a = (p, a1) → p = 0 ∧ grows a0 a1 map.
Proof.
  intros G Hfree Ha. pose proof (gw_space _ _ _ G) as Sp.
  destruct (alloc_step a map p a1 Sp Ha)
    as (Hl1 & Hk1 & S1 & Hlk1 & Htab1 & _ & [(-> & _ & Hset)|(k & _ & Hk & _)]); [|set_solver].
  split; [done|]. split.
  - done.
  - etransitivity; [apply G|done].
  - intros i. by rewrite (gw_owned _ _ _ G i), Hfree, Hset, (holds_same a a1 map Hlk1 Htab1).
  - intros u Hu. apply (kept_trans _ a); [by apply (gw_kept _ _ _ G)|]. by apply Hk1, (grows_frame a0 a map G).
  - intros i Hi. rewrite (Hk1 map); [by apply (gw_kernel _ _ _ G)| |lia].
    apply (space_holds a map); [done|by left].
Qed.

(** Mapping a fresh frame at an unmapped user page. *)
Record mapped_fresh a0 a a2 map v flags k : Prop := {
  mf_free : k ∈ free_set a;
  mf_grows : grows a0 a2 map;
  mf_frame : table_frame a2 (k * PAGE_SIZE);
  mf_not_table : ¬ is_table a2 map (k * PAGE_SIZE);
  mf_size : size (free_set a) = S (missing a map v + size (free_set a2));
  mf_tree q : upath q → has_table a2 map q ↔ has_table a map q ∨ q ∈ vprefixes v;
  mf_pages w : user w → is_Some (lookup_page a2 map w) ↔
    is_Some (lookup_page a map w) ∨ page_base w = page_base v;
  mf_new w : user w → page_base w = page_base v →
    lookup_page a2 map w = Some (leaf_value (k * PAGE_SIZE) flags);
  mf_old w : user w → page_base w ≠ page_base v → user_view a2 map w = user_view a map w;
}.

(** The page [v] of the space [map] of [a] is mapped to the frame [k] that the
    allocator has just given out, leaving [a1]. *)
Section Mapped.
Context a a1 map v flags k (Sp : space a map) (Hv : user v) (Hnone : lookup_page a map v = None)
  (Hf : 0 ≤ flags < 4096) (Hf1 : Z.testbit flags 1 = true) (Hf2 : Z.testbit flags 2 = true)
  (Hk : k ∈ free_set a) (Hset : free_set a1 = free_set a ∖ {[k]}) (Hl1 : same_layout a a1)
  (Hk1 : ∀ u, table_frame a u → kept a a1 u) (S1 : space a1 map)
  (Hlk1 : ∀ w, user w → lookup_page a1 map w = lookup_page a map w)
  (Htab1 : ∀ x, is_table a1 map x ↔ is_table a map x)
  (Hd1 : ∀ q, upath q → descend (sub a1) map q = descend (sub a) map q)
  (Hn : (missing a map v ≤ size (free_set a1))%nat).
Let p := k * PAGE_SIZE.
Let a2 := vmm_map_page a1 map v p flags.

Lemma mapped_range : 0 ≤ p < 2 ^ 64.
Proof.
  destruct (hhdm_bounds a (sp_wf _ _ Sp)), (free_set_usable a k (sp_wf _ _ Sp) Hk) as [Hr _].
  unfold p, PAGE_SIZE in *. lia.
Qed.

Lemma has_table_alloc q : upath q → has_table a1 map q ↔ has_table a map q.
Proof. intros Hq. unfold has_table. by rewrite Hd1. Qed.

Lemma missing_alloc : missing a1 map v = missing a map v.
Proof.
  pose proof (upath_vpath v Hv) as Hq3. destruct (upath_snoc [pml4_idx v; pdpt_idx v] _ Hq3) as (Hq2 & _).
  destruct (upath_snoc [pml4_idx v] _ Hq2) as (Hq1 & _). unfold missing, vprefixes. cbn [sum_list_with].
  by rewrite !(lacks_same a a1) by by apply has_table_alloc.
Qed.

Lemma mapped_spec :
  alloc_wf a2 ∧ grown a1 a2 map ∧ size (free_set a1) = (missing a map v + size (free_set a2))%nat ∧
  (∀ q, upath q → has_table a2 map q ↔ has_table a map q ∨ q ∈ vprefixes v) ∧ pagemap_wf a2 map ∧
  ∀ w, user w → lookup_page a2 map w =
    if decide (page_base w = page_base v) then Some (leaf_value p flags) else lookup_page a map w.
Proof.
  destruct (vmm_map_page_exact a1 map v p flags (sp_wf _ _ S1) (sp_tree _ _ S1) Hv mapped_range Hf)
    as (Hwf & Hg & Hsz & Ht & Hpm & Hlk); [by rewrite missing_alloc|].
  fold a2 in Hwf, Hg, Hsz, Ht, Hpm, Hlk. rewrite missing_alloc in Hsz.
  split; [done|]. split; [done|]. split; [done|]. split; [|split; [done|]].
  - intros q Hq. by rewrite Ht, has_table_alloc.
  - intros w Hw. rewrite Hlk by done. case_decide; [done|]. by apply Hlk1.
Qed.

Lemma mapped_frame1 u : table_frame a u → table_frame a1 u ∧ u ≠ p.
Proof.
  intros Hu. split; [|by apply (table_frame_free a)].
  revert Hu. apply table_frame_mono; [done|]. rewrite Hset. set_solver.
Qed.

Lemma mapped_old u : table_frame a u → ¬ is_table a map u →
  table_frame a2 u ∧ ¬ is_table a2 map u ∧ kept a a2 u.
Proof.
  intros Hut Hnt. destruct mapped_spec as (_ & Hg & _). destruct (mapped_frame1 u Hut) as [Hu1 _].
  assert (¬ is_table a1 map u) as Hnt1 by by rewrite Htab1.
  split; [|split].
  - apply (table_frame_mono a1); [apply Hg|apply Hg|done].
  - by apply (grown_table_new a1).
  - apply (kept_trans _ a1); [by apply Hk1|]. by apply (gr_kept _ _ _ Hg).
Qed.

(** The new frame is a page, not a table. *)
Lemma mapped_new : table_frame a1 p ∧ table_frame a2 p ∧ ¬ is_table a2 map p.
Proof.
  destruct mapped_spec as (_ & Hg & _).
  assert (table_frame a1 p) as Hp1.
  { exists k. split; [done|]. split; [by apply (usable_mono a), free_set_usable; [|apply Sp|]|].
    rewrite Hset. set_solver. }
  split; [done|]. split; [apply (table_frame_mono a1); [apply Hg|apply Hg|done]|].
  apply (grown_table_new a1); [done|done|]. rewrite Htab1. intros Ht.
  by destruct (mapped_frame1 p) as [_ ?]; [apply (space_holds a map), table_holds|].
Qed.

Lemma leaf_base : page_base (leaf_value p flags) = p.
Proof. destruct (leaf_value_ok p flags mapped_range Hf) as (_ & _ & -> & _). apply page_base_frame. Qed.

Lemma mapped_space : space a2 map.
Proof.
  destruct mapped_spec as (Hwf & Hg & _ & _ & Hpm & Hlk).
  assert (∀ w e, user w → lookup_page a map w = Some e → page_base e ≠ p) as Hnew.
  { intros w e Hw He. destruct (sp_page _ _ Sp w e Hw He) as [Hfe _]. by apply mapped_frame1. }
  split; [done|done| | |by apply (gr_open _ _ _ Hg), (sp_open _ _ S1)|].
  - intros w e Hw He. rewrite Hlk in He by done. case_decide.
    + injection He as <-. rewrite leaf_base. apply mapped_new.
    + destruct (sp_page _ _ Sp w e Hw He) as [Hfe Hte]. by destruct (mapped_old _ Hfe Hte) as (? & ? & _).
  - intros w w' e e' Hw Hw' He He' Hee. rewrite Hlk in He, He' by done.
    repeat case_decide; [congruence| | |by apply (sp_apart _ _ Sp w w' e e')].
    + injection He' as <-. rewrite leaf_base in Hee. by destruct (Hnew w e Hw He).
    + injection He as <-. rewrite leaf_base in Hee. by destruct (Hnew w' e' Hw' He').
  - intros w e Hw He. rewrite Hlk in He by done. case_decide; [|by apply (sp_flags _ _ Sp w)].
    destruct (leaf_value_ok p flags mapped_range Hf) as (_ & _ & _ & Hbits).
    injection He as <-. unfold PAGE_USER, PAGE_WRITE. by rewrite !has_spec, !Hbits by lia.
Qed.

(** What the map holds now: the new frame and the tables made for it. *)
Lemma mapped_owned a0 : owned a0 a map → owned a0 a2 map.
Proof.
  destruct mapped_spec as (_ & Hg & _ & _ & _ & Hlk). intros Ho i. rewrite (Ho i).
  rewrite (holds_mapped a1 a2 map v p flags (sp_tree _ _ S1) Hv mapped_range Hf (page_base_frame k) Hg).
  2: { by rewrite Hlk1. }
  2: { intros w Hw. rewrite Hlk, Hlk1 by done. done. }
  rewrite (holds_same a a1 map Hlk1 Htab1).
  pose proof (gr_free _ _ _ Hg) as Hsub. rewrite Hset in Hsub. unfold p, PAGE_SIZE. split.
  - intros [Hi|Hi]; [|by right; left]. destruct (decide (i = k)) as [->|Hik]; [by right; right; left|].
    destruct (decide (i ∈ free_set a2)); [by left|]. right. right. right. exists i.
    split; [done|]. rewrite Hset. set_solver.
  - intros [Hi|[Hi|[Hi|(j & Hj & Hfj & _)]]]; [left; set_solver|by right| |].
    + left. assert (i = k) as -> by lia. done.
    + left. assert (i = j) as -> by lia. rewrite Hset in Hfj. set_solver.
Qed.
End Mapped.

Lemma map_fresh a0 a map v flags p a1 :
  grows a0 a map → user v → lookup_page a map v = None → 0 ≤ flags < 4096 →
  Z.testbit flags 1 = true → Z.testbit flags 2 = true → (missing a map v < size (free_set a))%nat →
  alloc_page a = (p, a1) →
  ∃ k, p = k * PAGE_SIZE ∧ mapped_fresh a0 a (vmm_map_page a1 map v p flags) map v flags k.
Proof.
  intros G Hv Hnone Hf Hf1 Hf2 Hn Ha. pose proof (gw_space _ _ _ G) as Sp.
  destruct (alloc_step a map p a1 Sp Ha)
    as (Hl1 & Hk1 & S1 & Hlk1 & Htab1 & Hd1 & [(_ & He & _)|(k & -> & Hk & Hset)]).
  { rewrite He, size_empty in Hn. lia. }
  exists k. split; [done|].
  assert (size (free_set a) = S (size (free_set a1))) as Hsz.
  { rewrite Hset, size_difference, size_singleton by set_solver. lia. }
  assert (missing a map v ≤ size (free_set a1))%nat as Hn1 by lia.
  destruct (mapped_spec a a1 map v flags k Sp Hv Hf Hk S1 Hlk1 Hd1 Hn1) as (_ & Hg & Hsz2 & Ht2 & _ & Hlk).
  set (a2 := vmm_map_page a1 map v (k * PAGE_SIZE) flags) in *.
  assert (∀ u, table_frame a u → ¬ is_table a map u →
    table_frame a2 u ∧ ¬ is_table a2 map u ∧ kept a a2 u) as Hold by (eapply (mapped_old a); eassumption).
  assert (table_frame a1 (k * PAGE_SIZE) ∧ table_frame a2 (k * PAGE_SIZE) ∧
    ¬ is_table a2 map (k * PAGE_SIZE)) as (_ & Hp2 & Hpt2) by (eapply (mapped_new a); eassumption).
  split; [done| |done|done|lia|done| | |].
  - split.
    + eapply (mapped_space a); eassumption.
    + etransitivity; [apply G|]. etransitivity; [exact Hl1|apply Hg].
    + eapply (mapped_owned a); try eassumption. apply G.
    + intros u Hu0. apply (kept_trans _ a); [by apply (gw_kept _ _ _ G)|].
      apply Hold; [by eapply grows_frame|by eapply grows_not_table].
    + assert (table_frame a map) as Hroot by (apply (space_holds a map); [done|by left]).
      intros i Hi. rewrite (gr_kernel _ _ _ Hg i Hi), (Hk1 map Hroot) by lia. by apply (gw_kernel _ _ _ G).
  - intros w Hw. rewrite Hlk by done. case_decide; [split; [by right|by eexists]|].
    split; [by left|by intros [?|?]].
  - intros w Hw Hwv. by rewrite Hlk, decide_True.
  - intros w Hw Hwv. unfold user_view. rewrite Hlk, decide_False by done.
    destruct (lookup_page a map w) as [e|] eqn:He; [|done].
    destruct (sp_page _ _ Sp w e Hw He) as [Hfe Hte]. destruct (Hold _ Hfe Hte) as (_ & _ & Hke).
    f_equal. apply kept_byte; [done|apply offset_range].
Qed.

(** Writing the contents of one mapped page. *)
Section Fill.
Context a0 a map v e k m (G : grows a0 a map) (Hv : user v)
  (He : lookup_page a map v = Some e) (Hk : page_base e = k * PAGE_SIZE)
  (Hout : same_outside (hhdm a + k * PAGE_SIZE) PAGE_SIZE (ram a) m).
Let a' := set_ram a m.

Lemma fill_frame : usable a k ∧ ¬ is_table a map (k * PAGE_SIZE).
Proof.
  destruct (sp_page _ _ (gw_space _ _ _ G) v e Hv He) as [(j & Hj & Hu & _) Ht].
  rewrite Hk in Hj, Ht. split; [|done]. replace k with j; [done|]. unfold PAGE_SIZE in Hj. lia.
Qed.

Lemma fill_kept u : table_frame a u → u ≠ k * PAGE_SIZE → kept a a' u.
Proof.
  intros Hu Hne. pose proof fill_frame as [Hus _].
  by apply (kept_outside a m k); [apply (gw_space _ _ _ G)|..].
Qed.

Lemma fill_spec :
  grows a0 a' map ∧ free_set a' = free_set a ∧ hhdm a' = hhdm a ∧
  (∀ q, upath q → has_table a' map q ↔ has_table a map q) ∧
  (∀ w, user w → lookup_page a' map w = lookup_page a map w) ∧
  (∀ w, user w → page_base w ≠ page_base v → user_view a' map w = user_view a map w) ∧
  (∀ w, user w → page_base w = page_base v →
     user_view a' map w = Some (rd8 m (hhdm a + k * PAGE_SIZE + (w - page_base w)))).
Proof.
  pose proof (gw_space _ _ _ G) as Sp. destruct fill_frame as [Hu Hnt].
  destruct (set_ram_in_page a m k (sp_wf _ _ Sp) Hu Hout) as [Hwf Hfs]. fold a' in Hwf, Hfs.
  assert (same_layout a a') as Hl by apply set_ram_layout.
  assert (∀ u, table_frame a u → table_frame a' u) as Hfr.
  { intros u. apply table_frame_mono; [done|by rewrite Hfs]. }
  assert (∀ u, is_table a map u → kept a a' u) as Hkt.
  { intros u Hut. apply fill_kept; [by apply (space_holds a map), table_holds|]. by intros ->. }
  destruct (space_same a a' map Sp Hwf Hl Hkt) as (Sp' & Hlk & Htab).
  { intros u Hh. by apply Hfr, (space_holds a map). }
  split; [|split; [done|split; [apply Hl|split; [|split; [done|split]]]]].
  2: { intros q Hq. unfold has_table. by rewrite (descend_kept a a' map Hkt). }
  - split; [done|etransitivity; [apply G|done]| | |].
    + intros i. rewrite (gw_owned _ _ _ G i), Hfs. by rewrite (holds_same a a').
    + intros u Hu0. apply (kept_trans _ a); [by apply (gw_kept _ _ _ G)|].
      apply fill_kept; [by eapply grows_frame|]. intros ->. eapply grows_not_held; [done..|].
      rewrite <- Hk. right. right. by exists v, e.
    + intros i Hi. rewrite fill_kept; [by apply (gw_kernel _ _ _ G)| | |lia].
      { apply (space_holds a map); [done|by left]. }
      intros Hmap. apply Hnt. rewrite <- Hmap. exists []. split; [apply upath_nil|done].
  - intros w Hw Hne. unfold user_view. rewrite Hlk by done.
    destruct (lookup_page a map w) as [f|] eqn:Hf; [|done]. f_equal.
    apply kept_byte; [|apply offset_range]. apply fill_kept; [by apply (sp_page _ _ Sp w)|].
    rewrite <- Hk. intros Hee. apply Hne. by apply (sp_apart _ _ Sp w v f e).
  - intros w Hw Hwv. unfold user_view. rewrite Hlk by done.
    assert (lookup_page a map w = Some e) as ->.
    { rewrite <- He. unfold lookup_page, vpath. by destruct (idx_page w v Hwv) as (-> & -> & -> & ->). }
    rewrite (table_layout a a'), offset_eq, Hk by done. unfold a'. rewrite ram_set_ram. do 2 f_equal.
    change (table a (k * PAGE_SIZE)) with (phystokv a (k * PAGE_SIZE)).
    rewrite (phystokv_small a k (sp_wf _ _ Sp)) by (destruct Hu; lia). done.
Qed.
End Fill.

End Growing.
Arguments grows K a0 a map : clear implicits.

(** A new page map has no user page, and no table but its root. *)
Lemma grows_start a0 kernel_pml4 :
  alloc_wf a0 → kernel_table a0 kernel_pml4 → free_set a0 ≠ ∅ →
  ∃ k a1, vmm_new_pagemap a0 kernel_pml4 = (k * PAGE_SIZE, a1) ∧ k * PAGE_SIZE ≠ 0 ∧
    grows (λ i, rd64 (ram a0) (kernel_pml4 + 8 * i)) a0 a1 (k * PAGE_SIZE) ∧
    size (free_set a0) = S (size (free_set a1)) ∧
    (∀ q, upath q → has_table a1 (k * PAGE_SIZE) q ↔ q = []) ∧
    ∀ v, user v → lookup_page a1 (k * PAGE_SIZE) v = None.
Proof.
  intros Hwf Hkt Hf. destruct (vmm_new_pagemap_spec a0 kernel_pml4 Hwf Hkt Hf)
    as (k & a1 & Heq & Hk & Hwf1 & Hl & Hset & Hpm & Htab & Hnone & Hhigh & Hold).
  destruct (free_set_usable a0 k Hwf Hk) as [Hkr _].
  exists k, a1. split; [done|]. split; [unfold PAGE_SIZE; lia|]. split; [|split; [|split; [|done]]].
  2: { assert (size (free_set a0) ≠ 0%nat) by (intros He; by apply Hf, leibniz_equiv, size_empty_inv).
       rewrite Hset, size_difference, size_singleton by set_solver. lia. }
  2: { intros q Hq. split; [|intros ->; by eexists]. intros [x Hx].
       assert (x = k * PAGE_SIZE) as -> by (apply Htab; by exists q).
       by apply (pm_inj _ _ Hpm q [] (k * PAGE_SIZE) Hq upath_nil). }
  split; [split; [done..| | |by apply open_tables_root|]|done| | |exact Hhigh].
  3: { intros v e Hv. by rewrite Hnone. }
  - intros v e Hv. by rewrite Hnone.
  - intros v w e e' Hv. by rewrite Hnone.
  - intros i. rewrite Hset. assert (∀ x, holds a1 (k * PAGE_SIZE) x ↔ x = k * PAGE_SIZE) as ->.
    { intros x. split; [|by left]. intros [?|[Ht|(v & e & Hv & He & _)]]; [done|by apply Htab|].
      by rewrite Hnone in He. }
    unfold PAGE_SIZE. split.
    + intros Hi. destruct (decide (i = k)) as [->|]; [by right|left; set_solver].
    + intros [Hi|Hi]; [set_solver|]. by assert (i = k) as -> by lia.
  - intros u Hu j Hj. by apply Hold.
Qed.

(** When nothing is free there is no new page map. *)
Lemma no_pagemap a0 kernel_pml4 :
  alloc_wf a0 → free_set a0 = ∅ →
  ∃ a1, vmm_new_pagemap a0 kernel_pml4 = (0, a1) ∧ alloc_wf a1 ∧ same_layout a0 a1 ∧
    ram_kept a0 a1 ∧ free_set a1 = free_set a0.
Proof.
  intros Hwf Hnone. unfold vmm_new_pagemap. destruct (alloc_page a0) as [p a1] eqn:Ha.
  destruct (alloc_page_law _ _ _ Hwf Ha) as (? & ? & ? & [(-> & _ & ?)|(k & _ & Hk & _)]).
  2: { exfalso. rewrite Hnone in Hk. by apply not_elem_of_empty in Hk. }
  exists a1. split; [reflexivity|]. split; [done|]. split; [done|]. split; [done|congruence].
Qed.

(** Giving back other frames [P], allocated before, keeps the space. *)
Lemma grows_other K a0 a a' map (P : Z → Prop) :
  grows K a0 a map → released P a a' → (∀ k, P (k * PAGE_SIZE) → k ∉ free_set a0) →
  space a' map ∧ (∀ v, user v → lookup_page a' map v = lookup_page a map v) ∧
  (∀ x, holds a' map x ↔ holds a map x) ∧
  (∀ v, user v → user_view a' map v = user_view a map v).
Proof.
  intros G (Hwf & Hl & Hram & Hfs) HP. pose proof (gw_space _ _ _ G) as Sp.
  assert (∀ u, table_frame a u → kept a a' u) as Hkept.
  { intros u Hu. apply kept_ram; [apply Sp|done..]. }
  destruct (space_same a a' map Sp Hwf Hl) as (Sp' & Hlk & Htab).
  { intros u Hu. by apply Hkept, (space_holds a map), table_holds. }
  { intros u Hu. destruct (space_holds a map u Sp Hu) as (k & -> & Huk & Hk).
    exists k. split; [done|]. split; [by apply (usable_mono a)|]. rewrite Hfs.
    intros [?|Hp]; [done|]. apply (HP k Hp), (gw_owned _ _ _ G). by right. }
  split; [done|]. split; [done|]. split; [by apply holds_same|].
  apply view_same; [done|]. intros v e Hv He. apply Hkept. by apply (sp_page _ _ Sp v).
Qed.

(** What growing keeps of an earlier state [s], [P] being given back. *)
Lemma grows_preserves K s a0 a a' map (P : Z → Prop) :
  grows K a0 a map → released P a a' → preserves s a0 → (∀ u, P u → ¬ table_frame s u) →
  preserves s a'.
Proof.
  intros G Hr Hs HP. apply (released_preserves P s a); [apply G| |done|done].
  etransitivity; [exact Hs|]. split; [apply G|apply (grows_frame a0 a map G)|apply G].
Qed.

(** Giving a page map back that holds nothing allocated before. *)
Lemma free_preserves s a map :
  space a map → map ≠ 0 → preserves s a → (∀ u, holds a map u → ¬ table_frame s u) →
  released (holds a map) a (vmm_free_pagemap a map) ∧ preserves s (vmm_free_pagemap a map).
Proof.
  intros Sp Hm Hs Hh.
  assert (released (holds a map) a (vmm_free_pagemap a map)) as Hr.
  { apply vmm_free_pagemap_spec; [apply Sp|done|]. intros x Hx.
    destruct (space_holds a map x Sp Hx) as (k & -> & Hk & _). by exists k. }
  split; [done|]. by apply (released_preserves (holds a map) s a); [apply Sp|..].
Qed.

(** ... and then giving the page map back restores the allocator. *)
Lemma grows_released K a0 a a' map (P : Z → Prop) :
  grows K a0 a map → map ≠ 0 → released P a a' → (∀ k, P (k * PAGE_SIZE) → k ∉ free_set a0) →
  let a2 := vmm_free_pagemap a' map in
  alloc_wf a2 ∧ (∀ k, k ∈ free_set a2 ↔ k ∈ free_set a0 ∨ P (k * PAGE_SIZE)) ∧
  ∀ s, preserves s a0 → (∀ u, P u → ¬ table_frame s u) → preserves s a2.
Proof.
  intros G Hm Hr HP. pose proof Hr as (Hwf & _ & _ & Hfs).
  destruct (grows_other K a0 a a' map P G Hr HP) as (Sp & _ & Hh & _). split; [|split].
  - apply vmm_free_pagemap_spec; [done|done|]. intros x Hx.
    destruct (space_holds a' map x Sp Hx) as (k & -> & Hk & _). by exists k.
  - intros k. destruct (vmm_free_pagemap_spec a' map Hwf Hm) as (_ & _ & _ & Hfs2).
    { intros x Hx. destruct (space_holds a' map x Sp Hx) as (j & -> & Hj & _). by exists j. }
    rewrite Hfs2, Hfs, Hh, (gw_owned _ _ _ G k). tauto.
  - intros s Hs HPs. apply free_preserves; [done|done|by apply (grows_preserves K s a0 a a' map P)|].
    intros u Hu Hf. apply Hh in Hu. by apply (grows_not_held a0 a map G u); [apply Hs|].
Qed.
End AddrSpace.

#[global] Arguments grows {_ _} _ _ _ _.
