(* ===== verification/Process.v ===== *)
(** The program loader (src/kernel/process.c, src/kernel/elf.h), over any page
    allocator and over what the two file systems answer for the file's name.

    The file is read into frames of its own, the headers are taken from there,
    and the result is either the message printed ([Failed]) or what
    [jump_usermode] passes to the processor ([Started]). The loop over the
    pages of a segment runs with a fuel of 2^64; it has at most 2^52 turns. *)

From S2P Require Export Io Vmm.
From S2P Require Import Fat16 TarFs.
Open Scope Z_scope.

(** ** The ELF headers, read in place *)

Definition PT_LOAD : Z := 1.
Definition SIZEOF_PHDR : Z := 56.

Definition e_entry (m : mem) (ehdr : Z) : Z := rd64 m (ehdr + 24).
Definition e_phoff (m : mem) (ehdr : Z) : Z := rd64 m (ehdr + 32).
Definition e_phnum (m : mem) (ehdr : Z) : Z := rd16 m (ehdr + 56).

(** [e_ident[0] == 0x7f && e_ident[1] == 'E' && ...] *)
Definition elf_magic (m : mem) (ehdr : Z) : bool :=
  (rd8 m ehdr =? 0x7f) && (rd8 m (ehdr + 1) =? 69) &&
  (rd8 m (ehdr + 2) =? 76) && (rd8 m (ehdr + 3) =? 70).

Record phdr := mk_phdr {
  p_type : Z; p_offset : Z; p_vaddr : Z; p_filesz : Z; p_memsz : Z;
}.

Definition read_phdr (m : mem) (p : Z) : phdr :=
  mk_phdr (rd32 m p) (rd64 m (p + 8)) (rd64 m (p + 16)) (rd64 m (p + 32)) (rd64 m (p + 40)).

(** [bytes_to_map], rounded up to pages. *)
Definition page_count (h : phdr) : Z :=
  u64 (u64 (p_memsz h + (p_vaddr h .& 4095)) + 4095) / 4096.

(** What a file system answers for the file's name: its size, the result of
    reading it, and the bytes stored into the buffer. *)
Record answer := mk_answer { file_size : Z; file_read : Z * list Z }.

Definition fat_file {D} `{Disk D} (v : vol) (d : D) (filename : list Z) : answer :=
  mk_answer (fat16_get_file_size v d filename) (fat16_read_file v d filename).

(** The name is at address [filename] of the memory the archive is in. *)
Definition tar_file (fs : tarfs) (filename : Z) (m : mem) : answer :=
  mk_answer (tarfs_get_file_size m fs filename) (tarfs_read_file m fs filename).

(** What [asm_jump_usermode] starts with, and the kernel stack set before. *)
Record usermode := mk_usermode {
  um_cr3 : Z; um_entry : Z; um_stack : Z; um_args : Z; um_kernel_stack : Z;
}.

Inductive outcome :=
  | Failed (message : list Z)
  | Started (regs : usermode).

Definition USER_STACK : Z := 0x700000000000.

Definition jump_usermode (kstack cr3 entry_point user_stack args_string : Z) : usermode :=
  mk_usermode cr3 entry_point user_stack args_string (u64 (kstack + 4096)).

Section Process.
Context {St : Type} `{PageAllocator St}.

(** [for (i = 0; i < file_pages; i++) pmm_free_page(phys_buf + i * 4096)] *)
Definition free_file (a : St) (phys_buf file_pages : Z) : St :=
  for_each (Z.to_nat file_pages) 0 (λ i a, free_page a (u64 (phys_buf + i * 4096))) a.

(** ** Segments *)

(** The part of the file that belongs to the page at [current_vaddr]. *)
Definition copy_page (m : mem) (dest file_buf : Z) (h : phdr) (current_vaddr : Z) : mem :=
  let vaddr := p_vaddr h in
  let page_offset := vaddr .& 4095 in
  let file_end := u64 (vaddr + p_filesz h) in
  if (vaddr <? u64 (current_vaddr + 4096)) && (current_vaddr <? file_end) then
    let copy_start_in_page := if current_vaddr <? vaddr then page_offset else 0 in
    let src_offset := u64 (p_offset h + u64 (current_vaddr + copy_start_in_page - vaddr)) in
    let copy_size := 4096 - copy_start_in_page in
    let copy_size :=
      if file_end <? u64 (current_vaddr + copy_start_in_page + copy_size)
      then u64 (file_end - u64 (current_vaddr + copy_start_in_page)) else copy_size in
    memcpy m (u64 (dest + copy_start_in_page)) (u64 (file_buf + src_offset)) copy_size
  else m.

(** Page [j] of a segment; [inr] when no frame is left. *)
Definition load_page (map file_buf : Z) (h : phdr) (j : Z) (a : St) : St + St :=
  let '(paddr, a) := alloc_page a in
  if paddr =? 0 then inr a
  else
    let current_vaddr := u64 (page_base (p_vaddr h) + u64 (j * 4096)) in
    let a := vmm_map_page a map current_vaddr paddr (PAGE_USER .| PAGE_WRITE) in
    let dest := u64 (paddr + hhdm a) in
    let a := set_ram a (memset (ram a) dest 0 4096) in
    inl (set_ram a (copy_page (ram a) dest file_buf h current_vaddr)).

Definition segment_fuel : positive := 18446744073709551616.

Definition segment_step (map file_buf : Z) (h : phdr) : Z * St → (Z * St) + (St + St) :=
  λ '(j, a),
  if j <? page_count h then
    match load_page map file_buf h j a with
    | inl a => inl (j + 1, a)
    | inr a => inr (inr a)
    end
  else inr (inl a).

Definition load_segment (map file_buf : Z) (h : phdr) (a : St) : St + St :=
  match while (segment_step map file_buf h) segment_fuel (0, a) with
  | inr r => r
  | inl (_, a) => inl a
  end.

Definition bad_vaddr : list Z := str "Exec: p_vaddr invalido (Kernel Space)!" ++ [10].
Definition no_frame : list Z := str "Exec: Falta de memoria fisica!" ++ [10].

(** The loop over the program headers; [inr] leaves with the message. *)
Definition load_header (map file_buf : Z) (phdr : Z) (i : Z) (a : St) : St + (list Z * St) :=
  let h := read_phdr (ram a) (phdr + SIZEOF_PHDR * i) in
  if p_type h =? PT_LOAD then
    if USER_LIMIT <=? p_vaddr h then inr (bad_vaddr, a)
    else
      match load_segment map file_buf h a with
      | inl a => inl a
      | inr a => inr (no_frame, a)
      end
  else inl a.

Definition header_step (map file_buf phdr : Z) : Z * St → (Z * St) + (St + (list Z * St)) :=
  λ '(i, a),
  if i <? e_phnum (ram a) file_buf then
    match load_header map file_buf phdr i a with
    | inl a => inl (i + 1, a)
    | inr r => inr (inr r)
    end
  else inr (inl a).

(** [e_phnum] has 16 bits. *)
Definition header_fuel : positive := 65536.

Definition load_segments (map file_buf : Z) (a : St) : St + (list Z * St) :=
  let phdr := u64 (file_buf + e_phoff (ram a) file_buf) in
  match while (header_step map file_buf phdr) header_fuel (0, a) with
  | inr r => r
  | inl (_, a) => inl a
  end.

(** The stack page and the arguments at its top; [None] when no frame is left. *)
Definition setup_stack (map : Z) (args : option (list Z)) (a : St) : option Z * St :=
  let '(stack_phys, a) := alloc_page a in
  if stack_phys =? 0 then (None, a)
  else
    let a := vmm_map_page a map USER_STACK stack_phys (PAGE_USER .| PAGE_WRITE) in
    let user_stack_ptr := USER_STACK + 4096 in
    match args with
    | None => (Some user_stack_ptr, a)
    | Some args =>
        let arg_len := Z.of_nat (length args) + 1 in
        let stack_kern_ptr := phystokv a stack_phys + 4096 - arg_len in
        (Some (u64 (user_stack_ptr - arg_len)),
         set_ram a (wr_bytes (ram a) stack_kern_ptr (args ++ [0])))
    end.

(** ** [process_exec] *)

(** From the page map on: the file is in [file_pages] frames at [phys_buf]. *)
Definition exec_image (kernel_pml4 kstack phys_buf file_pages : Z) (args : option (list Z))
    (a : St) : outcome * St :=
  let file_buf := phystokv a phys_buf in
  let '(process_pml4, a) := vmm_new_pagemap a kernel_pml4 in
  if process_pml4 =? 0 then
    (Failed (str "Exec: Erro ao criar Page Map!" ++ [10]), free_file a phys_buf file_pages)
  else
    let clean_up a :=
      vmm_free_pagemap (free_file a phys_buf file_pages) process_pml4 in
    match load_segments process_pml4 file_buf a with
    | inr (message, a) => (Failed message, clean_up a)
    | inl a =>
        match setup_stack process_pml4 args a with
        | (None, a) => (Failed (str "Exec: Falta de memoria para stack!" ++ [10]), clean_up a)
        | (Some user_stack_ptr, a) =>
            let a := free_file a phys_buf file_pages in
            (Started (jump_usermode kstack (vmm_switch_pagemap process_pml4)
                        (e_entry (ram a) file_buf) user_stack_ptr user_stack_ptr), a)
        end
    end.

(** The tests of the headers; [Some] is the message of the first that fails. *)
Definition check_headers (m : mem) (file_buf size : Z) : option (list Z) :=
  if negb (elf_magic m file_buf) then Some (str "Exec: Formato ELF invalido!" ++ [10])
  else if (size <=? e_phoff m file_buf) ||
          (size <? u64 (e_phoff m file_buf + u64 (e_phnum m file_buf * SIZEOF_PHDR))) then
    Some (str "Exec: Limites do ELF Phdr invalidos (Risco de Seguranca)!" ++ [10])
  else if USER_LIMIT <=? e_entry m file_buf then
    Some (str "Exec: Entry point invalido (Acesso Restrito ao Kernel)!" ++ [10])
  else None.

Definition process_exec (kernel_pml4 kstack : Z) (fat : answer) (tar : mem → answer)
    (args : option (list Z)) (a : St) : outcome * St :=
  let use_tarfs := file_size fat =? 0 in
  let size := if use_tarfs then u32 (file_size (tar (ram a))) else file_size fat in
  if size =? 0 then (Failed (str "Exec: Arquivo nao encontrado ou vazio!" ++ [10]), a)
  else
    let file_pages := u32 (size + 4095) / 4096 in
    let '(phys_buf, a) := alloc_pages a file_pages in
    if phys_buf =? 0 then
      (Failed (str "Exec: Memoria insuficiente para ler arquivo!" ++ [10]), a)
    else
      let file_buf := phystokv a phys_buf in
      let '(bytes_read, data) := file_read (if use_tarfs then tar (ram a) else fat) in
      let a := set_ram a (wr_bytes (ram a) file_buf data) in
      if bytes_read <=? 0 then (Failed [], free_file a phys_buf file_pages)
      else
        match check_headers (ram a) file_buf size with
        | Some message => (Failed message, free_file a phys_buf file_pages)
        | None => exec_image kernel_pml4 kstack phys_buf file_pages args a
        end.
End Process.
