(* ===== verification/Layout.v ===== *)
(** What a program file asks of the loader (the layout behind Process.v).

    A program file is a list of bytes [img]; its headers are read from it as
    the loader reads them from memory. [seg_view] is the specification: the user
    byte at an address is that of the first PT_LOAD header whose pages hold the
    address, from the file below [p_filesz] and 0 elsewhere. [program_pages] lists
    the pages the loader maps, in its order, and [frames_for] counts the frames
    that a list of pages takes, tables and root included.

    Two conditions name what the loader does not check. [loadable]: the segments
    fit and share no page, so that the program that is started is the one the
    file describes. [placeable] is weaker and is all that cleaning up needs: no
    page in the kernel half, none mapped twice. *)

From S2P Require Export Process AddrSpace.

Definition image (img : list Z) : mem := wr_bytes ∅ 0 img.

Definition hdr (img : list Z) (i : Z) : phdr :=
  read_phdr (image img) (e_phoff (image img) 0 + SIZEOF_PHDR * i).

(** A segment to place, and one the loader rejects. *)
Definition is_load (h : phdr) : bool := (p_type h =? PT_LOAD) && (p_vaddr h <? USER_LIMIT).
Definition in_kernel (h : phdr) : bool := (p_type h =? PT_LOAD) && (USER_LIMIT <=? p_vaddr h).

(** The segments to place among the first [n] headers. *)
Definition loads (img : list Z) (n : Z) : list phdr :=
  List.filter is_load (hdr img <$> seqZ 0 n).

Definition seg_start (h : phdr) : Z := page_base (p_vaddr h).
Definition seg_end (h : phdr) : Z := seg_start h + 4096 * page_count h.
Definition in_seg (w : Z) (h : phdr) : bool := (seg_start h <=? w) && (w <? seg_end h).

Definition seg_byte (img : list Z) (h : phdr) (w : Z) : Z :=
  if (p_vaddr h <=? w) && (w <? p_vaddr h + p_filesz h)
  then rd8 (image img) (p_offset h + (w - p_vaddr h)) else 0.

Definition seg_view (img : list Z) (hs : list phdr) (w : Z) : option Z :=
  match List.find (in_seg w) hs with Some h => Some (seg_byte img h w) | None => None end.

Definition total_pages (hs : list phdr) : Z := fold_right (λ h n, page_count h + n) 0 hs.

(** A segment inside the user half whose bytes lie in the file, below the stack
    page or above it. *)
Record good_segment (size : Z) (h : phdr) : Prop := {
  gs_vaddr : 0 ≤ p_vaddr h < USER_LIMIT;
  gs_memsz : 0 ≤ p_memsz h ∧ p_vaddr h + p_memsz h ≤ USER_LIMIT;
  gs_file : 0 ≤ p_filesz h ∧ 0 ≤ p_offset h ∧ p_offset h + p_filesz h ≤ size;
  gs_stack : seg_end h ≤ USER_STACK ∨ USER_STACK + 4096 ≤ seg_start h;
}.

(** What the loader does not check: the segments fit and share no page. *)
Record good_layout (img : list Z) (n : Z) : Prop := {
  gl_segment i : 0 ≤ i < n → is_load (hdr img i) = true →
    good_segment (Z.of_nat (length img)) (hdr img i);
  gl_apart i j : 0 ≤ i < j → j < n → is_load (hdr img i) = true → is_load (hdr img j) = true →
    seg_end (hdr img i) ≤ seg_start (hdr img j) ∨ seg_end (hdr img j) ≤ seg_start (hdr img i);
}.

Lemma hdr_range img i :
  0 ≤ p_vaddr (hdr img i) < 2 ^ 64 ∧ 0 ≤ p_memsz (hdr img i) < 2 ^ 64 ∧
  0 ≤ p_filesz (hdr img i) < 2 ^ 64 ∧ 0 ≤ p_offset (hdr img i) < 2 ^ 64.
Proof. split_and!; try apply rd64_range. Qed.

Lemma page_count_good size h :
  good_segment size h →
  page_count h = (p_memsz h + p_vaddr h mod 4096 + 4095) / 4096 ∧
  0 ≤ page_count h ∧ 0 ≤ seg_start h ≤ seg_end h ∧ seg_end h ≤ USER_LIMIT ∧
  seg_start h mod 4096 = 0.
Proof.
  intros [Hv Hm _ _]. unfold page_count, seg_end, seg_start, page_count.
  rewrite offset_eq, page_base_spec. unfold USER_LIMIT in *.
  replace (p_vaddr h - (p_vaddr h - p_vaddr h mod 4096)) with (p_vaddr h mod 4096) by lia.
  pose proof (Z.mod_pos_bound (p_vaddr h) 4096 eq_refl).
  rewrite !(u64_small (p_memsz h + _)) by lia. rewrite u64_small by lia.
  split; [done|]. split; [dlia|]. split; [dlia|]. split; dlia.
Qed.

Lemma loads_snoc img n :
  0 ≤ n → loads img (n + 1) = loads img n ++ (if is_load (hdr img n) then [hdr img n] else []).
Proof.
  intros Hn. unfold loads. rewrite seqZ_snoc, fmap_app by done.
  rewrite List.filter_app. cbn. done.
Qed.

Lemma total_pages_app hs gs : total_pages (hs ++ gs) = total_pages hs + total_pages gs.
Proof.
  unfold total_pages. induction hs as [|h hs IH]; cbn [fold_right app]; [lia|]. rewrite IH. lia.
Qed.

Lemma total_pages_nonneg hs : 0 ≤ total_pages hs.
Proof.
  induction hs as [|h hs IH]; cbn [total_pages fold_right]; [lia|]. fold (total_pages hs).
  assert (0 ≤ page_count h); [|lia]. apply Z.div_pos; [apply u64_range|lia].
Qed.

(** Which headers are placed. *)
Lemma elem_of_loads img n h :
  h ∈ loads img n ↔ ∃ i, 0 ≤ i < n ∧ h = hdr img i ∧ is_load h = true.
Proof.
  unfold loads. rewrite list_elem_of_In, List.filter_In, <- list_elem_of_In, list_elem_of_fmap.
  split.
  - intros [(i & -> & Hi%elem_of_seqZ) Hl]. exists i. split; [lia|done].
  - intros (i & Hi & -> & Hl). split; [|done]. exists i. split; [done|]. apply elem_of_seqZ. lia.
Qed.

Lemma seg_view_none img hs w : (∀ h, h ∈ hs → in_seg w h = false) → seg_view img hs w = None.
Proof.
  unfold seg_view. induction hs as [|h hs IH]; intros Hn; cbn; [done|].
  rewrite Hn by set_solver. apply IH. set_solver.
Qed.

Lemma seg_view_app img hs h w :
  seg_view img (hs ++ [h]) w =
  match seg_view img hs w with
  | Some b => Some b
  | None => if in_seg w h then Some (seg_byte img h w) else None
  end.
Proof.
  unfold seg_view. induction hs as [|g hs IH]; cbn; [by destruct (in_seg w h)|].
  destruct (in_seg w g); [done|exact IH].
Qed.


(** ** The pages, in the order they are mapped *)

(** The first [n] pages of a segment, and all of them. *)
Definition pages_to (h : phdr) (n : Z) : list Z := (λ j, seg_start h + 4096 * j) <$> seqZ 0 n.
Definition seg_pages (h : phdr) : list Z := pages_to h (page_count h).

(** The pages of the first [n] headers. *)
Definition load_pages (img : list Z) (n : Z) : list Z := loads img n ≫= seg_pages.

Definition program_pages (img : list Z) : list Z :=
  load_pages img (e_phnum (image img) 0) ++ [USER_STACK].

Lemma pages_to_snoc h n : 0 ≤ n → pages_to h (n + 1) = pages_to h n ++ [seg_start h + 4096 * n].
Proof. intros Hn. unfold pages_to. by rewrite seqZ_snoc, fmap_app. Qed.

Lemma pages_to_split h j : 0 ≤ j < page_count h →
  ∃ rest, seg_pages h = pages_to h j ++ (seg_start h + 4096 * j) :: rest.
Proof.
  intros Hj. unfold seg_pages, pages_to. replace (page_count h) with (j + (page_count h - j)) by lia.
  rewrite seqZ_app, fmap_app by lia. rewrite (seqZ_cons (0 + j)) by lia. cbn [fmap list_fmap].
  eexists. do 3 f_equal. 
Qed.

Lemma elem_of_pages_to h n x : x ∈ pages_to h n ↔ ∃ j, 0 ≤ j < n ∧ x = seg_start h + 4096 * j.
Proof.
  unfold pages_to. rewrite list_elem_of_fmap. split.
  - intros (j & -> & Hj%elem_of_seqZ). exists j. split; [lia|done].
  - intros (j & Hj & ->). exists j. split; [done|]. apply elem_of_seqZ. lia.
Qed.

Lemma load_pages_snoc img n :
  0 ≤ n → load_pages img (n + 1) = load_pages img n ++ (if is_load (hdr img n) then seg_pages (hdr img n) else []).
Proof.
  intros Hn. unfold load_pages. rewrite loads_snoc, bind_app by done. f_equal.
  destruct (is_load _); [|done]. cbn. by rewrite app_nil_r.
Qed.

Lemma load_pages_split img i n : 0 ≤ i ≤ n → ∃ rest, load_pages img n = load_pages img i ++ rest.
Proof.
  intros Hi. unfold load_pages, loads. replace n with (i + (n - i)) by lia.
  rewrite seqZ_app, fmap_app, List.filter_app, bind_app by lia. by eexists.
Qed.

Lemma length_load_pages img n : Z.of_nat (length (load_pages img n)) = total_pages (loads img n).
Proof.
  unfold load_pages. induction (loads img n) as [|h hs IH]; [done|].
  cbn [mbind list_bind total_pages fold_right]. fold (total_pages hs). rewrite length_app.
  assert (0 ≤ page_count h) by (apply Z.div_pos; [apply u64_range|lia]).
  unfold seg_pages at 1, pages_to. rewrite length_fmap, length_seqZ.
  change (Z.of_nat (length (hs ≫= seg_pages)) = total_pages hs) in IH. lia.
Qed.

(** ** The frames they take *)

(** The paths of the tables that lead to the pages. *)
Definition tables (pages : list Z) : gset (list Z) := list_to_set (pages ≫= vprefixes).

(** The root, the pages and their tables. *)
Definition frames_for (pages : list Z) : nat := S (length pages + size (tables pages)).

Lemma tables_app ps qs : tables (ps ++ qs) = tables ps ∪ tables qs.
Proof. unfold tables. by rewrite bind_app, list_to_set_app_L. Qed.

Lemma tables_page v : tables [v] = {[ [pml4_idx v]; [pml4_idx v; pdpt_idx v]; vpath v ]}.
Proof. apply set_eq. intros q. unfold tables. cbn. set_solver. Qed.

Lemma frames_for_bound pages : (frames_for pages ≤ 1 + 4 * length pages)%nat.
Proof.
  unfold frames_for. enough (size (tables pages) ≤ 3 * length pages)%nat by lia.
  induction pages as [|v pages IH]; [by cbn|].
  change (v :: pages) with ([v] ++ pages). rewrite tables_app, length_app. cbn [length].
  pose proof (size_union_alt (tables [v]) (tables pages)) as ->.
  assert (size (tables [v]) ≤ 3)%nat.
  { rewrite tables_page. rewrite !size_union_alt, size_singleton.
    pose proof (subseteq_size ({[[pml4_idx v; pdpt_idx v]]} ∖ {[[pml4_idx v]]} : gset (list Z))
      {[[pml4_idx v; pdpt_idx v]]} ltac:(set_solver)) as H1.
    pose proof (subseteq_size ({[vpath v]} ∖ ({[[pml4_idx v]]} ∪ {[[pml4_idx v; pdpt_idx v]]}) : gset (list Z))
      {[vpath v]} ltac:(set_solver)) as H2.
    rewrite size_singleton in *. lia. }
  pose proof (subseteq_size (tables pages ∖ tables [v]) (tables pages) ltac:(set_solver)). lia.
Qed.

Lemma frames_for_more ps qs : (length qs + frames_for ps ≤ frames_for (ps ++ qs))%nat.
Proof.
  unfold frames_for. rewrite tables_app, length_app.
  pose proof (subseteq_size (tables ps) (tables ps ∪ tables qs) ltac:(set_solver)). lia.
Qed.

(** With [free] frames left for the page map: they do not run out between a page
    and the tables that lead to it, where the code takes physical page 0 for a
    table ([map_page_out_of_memory]). *)
Definition frames_fit (pages : list Z) (free : Z) : bool :=
  forallb (λ i, (free <=? Z.of_nat (frames_for (take i pages))) ||
                (Z.of_nat (frames_for (take (S i) pages)) <=? free)) (seq 0 (length pages)).

Lemma frames_fit_spec pages free :
  frames_fit pages free = true ↔
  ∀ ps v qs, pages = ps ++ v :: qs → Z.of_nat (frames_for ps) < free → Z.of_nat (frames_for (ps ++ [v])) ≤ free.
Proof.
  unfold frames_fit. rewrite forallb_forall. split.
  - intros Hall ps v qs -> Hlt. specialize (Hall (length ps)).
    rewrite take_app_length, <- (Nat.add_1_r (length ps)) in Hall.
    replace (take (length ps + 1) (ps ++ v :: qs)) with (ps ++ [v]) in Hall.
    2: { rewrite take_app_add. by cbn. }
    assert (In (length ps) (seq 0 (length (ps ++ v :: qs)))) as Hin.
    { apply in_seq. rewrite length_app. cbn. lia. }
    specialize (Hall Hin). apply orb_true_iff in Hall as [?%Z.leb_le|?%Z.leb_le]; lia.
  - intros Hall i Hi%in_seq. apply orb_true_iff. rewrite !Z.leb_le.
    destruct (lookup_lt_is_Some_2 pages i ltac:(lia)) as [v Hv].
    pose proof (take_S_r pages i v Hv) as Ht. rewrite Ht.
    destruct (Z.le_gt_cases free (Z.of_nat (frames_for (take i pages)))); [by left|right].
    apply (Hall _ v (drop (S i) pages)); [|lia]. rewrite cons_middle, app_assoc, <- Ht. by rewrite take_drop.
Qed.

(** Enough for all is enough. *)
Lemma frames_fit_enough pages free : Z.of_nat (frames_for pages) ≤ free → frames_fit pages free = true.
Proof.
  intros Hn. apply frames_fit_spec. intros ps v qs -> _.
  pose proof (frames_for_more (ps ++ [v]) qs) as Hm. rewrite <- app_assoc in Hm. cbn [app] in Hm. lia.
Qed.

(** ** What the loader relies on *)

(** What lies at the top of the stack page. *)
Definition stack_bytes (args : option (list Z)) : list Z :=
  match args with Some l => l ++ [0] | None => [] end.

Definition stack_pointer (args : option (list Z)) : Z :=
  USER_STACK + 4096 - Z.of_nat (length (stack_bytes args)).

(** What the loader relies on and does not check. *)
Record loadable (img : list Z) (args : option (list Z)) : Prop := {
  ld_size : 64 ≤ Z.of_nat (length img) < 2 ^ 31;
  ld_layout : good_layout img (e_phnum (image img) 0);
  ld_args : Z.of_nat (length (stack_bytes args)) ≤ 4096;
}.

(** Frames needed: the root, and at most four for each page. *)
Definition frames_needed (img : list Z) : Z :=
  1 + 4 * (total_pages (loads img (e_phnum (image img) 0)) + 1).

Definition file_pages (img : list Z) : Z := (Z.of_nat (length img) + 4095) / 4096.

(** All the loader relies on to put things back when it fails: the pages are in
    the user half and none is mapped twice, and the ends of the segments do not
    wrap. *)
Record placeable (img : list Z) (args : option (list Z)) : Prop := {
  pa_size : 64 ≤ Z.of_nat (length img) < 2 ^ 31;
  pa_user : Forall user (program_pages img);
  pa_apart : NoDup (program_pages img);
  pa_file i : 0 ≤ i < e_phnum (image img) 0 → is_load (hdr img i) = true →
    p_vaddr (hdr img i) + p_filesz (hdr img i) < 2 ^ 64;
  pa_args : Z.of_nat (length (stack_bytes args)) ≤ 4096;
}.

(** With [free] frames: once the file has its own, the rest does not run out
    between a page and its tables. *)
Definition fits (img : list Z) (free : Z) : bool := frames_fit (program_pages img) (free - file_pages img).

Lemma elem_of_load_pages img n x :
  x ∈ load_pages img n ↔ ∃ i, 0 ≤ i < n ∧ is_load (hdr img i) = true ∧ x ∈ seg_pages (hdr img i).
Proof.
  unfold load_pages. rewrite list_elem_of_bind. split.
  - intros (h & Hx & (i & Hi & -> & Hl)%elem_of_loads). by exists i.
  - intros (i & Hi & Hl & Hx). exists (hdr img i). split; [done|]. apply elem_of_loads. by exists i.
Qed.

Lemma good_page size h x : good_segment size h → x ∈ seg_pages h →
  user x ∧ seg_start h ≤ x < seg_end h ∧ x ≠ USER_STACK.
Proof.
  intros Hg (j & Hj & ->)%elem_of_pages_to. pose proof (gs_stack _ _ Hg).
  destruct (page_count_good _ h Hg) as (_ & _ & Hs & He & _). unfold seg_end, user, USER_STACK in *. lia.
Qed.

Lemma seg_pages_nodup h : NoDup (seg_pages h).
Proof. apply NoDup_fmap_2; [|apply NoDup_seqZ]. intros i j Hij. lia. Qed.

Lemma load_pages_nodup img n : good_layout img n → 0 ≤ n → NoDup (load_pages img n).
Proof.
  intros G Hn. enough (∀ i, 0 ≤ i → i ≤ n → NoDup (load_pages img i)) as Hall by (apply Hall; lia).
  apply (natlike_ind (λ i, i ≤ n → NoDup (load_pages img i))); [constructor|]. intros i Hi IH Hin.
  rewrite <- Z.add_1_r, load_pages_snoc by done. destruct (is_load (hdr img i)) eqn:Hl;
    [|rewrite app_nil_r; apply IH; lia].
  apply list.NoDup_app. split; [apply IH; lia|]. split; [|apply seg_pages_nodup].
  intros x (j & Hj & Hlj & Hxj)%elem_of_load_pages Hxi.
  apply (good_page _ _ _ (gl_segment _ _ G j ltac:(lia) Hlj)) in Hxj as (_ & Hxj & _).
  apply (good_page _ _ _ (gl_segment _ _ G i ltac:(lia) Hl)) in Hxi as (_ & Hxi & _).
  destruct (gl_apart _ _ G j i ltac:(lia) ltac:(lia) Hlj Hl); lia.
Qed.

(** A file whose segments fit can be placed, ... *)
Lemma loadable_placeable img args : loadable img args → placeable img args.
Proof.
  intros [Hsz G Ha]. assert (0 ≤ e_phnum (image img) 0) as Hn by apply rd16_range.
  assert (∀ x, x ∈ load_pages img (e_phnum (image img) 0) → user x ∧ x ≠ USER_STACK) as Hgood.
  { intros x (i & Hi & Hl & Hx)%elem_of_load_pages.
    by destruct (good_page _ _ _ (gl_segment _ _ G i Hi Hl) Hx) as (? & _ & ?). }
  split; [done| | | |done].
  - apply list.Forall_forall. intros x [Hx|Hx]%elem_of_app; [by apply Hgood|].
    apply list_elem_of_singleton in Hx as ->. unfold user, USER_STACK, USER_LIMIT. lia.
  - apply list.NoDup_app. split; [by apply load_pages_nodup|]. split; [|apply NoDup_singleton].
    intros x Hx ->%list_elem_of_singleton. by destruct (Hgood _ Hx).
  - intros i Hi Hl. destruct (gl_segment _ _ G i Hi Hl) as [Hv _ Hf _].
    unfold USER_LIMIT in *. lia.
Qed.

(** ... and [frames_needed] are enough for it. *)
Lemma frames_for_program img : Z.of_nat (frames_for (program_pages img)) ≤ frames_needed img.
Proof.
  pose proof (frames_for_bound (program_pages img)) as Hb. unfold program_pages in *.
  rewrite length_app in Hb. cbn [length] in Hb. unfold frames_needed.
  pose proof (length_load_pages img (e_phnum (image img) 0)). lia.
Qed.

Lemma fits_enough img free : file_pages img + frames_needed img ≤ free → fits img free = true.
Proof.
  intros Hn. apply frames_fit_enough. pose proof (frames_for_program img). lia.
Qed.
