(* ===== verification/Loader.v ===== *)
(** The program loader puts the image in place (properties of Process.v).

    [building] is the invariant while the pages of a file are mapped: which pages
    are mapped, which tables there are, and how many frames are left. With it every
    way out of the loader is covered: the program is started, or the file is
    refused and all is given back. *)

From S2P Require Export Layout.

Section Loader.
Context {St : Type} `{PageAllocatorLaws St}.
Implicit Types (a : St).

(** ** The file in memory

    In [a0] the file lies in [n] frames from frame [b] on, none of them free. *)
Section File.
Context (K : Z → Z) (a0 : St) (b n : Z) (img : list Z).

Record file_at : Prop := {
  fa_wf : alloc_wf a0;
  fa_frames i : b ≤ i < b + n → usable a0 i ∧ i ∉ free_set a0;
  fa_size : Z.of_nat (length img) ≤ n * 4096;
  fa_len : 64 ≤ Z.of_nat (length img) < 2 ^ 31;
  fa_bytes x : 0 ≤ x < Z.of_nat (length img) →
    rd8 (ram a0) (hhdm a0 + b * PAGE_SIZE + x) = rd8 (image img) x;
}.

Context (F : file_at).
Let buf : Z := hhdm a0 + b * PAGE_SIZE.

(** The frames of the buffer fit the address space. *)
Lemma file_buf_range : 0 ≤ buf ∧ buf + n * 4096 ≤ 2 ^ 64 ∧ 0 < n.
Proof.
  pose proof (fa_size F). pose proof (fa_len F). assert (0 < n) as Hn by lia.
  destruct (hhdm_bounds a0 (fa_wf F)) as [Hh Ht].
  destruct (fa_frames F b ltac:(lia)) as [[Hb _] _].
  destruct (fa_frames F (b + n - 1) ltac:(lia)) as [[Hl _] _].
  unfold buf, PAGE_SIZE in *. lia.
Qed.

(** The file stays in place while the page map grows. *)
Lemma file_kept a map x :
  grows K a0 a map → 0 ≤ x < Z.of_nat (length img) → rd8 (ram a) (buf + x) = rd8 (image img) x.
Proof.
  intros G Hx. rewrite <- (fa_bytes F x Hx). pose proof (fa_size F). fold buf.
  destruct (fa_frames F (b + x / 4096) ltac:(dlia)) as [Hu Hf].
  assert (table_frame a0 ((b + x / 4096) * PAGE_SIZE)) as Ht by by eexists.
  pose proof (kept_byte a0 a _ (x mod 4096) (gw_kept _ _ _ G _ Ht) ltac:(dlia)) as Hk.
  rewrite (table_layout a0 a), (table_small a0) in Hk; [|apply F|done|apply G].
  replace (buf + x) with (hhdm a0 + (b + x / 4096) * PAGE_SIZE + x mod 4096); [exact Hk|].
  unfold buf, PAGE_SIZE. dlia.
Qed.

Lemma file_rd k a map x :
  grows K a0 a map → 0 ≤ x → x + Z.of_nat k ≤ Z.of_nat (length img) →
  rd_le k (ram a) (buf + x) = rd_le k (image img) x.
Proof.
  intros G Hx Hk. apply rd_le_ext. intros i Hi.
  rewrite <- (file_kept a map (x + i)) by (done || lia). f_equal. lia.
Qed.

Lemma file_hdr a map o :
  grows K a0 a map → 0 ≤ o → o + SIZEOF_PHDR ≤ Z.of_nat (length img) →
  read_phdr (ram a) (buf + o) = read_phdr (image img) o.
Proof.
  intros G Ho Hs. unfold SIZEOF_PHDR in Hs. unfold read_phdr, rd32, rd64.
  by rewrite <- !Z.add_assoc, !(file_rd _ a map) by (done || lia).
Qed.

Lemma file_ehdr a map :
  grows K a0 a map → e_phoff (ram a) buf = e_phoff (image img) 0 ∧
  e_phnum (ram a) buf = e_phnum (image img) 0 ∧ e_entry (ram a) buf = e_entry (image img) 0.
Proof.
  intros G. pose proof (fa_len F). unfold e_phoff, e_phnum, e_entry, rd16, rd64.
  by rewrite !(file_rd _ a map) by (done || lia).
Qed.

(** *** One page *)

(** The copy into a zeroed page leaves it with the bytes of the segment. *)
Lemma copy_page_spec m dest h j x :
  good_segment (Z.of_nat (length img)) h → 0 ≤ j < page_count h →
  0 ≤ dest → dest + 4096 ≤ 2 ^ 64 → dest + 4096 ≤ buf ∨ buf + n * 4096 ≤ dest →
  (∀ y, 0 ≤ y < Z.of_nat (length img) → rd8 m (buf + y) = rd8 (image img) y) →
  (∀ y, dest ≤ y < dest + 4096 → rd8 m y = 0) →
  rd8 (copy_page m dest buf h (seg_start h + 4096 * j)) x =
  if decide (dest ≤ x < dest + 4096) then seg_byte img h (seg_start h + 4096 * j + (x - dest))
  else rd8 m x.
Proof.
  intros Hg Hj Hd0 Hd1 Hapart Hbytes Hzero. pose proof file_buf_range as (Hb0 & Hb1 & _).
  pose proof (fa_len F) as Hlen. pose proof (fa_size F) as Hsz.
  destruct (page_count_good _ h Hg) as (_ & _ & Hs & He & Hal). destruct Hg as [Hv Hm Hf _].
  unfold seg_end in He, Hs. set (cur := seg_start h + 4096 * j).
  assert (seg_start h ≤ p_vaddr h < seg_start h + 4096) as Hvs.
  { unfold seg_start. rewrite page_base_spec. dlia. }
  unfold copy_page. cbn zeta. rewrite offset_eq. fold (seg_start h).
  unfold USER_LIMIT in *. rewrite !(u64_small (cur + 4096)), !(u64_small (p_vaddr h + p_filesz h)) by lia.
  assert ((p_vaddr h <? cur + 4096) = true) as -> by (apply Z.ltb_lt; lia). cbn [andb].
  destruct (Z.ltb_spec cur (p_vaddr h + p_filesz h)) as [Hc|Hc].
  2: { case_decide as Hx; [|done]. rewrite Hzero by done. unfold seg_byte.
       destruct (Z.ltb_spec (cur + (x - dest)) (p_vaddr h + p_filesz h)); [lia|].
       by rewrite andb_false_r. }
  set (cs := if cur <? p_vaddr h then p_vaddr h - seg_start h else 0).
  assert (cur + cs = Z.max cur (p_vaddr h) ∧ 0 ≤ cs < 4096) as [Hcs Hcr].
  { unfold cs. destruct (Z.ltb_spec cur (p_vaddr h)); [|lia].
    assert (j = 0) as -> by lia. unfold cur in *. lia. }
  rewrite !(u64_small (cur + cs - _)), !(u64_small (cur + cs + _)), !(u64_small (cur + cs)) by lia.
  set (size := if p_vaddr h + p_filesz h <? cur + cs + (4096 - cs)
    then u64 (p_vaddr h + p_filesz h - (cur + cs)) else 4096 - cs).
  assert (size = Z.min (4096 - cs) (p_vaddr h + p_filesz h - (cur + cs)) ∧ 0 ≤ size) as [Hsize Hs0].
  { unfold size. destruct (Z.ltb_spec (p_vaddr h + p_filesz h) (cur + cs + (4096 - cs)));
      [rewrite u64_small by lia|]; lia. }
  rewrite !(u64_small (p_offset h + _)), !(u64_small (dest + cs)) by lia.
  destruct (Z.eq_dec size 0) as [Hz|Hz].
  { (* nothing to copy *)
    rewrite Hz. change (memcpy m _ _ 0) with m. case_decide as Hx; [|done]. rewrite Hzero by done.
    unfold seg_byte. destruct (Z.leb_spec (p_vaddr h) (cur + (x - dest))); [|done].
    destruct (Z.ltb_spec (cur + (x - dest)) (p_vaddr h + p_filesz h)); [lia|done]. }
  rewrite (u64_small (buf + _)) by lia. rewrite rd8_memcpy by lia.
  case_decide as Hin.
  - rewrite decide_True by lia. rewrite <- Z.add_assoc, Hbytes by lia. unfold seg_byte.
    destruct (Z.leb_spec (p_vaddr h) (cur + (x - dest))); [|lia].
    destruct (Z.ltb_spec (cur + (x - dest)) (p_vaddr h + p_filesz h)); [|lia]. cbn. f_equal. lia.
  - case_decide as Hx; [|done]. rewrite Hzero by done. unfold seg_byte.
    destruct (Z.leb_spec (p_vaddr h) (cur + (x - dest))); [|done].
    destruct (Z.ltb_spec (cur + (x - dest)) (p_vaddr h + p_filesz h)); [lia|done].
Qed.

Lemma view_none a map v : user_view a map v = None ↔ lookup_page a map v = None.
Proof. unfold user_view. by destruct (lookup_page a map v). Qed.

Lemma flags_user_write : PAGE_USER .| PAGE_WRITE = 6.
Proof. reflexivity. Qed.

(** A frame taken while the page map grows lies outside the buffer. *)
Lemma fresh_apart k :
  k ∈ free_set a0 →
  hhdm a0 + k * PAGE_SIZE + 4096 ≤ buf ∨ buf + n * 4096 ≤ hhdm a0 + k * PAGE_SIZE.
Proof.
  intros Hk. assert (¬ b ≤ k < b + n) as Hn by (intros Hb; by destruct (fa_frames F k Hb)).
  unfold buf, PAGE_SIZE. lia.
Qed.

(** Page [j] of a segment, in the user half. *)
Record user_page h j : Prop := {
  up_index : 0 ≤ j < page_count h;
  up_vaddr : 0 ≤ p_vaddr h;
  up_filesz : 0 ≤ p_filesz h;
  up_file : p_vaddr h + p_filesz h < 2 ^ 64;
  up_user : user (seg_start h + 4096 * j);
}.

Lemma user_page_base h j : user_page h j →
  page_base (seg_start h + 4096 * j) = seg_start h + 4096 * j ∧
  seg_start h ≤ p_vaddr h < seg_start h + 4096 ∧ 0 ≤ seg_start h ∧
  u64 (page_base (p_vaddr h) + u64 (j * 4096)) = seg_start h + 4096 * j.
Proof.
  intros [Hj Hv _ _ Hu]. unfold user, USER_LIMIT in Hu.
  assert (seg_start h ≤ p_vaddr h < seg_start h + 4096 ∧ 0 ≤ seg_start h) as [Hs H0s].
  { unfold seg_start. rewrite page_base_spec. dlia. }
  split; [rewrite page_base_spec; unfold seg_start; rewrite page_base_spec; dlia|].
  split; [done|]. split; [done|]. fold (seg_start h).
  rewrite (u64_small (j * 4096)) by lia. rewrite u64_small by lia. lia.
Qed.

(** Whatever the file says, the copy stays in the page. *)
Lemma copy_page_outside m dest h j :
  user_page h j → 0 ≤ dest → dest + 4096 ≤ 2 ^ 64 →
  same_outside dest 4096 m (copy_page m dest buf h (seg_start h + 4096 * j)).
Proof.
  intros Hp Hd0 Hd1. destruct (user_page_base h j Hp) as (_ & Hs & H0s & _).
  destruct Hp as [Hj Hv Hfz Hf Hu]. unfold user, USER_LIMIT in Hu.
  set (cur := seg_start h + 4096 * j) in *. unfold copy_page. cbn zeta.
  rewrite offset_eq. fold (seg_start h). rewrite (u64_small (p_vaddr h + p_filesz h)) by lia.
  destruct ((p_vaddr h <? u64 (cur + 4096)) && _) eqn:Hc; [|by intros x _].
  apply andb_true_iff in Hc as [_ Hc%Z.ltb_lt].
  set (cs := if cur <? p_vaddr h then p_vaddr h - seg_start h else 0).
  assert (cur + cs = Z.max cur (p_vaddr h) ∧ 0 ≤ cs < 4096) as [Hcs Hcr].
  { unfold cs. destruct (Z.ltb_spec cur (p_vaddr h)); [|lia].
    assert (j = 0) as -> by lia. unfold cur in *. lia. }
  set (size := if _ <? u64 (cur + cs + _) then _ else _).
  assert (0 ≤ size ≤ 4096 - cs) as Hsize.
  { unfold size. rewrite (u64_small (cur + cs)), (u64_small (cur + cs + _)) by lia.
    destruct (Z.ltb_spec (p_vaddr h + p_filesz h) (cur + cs + (4096 - cs))); [rewrite u64_small by lia|]; lia. }
  rewrite (u64_small (dest + cs)) by lia. intros x Hx. apply memcpy_outside; lia.
Qed.

(** The page at [cur], mapped to the new frame [k], is cleared and filled. *)
Lemma fill_page_spec a2 map h j k :
  let cur := seg_start h + 4096 * j in
  let dest := hhdm a0 + k * PAGE_SIZE in
  let a3 := set_ram a2 (memset (ram a2) dest 0 4096) in
  let a4 := set_ram a3 (copy_page (ram a3) dest buf h cur) in
  grows K a0 a2 map → user_page h j → k ∈ free_set a0 →
  lookup_page a2 map cur = Some (leaf_value (k * PAGE_SIZE) 6) →
  grows K a0 a4 map ∧ free_set a4 = free_set a2 ∧
  (∀ q, upath q → has_table a4 map q ↔ has_table a2 map q) ∧
  (∀ w, user w → lookup_page a4 map w = lookup_page a2 map w) ∧
  (∀ w, user w → page_base w ≠ cur → user_view a4 map w = user_view a2 map w) ∧
  (good_segment (Z.of_nat (length img)) h → ∀ w, user w → page_base w = cur →
     user_view a4 map w = Some (seg_byte img h w)).
Proof.
  intros cur dest a3 a4 G2 Hp Hk0 Hlk. pose proof (up_user _ _ Hp) as Hu. fold cur in Hu.
  destruct (user_page_base h j Hp) as (Hpc & _). fold cur in Hpc.
  destruct (free_set_usable a0 k (fa_wf F) Hk0) as [Hkr _].
  destruct (hhdm_bounds a0 (fa_wf F)) as [Hh0 Hh1]. unfold PAGE_SIZE in Hh1.
  assert (0 ≤ dest ∧ dest + 4096 ≤ 2 ^ 64) as [Hd0 Hd1] by (unfold dest, PAGE_SIZE; lia).
  assert (hhdm a2 = hhdm a0) as Hh2 by apply (gw_layout _ _ _ G2).
  destruct (leaf_value_ok (k * PAGE_SIZE) 6 ltac:(unfold PAGE_SIZE; lia) ltac:(lia)) as (_ & _ & Hb & _).
  rewrite page_base_frame in Hb.
  destruct (fill_spec a0 a2 map cur _ k (memset (ram a2) dest 0 4096) G2 Hu Hlk Hb)
    as (G3 & Hf3 & Hh3 & Ht3 & Hlk3 & Hold3 & _).
  { rewrite Hh2. by apply memset_outside. }
  fold a3 in G3, Hf3, Hh3, Ht3, Hlk3, Hold3.
  destruct (fill_spec a0 a3 map cur _ k (copy_page (ram a3) dest buf h cur) G3 Hu ltac:(by rewrite Hlk3) Hb)
    as (G4 & Hf4 & _ & Ht4 & Hlk4 & Hold4 & Hnew4).
  { rewrite Hh3, Hh2. fold dest. by apply copy_page_outside. }
  split; [exact G4|]. split; [by rewrite <- Hf3|]. rewrite Hpc in Hold3, Hold4, Hnew4.
  split; [intros q Hq; etransitivity; [by apply Ht4|by apply Ht3]|].
  split; [intros w Hw; etransitivity; [by apply Hlk4|by apply Hlk3]|].
  split; [intros w Hw Hne; etransitivity; [by apply Hold4|by apply Hold3]|].
  intros Hg w Hw Hwc. unfold a4. rewrite Hnew4 by done. f_equal. rewrite Hh3, Hh2.
  fold dest. pose proof (offset_range w) as Ho. rewrite offset_eq in Ho.
  unfold cur. rewrite copy_page_spec; [|done|apply Hp|done|done|by apply fresh_apart| |].
  - rewrite decide_True by lia. f_equal. fold cur. lia.
  - intros y Hy. by apply (file_kept a3 map).
  - intros y Hy. unfold a3. by rewrite ram_set_ram, rd8_memset, decide_True by lia.
Qed.

(** ** The page map under construction

    [pages] are the pages to map, none of them twice; the frames do not run out
    between a page and its tables. *)
Context (pages : list Z) (Huser : Forall user pages) (Hapart : NoDup pages)
  (Hfit : frames_fit pages (Z.of_nat (size (free_set a0))) = true).

(** The pages of [L] are mapped, and nothing else. *)
Record building a map (L : list Z) : Prop := {
  bd_grows : grows K a0 a map;
  bd_tree q : upath q → q ≠ [] → has_table a map q ↔ q ∈ tables L;
  bd_pages w : user w → is_Some (lookup_page a map w) ↔ page_base w ∈ L;
  bd_size : size (free_set a0) = (frames_for L + size (free_set a))%nat;
}.

Lemma size_insert_lacks a (map : Z) (q : list Z) (X : gset (list Z)) :
  (has_table a map q ↔ q ∈ X) → size ({[q]} ∪ X) = (lacks a map q + size X)%nat.
Proof.
  unfold has_table, lacks. intros Hq. destruct (descend (sub a) map q) as [t|].
  - assert ({[q]} ∪ X = X) as -> by (apply subseteq_union_1_L, singleton_subseteq_l, Hq; by eexists). lia.
  - rewrite size_union, size_singleton; [done|]. apply disjoint_singleton_l. rewrite <- Hq. apply is_Some_None.
Qed.

(** The tables still missing are the new ones of the list. *)
Lemma missing_tables a map L v :
  building a map L → user v → size (tables (L ++ [v])) = (missing a map v + size (tables L))%nat.
Proof.
  intros B Hv. pose proof (upath_vpath v Hv) as Hq3.
  destruct (upath_snoc [pml4_idx v; pdpt_idx v] _ Hq3) as (Hq2 & _).
  destruct (upath_snoc [pml4_idx v] _ Hq2) as (Hq1 & _).
  pose proof (bd_tree _ _ _ B) as Ht. unfold missing, vprefixes. cbn [sum_list_with].
  assert (tables (L ++ [v]) =
    {[vpath v]} ∪ ({[[pml4_idx v; pdpt_idx v]]} ∪ ({[[pml4_idx v]]} ∪ tables L))) as ->.
  { rewrite tables_app, tables_page. set_solver. }
  rewrite (size_insert_lacks a map), (size_insert_lacks a map), (size_insert_lacks a map); [lia|..].
  - by apply Ht.
  - rewrite Ht by done. rewrite elem_of_union, elem_of_singleton. split; [by right|by intros [[=]|?]].
  - rewrite Ht by done. rewrite !elem_of_union, !elem_of_singleton.
    split; [by right; right|by intros [[=]|[[=]|?]]].
Qed.

(** No page is mapped before its turn. *)
Lemma next_unmapped a map L v rest :
  building a map L → pages = L ++ v :: rest → page_base v = v → user v ∧ lookup_page a map v = None.
Proof.
  intros B Hpages Hb. rewrite Hpages in Huser, Hapart.
  apply list.Forall_app in Huser as [_ Hv]. apply list.Forall_cons in Hv as [Hv _]. split; [done|].
  apply list.NoDup_app in Hapart as (_ & Hd & _). apply eq_None_not_Some. rewrite (bd_pages _ _ _ B v Hv), Hb.
  intros HL. apply (Hd v HL). by left.
Qed.

(** When no frame is left, they were not enough for all. *)
Lemma run_out L v rest :
  pages = L ++ v :: rest → size (free_set a0) = frames_for L → (size (free_set a0) < frames_for pages)%nat.
Proof.
  intros -> ->. pose proof (frames_for_more L (v :: rest)) as Hm. cbn [length] in Hm. lia.
Qed.

(** The allocator has nothing left, or enough for the page and its tables. *)
Lemma next_page a map L v rest p a1 :
  building a map L → pages = L ++ v :: rest → page_base v = v → alloc_page a = (p, a1) →
  p = 0 ∧ grows K a0 a1 map ∧ (size (free_set a0) < frames_for pages)%nat ∨
  ∃ k, p = k * PAGE_SIZE ∧ p ≠ 0 ∧ k ∈ free_set a0 ∧
    let a2 := vmm_map_page a1 map v p 6 in
    building a2 map (L ++ [v]) ∧ hhdm a2 = hhdm a0 ∧
    lookup_page a2 map v = Some (leaf_value p 6) ∧
    ∀ w, user w → page_base w ≠ v → user_view a2 map w = user_view a map w.
Proof.
  intros B Hpages Hb Ha. destruct (next_unmapped a map L v rest B Hpages Hb) as [Hv Hnone].
  destruct B as [G Ht Hp Hsz] eqn:EB. pose proof (missing_tables a map L v B Hv) as Hm.
  destruct (decide (free_set a = ∅)) as [He|Hne].
  { left. destruct (grows_alloc_none a0 a map p a1 G He Ha) as [-> G1]. split; [done|]. split; [done|].
    apply (run_out L v rest Hpages). rewrite Hsz, He, size_empty. lia. }
  right. assert (size (free_set a) ≠ 0%nat) as Hpos by (intros H0s; by apply Hne, leibniz_equiv, size_empty_inv).
  assert (missing a map v < size (free_set a))%nat as Hroom.
  { pose proof (proj1 (frames_fit_spec _ _) Hfit L v rest Hpages) as Hf.
    unfold frames_for in *. rewrite length_app, Hm in Hf. cbn [length] in Hf. lia. }
  destruct (map_fresh a0 a map v 6 p a1 G Hv Hnone ltac:(lia) eq_refl eq_refl Hroom Ha) as (k & -> & M).
  pose proof (grows_free _ _ _ G k (mf_free _ _ _ _ _ _ _ M)) as Hk0.
  destruct (free_set_usable a0 k (fa_wf F) Hk0) as [Hkr _].
  exists k. split; [done|]. split; [unfold PAGE_SIZE; lia|]. split; [done|]. cbn zeta.
  pose proof (mf_grows _ _ _ _ _ _ _ M) as G2. split; [|split; [|split]].
  - split; [done| | |].
    + intros q Hq Hqn. rewrite (mf_tree _ _ _ _ _ _ _ M) by done. rewrite Ht, tables_app, tables_page by done.
      unfold vprefixes. set_solver.
    + intros w Hw. rewrite (mf_pages _ _ _ _ _ _ _ M) by done. rewrite Hp, Hb by done. set_solver.
    + rewrite Hsz, (mf_size _ _ _ _ _ _ _ M). unfold frames_for. rewrite length_app, Hm. cbn [length]. lia.
  - apply (gw_layout _ _ _ G2).
  - by apply (mf_new _ _ _ _ _ _ _ M).
  - intros w Hw Hne'. apply (mf_old _ _ _ _ _ _ _ M); [done|]. by rewrite Hb.
Qed.

Lemma load_page_spec a map h j L rest :
  let cur := seg_start h + 4096 * j in
  building a map L → user_page h j → pages = L ++ cur :: rest →
  (∃ a', load_page map buf h j a = inr a' ∧ grows K a0 a' map ∧ (size (free_set a0) < frames_for pages)%nat) ∨
  ∃ a', load_page map buf h j a = inl a' ∧ building a' map (L ++ [cur]) ∧
    (∀ w, user w → page_base w ≠ cur → user_view a' map w = user_view a map w) ∧
    (good_segment (Z.of_nat (length img)) h → ∀ w, user w → page_base w = cur →
       user_view a' map w = Some (seg_byte img h w)).
Proof.
  intros cur B Hup Hpages. destruct (user_page_base h j Hup) as (Hb & _ & _ & Hcur). fold cur in Hb, Hcur.
  unfold load_page. destruct (alloc_page a) as [p a1] eqn:Ha.
  destruct (next_page a map L cur rest p a1 B Hpages Hb Ha)
    as [(-> & G1 & Hout)|(k & -> & Hp0 & Hk0 & B2 & Hh2 & Hlk & Hold)].
  { left. exists a1. by rewrite Z.eqb_refl. }
  right. rewrite (proj2 (Z.eqb_neq _ _) Hp0). cbn zeta. rewrite flags_user_write, Hcur.
  set (a2 := vmm_map_page a1 map cur (k * PAGE_SIZE) 6) in *.
  destruct (free_set_usable a0 k (fa_wf F) Hk0) as [Hkr _].
  destruct (hhdm_bounds a0 (fa_wf F)) as [Hh0 Hh1]. unfold PAGE_SIZE in Hh1.
  assert (u64 (k * PAGE_SIZE + hhdm a2) = hhdm a0 + k * PAGE_SIZE) as ->.
  { rewrite Hh2. unfold PAGE_SIZE. rewrite u64_small by lia. lia. }
  destruct (fill_page_spec a2 map h j k (bd_grows _ _ _ B2) Hup Hk0 Hlk)
    as (G4 & Hf4 & Ht4 & Hlk4 & Hold4 & Hnew4). fold cur in G4, Hf4, Ht4, Hlk4, Hold4, Hnew4.
  eexists. split; [done|]. split; [|split; [|exact Hnew4]].
  - split; [exact G4| | |].
    + intros q Hq Hqn. etransitivity; [by apply Ht4|]. by apply (bd_tree _ _ _ B2).
    + intros w Hw. etransitivity; [|by apply (bd_pages _ _ _ B2)].
      specialize (Hlk4 w Hw). rewrite <- Hlk4. reflexivity.
    + etransitivity; [apply (bd_size _ _ _ B2)|]. f_equal. by rewrite <- Hf4.
  - intros w Hw Hne. etransitivity; [by apply Hold4|]. by apply Hold.
Qed.

(** *** One segment *)

(** A segment whose end in the file does not wrap. *)
Record user_segment h : Prop := {
  us_vaddr : 0 ≤ p_vaddr h;
  us_filesz : 0 ≤ p_filesz h;
  us_file : p_vaddr h + p_filesz h < 2 ^ 64;
}.

Lemma load_segment_spec a map h L rest :
  building a map L → user_segment h → pages = L ++ seg_pages h ++ rest →
  (∃ a', load_segment map buf h a = inr a' ∧ grows K a0 a' map ∧ (size (free_set a0) < frames_for pages)%nat) ∨
  ∃ a', load_segment map buf h a = inl a' ∧ building a' map (L ++ seg_pages h) ∧
    (good_segment (Z.of_nat (length img)) h → ∀ w, user w → user_view a' map w =
       if in_seg w h then Some (seg_byte img h w) else user_view a map w).
Proof.
  intros B [Hv Hz Hf] Hpages. unfold load_segment.
  assert (0 ≤ page_count h < 2 ^ 52) as Hpc.
  { unfold page_count. pose proof (u64_range (u64 (p_memsz h + (p_vaddr h .& 4095)) + 4095)). dlia. }
  assert (seg_start h mod 4096 = 0) as Hal by (unfold seg_start; rewrite page_base_spec; dlia).
  destruct (while_total (segment_step map buf h)
    (λ '(j, s), 0 ≤ j ≤ page_count h ∧ building s map (L ++ pages_to h j) ∧
       (good_segment (Z.of_nat (length img)) h → ∀ w, user w → user_view s map w =
         if decide (seg_start h ≤ w < seg_start h + 4096 * j)
         then Some (seg_byte img h w) else user_view a map w))
    (λ r, (∃ a', r = inr a' ∧ grows K a0 a' map ∧ (size (free_set a0) < frames_for pages)%nat) ∨
       ∃ a', r = inl a' ∧ building a' map (L ++ seg_pages h) ∧
         (good_segment (Z.of_nat (length img)) h → ∀ w, user w → user_view a' map w =
            if in_seg w h then Some (seg_byte img h w) else user_view a map w))
    (λ '(j, _), page_count h - j) segment_fuel (0, a)) as (r & -> & Hr).
  - split; [lia|]. split; [by rewrite app_nil_r|]. intros _ w Hw. by rewrite decide_False by lia.
  - intros [j s] (Hj & Bs & Hview). unfold segment_step.
    destruct (Z.ltb_spec j (page_count h)) as [Hlt|Hge].
    + destruct (pages_to_split h j ltac:(lia)) as [more Hsplit].
      assert (pages = (L ++ pages_to h j) ++ (seg_start h + 4096 * j) :: (more ++ rest)) as Hp.
      { rewrite Hpages, Hsplit, <- !app_assoc. done. }
      assert (user_page h j) as Hup.
      { split; [lia|done|done|done|]. rewrite Hp in Huser. apply list.Forall_app in Huser as [_ Hc].
        by apply list.Forall_cons in Hc as [Hc _]. }
      destruct (user_page_base h j Hup) as (Hb & _).
      destruct (load_page_spec s map h j _ _ Bs Hup Hp)
        as [(s' & -> & G' & Hout)|(s' & -> & B' & Hold & Hnew)]; [left; by exists s'|].
      split; [|lia]. split; [lia|]. split; [by rewrite pages_to_snoc, app_assoc by lia|].
      intros Hg w Hw. specialize (Hview Hg w Hw).
      destruct (decide (page_base w = seg_start h + 4096 * j)) as [Hwb|Hwb].
      * rewrite Hnew by done. rewrite page_base_spec in Hwb. by rewrite decide_True by dlia.
      * rewrite Hold, Hview by done. rewrite page_base_spec in Hwb.
        destruct (decide (seg_start h ≤ w < seg_start h + 4096 * j));
          [rewrite decide_True by lia|rewrite decide_False by dlia]; done.
    + right. exists s. assert (j = page_count h) as -> by lia. split; [done|]. split; [done|].
      intros Hg w Hw. rewrite Hview by done. unfold in_seg, seg_end.
      case_decide as Hin; bcase; cbn; done || lia.
  - unfold segment_fuel. lia.
  - destruct Hr as [(a' & -> & ?)|(a' & -> & ?)]; [left|right]; by exists a'.
Qed.

(** *** The stack *)

Lemma setup_stack_spec a map args L rest :
  building a map L → pages = L ++ USER_STACK :: rest → Z.of_nat (length (stack_bytes args)) ≤ 4096 →
  (∃ a', setup_stack map args a = (None, a') ∧ grows K a0 a' map ∧
     (size (free_set a0) < frames_for pages)%nat) ∨
  ∃ a', setup_stack map args a = (Some (stack_pointer args), a') ∧ grows K a0 a' map ∧
    (∀ w, user w → page_base w ≠ USER_STACK → user_view a' map w = user_view a map w) ∧
    ∀ i c, stack_bytes args !! i = Some c →
      user_view a' map (stack_pointer args + Z.of_nat i) = Some (u8 c).
Proof.
  intros B Hpages Hlen. unfold setup_stack. destruct (alloc_page a) as [p a1] eqn:Ha.
  assert (user USER_STACK) as Hu by (unfold user, USER_STACK, USER_LIMIT; lia).
  destruct (next_page a map L USER_STACK rest p a1 B Hpages eq_refl Ha)
    as [(-> & G1 & Hout)|(k & -> & Hp0 & Hk0 & B2 & Hh2 & Hlk & Hold)].
  { left. exists a1. by rewrite Z.eqb_refl. }
  right. rewrite (proj2 (Z.eqb_neq _ _) Hp0). cbn zeta. rewrite flags_user_write.
  set (a2 := vmm_map_page a1 map USER_STACK (k * PAGE_SIZE) 6) in *.
  pose proof (bd_grows _ _ _ B2) as G2.
  destruct (free_set_usable a0 k (fa_wf F) Hk0) as [Hkr _].
  destruct (hhdm_bounds a0 (fa_wf F)) as [Hh0 Hh1]. unfold PAGE_SIZE in Hh1.
  assert (phystokv a2 (k * PAGE_SIZE) = hhdm a0 + k * PAGE_SIZE) as ->.
  { unfold phystokv. rewrite Hh2. unfold PAGE_SIZE. rewrite u64_small by lia. lia. }
  destruct args as [l|]; cbn [stack_bytes] in *; [|by exists a2].
  rewrite length_app in Hlen. cbn [length] in Hlen.
  assert (stack_pointer (Some l) = USER_STACK + 4096 - (Z.of_nat (length l) + 1)) as Hsp.
  { unfold stack_pointer. cbn [stack_bytes]. rewrite length_app. cbn [length]. lia. }
  rewrite Hsp. rewrite u64_small by (unfold USER_STACK; lia).
  set (ptr := hhdm a0 + k * PAGE_SIZE + 4096 - (Z.of_nat (length l) + 1)).
  pose proof (wr_bytes_outside (ram a2) ptr (l ++ [0])) as Hout.
  destruct (leaf_value_ok (k * PAGE_SIZE) 6 ltac:(unfold PAGE_SIZE; lia) ltac:(lia)) as (_ & _ & Hb & _).
  rewrite page_base_frame in Hb.
  destruct (fill_spec a0 a2 map USER_STACK _ k (wr_bytes (ram a2) ptr (l ++ [0])) G2 Hu Hlk Hb)
    as (G3 & _ & _ & _ & _ & Hold3 & Hnew3).
  { eapply same_outside_mono; [exact Hout|unfold ptr, PAGE_SIZE; rewrite Hh2; lia|].
    rewrite Hh2, length_app. cbn [length]. unfold ptr, PAGE_SIZE. lia. }
  eexists. split; [done|]. split; [exact G3|]. split.
  - intros w Hw Hne. rewrite Hold3 by done. by apply Hold.
  - intros i c Hi. pose proof (lookup_lt_Some _ _ _ Hi) as Hil. rewrite length_app in Hil.
    cbn [length] in Hil. set (w := _ + Z.of_nat i).
    assert (page_base w = USER_STACK) as Hw by (rewrite page_base_spec; unfold w, USER_STACK; dlia).
    rewrite Hnew3 by (done || (unfold user, w, USER_STACK, USER_LIMIT in *; lia)).
    rewrite Hw, Hh2. f_equal. rewrite <- (wr_bytes_inside (ram a2) ptr _ _ _ Hi). f_equal.
    unfold w, ptr. lia.
Qed.

(** *** All segments *)

Let phnum := e_phnum (image img) 0.
Let phoff := e_phoff (image img) 0.

Lemma phnum_range : 0 ≤ phnum < 2 ^ 16.
Proof. apply rd16_range. Qed.

Context (Hprog : ∃ rest, pages = load_pages img phnum ++ rest)
  (Hends : ∀ i, 0 ≤ i < phnum → is_load (hdr img i) = true → p_vaddr (hdr img i) + p_filesz (hdr img i) < 2 ^ 64)
  (Hin : phoff + SIZEOF_PHDR * phnum ≤ Z.of_nat (length img)).

Lemma file_header a map i :
  grows K a0 a map → 0 ≤ i < phnum →
  read_phdr (ram a) (u64 (buf + phoff) + SIZEOF_PHDR * i) = hdr img i.
Proof.
  intros G Hi. pose proof file_buf_range as (Hb0 & Hb1 & _). pose proof (fa_size F).
  assert (0 ≤ phoff) as Hp by apply rd64_range. unfold SIZEOF_PHDR in *.
  rewrite u64_small by lia. rewrite <- Z.add_assoc. rewrite (file_hdr a map); [done|done|lia|].
  unfold SIZEOF_PHDR. lia.
Qed.

(** What holds once the first [i] headers are done. *)
Record placed a map i : Prop := {
  pl_building : building a map (load_pages img i);
  pl_view w : good_layout img phnum → user w → user_view a map w = seg_view img (loads img i) w;
  pl_user j : 0 ≤ j < i → in_kernel (hdr img j) = false;
}.

(** The segment of header [i] is the next one. *)
Lemma next_segment i : 0 ≤ i < phnum → is_load (hdr img i) = true →
  user_segment (hdr img i) ∧ ∃ rest, pages = load_pages img i ++ seg_pages (hdr img i) ++ rest.
Proof.
  intros Hi Hl. pose proof (hdr_range img i) as (? & _ & ? & _).
  split; [split; [lia|lia|by apply Hends]|]. destruct Hprog as [rest ->].
  destruct (load_pages_split img (i + 1) phnum ltac:(lia)) as [more ->].
  rewrite load_pages_snoc, Hl by lia. rewrite <- !app_assoc. by eexists.
Qed.

(** Its pages are new. *)
Lemma next_seg_view i w :
  good_layout img phnum → 0 ≤ i < phnum → is_load (hdr img i) = true →
  in_seg w (hdr img i) = true → seg_view img (loads img i) w = None.
Proof.
  intros Hlay Hi Hl [Hw1%Z.leb_le Hw2%Z.ltb_lt]%andb_true_iff. apply seg_view_none. intros g Hg'.
  apply elem_of_loads in Hg' as (j & Hj & -> & Hlj).
  pose proof (gl_apart _ _ Hlay j i ltac:(lia) ltac:(lia) Hlj Hl) as Hap.
  apply andb_false_iff. rewrite Z.leb_gt, Z.ltb_ge. lia.
Qed.

Definition out_of_frames a map : Prop := grows K a0 a map ∧ (size (free_set a0) < frames_for pages)%nat.

Lemma load_header_spec a map i :
  placed a map i → 0 ≤ i < phnum →
  if in_kernel (hdr img i)
  then load_header map buf (u64 (buf + phoff)) i a = inr (bad_vaddr, a)
  else
    (∃ a', load_header map buf (u64 (buf + phoff)) i a = inr (no_frame, a') ∧ out_of_frames a' map) ∨
    ∃ a', load_header map buf (u64 (buf + phoff)) i a = inl a' ∧ placed a' map (i + 1).
Proof.
  intros P Hi. destruct P as [B Hview Huser_i]. unfold load_header.
  rewrite (file_header a map) by (done || apply B). set (h := hdr img i) in *. destruct (in_kernel h) eqn:Hker.
  { apply andb_true_iff in Hker as [-> ->]. done. }
  assert (∀ j, 0 ≤ j < i + 1 → in_kernel (hdr img j) = false) as Hkers.
  { intros j Hj. destruct (Z.eq_dec j i) as [->|]; [done|]. apply Huser_i. lia. }
  destruct (is_load h) eqn:Hl.
  - destruct (next_segment i Hi Hl) as (Hus & rest & Hpages). fold h in Hus, Hpages.
    pose proof Hl as [-> Hlt%Z.ltb_lt]%andb_true_iff.
    destruct (Z.leb_spec USER_LIMIT (p_vaddr h)); [lia|].
    destruct (load_segment_spec a map h _ rest B Hus Hpages)
      as [(a' & -> & G' & Hout)|(a' & -> & B' & Hv')]; [left; by exists a'|].
    right. exists a'. split; [done|]. split; [|intros w Hlay Hw|done].
    { rewrite load_pages_snoc by lia. fold h. by rewrite Hl. }
    rewrite Hv' by (done || by apply Hlay). rewrite loads_snoc by lia. fold h. rewrite Hl, seg_view_app.
    rewrite (Hview w Hlay Hw).
    destruct (in_seg w h) eqn:Hw_in; [by rewrite next_seg_view|by destruct (seg_view _ _ _)].
  - right. exists a.
    assert ((p_type h =? PT_LOAD) = false) as ->.
    { unfold is_load, in_kernel in *. destruct (p_type h =? PT_LOAD); [|done]. cbn in *.
      apply Z.ltb_ge in Hl. apply Z.leb_gt in Hker. lia. }
    split; [done|]. split; [|intros w Hlay Hw|done].
    { rewrite load_pages_snoc by lia. fold h. by rewrite Hl, app_nil_r. }
    rewrite Hview by done. rewrite loads_snoc by lia. fold h. by rewrite Hl, app_nil_r.
Qed.

Lemma load_segments_spec a map :
  building a map [] →
  (∃ a', load_segments map buf a = inl a' ∧ placed a' map phnum) ∨
  (∃ a', load_segments map buf a = inr (no_frame, a') ∧ out_of_frames a' map) ∨
  (∃ a', load_segments map buf a = inr (bad_vaddr, a') ∧ grows K a0 a' map ∧
     ∃ i, 0 ≤ i < phnum ∧ in_kernel (hdr img i) = true).
Proof.
  intros B. unfold load_segments. pose proof (bd_grows _ _ _ B) as G.
  destruct (file_ehdr a map G) as (-> & _ & _). fold phoff.
  pose proof phnum_range as Hpn.
  destruct (while_total (header_step map buf (u64 (buf + phoff)))
    (λ '(i, s), 0 ≤ i ≤ phnum ∧ placed s map i)
    (λ r, (∃ a', r = inl a' ∧ placed a' map phnum) ∨
      (∃ a', r = inr (no_frame, a') ∧ out_of_frames a' map) ∨
      (∃ a', r = inr (bad_vaddr, a') ∧ grows K a0 a' map ∧
         ∃ i, 0 ≤ i < phnum ∧ in_kernel (hdr img i) = true))
    (λ '(i, _), phnum - i) header_fuel (0, a)) as (r & -> & Hr); [| |unfold header_fuel; lia|exact Hr].
  - split; [lia|]. split; [done| |lia]. intros w _ Hw. apply view_none, eq_None_not_Some.
    rewrite (bd_pages _ _ _ B w Hw). apply not_elem_of_nil.
  - intros [i s] (Hi & P). unfold header_step. pose proof (bd_grows _ _ _ (pl_building _ _ _ P)) as Gs.
    destruct (file_ehdr s map Gs) as (_ & -> & _). fold phnum.
    destruct (Z.ltb_spec i phnum) as [Hlt|Hge].
    + pose proof (load_header_spec s map i P ltac:(lia)) as Hh.
      destruct (in_kernel (hdr img i)) eqn:Hk.
      * rewrite Hh. right. right. exists s. split; [done|]. split; [done|]. exists i. split; [lia|done].
      * destruct Hh as [(s' & -> & Hout)|(s' & -> & P')]; [right; left; by exists s'|].
        split; [|lia]. split; [lia|done].
    + assert (i = phnum) as -> by lia. left. by exists s.
Qed.
End File.

(** ** Giving the file's frames back *)

Definition in_buffer (b n x : Z) : Prop := ∃ i, b ≤ i < b + n ∧ x = i * PAGE_SIZE.

Lemma free_file_spec a b n :
  alloc_wf a → 0 ≤ n → (∀ i, b ≤ i < b + n → usable a i) →
  released (in_buffer b n) a (free_file a (b * PAGE_SIZE) n).
Proof.
  intros Hwf Hn Hu. unfold free_file.
  pose proof (for_each_ind (λ i s, released (in_buffer b i) a s) (Z.to_nat n) 0
    (λ i a, free_page a (u64 (b * PAGE_SIZE + i * 4096))) a) as Hind.
  rewrite Z2Nat.id in Hind by done. apply Hind.
  - split; [done|]. split; [done|]. split; [done|]. intros k. split; [by left|].
    intros [?|(i & ? & _)]; [done|lia].
  - intros i s Hi Hr. pose proof Hr as (Hwfs & Hl & _).
    pose proof (Hu (b + i) ltac:(lia)) as Hub. pose proof Hub as [Hr1 _].
    destruct (hhdm_bounds a Hwf). unfold PAGE_SIZE in *.
    assert (u64 (b * 4096 + i * 4096) = (b + i) * PAGE_SIZE) as ->.
    { rewrite u64_small; unfold PAGE_SIZE; lia. }
    eapply (released_trans _ _ _ _ _ _ Hr).
    + apply (released_free s ((b + i) * PAGE_SIZE) Hwfs). exists (b + i). split; [done|].
      by apply (usable_mono a).
    + intros x. cbn. unfold in_buffer. split.
      * intros (j & Hj & ->). destruct (Z.eq_dec j (b + i)) as [->|]; [by right|].
        left. exists j. split; [lia|done].
      * intros [(j & Hj & ->)| ->]; [exists j|exists (b + i)]; (split; [lia|done]).
Qed.

(** ** [exec_image] *)

(** The process that has been started in [a']: the frames taken since [a0] are
    the ones its page map holds, user code sees the segments of [img] and the
    arguments on the stack and may load and store there, and the kernel half is
    the kernel's. *)
Record process_ready (a0 a' : St) (kernel_pml4 map : Z) (img : list Z) (args : option (list Z)) : Prop := {
  pr_space : space a' map;
  pr_owned : owned a0 a' map;
  pr_segments w : user w → page_base w ≠ USER_STACK →
    user_view a' map w = seg_view img (loads img (e_phnum (image img) 0)) w;
  pr_args i c : stack_bytes args !! i = Some c →
    user_view a' map (stack_pointer args + Z.of_nat i) = Some (u8 c);
  pr_access w wr : user w → is_Some (user_view a' map w) → user_access a' map w wr;
  pr_kernel i : 256 ≤ i < 512 → ent a' map i = rd64 (ram a0) (kernel_pml4 + 8 * i);
}.

Section Exec.
Context (a0 : St) (b n : Z) (img : list Z) (args : option (list Z)) (kernel_pml4 kstack : Z).
Context (F : file_at a0 b n img) (L : placeable img args) (Hkt : kernel_table a0 kernel_pml4)
  (Hin : e_phoff (image img) 0 + SIZEOF_PHDR * e_phnum (image img) 0 ≤ Z.of_nat (length img))
  (Hroom : frames_fit (program_pages img) (Z.of_nat (size (free_set a0))) = true).

Definition owned_after (a' : St) (map : Z) : Prop :=
  ∀ k, k ∈ free_set a0 ∨ in_buffer b n (k * PAGE_SIZE) ↔
    k ∈ free_set a' ∨ holds a' map (k * PAGE_SIZE).

(** The entry point, read after the buffer has been given back. *)
Lemma entry_kept K a a' map :
  grows K a0 a map → released (in_buffer b n) a a' →
  e_entry (ram a') (hhdm a0 + b * PAGE_SIZE) = e_entry (image img) 0.
Proof.
  intros G (_ & Hl & Hram & _). destruct (file_ehdr K a0 b n img F a map G) as (_ & _ & <-).
  pose proof (fa_len _ _ _ _ F). pose proof (fa_size _ _ _ _ F).
  destruct (fa_frames _ _ _ _ F b ltac:(lia)) as [Hu _].
  apply rd_le_ext. intros i Hi. apply Hram. apply (usable_mono a0 a) in Hu; [|apply G].
  apply Hu. pose proof (gw_layout _ _ _ G) as (-> & _). unfold in_page, PAGE_SIZE. lia.
Qed.

(** What the loader keeps: every earlier state that did not hold the buffer. *)
Definition keeps_before (a' : St) : Prop :=
  ∀ s, preserves s a0 → (∀ u, in_buffer b n u → ¬ table_frame s u) → preserves s a'.

(** The buffer is given back whole, and none of its frames was free. *)
Lemma buffer_freed a :
  alloc_wf a → same_layout a0 a → released (in_buffer b n) a (free_file a (b * PAGE_SIZE) n).
Proof.
  intros Hwf Hl. pose proof (file_buf_range a0 b n img F) as (_ & _ & Hn).
  apply free_file_spec; [done|lia|]. intros i Hi.
  apply (usable_mono a0); [done|]. by apply (fa_frames _ _ _ _ F).
Qed.

Lemma file_freed K a map :
  grows K a0 a map → released (in_buffer b n) a (free_file a (b * PAGE_SIZE) n).
Proof. intros G. apply buffer_freed; [apply (gw_space _ _ _ G)|apply G]. Qed.

Lemma buffer_busy j : in_buffer b n (j * PAGE_SIZE) → j ∉ free_set a0.
Proof.
  intros (i & Hi & Hji). assert (j = i) as -> by (unfold PAGE_SIZE in Hji; lia).
  by apply (fa_frames _ _ _ _ F).
Qed.

(** What the process finds once the buffer has been given back. *)
Lemma built_freed K a map :
  grows K a0 a map →
  let a' := free_file a (b * PAGE_SIZE) n in
  keeps_before a' ∧ space a' map ∧ owned_after a' map ∧
  (∀ w, user w → user_view a' map w = user_view a map w) ∧
  ∀ i, 256 ≤ i < 512 → ent a' map i = K i.
Proof.
  intros G a'. pose proof (file_freed K a map G) as Hr. fold a' in Hr.
  destruct (grows_other K a0 a a' map _ G Hr buffer_busy) as (Sp & Hlk & Hh & Hview).
  split; [|split; [done|split; [|split; [done|]]]].
  - intros s Hs HP. by apply (grows_preserves K s a0 a a' map _ G Hr).
  - intros j. destruct Hr as (_ & _ & _ & Hfs). rewrite Hfs, Hh, (gw_owned _ _ _ G j). tauto.
  - intros i Hi. etransitivity; [|exact (gw_kernel _ _ _ G i Hi)]. destruct Hr as (_ & Hl & Hram & _).
    apply kept_ram; [apply (gw_space _ _ _ G)|done..| |lia].
    apply (space_holds a map); [apply G|by left].
Qed.

(** Everything taken is free again, and nothing else has changed. *)
Definition cleaned (a' : St) : Prop :=
  alloc_wf a' ∧ (∀ k, k ∈ free_set a' ↔ k ∈ free_set a0 ∨ in_buffer b n (k * PAGE_SIZE)) ∧ keeps_before a'.

Lemma cleaned_up K a map :
  grows K a0 a map → map ≠ 0 → cleaned (vmm_free_pagemap (free_file a (b * PAGE_SIZE) n) map).
Proof. intros G Hm. by apply (grows_released K a0 a _ map _ G Hm (file_freed K a map G) buffer_busy). Qed.

(** No frame for the page map. *)
Lemma cleaned_none a1 :
  alloc_wf a1 → same_layout a0 a1 → ram_kept a0 a1 → free_set a1 = free_set a0 →
  cleaned (free_file a1 (b * PAGE_SIZE) n).
Proof.
  intros Hwf1 Hl Hram Hfs. pose proof (buffer_freed a1 Hwf1 Hl) as Hr.
  pose proof Hr as (Hwf' & _ & _ & Hfs'). split; [done|]. split; [intros k; by rewrite Hfs', Hfs|].
  intros s Hs HP. apply (released_preserves (in_buffer b n) s a1); [done| |done|done].
  etransitivity; [exact Hs|]. split; [done| |].
  - intros u. apply table_frame_mono; [done|by rewrite Hfs].
  - intros u Hu. apply kept_ram; [apply F|done..].
Qed.

(** What the process sees of its file. *)
Definition sees_program (a' : St) (map : Z) : Prop :=
  (∀ w, user w → page_base w ≠ USER_STACK →
     user_view a' map w = seg_view img (loads img (e_phnum (image img) 0)) w) ∧
  ∀ i c, stack_bytes args !! i = Some c →
    user_view a' map (stack_pointer args + Z.of_nat i) = Some (u8 c).

(** Where the loader fails: a header of the kernel half, or too few frames. *)
Definition refused : Prop :=
  (∃ i, 0 ≤ i < e_phnum (image img) 0 ∧ in_kernel (hdr img i) = true) ∨
  (size (free_set a0) < frames_for (program_pages img))%nat.

Lemma exec_image_spec r :
  exec_image kernel_pml4 kstack (b * PAGE_SIZE) n args a0 = r →
  (∃ message a', r = (Failed message, a') ∧ cleaned a' ∧ refused) ∨
  (∃ map a', r = (Started (mk_usermode map (e_entry (image img) 0) (stack_pointer args)
                    (stack_pointer args) (u64 (kstack + 4096))), a') ∧
     (∀ i, 0 ≤ i < e_phnum (image img) 0 → in_kernel (hdr img i) = false) ∧
     map ≠ 0 ∧ keeps_before a' ∧ space a' map ∧ owned_after a' map ∧
     (good_layout img (e_phnum (image img) 0) → sees_program a' map) ∧
     ∀ i, 256 ≤ i < 512 → ent a' map i = rd64 (ram a0) (kernel_pml4 + 8 * i)).
Proof.
  intros Er. pose proof (fa_wf _ _ _ _ F) as Hwf. pose proof (file_buf_range a0 b n img F) as (_ & _ & Hn).
  assert (phystokv a0 (b * PAGE_SIZE) = hhdm a0 + b * PAGE_SIZE) as Hbuf.
  { apply phystokv_small; [done|]. destruct (fa_frames _ _ _ _ F b ltac:(lia)) as [[? _] _]. lia. }
  unfold exec_image in Er. cbn zeta in Er. rewrite Hbuf in Er.
  destruct (decide (free_set a0 = ∅)) as [He|Hne].
  { destruct (no_pagemap a0 kernel_pml4 Hwf He) as (a1 & Heq & Hwf1 & Hl1 & Hram1 & Hfs1).
    rewrite Heq, Z.eqb_refl in Er. left. do 2 eexists. split; [by rewrite <- Er|].
    split; [by apply cleaned_none|]. right. rewrite He, size_empty. unfold frames_for. lia. }
  destruct (grows_start a0 kernel_pml4 Hwf Hkt Hne)
    as (k & a1 & Heq & Hk0 & G1 & Hsz1 & Htree1 & Hempty). rewrite Heq in Er.
  rewrite (proj2 (Z.eqb_neq (k * PAGE_SIZE) 0) Hk0) in Er. set (map := k * PAGE_SIZE) in *.
  set (K := λ i, rd64 (ram a0) (kernel_pml4 + 8 * i)) in *.
  assert (building K a0 a1 map []) as B1.
  { split; [done| | |by rewrite Hsz1].
    - intros q Hq Hqn. rewrite Htree1 by done. split; [done|]. by intros ?%not_elem_of_empty.
    - intros w Hw. rewrite (Hempty w Hw). split; [by intros [? ?]|]. by intros ?%not_elem_of_nil. }
  pose proof (pa_user _ _ L) as Hus. pose proof (pa_apart _ _ L) as Hap.
  destruct (load_segments_spec K a0 b n img F (program_pages img) Hus Hap Hroom ltac:(by eexists)
    (pa_file _ _ L) Hin a1 map B1) as [(a2 & Hload & P)|[(a2 & Hload & G2 & Hout)|(a2 & Hload & G2 & Hbad)]];
    rewrite Hload in Er.
  2: { left. do 2 eexists. split; [by rewrite <- Er|]. split; [by apply (cleaned_up K)|by right]. }
  2: { left. do 2 eexists. split; [by rewrite <- Er|]. split; [by apply (cleaned_up K)|by left]. }
  destruct (setup_stack_spec K a0 b n img F (program_pages img) Hus Hap Hroom a2 map args _ []
    (pl_building _ _ _ _ _ _ P) eq_refl (pa_args _ _ L))
    as [(a3 & Hst & G3 & Hout)|(a3 & Hst & G3 & Hv3 & Hargs)]; rewrite Hst in Er.
  { left. do 2 eexists. split; [by rewrite <- Er|]. split; [by apply (cleaned_up K)|by right]. }
  right. exists map, (free_file a3 (b * PAGE_SIZE) n). pose proof (file_freed K a3 map G3) as Hr.
  split; [rewrite <- Er; by rewrite (entry_kept K a3 _ map)|].
  split; [apply P|]. split; [done|].
  destruct (built_freed K a3 map G3) as (Hkeep & Sp & Hown & Hview & Hker).
  split; [done|]. split; [done|]. split; [done|]. split; [|done].
  intros Hlay. split.
  - intros w Hw Hw'. rewrite Hview, Hv3 by done. by apply (pl_view _ _ _ _ _ _ P).
  - intros i c Hi. rewrite Hview; [by apply Hargs|].
    pose proof (lookup_lt_Some _ _ _ Hi). pose proof (pa_args _ _ L).
    unfold user, stack_pointer, USER_STACK, USER_LIMIT. lia.
Qed.
End Exec.

(** ** [process_exec] *)

(** The answer of a file system that has the file. *)
Definition file_answer (img : list Z) : answer :=
  mk_answer (Z.of_nat (length img)) (Z.of_nat (length img), img).

(** The file is [img]: on drive A, or on drive C when drive A has no such file.
    The archive lies in memory, which only the allocator's data change in. *)
Definition program_file (fat : answer) (tar : mem → answer) (a : St) (img : list Z) : Prop :=
  fat = file_answer img ∨
  file_size fat = 0 ∧
  ∀ m, (∀ x, ¬ private a x → rd8 m x = rd8 (ram a) x) → tar m = file_answer img.

Lemma image_bytes m p img x :
  0 ≤ x < Z.of_nat (length img) → rd8 (wr_bytes m p img) (p + x) = rd8 (image img) x.
Proof.
  intros Hx. destruct (lookup_lt_is_Some_2 img (Z.to_nat x) ltac:(lia)) as [c Hc].
  pose proof (wr_bytes_inside m p img _ c Hc) as H1.
  pose proof (wr_bytes_inside ∅ 0 img _ c Hc) as H2. rewrite Z2Nat.id in H1, H2 by lia.
  unfold image. rewrite H1. by rewrite Z.add_0_l in H2.
Qed.

(** A run of [n] frames is all that is missing. *)
Lemma run_missing (X Y : gset Z) b n :
  0 ≤ n → (∀ k, k ∈ X ↔ k ∈ Y ∨ b ≤ k < b + n) → (∀ k, k ∈ Y → ¬ b ≤ k < b + n) →
  Z.of_nat (size X) = n + Z.of_nat (size Y).
Proof.
  intros Hn HX HY. assert (X = list_to_set (seqZ b n) ∪ Y) as ->.
  { apply set_eq. intros k. rewrite HX, elem_of_union, elem_of_list_to_set, elem_of_seqZ. tauto. }
  rewrite size_union.
  - rewrite size_list_to_set by apply NoDup_seqZ. rewrite length_seqZ. lia.
  - intros k. rewrite elem_of_list_to_set, elem_of_seqZ. intros Hk Hy. apply (HY k Hy). lia.
Qed.

(** Reading the file into its frames. *)
Lemma file_placed a img p a1 :
  alloc_wf a → 64 ≤ Z.of_nat (length img) < 2 ^ 31 → alloc_pages a (file_pages img) = (p, a1) →
  p = 0 ∧ alloc_wf a1 ∧ free_set a1 = free_set a ∧ ¬ free_run a (2 * file_pages img - 1) ∨
  ∃ b, p = b * PAGE_SIZE ∧ p ≠ 0 ∧ phystokv a1 p = hhdm a + b * PAGE_SIZE ∧
    let a2 := set_ram a1 (wr_bytes (ram a1) (phystokv a1 p) img) in
    file_at a2 b (file_pages img) img ∧ same_layout a a2 ∧
    (∀ k, k ∈ free_set a ↔ k ∈ free_set a2 ∨ in_buffer b (file_pages img) (k * PAGE_SIZE)) ∧
    Z.of_nat (size (free_set a)) = file_pages img + Z.of_nat (size (free_set a2)) ∧
    (∀ u, table_frame a u → table_frame a2 u ∧ kept a a2 u).
Proof.
  intros Hwf Hlen Ha. assert (0 < file_pages img) as Hn by (unfold file_pages; dlia).
  assert (Z.of_nat (length img) ≤ file_pages img * 4096) as Hfit by (unfold file_pages; dlia).
  set (n := file_pages img) in *.
  destruct (alloc_pages_law a n p a1 Hwf ltac:(lia) Ha)
    as (Hwf1 & Hl1 & Hram1 & [(-> & Hfs & Hno)|(b & -> & _ & Hrun & Hfs)]);
    [left; by auto|right].
  assert (∀ i, b ≤ i < b + n → usable a1 i ∧ i ∉ free_set a1) as Hfr.
  { intros i Hi. split; [apply (usable_mono a); [done|]; apply (free_set_usable a i Hwf); by apply Hrun|].
    rewrite Hfs. tauto. }
  destruct (Hfr b ltac:(lia)) as [[Hb _] _].
  assert (phystokv a1 (b * PAGE_SIZE) = hhdm a1 + b * PAGE_SIZE) as Hbuf
    by (apply phystokv_small; [done|lia]).
  exists b. split; [done|]. split; [unfold PAGE_SIZE; lia|]. rewrite Hbuf.
  split; [by rewrite (proj1 Hl1)|].
  set (buf := hhdm a1 + b * PAGE_SIZE). set (m := wr_bytes (ram a1) buf img).
  pose proof (wr_bytes_outside (ram a1) buf img) as Hout. fold m in Hout.
  assert (∀ x, buf ≤ x < buf + n * 4096 → in_page (hhdm a1) (b + (x - buf) / 4096) x) as Hpage.
  { intros x Hx. unfold buf, in_page, PAGE_SIZE in *. dlia. }
  destruct (set_ram_wf a1 m Hwf1) as [Hwf2 Hfs2].
  { intros x Hx. apply Hout. destruct (decide (buf ≤ x < buf + n * 4096)) as [Hin|]; [|lia].
    destruct (Hfr (b + (x - buf) / 4096) ltac:(dlia)) as [[_ Hpriv] _].
    by destruct (Hpriv x (Hpage x Hin)). }
  pose proof (set_ram_layout a1 m) as Hl2. set (a2 := set_ram a1 m) in *.
  assert (same_layout a a2) as Hl by by etransitivity.
  split; [|split; [done|split; [|split]]].
  - split; [done| |done|done|].
    + intros i Hi. destruct (Hfr i Hi) as [Hu Hf]. split; [by apply (usable_mono a1)|by rewrite Hfs2].
    + intros x Hx. rewrite (proj1 Hl2). unfold a2. rewrite ram_set_ram. fold buf. by apply image_bytes.
  - intros k. rewrite Hfs2, Hfs. unfold in_buffer, PAGE_SIZE. split.
    + intros Hk. destruct (decide (b ≤ k < b + n)); [right; by exists k|by left].
    + intros [[? _]|(i & Hi & Hki)]; [done|]. apply Hrun. lia.
  - apply (run_missing _ _ b); [lia| |].
    + intros k. rewrite Hfs2, Hfs. split; [|intros [[? _]|?]; [done|by apply Hrun]].
      intros Hk. destruct (decide (b ≤ k < b + n)); [by right|by left].
    + intros k. rewrite Hfs2, Hfs. tauto.
  - intros u Hu. assert (table_frame a1 u) as Hu1.
    { apply (table_frame_mono a); [done| |done]. intros k. rewrite Hfs. tauto. }
    split; [apply (table_frame_mono a1); [done|by rewrite Hfs2|done]|].
    apply (kept_trans _ a1); [by apply kept_ram|]. intros j Hj. unfold ent, a2.
    rewrite ram_set_ram. fold a2. rewrite (table_layout a1 a2 u Hl2). apply rd64_ext.
    intros x Hx. apply Hout. destruct (entry_in_page a1 u j x Hwf1 Hu1 Hj Hx) as [Hin _].
    destruct Hu as (k & -> & _ & Hk).
    assert (¬ b ≤ k < b + n) by (intros Hbk; apply Hk, Hrun; done). unfold buf, PAGE_SIZE in *. lia.
Qed.

(** The tests of the headers depend on the first 64 bytes. *)
Lemma check_headers_image m buf img :
  64 ≤ Z.of_nat (length img) →
  (∀ x, 0 ≤ x < Z.of_nat (length img) → rd8 m (buf + x) = rd8 (image img) x) →
  check_headers m buf (Z.of_nat (length img)) =
  check_headers (image img) 0 (Z.of_nat (length img)).
Proof.
  intros Hlen Hb.
  assert (∀ k x, 0 ≤ x → x + Z.of_nat k ≤ 64 → rd_le k m (buf + x) = rd_le k (image img) (0 + x)) as Hrd.
  { intros k x Hx Hk. apply rd_le_ext. intros j Hj. rewrite <- Z.add_assoc, Hb by lia. f_equal. }
  unfold check_headers, elf_magic, e_phoff, e_phnum, e_entry, rd16, rd64.
  rewrite !Hrd by lia. rewrite <- (Z.add_0_r buf) at 1. by rewrite !Hb by lia.
Qed.

Lemma check_headers_table img size :
  check_headers (image img) 0 size = None → 0 ≤ size < 2 ^ 31 →
  e_phoff (image img) 0 + SIZEOF_PHDR * e_phnum (image img) 0 ≤ size.
Proof.
  intros Hc Hs. unfold check_headers in Hc.
  assert (0 ≤ e_phoff (image img) 0 < 2 ^ 64) by apply rd64_range.
  assert (0 ≤ e_phnum (image img) 0 < 2 ^ 16) by apply rd16_range. unfold SIZEOF_PHDR in *.
  destruct (negb _); [done|]. destruct (Z.leb_spec size (e_phoff (image img) 0)); [done|].
  rewrite (u64_small (_ * 56)) in Hc by lia. rewrite u64_small in Hc by lia.
  destruct (Z.ltb_spec size (e_phoff (image img) 0 + e_phnum (image img) 0 * 56)); [done|]. lia.
Qed.

Definition no_memory : list Z := str "Exec: Memoria insuficiente para ler arquivo!" ++ [10].

(** The steps of [process_exec] up to the page map. *)
Lemma process_exec_steps kernel_pml4 kstack fat tar args a img r :
  alloc_wf a → 64 ≤ Z.of_nat (length img) < 2 ^ 31 → program_file fat tar a img →
  process_exec kernel_pml4 kstack fat tar args a = r →
  (∃ a', r = (Failed no_memory, a') ∧ alloc_wf a' ∧ free_set a' = free_set a ∧ preserves a a' ∧
     ¬ free_run a (2 * file_pages img - 1)) ∨
  ∃ b a2, file_at a2 b (file_pages img) img ∧ same_layout a a2 ∧
    (∀ k, k ∈ free_set a ↔ k ∈ free_set a2 ∨ in_buffer b (file_pages img) (k * PAGE_SIZE)) ∧
    Z.of_nat (size (free_set a)) = file_pages img + Z.of_nat (size (free_set a2)) ∧
    (∀ u, table_frame a u → table_frame a2 u ∧ kept a a2 u) ∧
    r = match check_headers (image img) 0 (Z.of_nat (length img)) with
        | Some message => (Failed message, free_file a2 (b * PAGE_SIZE) (file_pages img))
        | None => exec_image kernel_pml4 kstack (b * PAGE_SIZE) (file_pages img) args a2
        end.
Proof.
  intros Hwf Hlen Hfile <-. unfold process_exec. cbn zeta.
  set (size := if file_size fat =? 0 then _ else _).
  assert (size = Z.of_nat (length img)) as ->.
  { unfold size. destruct Hfile as [->|[-> Ht]].
    - cbn. destruct (Z.eqb_spec (Z.of_nat (length img)) 0); [lia|done].
    - rewrite Z.eqb_refl, Ht by done. cbn. rewrite u32_small; lia. }
  destruct (Z.eqb_spec (Z.of_nat (length img)) 0); [lia|].
  rewrite u32_small by lia. fold (file_pages img).
  destruct (alloc_pages a (file_pages img)) as [p a1] eqn:Ha.
  pose proof (alloc_pages_law a (file_pages img) p a1 Hwf ltac:(unfold file_pages; dlia) Ha)
    as (_ & Hl1 & Hram1 & _).
  destruct (file_placed a img p a1 Hwf Hlen Ha)
    as [(-> & Hwf1 & Hfs1 & Hno)|(b & -> & Hp0 & _ & F & Hl & Hfs & Hsz & Hkept)].
  { left. exists a1. split; [done|]. split; [done|]. split; [done|]. split; [split; [done| |]|done].
    - intros u. by apply table_frame_mono; [|rewrite Hfs1].
    - intros u. by apply kept_ram. }
  right. rewrite (proj2 (Z.eqb_neq _ _) Hp0).
  assert (file_read (if file_size fat =? 0 then tar (ram a1) else fat) =
    (Z.of_nat (length img), img)) as ->.
  { destruct Hfile as [->|[-> Ht]].
    - cbn. destruct (Z.eqb_spec (Z.of_nat (length img)) 0); [lia|done].
    - by rewrite Z.eqb_refl, Ht. }
  set (a2 := set_ram a1 _) in *. destruct (Z.leb_spec (Z.of_nat (length img)) 0); [lia|].
  exists b, a2. split; [done|]. split; [done|]. split; [done|]. split; [done|]. split; [done|].
  rewrite check_headers_image; [done|lia|]. intros x Hx. rewrite <- (fa_bytes _ _ _ _ F x Hx).
  do 2 f_equal. rewrite (proj1 Hl). destruct (file_buf_range a2 b _ img F) as (_ & _ & Hn).
  destruct (fa_frames _ _ _ _ F b ltac:(lia)) as [[Hb _] _].
  assert (hhdm a1 = hhdm a2) as Hh by (symmetry; apply set_ram_layout).
  unfold phystokv. rewrite Hh. change (u64 (b * PAGE_SIZE + hhdm a2)) with (phystokv a2 (b * PAGE_SIZE)).
  rewrite phystokv_small; [by rewrite (proj1 Hl)|apply F|lia].
Qed.

(** Either the loader fails and gives back all it took, or it starts the
    program; what was allocated before is as it was. *)
Lemma exec_cases kernel_pml4 kstack fat tar args a img r :
  alloc_wf a → kernel_table a kernel_pml4 → placeable img args → program_file fat tar a img →
  fits img (Z.of_nat (size (free_set a))) = true →
  process_exec kernel_pml4 kstack fat tar args a = r →
  preserves a r.2 ∧
  ((∃ message, r.1 = Failed message ∧ alloc_wf r.2 ∧ (∀ k, k ∈ free_set r.2 ↔ k ∈ free_set a) ∧
      (¬ free_run a (2 * file_pages img - 1) ∨
       is_Some (check_headers (image img) 0 (Z.of_nat (length img))) ∨
       (∃ i, 0 ≤ i < e_phnum (image img) 0 ∧ in_kernel (hdr img i) = true) ∨
       Z.of_nat (size (free_set a)) < file_pages img + Z.of_nat (frames_for (program_pages img)))) ∨
   ∃ map, r.1 = Started (mk_usermode map (e_entry (image img) 0) (stack_pointer args)
                           (stack_pointer args) (u64 (kstack + 4096))) ∧ map ≠ 0 ∧
     space r.2 map ∧ owned a r.2 map ∧
     (∀ i, 256 ≤ i < 512 → ent r.2 map i = rd64 (ram a) (kernel_pml4 + 8 * i)) ∧
     (good_layout img (e_phnum (image img) 0) → process_ready a r.2 kernel_pml4 map img args)).
Proof.
  intros Hwf (kt & -> & Hkt) L Hfile Hroom Hex. pose proof (pa_size _ _ L) as Hlen.
  destruct (process_exec_steps _ _ _ _ _ _ _ _ Hwf Hlen Hfile Hex)
    as [(s & -> & ? & Hfs & Hpv & Hno)|(b & a2 & F & Hl & Hfs & Hsz & Hkept & Hr)].
  { split; [done|]. left. eexists. split; [done|]. split; [done|]. split; [cbn; by rewrite Hfs|by left]. }
  assert (preserves a a2) as Hpv by (split; [done|apply Hkept|apply Hkept]).
  assert (∀ u, in_buffer b (file_pages img) u → ¬ table_frame a u) as Hbuf.
  { intros u (i & Hi & ->) (k & Hki & _ & Hk). assert (k = i) as -> by (unfold PAGE_SIZE in Hki; lia).
    apply Hk, Hfs. right. by exists i. }
  destruct (check_headers _ _ _) as [msg|] eqn:Hc.
  - rewrite Hr. cbn [fst snd]. destruct (file_buf_range a2 b _ img F) as (_ & _ & Hn).
    pose proof (free_file_spec a2 b (file_pages img) ltac:(apply F) ltac:(lia) ltac:(apply F)) as Hrel.
    split; [apply (released_preserves _ a a2 _ ltac:(apply F) Hpv Hrel Hbuf)|]. left.
    exists msg. destruct Hrel as (? & _ & _ & Hfs'). split; [done|]. split; [done|].
    split; [intros k; by rewrite Hfs', Hfs|right; left; done].
  - symmetry in Hr. destruct (Hkept kt Hkt) as [Hkt2 Hke].
    assert (table a2 kt = table a kt) as Htab by by apply table_layout. rewrite <- Htab in Hr.
    assert (frames_fit (program_pages img) (Z.of_nat (size (free_set a2))) = true) as Hroom2.
    { rewrite <- Hroom. unfold fits. f_equal. lia. }
    destruct (exec_image_spec a2 b (file_pages img) img args (table a2 kt) kstack F L
      ltac:(by exists kt) (check_headers_table img _ Hc ltac:(lia)) Hroom2 _ Hr)
      as [(msg & s & -> & (Hwf' & Hfs' & Hkeep) & Hwhy)|(map & s & -> & _ & Hm & Hkeep & Sp & Hown & Hsee & Hk)];
      (split; [by apply Hkeep|]).
    + left. exists msg. split; [done|]. split; [done|].
      split; [intros k; by rewrite Hfs', Hfs|]. right. right.
      destruct Hwhy as [Hw|Hw]; [by left|right]. lia.
    + right. exists map. cbn [fst snd]. split; [done|]. split; [done|]. split; [done|].
      assert (owned a s map) as Ho by (intros k; rewrite Hfs; apply Hown).
      assert (∀ i, 256 ≤ i < 512 → ent s map i = rd64 (ram a) (table a kt + 8 * i)) as Hk'.
      { intros i Hi. etransitivity; [by apply Hk|]. apply Hke. lia. }
      split; [done|]. split; [done|]. intros Hlay. destruct (Hsee Hlay) as [Hv Hargs].
      split; [done|done|done|done| |done].
      intros w wr Hw [c Hc']. unfold user_view in Hc'.
      destruct (lookup_page s map w) as [e|] eqn:He; [by apply (space_access s map w e)|done].
Qed.

(** A program that the loader can start in the frames that are free: twice the
    pages of its file lie in a row, wherever the allocator's cursor is. *)
Record startable (img : list Z) (args : option (list Z)) a : Prop := {
  sa_loadable : loadable img args;
  sa_headers : check_headers (image img) 0 (Z.of_nat (length img)) = None;
  sa_user i : 0 ≤ i < e_phnum (image img) 0 → in_kernel (hdr img i) = false;
  sa_room : file_pages img + frames_needed img ≤ Z.of_nat (size (free_set a));
  sa_run : free_run a (2 * file_pages img - 1);
}.

(** Only the set of free frames matters. *)
Lemma startable_same img args a a' :
  (∀ i, i ∈ free_set a' ↔ i ∈ free_set a) → startable img args a → startable img args a'.
Proof.
  intros Hfs [L Hc Hu Hroom (i & Hrun)]. assert (free_set a' = free_set a) as Heq by by apply set_eq.
  split; [done..|by rewrite Heq|]. exists i. by rewrite Heq.
Qed.

Lemma exec_started kernel_pml4 kstack fat tar args a img :
  alloc_wf a → kernel_table a kernel_pml4 → program_file fat tar a img → startable img args a →
  ∃ map a', process_exec kernel_pml4 kstack fat tar args a =
      (Started (mk_usermode map (e_entry (image img) 0) (stack_pointer args)
                  (stack_pointer args) (u64 (kstack + 4096))), a') ∧
    process_ready a a' kernel_pml4 map img args ∧ preserves a a'.
Proof.
  intros Hwf Hkt Hfile [L Hc Hu Hroom Hrun].
  destruct (process_exec kernel_pml4 kstack fat tar args a) as [r a'] eqn:Hex.
  destruct (exec_cases _ _ _ _ _ _ _ _ Hwf Hkt (loadable_placeable _ _ L) Hfile (fits_enough _ _ Hroom) Hex)
    as [Hp [(s & Hr & _ & Hfs & [?|[[? Hc']|[(i & Hi & Hbad)|Hfew]]])|(map & Hr & _ & _ & _ & _ & Hready)]];
    cbn in *.
  - done.
  - congruence.
  - by rewrite (Hu i Hi) in Hbad.
  - pose proof (frames_for_program img). lia.
  - subst r. exists map, a'. split; [done|]. split; [by apply Hready, L|done].
Qed.

(** C9. A program that has a valid ELF header, and whose segments fit and share
    no page, is started when enough frames are free, a run for its file among them:
    its user memory is then exactly its segments, from the file and zero beyond,
    with the arguments on the stack, all of it open to loads and stores; the frames
    taken are those its page map holds, the file's own are free again, and the
    kernel half is mapped as before. *)
Theorem exec_starts kernel_pml4 kstack fat tar args a img :
  alloc_wf a → kernel_table a kernel_pml4 → program_file fat tar a img → startable img args a →
  ∃ map a', process_exec kernel_pml4 kstack fat tar args a =
      (Started (mk_usermode map (e_entry (image img) 0) (stack_pointer args)
                  (stack_pointer args) (u64 (kstack + 4096))), a') ∧
    process_ready a a' kernel_pml4 map img args ∧ preserves a a'.
Proof. apply exec_started. Qed.

(** C16. When the loader refuses a program file, it has given back every frame it
    took, and every frame in use before has its contents: for a bad header or
    program table, for a segment in the kernel half after others have been mapped,
    and when the frames run out, for the file, for the page map, for a page of a
    segment or for the stack. The files left out are those the code does not
    guard against: pages in the kernel half or mapped twice and sizes that wrap
    ([placeable]), and frames that run out between a page and the tables that lead
    to it ([fits]; the code then takes physical page 0 for a table,
    [Vmm.map_page_out_of_memory]). *)
Theorem exec_failure_clean kernel_pml4 kstack fat tar args a img message a' :
  alloc_wf a → kernel_table a kernel_pml4 → placeable img args → program_file fat tar a img →
  fits img (Z.of_nat (size (free_set a))) = true →
  process_exec kernel_pml4 kstack fat tar args a = (Failed message, a') →
  alloc_wf a' ∧ (∀ k, k ∈ free_set a' ↔ k ∈ free_set a) ∧ preserves a a'.
Proof.
  intros Hwf Hkt L Hfile Hroom Hex.
  by destruct (exec_cases _ _ _ _ _ _ _ _ Hwf Hkt L Hfile Hroom Hex)
    as [? [(s & _ & ? & ? & _)|(map & [=] & _)]].
Qed.
End Loader.
