(* ===== verification/LoaderDemo.v ===== *)
(** The loader on a concrete machine: sixteen frames, a kernel page map in
    frame 1, and a program file of one segment of four bytes. *)

From S2P Require Import Pmm Machine Loader.

(** Frames 0 and 1 are taken, the other fourteen are free. *)
Definition big : pmm := mk_pmm BASE BASE (4096 * 14) 16 2 {[ BASE := 3; BASE + 1 := 0 ]}.

Definition le64 (x : Z) : list Z := (λ k, x / 2 ^ (8 * k) mod 256) <$> [0; 1; 2; 3; 4; 5; 6; 7].

(** A header, one program header (type, flags, offset, address, physical
    address, file size, memory size, alignment) and four bytes of code. *)
Definition demo_elf : list Z :=
  [127; 69; 76; 70] ++ replicate 20 0 ++ le64 4194424 ++ le64 64 ++ replicate 16 0 ++
  [1; 0] ++ replicate 6 0 ++
  [1; 0; 0; 0; 5; 0; 0; 0] ++ le64 120 ++ le64 4194424 ++ le64 0 ++ le64 4 ++ le64 5000 ++ le64 4096 ++
  [144; 144; 15; 5].

Lemma big_free i : i ∈ free_set big ↔ 2 ≤ i < 16.
Proof.
  cbn [free_set pmm_allocator]. rewrite elem_of_free_frames. change (pmm_highest_page big) with 16.
  split.
  - intros [Hi Hb]. assert (i = 0 ∨ i = 1 ∨ 2 ≤ i) as Hc by lia.
    repeat destruct Hc as [->|Hc]; try discriminate Hb. lia.
  - intros Hi. split; [lia|]. assert (In i (seqZ 2 14)) as Hin.
    { apply list_elem_of_In, elem_of_seqZ. lia. }
    cbn in Hin. repeat destruct Hin as [<-|Hin]; try reflexivity. destruct Hin.
Qed.

Lemma big_wf : alloc_wf big.
Proof.
  split; [done|done|done| | |].
  - change (0 ∉ free_set big). rewrite big_free. lia.
  - intros i x Hi. change (i ∈ free_set big) in Hi. apply big_free in Hi.
    unfold in_page, in_bitmap, PAGE_SIZE. cbn. change ((16 + 7) / 8) with 2. unfold BASE. lia.
  - reflexivity.
Qed.

Lemma big_size : size (free_set big) = 14%nat.
Proof. reflexivity. Qed.

Lemma big_kernel : kernel_table big (BASE + 4096).
Proof.
  exists 4096. split; [reflexivity|]. exists 1. split; [reflexivity|]. split.
  - split; [cbn; lia|]. intros x. unfold in_page, PAGE_SIZE. cbn. unfold in_bitmap. cbn.
    change ((16 + 7) / 8) with 2. unfold BASE. lia.
  - rewrite big_free. lia.
Qed.

Definition demo_segment : phdr := mk_phdr 1 120 4194424 4 5000.

Lemma demo_phnum : e_phnum (image demo_elf) 0 = 1.
Proof. reflexivity. Qed.

Lemma demo_hdr : hdr demo_elf 0 = demo_segment.
Proof. reflexivity. Qed.

Lemma demo_loadable : loadable demo_elf (Some (str "x")).
Proof.
  split; [cbn; lia| |cbn; lia]. rewrite demo_phnum. split.
  - intros i Hi _. assert (i = 0) as -> by lia. rewrite demo_hdr.
    split; unfold USER_LIMIT, USER_STACK; cbn; try lia.
    left. vm_compute. discriminate.
  - intros i j. lia.
Qed.

Lemma big_run n : n ≤ 14 → free_run big n.
Proof. intros Hn. exists 2. intros k Hk. apply big_free. lia. Qed.

Lemma demo_startable : startable demo_elf (Some (str "x")) big.
Proof.
  split; [exact demo_loadable|reflexivity| | |apply big_run; vm_compute; discriminate].
  - rewrite demo_phnum. intros i Hi. assert (i = 0) as -> by lia. reflexivity.
  - rewrite big_size. vm_compute. discriminate.
Qed.

(** The program is started, with its code at 0x400078. *)
Lemma exec_starts_witness :
  ∃ map a', process_exec (BASE + 4096) 0 (file_answer demo_elf) (λ _, file_answer []) (Some (str "x")) big =
      (Started (mk_usermode map 4194424 (stack_pointer (Some (str "x"))) (stack_pointer (Some (str "x"))) 4096), a') ∧
    user_view a' map 4194427 = Some 5 ∧ user_view a' map 4194428 = Some 0.
Proof.
  destruct (exec_starts (BASE + 4096) 0 (file_answer demo_elf) (λ _, file_answer []) (Some (str "x")) big
    demo_elf big_wf big_kernel (or_introl eq_refl) demo_startable) as (map & a' & E & R & _).
  exists map, a'. split; [exact E|]. pose proof (pr_segments _ _ _ _ _ _ R) as Hv.
  split; (rewrite Hv; [reflexivity|unfold user, USER_LIMIT; lia|discriminate]).
Defined.

(** ** Too few frames

    A machine of eight frames, six of them free: the file takes one, the page map
    one, the first page of the segment one and its tables three, and none is left
    for the second page. *)
Definition small : pmm := mk_pmm BASE BASE (4096 * 6) 8 1 {[ BASE := 3 ]}.

Lemma small_free i : i ∈ free_set small ↔ 2 ≤ i < 8.
Proof.
  cbn [free_set pmm_allocator]. rewrite elem_of_free_frames. change (pmm_highest_page small) with 8.
  split.
  - intros [Hi Hb]. assert (i = 0 ∨ i = 1 ∨ 2 ≤ i) as Hc by lia.
    repeat destruct Hc as [->|Hc]; try discriminate Hb. lia.
  - intros Hi. split; [lia|]. assert (In i (seqZ 2 6)) as Hin.
    { apply list_elem_of_In, elem_of_seqZ. lia. }
    cbn in Hin. repeat destruct Hin as [<-|Hin]; try reflexivity. destruct Hin.
Qed.

Lemma small_wf : alloc_wf small.
Proof.
  split; [done|done|done| | |].
  - change (0 ∉ free_set small). rewrite small_free. lia.
  - intros i x Hi. change (i ∈ free_set small) in Hi. apply small_free in Hi.
    unfold in_page, in_bitmap, PAGE_SIZE. cbn. change ((8 + 7) / 8) with 1. unfold BASE. lia.
  - reflexivity.
Qed.

Lemma small_size : size (free_set small) = 6%nat.
Proof. reflexivity. Qed.

Lemma small_kernel : kernel_table small (BASE + 4096).
Proof.
  exists 4096. split; [reflexivity|]. exists 1. split; [reflexivity|]. split.
  - split; [cbn; lia|]. intros x. unfold in_page, PAGE_SIZE. cbn. unfold in_bitmap. cbn.
    change ((8 + 7) / 8) with 1. unfold BASE. lia.
  - rewrite small_free. lia.
Qed.

Lemma demo_placeable : placeable demo_elf None.
Proof. apply loadable_placeable. destruct demo_loadable as [Hs Hl _]. by split. Qed.

(** The file is refused, and all six frames are free again. *)
Lemma exec_failure_clean_witness :
  ∃ a', process_exec (BASE + 4096) 0 (file_answer demo_elf) (λ _, file_answer []) None small
    = (Failed no_frame, a') ∧ ∀ k, k ∈ free_set a' ↔ 2 ≤ k < 8.
Proof.
  destruct (process_exec (BASE + 4096) 0 (file_answer demo_elf) (λ _, file_answer []) None small)
    as [r a'] eqn:E.
  assert (r = Failed no_frame) as Hr.
  { change r with (r, a').1. rewrite <- E. vm_compute. reflexivity. }
  subst r. exists a'. split; [reflexivity|].
  destruct (exec_failure_clean (BASE + 4096) 0 (file_answer demo_elf) (λ _, file_answer []) None small
    demo_elf no_frame a' small_wf small_kernel demo_placeable) as (_ & Hfree & _).
  - left. reflexivity.
  - rewrite small_size. vm_compute. reflexivity.
  - exact E.
  - intros k. rewrite Hfree. apply small_free.
Defined.
