(* ===== verification/Syscall.v ===== *)
(** System calls (src/kernel/syscall.c) and the user-side stubs that make them
    (src/tools/syscalls.h).

    [kernel] puts together the state the dispatcher works on: the page allocator
    with the memory, CR3, the screen, the keyboard with the scancodes still to
    come, and the disk. User memory is reached through the current page map, a
    byte at a time, as the processor does. The reader of user strings runs with
    the fuel of string.c. *)

From S2P Require Export AddrSpace.
From S2P Require Import Io Block Fat16 Keyboard.
From S2P Require Vga.
Open Scope Z_scope.

(** ** User memory *)

Section UserMemory.
Context {St : Type} `{PageAllocator St}.

(** Where the processor finds the byte at [v]. *)
Definition user_address (a : St) (e v : Z) : Z := table a (page_base e) + v .& 4095.
End UserMemory.

Section UserAccess.
Context {St : Type} `{PageAllocatorLaws St}.
Implicit Types (a : St).

Definition user_poke a (cr3 v b : Z) : St :=
  match lookup_page a cr3 v with
  | Some e => set_ram a (wr8 (ram a) (user_address a e v) b)
  | None => a
  end.

(** The store of [bytes] from [v] on. *)
Fixpoint user_store a (cr3 v : Z) (bytes : list Z) : St :=
  match bytes with
  | [] => a
  | b :: bytes => user_store (user_poke a cr3 v b) cr3 (v + 1) bytes
  end.

Definition user_bytes a (cr3 v n : Z) : list Z := (λ i, load_byte a cr3 (v + i)) <$> seqZ 0 n.

(** The NUL-terminated string at [v]. *)
Definition user_str a (cr3 v : Z) : unit + list Z :=
  match
    while (λ n, if load_byte a cr3 (v + n) =? 0 then inr n else inl (n + 1)) addr_fuel 0
  with
  | inr n => inr (user_bytes a cr3 v n)
  | inl _ => inl ()
  end.
End UserAccess.

(** ** The dispatcher *)

Section Syscalls.
Context {St : Type} `{PageAllocatorLaws St} {D : Type} `{Disk D}.

Record kernel := mk_kernel {
  pages : St;
  cr3 : Z;
  kernel_pml4 : Z;
  screen : Vga.vga;
  keyboard : kbd;
  scancodes : list Z;
  disk : D;
}.

Definition with_pages (k : kernel) (a : St) : kernel :=
  mk_kernel a (cr3 k) (kernel_pml4 k) (screen k) (keyboard k) (scancodes k) (disk k).
Definition with_screen (k : kernel) (s : Vga.vga) : kernel :=
  mk_kernel (pages k) (cr3 k) (kernel_pml4 k) s (keyboard k) (scancodes k) (disk k).
Definition with_disk (k : kernel) (d : D) : kernel :=
  mk_kernel (pages k) (cr3 k) (kernel_pml4 k) (screen k) (keyboard k) (scancodes k) d.

(** A call returns to the program, waits for a key for ever, or (sys_exit)
    returns to [process_exec]. *)
Inductive outcome :=
  | Return (rax : Z) (k : kernel)
  | Blocked
  | Exit (k : kernel).

Context (after_font : Z → Z) (v : vol).

(** [(uint64_t)-1] *)
Definition FAIL : Z := u64 (-1).

Definition print (k : kernel) (s : list Z) : kernel :=
  with_screen k (Vga.vga_print after_font (screen k) s).
Definition print_hex (k : kernel) (n : Z) : kernel :=
  with_screen k (Vga.vga_print_hex after_font (screen k) n).

Definition check_string (k : kernel) (p : Z) : bool :=
  vmm_check_user_string load_byte (pages k) (cr3 k) p.
Definition check_ptr (k : kernel) (p size : Z) (write : bool) : bool :=
  vmm_check_user_ptr (pages k) (cr3 k) p size write.

(** The call with the user string at [p], when it passes the check. *)
Definition with_string (k : kernel) (p : Z) (f : list Z → outcome) : outcome :=
  if negb (check_string k p) then Return FAIL k
  else match user_str (pages k) (cr3 k) p with inr s => f s | inl _ => Blocked end.

Definition do_read (k : kernel) (arg1 arg2 : Z) : outcome :=
  with_string k arg1 (λ name,
    let size := fat16_get_file_size v (disk k) name in
    if size =? 0 then Return 0 k
    else if negb (check_ptr k arg2 size true) then
      let k := print k (str "Syscall Read: Check User Ptr Failed! arg2=0x") in
      let k := print_hex k arg2 in
      let k := print k (str " size=") in
      let k := print_hex k size in
      Return FAIL (print k [10])
    else
      let '(r, data) := fat16_read_file v (disk k) name in
      Return (u64 r) (with_pages k (user_store (pages k) (cr3 k) arg2 data))).

Definition do_write_file (k : kernel) (arg1 arg2 arg3 : Z) : outcome :=
  with_string k arg1 (λ name,
    let size := u32 arg3 in
    if negb (check_ptr k arg2 size false) then Return FAIL k
    else
      let '(_, d) := fat16_write_file v (disk k) name (user_bytes (pages k) (cr3 k) arg2 size) size in
      Return 0 (with_disk k d)).

Definition do_exit (k : kernel) : outcome :=
  let current_cr3 := cr3 k in
  let cr3 := vmm_restore_kernel_pagemap (pages k) (kernel_pml4 k) in
  Exit (mk_kernel (vmm_free_pagemap (pages k) current_cr3) cr3 (kernel_pml4 k)
          (screen k) (keyboard k) (scancodes k) (disk k)).

Definition syscall_handler_c (k : kernel) (num arg1 arg2 arg3 : Z) : outcome :=
  if num =? 1 then with_string k arg2 (λ s, Return 0 (print k s))
  else if num =? 2 then Return 0 (with_screen k (Vga.vga_clear (screen k)))
  else if num =? 3 then Return 0 (with_screen k (Vga.vga_set_cursor (screen k) arg1 arg2))
  else if num =? 4 then Return 0 (with_screen k (Vga.vga_putchar after_font (screen k) (u8 arg1)))
  else if num =? 5 then Return 0 (with_screen k (Vga.vga_set_color (screen k) arg1 arg2))
  else if num =? 6 then Return (Vga.vga_get_max_rows (screen k)) k
  else if num =? 7 then
    match keyboard_getchar (keyboard k) (scancodes k) with
    | Some (c, irqs, kb) =>
        Return (u64 (s8 c))
          (mk_kernel (pages k) (cr3 k) (kernel_pml4 k) (screen k) kb irqs (disk k))
    | None => Blocked
    end
  else if num =? 8 then do_read k arg1 arg2
  else if num =? 9 then do_write_file k arg1 arg2 arg3
  else if num =? 10 then
    with_string k arg1 (λ name, Return (u64 (fat16_get_file_size v (disk k) name)) k)
  else if num =? 60 then do_exit k
  else Return 0 k.

(** ** The stubs of the programs

    The registers at the [syscall] instruction; what a stub does not set is
    what the program has left there. *)
Record regs := mk_regs { rax : Z; rdi : Z; rsi : Z; rdx : Z }.

Definition syscall0 (r : regs) (num : Z) : regs := mk_regs num (rdi r) (rsi r) (rdx r).
Definition syscall1 (r : regs) (num arg1 : Z) : regs := mk_regs num arg1 (rsi r) (rdx r).
Definition syscall2 (r : regs) (num arg1 arg2 : Z) : regs := mk_regs num arg1 arg2 (rdx r).
Definition syscall3 (r : regs) (num arg1 arg2 arg3 : Z) : regs := mk_regs num arg1 arg2 arg3.

(** [syscall_entry] passes them on. *)
Definition syscall_entry (k : kernel) (r : regs) : outcome :=
  syscall_handler_c k (rax r) (rdi r) (rsi r) (rdx r).

Definition sys_write (r : regs) (s : Z) : regs := syscall3 r 1 1 s 0.
Definition sys_clear (r : regs) : regs := syscall0 r 2.
Definition sys_set_cursor (r : regs) (row col : Z) : regs := syscall2 r 3 (u64 row) (u64 col).
Definition sys_putchar (r : regs) (c : Z) : regs := syscall1 r 4 (u64 c).
Definition sys_set_color (r : regs) (bg fg : Z) : regs := syscall2 r 5 bg fg.
Definition sys_get_max_rows (r : regs) : regs := syscall0 r 6.
Definition sys_keyboard_getchar (r : regs) : regs := syscall0 r 7.
Definition sys_fat16_read_file (r : regs) (filename buffer : Z) : regs := syscall2 r 8 filename buffer.
Definition sys_fat16_write_file (r : regs) (filename buffer size : Z) : regs :=
  syscall3 r 9 filename buffer size.
Definition sys_fat16_get_file_size (r : regs) (filename : Z) : regs := syscall1 r 10 filename.
Definition sys_exit (r : regs) : regs := syscall0 r 60.

(** The value of a call whose stub returns [int], and of the one that returns
    [char]. *)
Definition int_result (o : outcome) : option Z := match o with Return x _ => Some (s32 x) | _ => None end.
Definition char_result (o : outcome) : option Z := match o with Return x _ => Some (s8 x) | _ => None end.
End Syscalls.
