(* ===== verification/SyscallProofs.v ===== *)
(** Isolation: what a system call, and user code itself, can change.

    [pstep] is what happens while a process runs: its own stores and its system
    calls. Every such step keeps the address space and the allocator's free
    frames, and writes no byte of memory that the process may not write; the
    frames the loader took are all free again after sys_exit. [gstep] is such a step
    that does not set the cursor to a cell outside the screen: it draws inside the
    frame buffer. *)

From S2P Require Export Syscall.
From S2P Require Import Block Fat16 Fat16Proofs Keyboard.
Open Scope Z_scope.

Section Space.
Context {St : Type} `{PageAllocatorLaws St}.
Implicit Types (a : St).

(** The same address space, with the same frames free. *)
Record same_space a a' (map : Z) : Prop := {
  ss_space : space a' map;
  ss_layout : same_layout a a';
  ss_free : free_set a' = free_set a;
  ss_lookup w : user w → lookup_page a' map w = lookup_page a map w;
  ss_holds x : holds a' map x ↔ holds a map x;
}.

Lemma same_space_refl a map : space a map → same_space a a map.
Proof. by split. Qed.

Lemma same_space_trans a1 a2 a3 map :
  same_space a1 a2 map → same_space a2 a3 map → same_space a1 a3 map.
Proof.
  intros H1 H2. split.
  - apply H2.
  - etransitivity; [apply H1|apply H2].
  - by rewrite (ss_free _ _ _ H2), (ss_free _ _ _ H1).
  - intros w Hw. by rewrite (ss_lookup _ _ _ H2), (ss_lookup _ _ _ H1).
  - intros x. by rewrite (ss_holds _ _ _ H2), (ss_holds _ _ _ H1).
Qed.

(** Two user addresses are at the same place only when they are equal. *)
Lemma user_address_inj a map w w' e e' :
  space a map → user w → user w' → lookup_page a map w = Some e → lookup_page a map w' = Some e' →
  user_address a e w = user_address a e' w' → w = w'.
Proof.
  intros Sp Hw Hw' He He' Heq. unfold user_address in Heq.
  destruct (sp_page _ _ Sp w e Hw He) as [Hf _]. destruct (sp_page _ _ Sp w' e' Hw' He') as [Hf' _].
  rewrite !(table_small a) in Heq by (done || apply Sp).
  pose proof (offset_range w). pose proof (offset_range w').
  assert (page_base e = page_base e') as Hpe.
  { destruct (table_frame_apart a _ _ Hf Hf') as [?|]; [done|lia]. }
  pose proof (sp_apart _ _ Sp w w' e e' Hw Hw' He He' Hpe) as Hp. rewrite !offset_eq in Heq. lia.
Qed.

Lemma poke_spec a map v b e :
  space a map → user v → lookup_page a map v = Some e →
  let a' := user_poke a map v b in
  same_space a a' map ∧
  ∀ x, rd8 (ram a') x = if decide (x = user_address a e v) then u8 b else rd8 (ram a) x.
Proof.
  intros Sp Hv He. unfold user_poke. rewrite He. cbn zeta. set (p := user_address a e v).
  destruct (sp_page _ _ Sp v e Hv He) as [Hf Hnt].
  pose proof Hf as (k & Hk & Hu & Hkf). pose proof (offset_range v) as Ho.
  assert (p = hhdm a + k * PAGE_SIZE + v .& 4095) as Hp.
  { unfold p, user_address. rewrite table_small by (done || apply Sp). by rewrite Hk. }
  assert (same_outside (hhdm a + k * PAGE_SIZE) PAGE_SIZE (ram a) (wr8 (ram a) p b)) as Hout.
  { intros x Hx. apply rd8_wr8_ne. unfold PAGE_SIZE in *. lia. }
  destruct (set_ram_in_page a _ k (sp_wf _ _ Sp) Hu Hout) as [Hwf Hfs].
  set (a' := set_ram a (wr8 (ram a) p b)) in *.
  assert (same_layout a a') as Hl by apply set_ram_layout.
  assert (∀ u, is_table a map u → kept a a' u) as Hkept.
  { intros u Hut. apply (kept_outside a _ k); [apply Sp|done| | |done].
    - by apply (space_holds a map), table_holds.
    - intros ->. by rewrite Hk in Hnt. }
  destruct (space_same a a' map Sp Hwf Hl Hkept) as (Sp' & Hlk & Htab).
  { intros u Hh. apply (table_frame_mono a); [done|by rewrite Hfs|]. by apply (space_holds a map). }
  split.
  - split; [done|done|done|done|]. by apply holds_same.
  - intros x. unfold a'. rewrite ram_set_ram, rd8_wr8.
    destruct (decide (p = x)), (decide (x = p)); by subst.
Qed.

(** The stores of a string of bytes into mapped user memory. *)
Lemma store_spec a map v bytes :
  space a map →
  (∀ w, v ≤ w < v + Z.of_nat (length bytes) → user w ∧ is_Some (lookup_page a map w)) →
  let a' := user_store a map v bytes in
  same_space a a' map ∧
  (∀ x, (∀ w e, v ≤ w < v + Z.of_nat (length bytes) → lookup_page a map w = Some e →
           x ≠ user_address a e w) → rd8 (ram a') x = rd8 (ram a) x) ∧
  ∀ i c, bytes !! i = Some c → load_byte a' map (v + Z.of_nat i) = u8 c.
Proof.
  revert a v. induction bytes as [|b bytes IH]; intros a v Sp Hmap; cbn [user_store].
  { split; [by apply same_space_refl|]. split; [done|]. by intros i c. }
  cbn [length] in Hmap. destruct (Hmap v ltac:(lia)) as [Hv [e He]].
  destruct (poke_spec a map v b e Sp Hv He) as [Hs1 Hr1]. set (a1 := user_poke a map v b) in *.
  assert (∀ w f, user w → user_address a1 f w = user_address a f w) as Haddr.
  { intros w f _. unfold user_address. by rewrite (table_layout a a1) by apply Hs1. }
  destruct (IH a1 (v + 1) (ss_space _ _ _ Hs1)) as (Hs2 & Hr2 & Hin2).
  { intros w Hw. destruct (Hmap w ltac:(lia)) as [Huw Hsome]. split; [done|].
    by rewrite (ss_lookup _ _ _ Hs1). }
  set (a2 := user_store a1 map (v + 1) bytes) in *.
  split; [by eapply same_space_trans|]. split.
  - intros x Hx. cbn [length] in Hx. rewrite Hr2, Hr1.
    + rewrite decide_False; [done|]. by apply (Hx v); [lia|].
    + intros w f Hw Hf. destruct (Hmap w ltac:(lia)) as [Huw _].
      rewrite (ss_lookup _ _ _ Hs1) in Hf by done. rewrite Haddr by done. by apply Hx; [lia|].
  - intros [|i] c Hc; cbn in Hc.
    + injection Hc as <-. rewrite Z.add_0_r. unfold load_byte.
      rewrite (ss_lookup _ _ _ Hs2), (ss_lookup _ _ _ Hs1), He by done.
      assert (∀ w f, user w → user_address a2 f w = user_address a f w) as Haddr2.
      { intros w f Hw. rewrite <- Haddr by done. unfold user_address.
        by rewrite (table_layout a1 a2) by apply Hs2. }
      fold (user_address a2 e v). rewrite Haddr2 by done. rewrite Hr2, Hr1.
      { by rewrite decide_True. }
      intros w f Hw Hf Heq. destruct (Hmap w ltac:(lia)) as [Huw _].
      rewrite (ss_lookup _ _ _ Hs1) in Hf by done. rewrite Haddr in Heq by done.
      pose proof (user_address_inj a map v w e f Sp Hv Huw He Hf Heq). lia.
    + replace (v + Z.of_nat (S i)) with (v + 1 + Z.of_nat i) by lia. by apply Hin2.
Qed.
End Space.

Section Isolation.
Context {St : Type} `{PageAllocatorLaws St} {D : Type} `{DiskLaws D}.
Context (after_font : Z → Z) (v : vol).
Implicit Types (k : kernel (St := St) (D := D)).

(** ** Reading user strings and files *)

Lemma user_str_spec (a : St) map p :
  0 ≤ p → user_string load_byte a map p →
  ∃ n, 0 ≤ n ∧ user_str a map p = inr (user_bytes a map p n) ∧ p + n < USER_LIMIT ∧
    (∀ x, p ≤ x ≤ p + n → user_access a map x false) ∧ load_byte a map (p + n) = 0 ∧
    ∀ i, 0 ≤ i < n → load_byte a map (p + i) ≠ 0.
Proof.
  intros Hp (N & HN & Hlim & Hz & Hacc). unfold user_str.
  destruct (while_total (λ n, if load_byte a map (p + n) =? 0 then inr n else inl (n + 1))
    (λ n, 0 ≤ n ≤ N ∧ ∀ i, 0 ≤ i < n → load_byte a map (p + i) ≠ 0)
    (λ n, 0 ≤ n ≤ N ∧ load_byte a map (p + n) = 0 ∧ ∀ i, 0 ≤ i < n → load_byte a map (p + i) ≠ 0)
    (λ n, N - n) addr_fuel 0) as (n & -> & Hn & Hzn & Hnz).
  - split; [lia|]. intros i. lia.
  - intros n (Hn & Hnz). destruct (Z.eqb_spec (load_byte a map (p + n)) 0) as [?|Hne]; [done|].
    assert (n ≠ N) by by intros ->. split; [|lia]. split; [lia|]. intros i Hi.
    destruct (Z.eq_dec i n) as [->|]; [done|]. apply Hnz. lia.
  - unfold addr_fuel, USER_LIMIT in *. lia.
  - exists n. split; [lia|]. split; [done|]. split; [lia|]. split; [|done].
    intros x Hx. apply Hacc. lia.
Qed.

(** Bytes of the disk, no more than the size. *)
Definition read_out (size : Z) (out : list Z) : Prop :=
  Z.of_nat (length out) ≤ size ∧ Forall is_byte out.

Lemma read_cluster_out d cluster size out :
  0 ≤ size < 2 ^ 32 → read_out size out →
  match read_cluster v d cluster size out with inl out | inr out => read_out size out end.
Proof.
  intros Hs Ho. unfold read_cluster.
  apply (for_loop_ind (λ _ out, read_out size out) (read_out size)); [done|].
  intros j o _ [Hle Hb]. cbn zeta. set (o' := o ++ _).
  assert (read_out size o') as Hout.
  { split.
    - unfold o'. rewrite length_app, length_take. rewrite u32_small by lia. lia.
    - apply Forall_app. split; [done|]. apply Forall_take, read_is_sector. }
  by destruct (size <=? _).
Qed.

Lemma read_clusters_out d cluster size :
  0 ≤ size < 2 ^ 32 → read_out size (read_clusters v d cluster size).
Proof.
  intros Hs. unfold read_clusters.
  match goal with |- context [while ?b _ _] => pose proof (while_inv b
    (λ '(_, out), read_out size out) (read_out size) chain_fuel (cluster, [])) as Hinv end.
  destruct (while _ _ _) as [[c out]|out]; (apply Hinv; [by split; [cbn; lia|]|]);
    (intros [c' o] Ho; destruct (in_chain c'); [|done];
     pose proof (read_cluster_out d c' size o Hs Ho) as Hr;
     destruct (read_cluster v d c' size o); [by destruct (size <=? _)|done]).
Qed.

(** A file never has more bytes than its size says. *)
Lemma read_file_out d name :
  read_out (fat16_get_file_size v d name) (fat16_read_file v d name).2 ∧
  0 ≤ fat16_get_file_size v d name < 2 ^ 32.
Proof.
  unfold fat16_read_file, fat16_get_file_size.
  apply (find_file_rel v (λ r size, read_out size r.2 ∧ 0 ≤ size < 2 ^ 32)); [by split; [split|]|].
  intros sec i rs Hrs. cbn. unfold get32.
  pose proof (get16_range rs (field i FILE_SIZE) Hrs).
  pose proof (get16_range rs (field i FILE_SIZE + 2) Hrs).
  split; [apply read_clusters_out; lia|lia].
Qed.

Lemma read_file_length d name :
  Z.of_nat (length (fat16_read_file v d name).2) ≤ fat16_get_file_size v d name < 2 ^ 32.
Proof. destruct (read_file_out d name) as [[? _] ?]. lia. Qed.

(** ** What a step of a process keeps *)

(** The same page map and free frames; memory changed only where the process
    may write. *)
Record isolated k k' : Prop := {
  is_cr3 : cr3 k' = cr3 k;
  is_kernel : kernel_pml4 k' = kernel_pml4 k;
  is_space : same_space (pages k) (pages k') (cr3 k);
  is_memory x :
    (∀ w e, user w → user_access (pages k) (cr3 k) w true →
       lookup_page (pages k) (cr3 k) w = Some e → x ≠ user_address (pages k) e w) →
    rd8 (ram (pages k')) x = rd8 (ram (pages k)) x;
}.

Lemma isolated_same k k' :
  space (pages k) (cr3 k) → pages k' = pages k → cr3 k' = cr3 k → kernel_pml4 k' = kernel_pml4 k →
  isolated k k'.
Proof.
  intros Sp Hp Hc Hk. split; [done|done|rewrite Hp; by apply same_space_refl|by rewrite Hp].
Qed.

Lemma access_mapped (a : St) map w wr : user_access a map w wr → is_Some (lookup_page a map w).
Proof.
  intros (e4 & e3 & e2 & e1 & Hw & _). rewrite walk_lookup, Hw. by eexists.
Qed.

(** Stores to memory the process may write. *)
Lemma isolated_store k p bytes :
  space (pages k) (cr3 k) → 0 ≤ p →
  (∀ x, p ≤ x < p + Z.of_nat (length bytes) → x < USER_LIMIT ∧ user_access (pages k) (cr3 k) x true) →
  isolated k (with_pages k (user_store (pages k) (cr3 k) p bytes)).
Proof.
  intros Sp Hp Hacc. destruct (store_spec (pages k) (cr3 k) p bytes Sp) as (Hs & Hr & _).
  { intros w Hw. destruct (Hacc w Hw) as [Hl Ha]. split; [unfold user; lia|]. by eapply access_mapped. }
  split; [done|done|done|]. cbn [pages with_pages]. intros x Hx. apply Hr.
  intros w e Hw He. destruct (Hacc w Hw) as [Hl Ha]. apply Hx; [unfold user; lia|done..].
Qed.

(** The common shape of the calls that take a string. *)
Lemma with_string_return k p f r k' :
  0 ≤ p < 2 ^ 64 → with_string k p f = Return r k' →
  (r = FAIL ∧ k' = k) ∨
  ∃ n, user_string load_byte (pages k) (cr3 k) p ∧ 0 ≤ n ∧
    f (user_bytes (pages k) (cr3 k) p n) = Return r k'.
Proof.
  intros Hp. unfold with_string. destruct (check_string k p) eqn:Hc; cbn [negb].
  - unfold check_string in Hc.
    pose proof (proj1 (vmm_check_user_string_spec load_byte _ _ _ Hp) Hc) as Hs.
    destruct (user_str_spec _ _ _ (proj1 Hp) Hs) as (n & Hn & -> & _). intros Hf. right. by exists n.
  - intros [= <- <-]. by left.
Qed.

Lemma do_read_isolated k arg1 arg2 r k' :
  0 ≤ arg1 < 2 ^ 64 → 0 ≤ arg2 < 2 ^ 64 → space (pages k) (cr3 k) →
  do_read after_font v k arg1 arg2 = Return r k' → isolated k k'.
Proof.
  intros H1' H2' Sp Hr. unfold do_read in Hr.
  apply with_string_return in Hr as [[_ ->]|(n & _ & _ & Hr)]; [by apply isolated_same|..|done].
  set (name := user_bytes _ _ _ _) in Hr. pose proof (read_file_length (disk k) name) as Hlen.
  destruct (Z.eqb_spec (fat16_get_file_size v (disk k) name) 0) as [|Hs0].
  { injection Hr as _ <-. by apply isolated_same. }
  destruct (check_ptr _ _ _ _) eqn:Hc; cbn [negb] in Hr.
  2: { injection Hr as _ <-. by apply isolated_same. }
  unfold check_ptr in Hc. set (size := fat16_get_file_size v (disk k) name) in *.
  assert (0 ≤ size < 2 ^ 64) as Hsr by lia.
  apply (proj1 (vmm_check_user_ptr_spec (pages k) (cr3 k) arg2 size true H2' Hsr)) in Hc as [?|[Hlim Hacc]]; [lia|].
  destruct (fat16_read_file v (disk k) name) as [q data] eqn:Hd. cbn [snd] in Hlen.
  injection Hr as _ <-. apply isolated_store; [done|lia|]. intros x Hx.
  split; [lia|]. apply Hacc. lia.
Qed.

(** ** A process until its exit *)

(** While a process runs: stores of its own and system calls that return. *)
Inductive pstep k : kernel → Prop :=
  | step_store p bytes :
      0 ≤ p →
      (∀ x, p ≤ x < p + Z.of_nat (length bytes) →
         x < USER_LIMIT ∧ user_access (pages k) (cr3 k) x true) →
      pstep k (with_pages k (user_store (pages k) (cr3 k) p bytes))
  | step_call num arg1 arg2 arg3 r k' :
      0 ≤ arg1 < 2 ^ 64 → 0 ≤ arg2 < 2 ^ 64 →
      syscall_handler_c after_font v k num arg1 arg2 arg3 = Return r k' →
      pstep k k'.

Lemma handler_isolated k num arg1 arg2 arg3 r k' :
  0 ≤ arg1 < 2 ^ 64 → 0 ≤ arg2 < 2 ^ 64 → space (pages k) (cr3 k) →
  syscall_handler_c after_font v k num arg1 arg2 arg3 = Return r k' → isolated k k'.
Proof.
  intros H1' H2' Sp. unfold syscall_handler_c, do_exit.
  repeat (destruct (_ =? _); [try (intros [= _ <-]; by apply isolated_same)|]).
  all: try (intros [= _ <-]; by apply isolated_same).
  - intros [[_ ->]|(n & _ & _ & [= _ <-])]%with_string_return; [by apply isolated_same..|done].
  - destruct (keyboard_getchar _ _) as [[[c irqs] kb]|]; [|done]. intros [= _ <-]. by apply isolated_same.
  - by apply do_read_isolated.
  - intros [[_ ->]|(n & _ & _ & Hr)]%with_string_return; [by apply isolated_same..| |done].
    cbn zeta in Hr. destruct (check_ptr _ _ _ _); cbn [negb] in Hr.
    + destruct (fat16_write_file _ _ _ _ _). injection Hr as _ <-. by apply isolated_same.
    + injection Hr as _ <-. by apply isolated_same.
  - intros [[_ ->]|(n & _ & _ & [= _ <-])]%with_string_return; [by apply isolated_same..|done].
Qed.

(** ** What is drawn *)

(** sys_set_cursor is called with a cell of the screen; the kernel does not
    test it ([Vga.set_cursor_unbounded]). *)
Definition on_grid k (num arg1 arg2 : Z) : Prop :=
  num = 3 → ∀ f, Vga.fb (screen k) = Some f → Vga.cell_ok f arg1 arg2.

(** A step whose call, if it sets the cursor, keeps it on the screen. *)
Inductive gstep k : kernel → Prop :=
  | gstep_store p bytes :
      0 ≤ p →
      (∀ x, p ≤ x < p + Z.of_nat (length bytes) →
         x < USER_LIMIT ∧ user_access (pages k) (cr3 k) x true) →
      gstep k (with_pages k (user_store (pages k) (cr3 k) p bytes))
  | gstep_call num arg1 arg2 arg3 r k' :
      0 ≤ arg1 < 2 ^ 64 → 0 ≤ arg2 < 2 ^ 64 → on_grid k num arg1 arg2 →
      syscall_handler_c after_font v k num arg1 arg2 arg3 = Return r k' →
      gstep k k'.

Lemma gstep_pstep k k' : gstep k k' → pstep k k'.
Proof.
  intros [p bytes Hp Ha|num x1 x2 x3 r k2 Hx1 Hx2 _ Hr]; [by apply step_store|].
  exact (step_call k num x1 x2 x3 r k2 Hx1 Hx2 Hr).
Qed.

Lemma gsteps_psteps k k' : rtc gstep k k' → rtc pstep k k'.
Proof. apply (rtc_subrel gstep pstep), gstep_pstep. Qed.

Lemma do_read_draws k arg1 arg2 r k' :
  Vga.vga_ok (screen k) → 0 ≤ arg1 < 2 ^ 64 → do_read after_font v k arg1 arg2 = Return r k' →
  Vga.draws_inside (screen k) (screen k').
Proof.
  intros Hv H1' Hr. unfold do_read in Hr.
  apply with_string_return in Hr as [[_ ->]|(n & _ & _ & Hr)]; [by apply Vga.draws_inside_refl| |done].
  set (name := user_bytes _ _ _ _) in Hr.
  destruct (_ =? 0); [injection Hr as _ <-; by apply Vga.draws_inside_refl|].
  destruct (check_ptr _ _ _ _); cbn [negb] in Hr.
  - destruct (fat16_read_file _ _ _). injection Hr as _ <-. by apply Vga.draws_inside_refl.
  - injection Hr as _ <-. cbn [screen print print_hex with_screen].
    apply Vga.then_print, Vga.then_print_hex, Vga.then_print, Vga.then_print_hex, Vga.then_print.
    by apply Vga.draws_inside_refl.
Qed.

(** Every call draws inside the frame buffer, a cursor off the screen apart:
    that draws nothing yet, but the next character may be anywhere. *)
Lemma handler_draws k num arg1 arg2 arg3 r k' :
  Vga.vga_ok (screen k) → 0 ≤ arg1 < 2 ^ 64 → 0 ≤ arg2 < 2 ^ 64 →
  syscall_handler_c after_font v k num arg1 arg2 arg3 = Return r k' →
  Vga.fb (screen k') = Vga.fb (screen k) ∧
  (∀ i, ¬ Vga.frame_word (screen k) i → Vga.pixels (screen k') !! i = Vga.pixels (screen k) !! i) ∧
  (on_grid k num arg1 arg2 → Vga.draws_inside (screen k) (screen k')).
Proof.
  intros Hv H1' H2' Hr.
  enough (num = 3 ∧ k' = with_screen k (Vga.vga_set_cursor (screen k) arg1 arg2) ∨
    Vga.draws_inside (screen k) (screen k')) as [[Hn ->]|[? ? ?]].
  { split; [done|]. split; [done|]. intros Hg. by apply Vga.set_cursor_inside; [|apply Hg]. }
  { by split_and!. }
  unfold syscall_handler_c in Hr.
  destruct (Z.eqb_spec num 3) as [Hn|Hn].
  { subst num. injection Hr as _ <-. by left. }
  right. revert Hr. unfold do_exit.
  repeat (destruct (num =? _); [try (intros [= _ <-])|]).
  all: try by apply Vga.draws_inside_refl.
  - intros [[_ ->]|(n & _ & _ & [= _ <-])]%with_string_return;
      [by apply Vga.draws_inside_refl|by apply Vga.print_inside|done].
  - by apply Vga.clear_inside.
  - by apply Vga.putchar_inside.
  - by apply Vga.set_color_inside.
  - destruct (keyboard_getchar _ _) as [[[c irqs] kb]|]; [|done].
    intros [= _ <-]. by apply Vga.draws_inside_refl.
  - by apply do_read_draws.
  - intros [[_ ->]|(n & _ & _ & Hr)]%with_string_return; [by apply Vga.draws_inside_refl| |done].
    cbn zeta in Hr. destruct (check_ptr _ _ _ _); cbn [negb] in Hr.
    + destruct (fat16_write_file _ _ _ _ _). injection Hr as _ <-. by apply Vga.draws_inside_refl.
    + injection Hr as _ <-. by apply Vga.draws_inside_refl.
  - intros [[_ ->]|(n & _ & _ & [= _ <-])]%with_string_return; [by apply Vga.draws_inside_refl..|done].
  - intros [= _ <-]. by apply Vga.draws_inside_refl.
Qed.

(** A run of such steps draws inside the frame buffer. *)
Lemma gsteps_draw k k' :
  Vga.vga_ok (screen k) → rtc gstep k k' → Vga.draws_inside (screen k) (screen k').
Proof.
  intros Hv Hs. apply (@rtc_ind_r _ gstep (λ k', Vga.draws_inside (screen k) (screen k')) k);
    [by apply Vga.draws_inside_refl| |done].
  intros k1 k2 _ Hst Hd. apply (Vga.draws_inside_trans _ _ _ Hd). pose proof (Vga.di_ok _ _ Hd) as Hv1.
  destruct Hst as [|num x1 x2 x3 r k2 Hx1 Hx2 Hg Hcall]; [by apply Vga.draws_inside_refl|].
  by apply (handler_draws k1 num x1 x2 x3 r k2 Hv1 Hx1 Hx2 Hcall).
Qed.

(** C10. A system call that returns, made with the cursor on the screen: it
    leaves the page map, the translations and the set of free frames as they
    were, changes no byte of memory that the process itself may not write, and
    draws on no word outside the frame buffer. The cursor is on the screen
    afterwards too, unless the call is sys_set_cursor with a cell that is not
    ([Vga.set_cursor_unbounded] is what the next character does then). *)
Theorem syscall_isolated k num arg1 arg2 arg3 r k' :
  0 ≤ arg1 < 2 ^ 64 → 0 ≤ arg2 < 2 ^ 64 → space (pages k) (cr3 k) → Vga.vga_ok (screen k) →
  syscall_handler_c after_font v k num arg1 arg2 arg3 = Return r k' →
  isolated k k' ∧ Vga.fb (screen k') = Vga.fb (screen k) ∧
  (∀ i, ¬ Vga.frame_word (screen k) i → Vga.pixels (screen k') !! i = Vga.pixels (screen k) !! i) ∧
  (on_grid k num arg1 arg2 → Vga.vga_ok (screen k')).
Proof.
  intros H1' H2' Sp Hv Hr. split; [by apply (handler_isolated k num arg1 arg2 arg3 r)|].
  destruct (handler_draws k num arg1 arg2 arg3 r k' Hv H1' H2' Hr) as (Hf & Ho & Hd).
  split; [done|]. split; [done|]. intros Hg. by apply Hd.
Qed.

(** The frames of [s] are as they were and the page map holds none of them. *)
Definition out_of_reach (s a : St) (map : Z) : Prop :=
  preserves s a ∧ ∀ u, holds a map u → ¬ table_frame s u.

(** A frame that is none of the pages of the process is not written. *)
Lemma isolated_kept k k' u :
  space (pages k) (cr3 k) → isolated k k' → table_frame (pages k) u →
  (∀ w e, user w → lookup_page (pages k) (cr3 k) w = Some e → page_base e ≠ u) →
  kept (pages k) (pages k') u.
Proof.
  intros Sp Hi Hf Hu j Hj. pose proof (ss_layout _ _ _ (is_space _ _ Hi)) as Hl. unfold ent.
  rewrite (table_layout (pages k) (pages k') u Hl). apply rd64_ext. intros x Hx. apply (is_memory _ _ Hi).
  intros w e Hw _ He ->. destruct (sp_page _ _ Sp w e Hw He) as [Hf' _].
  unfold user_address in Hx. rewrite !(table_small (pages k)) in Hx by (done || apply Sp).
  pose proof (offset_range w).
  destruct (table_frame_apart _ _ _ Hf Hf') as [->|?]; [|lia]. by apply (Hu w e).
Qed.

Lemma isolated_reach s k k' :
  space (pages k) (cr3 k) → isolated k k' → out_of_reach s (pages k) (cr3 k) →
  out_of_reach s (pages k') (cr3 k').
Proof.
  intros Sp Hi [Hp Hh]. pose proof (is_space _ _ Hi) as Hs. rewrite (is_cr3 _ _ Hi). split.
  2: { intros u Hu. by apply Hh, (ss_holds _ _ _ Hs). }
  split; [etransitivity; [apply Hp|apply Hs]|..].
  - intros u Hu. apply (table_frame_mono (pages k)); [apply Hs|by rewrite (ss_free _ _ _ Hs)|].
    by apply (pv_frame _ _ Hp).
  - intros u Hu. apply (kept_trans s (pages k)); [by apply (pv_kept _ _ Hp)|].
    apply isolated_kept; [done..|by apply (pv_frame _ _ Hp)|].
    intros w e Hw He <-. apply (Hh (page_base e)); [|done]. right. right. by exists w, e.
Qed.

Lemma space_root a map : space a map → table_frame a map ∧ is_table a map map.
Proof.
  intros Sp. assert (upath []) as Hnil by (split; [cbn; lia|by split]).
  split; [by apply (pm_frames _ _ (sp_tree _ _ Sp) [])|by exists []].
Qed.

(** What the steps keep. *)
Record running (a0 : St) k0 k : Prop := {
  rn_cr3 : cr3 k = cr3 k0;
  rn_kernel : kernel_pml4 k = kernel_pml4 k0;
  rn_space : same_space (pages k0) (pages k) (cr3 k0);
  rn_owned : owned a0 (pages k) (cr3 k0);
  rn_reach s : out_of_reach s (pages k0) (cr3 k0) → out_of_reach s (pages k) (cr3 k0);
  rn_root : kept (pages k0) (pages k) (cr3 k0);
}.

Lemma steps_running a0 k0 k :
  space (pages k0) (cr3 k0) → owned a0 (pages k0) (cr3 k0) → rtc pstep k0 k → running a0 k0 k.
Proof.
  intros Sp Ho Hs. apply (@rtc_ind_r _ pstep (λ k, running a0 k0 k) k0); [|intros k1 k2 _ Hst Hr|done].
  { split; [done|done|by apply same_space_refl|done|done|by intros j _]. }
  assert (space (pages k1) (cr3 k1)) as Sp1.
  { rewrite (rn_cr3 _ _ _ Hr). apply (ss_space _ _ _ (rn_space _ _ _ Hr)). }
  assert (isolated k1 k2) as Hi.
  { destruct Hst as [|num x1 x2 x3 r k2 Hx1 Hx2 Hcall]; [apply isolated_store; assumption|].
    exact (handler_isolated _ _ _ _ _ _ _ Hx1 Hx2 Sp1 Hcall). }
  destruct Hr as [Hc Hk Hsp Ho1 Hre Hroot]. pose proof (λ s, isolated_reach s k1 k2 Sp1 Hi) as Hreach.
  assert (kept (pages k1) (pages k2) (cr3 k1)) as Hroot'.
  { destruct (space_root _ _ Sp1) as [Hf Ht]. apply isolated_kept; [done..|].
    intros w e Hw He Hb. destruct (sp_page _ _ Sp1 w e Hw He) as [_ Hn]. by rewrite Hb in Hn. }
  rewrite Hc in Hroot'.
  destruct Hi as [Hc' Hk' Hsp' _]. rewrite Hc in Hsp', Hreach.
  split; [congruence|congruence|by eapply same_space_trans|..].
  - intros i. rewrite (Ho1 i), (ss_free _ _ _ Hsp'), (ss_holds _ _ _ Hsp'). done.
  - intros s Hs0. rewrite <- Hc, <- Hc'. by apply Hreach, Hre.
  - by apply (kept_trans _ (pages k1)).
Qed.

(** The state that sys_exit leaves. *)
Lemma exit_spec a0 k0 k :
  space (pages k0) (cr3 k0) → owned a0 (pages k0) (cr3 k0) → rtc pstep k0 k →
  ∃ k', do_exit k = Exit k' ∧ alloc_wf (pages k') ∧
    (∀ i, i ∈ free_set (pages k') ↔ i ∈ free_set a0) ∧
    cr3 k' = u64 (kernel_pml4 k0 - hhdm (pages k0)) ∧ kernel_pml4 k' = kernel_pml4 k0 ∧
    ∀ s, out_of_reach s (pages k0) (cr3 k0) → preserves s (pages k').
Proof.
  intros Sp Ho Hs. destruct (steps_running a0 k0 k Sp Ho Hs) as [Hc Hk Hsp Hown Hre _].
  eexists. split; [done|]. cbn [pages cr3 kernel_pml4]. rewrite Hc, Hk.
  pose proof (ss_space _ _ _ Hsp) as Sp1.
  assert (cr3 k0 ≠ 0) as Hm.
  { destruct (space_holds _ _ (cr3 k0) Sp1) as (i & -> & [Hi _] & _); [by left|]. unfold PAGE_SIZE. lia. }
  destruct (vmm_free_pagemap_spec (pages k) (cr3 k0) (sp_wf _ _ Sp1) Hm) as (Hwf & _ & _ & Hfs).
  { intros x Hx. destruct (space_holds _ _ _ Sp1 Hx) as (i & -> & Hu & _). by exists i. }
  split; [done|]. split; [|split; [|split; [done|]]].
  - intros i. rewrite Hfs, (Hown i). done.
  - unfold vmm_restore_kernel_pagemap. do 2 f_equal. apply (ss_layout _ _ _ Hsp).
  - intros s Hr. destruct (Hre s Hr). by apply free_preserves.
Qed.


(** C30. sys_fat16_read_file on a file of the disk: when the buffer may be
    written by the process the file's bytes are in it afterwards and its length
    is returned; otherwise -1 is returned and memory is as before. *)
Theorem sys_read_correct k arg1 arg2 arg3 name content :
  fs_ok v (disk k) → holds_file v (disk k) (format_fat_name name) content →
  0 < Z.of_nat (length content) < 2 ^ 31 → 0 ≤ arg2 < 2 ^ 64 → space (pages k) (cr3 k) →
  check_string k arg1 = true → user_str (pages k) (cr3 k) arg1 = inr name →
  ∃ r k', syscall_handler_c after_font v k 8 arg1 arg2 arg3 = Return r k' ∧
    if check_ptr k arg2 (Z.of_nat (length content)) true
    then r = Z.of_nat (length content) ∧
      ∀ i c, content !! i = Some c → load_byte (pages k') (cr3 k') (arg2 + Z.of_nat i) = u8 c
    else r = FAIL ∧ pages k' = pages k.
Proof.
  intros Hfs Hfile Hlen H2' Sp Hstr Hname. destruct (read_holds v (disk k) name content Hfs Hfile) as [Hr Hs].
  unfold syscall_handler_c. cbn [Z.eqb Pos.eqb]. unfold do_read, with_string. rewrite Hstr, Hname.
  cbn [negb]. cbn zeta. rewrite Hr, Hs.
  destruct (Z.eqb_spec (Z.of_nat (length content)) 0); [lia|].
  destruct (check_ptr k arg2 _ true) eqn:Hc; cbn [negb]; [|by do 2 eexists].
  do 2 eexists. split; [done|]. unfold s32. rewrite signed_small by lia. split; [by rewrite u64_small by lia|].
  unfold check_ptr in Hc.
  apply (proj1 (vmm_check_user_ptr_spec (pages k) (cr3 k) arg2 (Z.of_nat (length content)) true H2' ltac:(lia)))
    in Hc as [?|[Hlim Hacc]]; [lia|].
  cbn [pages cr3 with_pages]. apply store_spec; [done|]. intros w Hw.
  split; [unfold user; lia|]. apply (access_mapped _ _ _ true), Hacc. lia.
Qed.
End Isolation.
