(* ===== verification/SyscallDemo.v ===== *)
(** System calls on a concrete machine: the eight frames of Machine.v, a process
    with the page at 0x400000 that holds the name of a file, and the disk of
    Fat16Demo.v. *)

From S2P Require Import Pmm Machine Block Fat16 Fat16Dir Fat16Proofs Fat16Demo Keyboard SyscallProofs.
From S2P Require Vga.
Open Scope Z_scope.

(** "a.txt" as a 64-bit word. *)
Definition demo_name : Z := 97 + 2 ^ 8 * (46 + 2 ^ 8 * (116 + 2 ^ 8 * (120 + 2 ^ 8 * 116))).

(** Four tables in frames 1 to 4, the page at 0x400000 in frame 5. *)
Definition process : pmm :=
  machine 63 2 [(4096, 8192 + 7); (8192, 12288 + 7); (12288 + 8 * 2, 16384 + 7);
                (16384, 20480 + 7); (20480, demo_name)].

(** Before the page map was made. *)
Definition before : pmm := machine 1 7 [].

Definition demo_kernel : kernel :=
  mk_kernel process 4096 (BASE + 4096) (Vga.mk_vga None 0 0 7 0 ∅ []) kbd_boot [] demo_file.

Lemma process_wf : alloc_wf process.
Proof. apply machine_wf; [eight|done|done]. Qed.

Lemma process_free i : i ∈ free_set process ↔ 6 ≤ i < 8.
Proof.
  unfold process. rewrite machine_free by eight. split.
  - intros [Hi Hb]. assert (i = 0 ∨ i = 1 ∨ i = 2 ∨ i = 3 ∨ i = 4 ∨ i = 5 ∨ 6 ≤ i) as Hc by lia.
    repeat destruct Hc as [->|Hc]; try done. lia.
  - intros Hi. assert (i = 6 ∨ i = 7) as [-> | ->] by lia; done.
Qed.

Lemma before_free i : i ∈ free_set before ↔ 1 ≤ i < 8.
Proof.
  unfold before. rewrite machine_free by eight. split.
  - intros [Hi Hb]. destruct (Z.eq_dec i 0) as [->|]; [done|lia].
  - intros Hi. assert (i = 1 ∨ i = 2 ∨ i = 3 ∨ i = 4 ∨ i = 5 ∨ i = 6 ∨ i = 7) as Hc by lia.
    by repeat destruct Hc as [->|Hc]; subst.
Qed.

Lemma process_frame k : 1 ≤ k ≤ 5 → table_frame process (k * 4096).
Proof.
  intros Hk. exists k. split; [done|]. split; [apply machine_usable; lia|]. rewrite process_free. lia.
Qed.

(** The entries of the four tables. *)
Lemma process_ent t i :
  t = 4096 ∨ t = 8192 ∨ t = 12288 ∨ t = 16384 → 0 ≤ i < 512 →
  ent process t i =
  if (t =? 16384) && (i =? 0) then 20487 else if (t =? 12288) && (i =? 2) then 16391
  else if (t =? 8192) && (i =? 0) then 12295 else if (t =? 4096) && (i =? 0) then 8199 else 0.
Proof.
  intros Ht Hi. unfold ent.
  assert (table process t = BASE + t) as -> by (repeat destruct Ht as [->|Ht]; subst; done).
  destruct (decide (i = 0)) as [->|H0]; [repeat destruct Ht as [->|Ht]; subst; reflexivity|].
  destruct (decide (t = 12288 ∧ i = 2)) as [[-> ->]|H2]; [reflexivity|].
  change (ram process) with (wr64 (wr64 (wr64 (wr64 (wr64 ({[ BASE := 63 ]} : mem) (BASE + 4096) 8199)
    (BASE + 8192) 12295) (BASE + 12304) 16391) (BASE + 16384) 20487) (BASE + 20480) demo_name).
  rewrite !rd64_wr64_ne by lia.
  transitivity 0.
  - apply rd64_zero. intros x Hx. unfold rd8. rewrite (lookup_singleton_ne BASE) by lia. done.
  - repeat destruct Ht as [->|Ht]; subst; cbn; bcase; cbn; lia.
Qed.

Lemma process_sub t i u :
  t = 4096 ∨ t = 8192 ∨ t = 12288 ∨ t = 16384 → 0 ≤ i < 512 → sub process t i = Some u →
  t = 4096 ∧ i = 0 ∧ u = 8192 ∨ t = 8192 ∧ i = 0 ∧ u = 12288 ∨ t = 12288 ∧ i = 2 ∧ u = 16384 ∨
  t = 16384 ∧ i = 0 ∧ u = 20480.
Proof.
  intros Ht Hi. unfold sub. rewrite process_ent by done. intros Hs.
  destruct (Z.eqb_spec i 0) as [->|]; [|destruct (Z.eqb_spec i 2) as [->|]];
    repeat destruct Ht as [->|Ht]; subst; vm_compute in Hs; try discriminate Hs;
    injection Hs as <-; tauto.
Qed.

Lemma process_descend p u :
  upath p → descend (sub process) 4096 p = Some u →
  p = [] ∧ u = 4096 ∨ p = [0] ∧ u = 8192 ∨ p = [0; 0] ∧ u = 12288 ∨ p = [0; 0; 2] ∧ u = 16384.
Proof.
  revert u. induction p as [|i p IH] using rev_ind; intros u Hp Hd.
  - injection Hd as <-. by left.
  - destruct (upath_snoc _ _ Hp) as (Hp0 & Hl & Hi). rewrite descend_snoc in Hd.
    destruct (descend (sub process) 4096 p) as [t|]; [|done].
    destruct (IH t Hp0 eq_refl) as [[-> ->]|[[-> ->]|[[-> ->]|[-> ->]]]]; [..|cbn in Hl; lia];
      apply process_sub in Hd as [(Ht & -> & ->)|[(Ht & -> & ->)|[(Ht & -> & ->)|(Ht & -> & ->)]]];
      try lia; cbn; tauto.
Qed.

Lemma process_tree : pagemap_wf process 4096.
Proof.
  split.
  - intros p t Hp Hd. destruct (process_descend p t Hp Hd) as [[_ ->]|[[_ ->]|[[_ ->]|[_ ->]]]];
      [apply (process_frame 1)|apply (process_frame 2)|apply (process_frame 3)|apply (process_frame 4)]; lia.
  - intros p q t Hp Hq Hd1 Hd2. apply process_descend in Hd1, Hd2; [|done..].
    repeat destruct Hd1 as [[-> ->]|Hd1]; repeat destruct Hd2 as [[-> ?]|Hd2];
      try destruct Hd1 as [-> ->]; try destruct Hd2 as [-> ?]; done || lia.
Qed.

Lemma process_lookup w e :
  user w → lookup_page process 4096 w = Some e → vpath w = [0; 0; 2] ∧ pt_idx w = 0 ∧ e = 20487.
Proof.
  intros Hw. unfold lookup_page.
  destruct (descend (sub process) 4096 (vpath w)) as [t|] eqn:Hd; [|done].
  destruct (process_descend _ _ (upath_vpath w Hw) Hd) as [[? _]|[[? _]|[[? _]|[Hv ->]]]]; [done..|].
  rewrite process_ent by (auto || apply (proj2 (proj2 (proj2 (idx_range w))))).
  destruct (Z.eqb_spec (pt_idx w) 0) as [Hi|]; [|vm_compute; discriminate].
  intros Hs. vm_compute in Hs. injection Hs as <-. done.
Qed.

Lemma process_open : open_tables process 4096.
Proof.
  intros p t i Hp Hd. destruct (upath_snoc _ _ Hp) as (Hp0 & Hl & Hi).
  destruct (process_descend p t Hp0 Hd) as [[-> ->]|[[-> ->]|[[-> ->]|[-> ->]]]]; [..|cbn in Hl; lia];
    rewrite process_ent by auto; cbn; by bcase.
Qed.

Lemma process_space : space process 4096.
Proof.
  split; [exact process_wf|exact process_tree| | |exact process_open|].
  3: { intros w e Hw He. by destruct (process_lookup w e Hw He) as (_ & _ & ->). }
  - intros w e Hw He. destruct (process_lookup w e Hw He) as (_ & _ & ->).
    split; [apply (process_frame 5); lia|]. intros (p & Hp & Hd).
    change (page_base 20487) with 20480 in Hd.
    destruct (process_descend p _ Hp Hd) as [[_ ?]|[[_ ?]|[[_ ?]|[_ ?]]]]; lia.
  - intros w w' e e' Hw Hw' He He' _.
    destruct (process_lookup w e Hw He) as ([= E4 E3 E2] & E1 & _).
    destruct (process_lookup w' e' Hw' He') as ([= F4 F3 F2] & F1 & _).
    apply idx_inj; congruence || done.
Qed.

Lemma process_holds i : holds process 4096 (i * PAGE_SIZE) ↔ 1 ≤ i ≤ 5.
Proof.
  unfold PAGE_SIZE. split.
  - intros [?|[(p & Hp & Hd)|(w & e & Hw & He & Hx)]]; [lia| |].
    + destruct (process_descend p _ Hp Hd) as [[_ ?]|[[_ ?]|[[_ ?]|[_ ?]]]]; lia.
    + destruct (process_lookup w e Hw He) as (_ & _ & ->). change (page_base 20487) with 20480 in Hx. lia.
  - intros Hi. assert (i = 1 ∨ i = 2 ∨ i = 3 ∨ i = 4 ∨ i = 5) as Hc by lia.
    destruct Hc as [->|[->|[->|[->| ->]]]]; [by left| | | |].
    1-3: right; left.
    + exists [0]. split; [|reflexivity]. split; [cbn; lia|]. split; [repeat constructor; lia|lia].
    + exists [0; 0]. split; [|reflexivity]. split; [cbn; lia|]. split; [repeat constructor; lia|lia].
    + exists [0; 0; 2]. split; [|reflexivity]. split; [cbn; lia|]. split; [repeat constructor; lia|lia].
    + right. right. exists 4194304, 20487. split; [unfold USER_LIMIT; lia|]. split; reflexivity.
Qed.

Lemma process_owned : owned before process 4096.
Proof. intros i. rewrite before_free, process_free, process_holds. lia. Qed.

Lemma process_writable x : 4194304 ≤ x < 4194304 + 4096 → user_access process 4096 x true.
Proof.
  intros Hx. apply (user_access_page _ _ x 4194304).
  - rewrite !page_base_spec. Z.div_mod_to_equations. lia.
  - apply page_ok_spec. reflexivity.
Qed.

Lemma demo_holds : holds_file demo_vol demo_file (format_fat_name (str "a.txt")) (str "hi").
Proof.
  exists 0, [2; 3]. split; [unfold is_entry, entries; cbn; lia|]. split; [vm_compute; reflexivity|].
  split; [exact demo_chain|]. split; vm_compute; reflexivity.
Qed.

(** The program puts a character in the last cell of a small screen. *)
Definition screen_kernel : kernel := with_screen demo_kernel Vga.demo_vga.

Lemma syscall_isolated_witness :
  ∃ k', syscall_handler_c (λ _, 0) demo_vol screen_kernel 4 65 0 0 = Return 0 k' ∧
    isolated screen_kernel k' ∧ Vga.vga_ok (screen k') ∧
    Vga.pixels (screen k') !! 1023 = Some 0 ∧ Vga.pixels (screen k') !! 1024 = None.
Proof.
  eexists. split; [reflexivity|].
  destruct (syscall_isolated (λ _, 0) demo_vol screen_kernel 4 65 0 0 0 _ ltac:(lia) ltac:(lia)
    process_space Vga.demo_vga_ok eq_refl) as (Hi & _ & Ho & Hg).
  split; [exact Hi|]. split; [apply Hg; discriminate|]. split; [vm_compute; reflexivity|].
  etransitivity; [apply Ho|reflexivity]. intros (f & Hf & Hs). injection Hf as <-.
  destruct Hs as [_ Hs]. vm_compute in Hs. discriminate.
Defined.


(** The file of the disk is read into the program's page. *)
Lemma sys_read_correct_witness :
  ∃ r k', syscall_handler_c (λ _, 0) demo_vol demo_kernel 8 4194304 4194404 0 = Return r k' ∧
    r = 2 ∧ load_byte (pages k') (cr3 k') 4194404 = 104.
Proof.
  destruct (sys_read_correct (λ _, 0) demo_vol demo_kernel 4194304 4194404 0 (str "a.txt") (str "hi"))
    as (r & k' & Hr & Hres).
  - exact demo_file_ok.
  - exact demo_holds.
  - cbn. lia.
  - lia.
  - exact process_space.
  - reflexivity.
  - reflexivity.
  - exists r, k'. split; [exact Hr|].
    assert (check_ptr demo_kernel 4194404 (Z.of_nat (length (str "hi"))) true = true) as Hc by reflexivity.
    rewrite Hc in Hres. destruct Hres as [-> Hb]. split; [reflexivity|].
    apply (Hb 0%nat 104). reflexivity.
Defined.
