(* ===== verification/Cpu.v ===== *)
(** The processor's tables and registers: segments and the task state
    (src/hal/gdt.c), interrupt gates and the exception handler (src/hal/idt.c),
    the system-call registers (src/kernel/syscall.c), the FPU (src/kernel/main.c)
    and the interrupt controller (src/hal/pic.c).

    The packed structures are records of their fields; [gdt_word], [idt_low] and
    [idt_high] are the words they make in memory, and the [seg_...] and
    [gate_...] functions read them as the processor's manual defines. What
    [syscall] and [sysret] load into CS and SS is stated the same way. *)

From S2P Require Import Io.
From S2P Require Vga.
Open Scope Z_scope.

(** ** Segments *)

Record gdt_entry := mk_gdt_entry {
  limit_low : Z; base_low : Z; base_middle : Z; access : Z; granularity : Z; base_high : Z;
}.

Definition gdt_null : gdt_entry := mk_gdt_entry 0 0 0 0 0 0.

(** The fields of [struct tss_entry] that are not always zero. *)
Record tss_entry := mk_tss { rsp0 : Z; iopb_offset : Z }.

Definition SIZEOF_TSS : Z := 104.
Definition SIZEOF_GDT_ENTRY : Z := 8.

(** The static variables of gdt.c. *)
Record gdt_state := mk_gdt {
  gdt : list gdt_entry;
  gp_limit : Z;
  gp_base : Z;
  tss : tss_entry;
}.

Definition gdt_boot : gdt_state := mk_gdt (repeat gdt_null 7) 0 0 (mk_tss 0 0).

Definition gdt_gate (base limit acc gran : Z) : gdt_entry :=
  mk_gdt_entry (limit .& 0xFFFF) (base .& 0xFFFF) ((base >> 16) .& 0xFF) acc
    (((limit >> 16) .& 0x0F) .| (gran .& 0xF0)) ((base >> 24) .& 0xFF).

Definition gdt_set_gate (g : list gdt_entry) (num : nat) (base limit acc gran : Z) : list gdt_entry :=
  <[num := gdt_gate base limit acc gran]> g.

(** [gdt_addr] and [tss_base] are the addresses of [gdt] and [tss]. *)
Definition gdt_init (s : gdt_state) (gdt_addr tss_base : Z) : gdt_state :=
  let g := gdt s in
  let g := gdt_set_gate g 0 0 0 0 0 in
  let g := gdt_set_gate g 1 0 0xFFFFF 0x9A 0xAF in
  let g := gdt_set_gate g 2 0 0xFFFFF 0x92 0xAF in
  let g := gdt_set_gate g 3 0 0xFFFFF 0xF2 0xAF in
  let g := gdt_set_gate g 4 0 0xFFFFF 0xFA 0xAF in
  let g := gdt_set_gate g 5 tss_base (SIZEOF_TSS - 1) 0x89 0x00 in
  let g := <[6%nat := mk_gdt_entry ((tss_base >> 32) .& 0xFFFF) ((tss_base >> 48) .& 0xFFFF) 0 0 0 0]> g in
  mk_gdt g (SIZEOF_GDT_ENTRY * 7 - 1) gdt_addr (mk_tss 0 SIZEOF_TSS).

Definition tss_set_kernel_stack (s : gdt_state) (stack : Z) : gdt_state :=
  mk_gdt (gdt s) (gp_limit s) (gp_base s) (mk_tss stack (iopb_offset (tss s))).

(** ** Interrupt gates *)

Record idt_entry := mk_idt_entry {
  isr_low : Z; kernel_cs : Z; ist : Z; attributes : Z; isr_mid : Z; isr_high : Z; reserved : Z;
}.

Record idt_state := mk_idt { idt : list idt_entry; idt_limit : Z; idt_base : Z }.

Definition idt_boot : idt_state := mk_idt (repeat (mk_idt_entry 0 0 0 0 0 0 0) 256) 0 0.

Definition idt_set_descriptor (t : list idt_entry) (vector isr flags : Z) : list idt_entry :=
  <[Z.to_nat vector :=
      mk_idt_entry (isr .& 0xFFFF) 0x08 0 flags ((isr >> 16) .& 0xFFFF) ((isr >> 32) .& 0xFFFFFFFF) 0]> t.

(** [isrs]: the addresses of [isr0] to [isr31]. *)
Definition idt_set_exception_gates (t : list idt_entry) (isrs : Z → Z) : list idt_entry :=
  for_each 32 0 (λ i t, idt_set_descriptor t i (isrs i) 0x8E) t.

Definition idt_init (s : idt_state) (idt_addr : Z) (isrs : Z → Z) (isr_keyboard : Z) : idt_state :=
  let t := for_each 256 0 (λ vector t, idt_set_descriptor t vector (isrs 0) 0x8E) (idt s) in
  let t := idt_set_exception_gates t isrs in
  mk_idt (idt_set_descriptor t 33 isr_keyboard 0x8E) (u16 (16 * 256 - 1)) idt_addr.

(** *** Exceptions *)

(** The fields of [struct registers] that the handler reads. *)
Record registers := mk_registers { int_no : Z; rip : Z; cs : Z }.

(** The handler comes back to the interrupted code, leaves the process and
    returns to the kernel, or stops the machine. *)
Inductive handled := Resumed (v : Vga.vga) | Aborted (v : Vga.vga) | Halted (v : Vga.vga).

Definition exception_handler (after_font : Z → Z) (v : Vga.vga) (r : registers) (cr2 : Z) : handled :=
  let print v s := Vga.vga_print after_font v s in
  let print_hex v n := Vga.vga_print_hex after_font v n in
  if int_no r =? 33 then Resumed v
  else if cs r .& 3 =? 3 then
    let v := print v (10 :: str "[!] Falha de Seguranca: Processo Ring 3 abortado (Excecao ") in
    let v := print_hex v (int_no r) in
    let v := print v (str ") no RIP: ") in
    let v := print_hex v (rip r) in
    let v := print v (str " - CR2: 0x") in
    let v := print_hex v cr2 in
    Aborted (print v [10])
  else
    let v := print v (10 :: str "KERNEL PANIC: Excecao nao tratada no Ring 0 (Vetor ") in
    let v := print_hex v (int_no r) in
    let v := print v (str ") RIP=") in
    let v := print_hex v (rip r) in
    Halted (print v (10 :: str "Sistema travado." ++ [10])).

(** ** Model-specific registers *)

Definition MSR_EFER : Z := 0xC0000080.
Definition MSR_STAR : Z := 0xC0000081.
Definition MSR_LSTAR : Z := 0xC0000082.
Definition MSR_FMASK : Z := 0xC0000084.

Abbreviation msrs := (gmap Z Z).

(** [edx:eax] goes to the register, and comes from it. *)
Definition wrmsr (m : msrs) (msr val : Z) : msrs :=
  let low := u32 (val .& 0xFFFFFFFF) in
  let high := u32 (val >> 32) in
  <[msr := (high << 32) .| low]> m.

Definition rdmsr (m : msrs) (msr : Z) : Z :=
  let v := default 0 (m !! msr) in
  let low := u32 v in
  let high := u32 (v >> 32) in
  (high << 32) .| low.

Definition syscall_init (m : msrs) (syscall_entry : Z) : msrs :=
  let efer := rdmsr m MSR_EFER in
  let efer := efer .| 1 in
  let m := wrmsr m MSR_EFER efer in
  let star := (0x10 << 48) .| (0x08 << 32) in
  let m := wrmsr m MSR_STAR star in
  let m := wrmsr m MSR_LSTAR syscall_entry in
  wrmsr m MSR_FMASK 0x200.

(** [fpu_init]: CR0 and CR4. *)
Definition fpu_init (cr0 cr4 : Z) : Z * Z :=
  ((cr0 .& ~~ (1 << 2)) .| (1 << 1), cr4 .| (1 << 9) .| (1 << 10)).

(** ** The interrupt controller *)

Definition pic_remap {D} `{Ports D} (d : D) : D :=
  let d := outb d 0x20 0x11 in
  let d := outb d 0xA0 0x11 in
  let d := outb d 0x21 0x20 in
  let d := outb d 0xA1 0x28 in
  let d := outb d 0x21 4 in
  let d := outb d 0xA1 2 in
  let d := outb d 0x21 0x01 in
  let d := outb d 0xA1 0x01 in
  let d := outb d 0x21 0xFD in
  outb d 0xA1 0xFF.

(** ** How the processor reads the tables *)

Definition gdt_word (e : gdt_entry) : Z :=
  limit_low e + 2 ^ 16 * base_low e + 2 ^ 32 * base_middle e + 2 ^ 40 * access e +
  2 ^ 48 * granularity e + 2 ^ 56 * base_high e.

Definition seg_base (w : Z) : Z := w / 2 ^ 16 mod 2 ^ 24 + 2 ^ 24 * (w / 2 ^ 56 mod 2 ^ 8).
Definition seg_limit (w : Z) : Z := w mod 2 ^ 16 + 2 ^ 16 * (w / 2 ^ 48 mod 2 ^ 4).
Definition seg_access (w : Z) : Z := w / 2 ^ 40 mod 2 ^ 8.
Definition seg_flags (w : Z) : Z := w / 2 ^ 52 mod 2 ^ 4.

(** Present, with privilege level [dpl]; the four type bits. *)
Definition seg_present (w : Z) : bool := Z.testbit (seg_access w) 7.
Definition seg_dpl (w : Z) : Z := seg_access w / 2 ^ 5 mod 4.
Definition seg_type (w : Z) : Z := seg_access w mod 16.
Definition code_or_data (w : Z) : bool := Z.testbit (seg_access w) 4.

(** A flat 64-bit code segment (type: execute, read; flags: 4 KiB, long), and a
    flat writable data segment. *)
Definition flat (w : Z) : Prop := seg_base w = 0 ∧ seg_limit w = 0xFFFFF ∧ seg_present w = true.
Definition code64 (dpl w : Z) : Prop :=
  flat w ∧ code_or_data w = true ∧ seg_type w = 10 ∧ seg_flags w = 10 ∧ seg_dpl w = dpl.
Definition data_rw (dpl w : Z) : Prop :=
  flat w ∧ code_or_data w = true ∧ seg_type w = 2 ∧ seg_dpl w = dpl.

(** The descriptor a selector names. *)
Definition descriptor (s : gdt_state) (selector : Z) : Z :=
  gdt_word (nth (Z.to_nat (selector / 8)) (gdt s) gdt_null).
(** The address in the 16-byte descriptor of the task state. *)
Definition tss_address (s : gdt_state) (selector : Z) : Z :=
  seg_base (descriptor s selector) + 2 ^ 32 * (descriptor s (selector + 8) mod 2 ^ 32).

(** What [syscall] and a 64-bit [sysret] load, from MSR_STAR. *)
Definition syscall_cs (m : msrs) : Z := rdmsr m MSR_STAR / 2 ^ 32 mod 2 ^ 16.
Definition syscall_ss (m : msrs) : Z := syscall_cs m + 8.
Definition sysret_cs (m : msrs) : Z := (rdmsr m MSR_STAR / 2 ^ 48 + 16) .| 3.
Definition sysret_ss (m : msrs) : Z := (rdmsr m MSR_STAR / 2 ^ 48 + 8) .| 3.

(** An interrupt gate: where it leads, through which code segment, its type and
    the privilege [int] needs. *)
Definition idt_low (e : idt_entry) : Z :=
  isr_low e + 2 ^ 16 * kernel_cs e + 2 ^ 32 * ist e + 2 ^ 40 * attributes e + 2 ^ 48 * isr_mid e.
Definition idt_high (e : idt_entry) : Z := isr_high e + 2 ^ 32 * reserved e.

Definition gate_offset (e : idt_entry) : Z :=
  idt_low e mod 2 ^ 16 + 2 ^ 16 * (idt_low e / 2 ^ 48) + 2 ^ 32 * (idt_high e mod 2 ^ 32).
Definition gate_selector (e : idt_entry) : Z := idt_low e / 2 ^ 16 mod 2 ^ 16.
Definition gate_access (e : idt_entry) : Z := idt_low e / 2 ^ 40 mod 2 ^ 8.

(** Present, 64-bit interrupt gate, for the kernel only. *)
Definition kernel_gate (e : idt_entry) (target : Z) : Prop :=
  gate_offset e = target ∧ gate_selector e = 0x08 ∧ gate_access e = 0x8E.

Definition gate (s : idt_state) (vector : Z) : idt_entry :=
  nth (Z.to_nat vector) (idt s) (mk_idt_entry 0 0 0 0 0 0 0).

(** The interrupt controllers, from their data sheet: a write to the command
    port with bit 4 set starts the initialisation and clears the mask; the next
    three data writes are the vector base, the cascade and the mode, later ones
    the mask. *)
Record chip := mk_chip { icw : Z; vector_base : Z; cascade : Z; mode : Z; mask : Z }.

Definition chip_command (c : chip) (v : Z) : chip :=
  if Z.testbit v 4 then mk_chip 2 (vector_base c) (cascade c) (mode c) 0 else c.
Definition chip_data (c : chip) (v : Z) : chip :=
  if icw c =? 2 then mk_chip 3 (v .& 0xF8) (cascade c) (mode c) (mask c)
  else if icw c =? 3 then mk_chip 4 (vector_base c) v (mode c) (mask c)
  else if icw c =? 4 then mk_chip 0 (vector_base c) (cascade c) v (mask c)
  else mk_chip (icw c) (vector_base c) (cascade c) (mode c) v.

Class PicLaws (D : Type) `{Ports D} (master slave : D → chip) := {
  master_write d port v :
    master (outb d port v) =
    if port =? 0x20 then chip_command (master d) v
    else if port =? 0x21 then chip_data (master d) v else master d;
  slave_write d port v :
    slave (outb d port v) =
    if port =? 0xA0 then chip_command (slave d) v
    else if port =? 0xA1 then chip_data (slave d) v else slave d;
}.

(** ** Proofs *)

Lemma land_low x n : 0 ≤ n → x .& (2 ^ n - 1) = x mod 2 ^ n.
Proof.
  intros Hn. rewrite <- (Z.land_ones x n) by done. f_equal.
  rewrite Z.ones_equiv. lia.
Qed.

Lemma high_nibble x : 0 ≤ x < 256 → x .& 0xF0 = 16 * (x / 16).
Proof.
  intros Hx. apply Z.eqb_eq.
  apply (forall_range (λ x, x .& 0xF0 =? 16 * (x / 16)) 0 256); [by vm_compute|lia].
Qed.

(** The fields of a gate, as numbers. *)
Lemma gdt_gate_fields base limit acc gran :
  0 ≤ gran < 256 →
  gdt_gate base limit acc gran =
  mk_gdt_entry (limit mod 2 ^ 16) (base mod 2 ^ 16) (base / 2 ^ 16 mod 2 ^ 8) acc
    (limit / 2 ^ 16 mod 2 ^ 4 + 16 * (gran / 16)) (base / 2 ^ 24 mod 2 ^ 8).
Proof.
  intros Hg. unfold gdt_gate. change 0xFFFF with (2 ^ 16 - 1). change 0xFF with (2 ^ 8 - 1).
  change 0x0F with (2 ^ 4 - 1). rewrite !Z.shiftr_div_pow2, !land_low, high_nibble by lia.
  f_equal. rewrite Z.lor_comm. rewrite (lor_aligned _ _ 4); [lia|lia|dlia|dlia].
Qed.

(** Reading a gate back gives what was put in. *)
Lemma gdt_gate_roundtrip base limit acc gran :
  0 ≤ base < 2 ^ 32 → 0 ≤ limit < 2 ^ 20 → 0 ≤ acc < 2 ^ 8 → 0 ≤ gran < 2 ^ 8 →
  let w := gdt_word (gdt_gate base limit acc gran) in
  seg_base w = base ∧ seg_limit w = limit ∧ seg_access w = acc ∧ seg_flags w = gran / 16.
Proof.
  intros Hb Hl Ha Hg w. unfold w. rewrite gdt_gate_fields by lia.
  unfold gdt_word, seg_base, seg_limit, seg_access, seg_flags.
  cbn [limit_low base_low base_middle access granularity base_high].
  assert (limit / 2 ^ 16 mod 2 ^ 4 = limit / 2 ^ 16) as -> by (apply Z.mod_small; dlia).
  assert (base / 2 ^ 24 mod 2 ^ 8 = base / 2 ^ 24) as -> by (apply Z.mod_small; dlia).
  split_and!; dlia.
Qed.

Lemma idt_gate_roundtrip isr flags :
  0 ≤ isr < 2 ^ 64 → 0 ≤ flags < 2 ^ 8 →
  let e := mk_idt_entry (isr .& 0xFFFF) 0x08 0 flags ((isr >> 16) .& 0xFFFF) ((isr >> 32) .& 0xFFFFFFFF) 0 in
  gate_offset e = isr ∧ gate_selector e = 0x08 ∧ gate_access e = flags.
Proof.
  intros Hi Hf e. unfold e. change 0xFFFF with (2 ^ 16 - 1). change 0xFFFFFFFF with (2 ^ 32 - 1).
  rewrite !Z.shiftr_div_pow2, !land_low by lia.
  unfold gate_offset, gate_selector, gate_access, idt_low, idt_high.
  cbn [isr_low kernel_cs ist attributes isr_mid isr_high reserved].
  split_and!; dlia.
Qed.

Lemma rdmsr_wrmsr m r r' x :
  0 ≤ x < 2 ^ 64 → rdmsr (wrmsr m r x) r' = if decide (r = r') then x else rdmsr m r'.
Proof.
  intros Hx. assert (∀ y, 0 ≤ y < 2 ^ 64 → (u32 (y >> 32) << 32) .| u32 y = y) as Hj.
  { intros y Hy. unfold u32. rewrite Z.shiftr_div_pow2, Z.shiftl_mul_pow2 by lia.
    rewrite (lor_aligned _ _ 32); [dlia|lia|dlia|dlia]. }
  unfold wrmsr. change 0xFFFFFFFF with (2 ^ 32 - 1). rewrite land_low by lia.
  assert (u32 (x mod 2 ^ 32) = u32 x) as -> by (unfold u32; by rewrite Z.mod_mod by lia).
  rewrite Hj by done. unfold rdmsr. case_decide; subst.
  - rewrite lookup_insert_eq. by apply Hj.
  - by rewrite lookup_insert_ne.
Qed.

Lemma rdmsr_range m r : 0 ≤ rdmsr m r < 2 ^ 64.
Proof.
  unfold rdmsr, u32. rewrite Z.shiftl_mul_pow2, Z.shiftr_div_pow2 by lia.
  rewrite (lor_aligned _ _ 32); [dlia|lia|dlia|dlia].
Qed.

Lemma efer_range x : 0 ≤ x < 2 ^ 64 → 0 ≤ x .| 1 < 2 ^ 64.
Proof.
  intros Hx. assert (0 ≤ x .| 1) by (apply Z.lor_nonneg; lia). split; [done|].
  apply bits_bound; [lia|done|]. intros k Hk. rewrite Z.lor_spec.
  rewrite (testbit_small x 64), (testbit_small 1 64) by lia. done.
Qed.

(** What [syscall_init] leaves in each register. *)
Lemma syscall_init_spec m entry r :
  0 ≤ entry < 2 ^ 64 →
  rdmsr (syscall_init m entry) r =
  if decide (r = MSR_FMASK) then 0x200 else if decide (r = MSR_LSTAR) then entry
  else if decide (r = MSR_STAR) then 0x10000800000000 else
  if decide (r = MSR_EFER) then rdmsr m MSR_EFER .| 1 else rdmsr m r.
Proof.
  intros He. unfold syscall_init. cbn zeta.
  change ((16 << 48) .| (8 << 32)) with 0x10000800000000.
  rewrite !rdmsr_wrmsr; [|apply efer_range, rdmsr_range|lia|lia|lia].
  repeat (case_decide; subst; try done; try congruence).
Qed.

(** C31. The segment registers that [syscall] and [sysret] load from MSR_STAR
    name descriptors of the right kind in the table [gdt_init] builds: flat
    64-bit code and flat data, of ring 0 on entry and of ring 3 on return. The
    task-state descriptor leads to the TSS, wherever it lies; the entry point
    and the flag mask (interrupts off) are set and EFER changes in one bit. *)
Theorem segments_correct m entry gdt_addr tss_base :
  0 ≤ entry < 2 ^ 64 → 0 ≤ tss_base < 2 ^ 64 →
  let m' := syscall_init m entry in
  let s := gdt_init gdt_boot gdt_addr tss_base in
  code64 0 (descriptor s (syscall_cs m')) ∧ data_rw 0 (descriptor s (syscall_ss m')) ∧
  code64 3 (descriptor s (sysret_cs m')) ∧ data_rw 3 (descriptor s (sysret_ss m')) ∧
  tss_address s 0x28 = tss_base ∧ seg_limit (descriptor s 0x28) = SIZEOF_TSS - 1 ∧
  seg_access (descriptor s 0x28) = 0x89 ∧
  rdmsr m' MSR_LSTAR = entry ∧ Z.testbit (rdmsr m' MSR_FMASK) 9 = true ∧
  rdmsr m' MSR_EFER = rdmsr m MSR_EFER .| 1 ∧
  ∀ stack, rsp0 (tss (tss_set_kernel_stack s stack)) = stack.
Proof.
  intros He Ht m' s.
  assert (rdmsr m' MSR_STAR = 0x10000800000000) as Hstar by (unfold m'; by rewrite syscall_init_spec).
  unfold syscall_cs, syscall_ss, syscall_cs, sysret_cs, sysret_ss. rewrite Hstar.
  unfold m'. rewrite !syscall_init_spec by done.
  assert (descriptor s 0x28 = gdt_word (gdt_gate tss_base 103 0x89 0)) as Hd by done.
  assert (gdt_word (gdt_gate tss_base 103 0x89 0) = gdt_word (gdt_gate (tss_base mod 2 ^ 32) 103 0x89 0)) as Hlow.
  { rewrite !gdt_gate_fields by lia. unfold gdt_word. cbn [limit_low base_low base_middle access granularity base_high].
    dlia. }
  destruct (gdt_gate_roundtrip (tss_base mod 2 ^ 32) 103 0x89 0) as (Hb & Hl & Ha & _); [dlia|lia..|].
  rewrite <- Hlow, <- Hd in Hb, Hl, Ha.
  assert (descriptor s (0x28 + 8) mod 2 ^ 32 = tss_base / 2 ^ 32) as Hhigh.
  { change (descriptor s (0x28 + 8)) with
      (gdt_word (mk_gdt_entry ((tss_base >> 32) .& 0xFFFF) ((tss_base >> 48) .& 0xFFFF) 0 0 0 0)).
    change 0xFFFF with (2 ^ 16 - 1). rewrite !Z.shiftr_div_pow2, !land_low by lia.
    unfold gdt_word. cbn [limit_low base_low base_middle access granularity base_high]. dlia. }
  assert (tss_address s 0x28 = tss_base) as Haddr.
  { unfold tss_address. rewrite Hhigh, Hb. dlia. }
  split; [|split; [|split; [|split; [|split; [exact Haddr|split; [exact Hl|split; [exact Ha|]]]]]]].
  1-4: repeat split; vm_compute; reflexivity.
  split; [done|]. split; [done|]. split; [|done].
  by repeat (rewrite decide_False by done || rewrite decide_True by done).
Qed.

(** *** Interrupts *)

Lemma gate_set t vector v isr flags :
  0 ≤ vector → 0 ≤ v < Z.of_nat (length t) →
  nth (Z.to_nat v) (idt_set_descriptor t vector isr flags) (mk_idt_entry 0 0 0 0 0 0 0) =
  if decide (vector = v)
  then mk_idt_entry (isr .& 0xFFFF) 0x08 0 flags ((isr >> 16) .& 0xFFFF) ((isr >> 32) .& 0xFFFFFFFF) 0
  else nth (Z.to_nat v) t (mk_idt_entry 0 0 0 0 0 0 0).
Proof.
  intros Hv Hl. unfold idt_set_descriptor. rewrite !nth_lookup. case_decide.
  - subst. by rewrite list_lookup_insert_eq by lia.
  - by rewrite list_lookup_insert_ne by lia.
Qed.

Lemma length_idt_set t vector isr flags : length (idt_set_descriptor t vector isr flags) = length t.
Proof. apply length_insert. Qed.

(** A loop that sets the gates from [i] on. *)
Lemma gates_loop (n : nat) i t target flags :
  0 ≤ i →
  let t' := for_each n i (λ v t, idt_set_descriptor t v (target v) flags) t in
  length t' = length t ∧
  ∀ v, 0 ≤ v < Z.of_nat (length t) →
    nth (Z.to_nat v) t' (mk_idt_entry 0 0 0 0 0 0 0) =
    if decide (i ≤ v < i + Z.of_nat n)
    then mk_idt_entry (target v .& 0xFFFF) 0x08 0 flags ((target v >> 16) .& 0xFFFF)
           ((target v >> 32) .& 0xFFFFFFFF) 0
    else nth (Z.to_nat v) t (mk_idt_entry 0 0 0 0 0 0 0).
Proof.
  revert i t. induction n as [|n IH]; intros i t Hi; cbn [for_each].
  { split; [done|]. intros v Hv. by rewrite decide_False by lia. }
  destruct (IH (i + 1) (idt_set_descriptor t i (target i) flags) ltac:(lia)) as [Hlen Hnth].
  rewrite length_idt_set in Hlen, Hnth. split; [done|]. intros v Hv. rewrite Hnth, gate_set by lia.
  destruct (decide (i = v)) as [->|Hne].
  - rewrite (decide_False (P := v + 1 ≤ v < _)), (decide_True (P := v ≤ v < _)) by lia. done.
  - destruct (decide (i + 1 ≤ v < i + 1 + Z.of_nat n)); [by rewrite decide_True by lia|].
    by rewrite decide_False by lia.
Qed.

(** Where each vector leads. *)
Definition handler_of (isrs : Z → Z) (isr_keyboard vector : Z) : Z :=
  if vector =? 33 then isr_keyboard else if vector <? 32 then isrs vector else isrs 0.

Lemma idt_init_gates idt_addr isrs isr_keyboard v :
  (∀ i, 0 ≤ i < 32 → 0 ≤ isrs i < 2 ^ 64) → 0 ≤ isr_keyboard < 2 ^ 64 → 0 ≤ v < 256 →
  kernel_gate (gate (idt_init idt_boot idt_addr isrs isr_keyboard) v) (handler_of isrs isr_keyboard v).
Proof.
  intros Hisr Hk Hv. unfold gate, idt_init. cbn [idt idt_boot]. unfold idt_set_exception_gates.
  destruct (gates_loop 256 0 (repeat (mk_idt_entry 0 0 0 0 0 0 0) 256) (λ _, isrs 0) 0x8E ltac:(lia))
    as [Hl1 Hn1]. rewrite repeat_length in Hl1, Hn1.
  set (t1 := for_each 256 0 _ _) in *.
  destruct (gates_loop 32 0 t1 isrs 0x8E ltac:(lia)) as [Hl2 Hn2]. rewrite Hl1 in Hl2, Hn2.
  set (t2 := for_each 32 0 _ _) in *.
  rewrite gate_set by lia. unfold handler_of.
  destruct (Z.eqb_spec v 33) as [->|Hne].
  { rewrite decide_True by done. by apply idt_gate_roundtrip. }
  rewrite decide_False by lia. rewrite Hn2 by lia.
  destruct (Z.ltb_spec v 32).
  - rewrite decide_True by lia. apply idt_gate_roundtrip; [apply Hisr; lia|lia].
  - rewrite decide_False by lia. rewrite Hn1, decide_True by lia.
    apply idt_gate_roundtrip; [apply Hisr; lia|lia].
Qed.

Section Pic.
Context {D : Type} `{PicLaws D}.

(** The vector of a request line, and whether it is let through. *)
Definition irq_vector (d : D) (irq : Z) : Z :=
  if irq <? 8 then vector_base (master d) + irq else vector_base (slave d) + (irq - 8).
Definition irq_enabled (d : D) (irq : Z) : bool :=
  if irq <? 8 then negb (Z.testbit (mask (master d)) irq)
  else negb (Z.testbit (mask (master d)) 2) && negb (Z.testbit (mask (slave d)) (irq - 8)).

Lemma pic_remap_chips d :
  master (pic_remap d) = mk_chip 0 0x20 4 1 0xFD ∧ slave (pic_remap d) = mk_chip 0 0x28 2 1 0xFF.
Proof.
  assert (∀ d v, master (outb d 0x20 v) = chip_command (master d) v ∧
    master (outb d 0x21 v) = chip_data (master d) v ∧ master (outb d 0xA0 v) = master d ∧
    master (outb d 0xA1 v) = master d) as Hm by (intros; by rewrite !master_write).
  assert (∀ d v, slave (outb d 0xA0 v) = chip_command (slave d) v ∧
    slave (outb d 0xA1 v) = chip_data (slave d) v ∧ slave (outb d 0x20 v) = slave d ∧
    slave (outb d 0x21 v) = slave d) as Hs by (intros; by rewrite !slave_write).
  unfold pic_remap. cbn zeta. split.
  - repeat first [rewrite (proj2 (proj2 (proj2 (Hm _ _))))|rewrite (proj1 (proj2 (proj2 (Hm _ _))))|
                  rewrite (proj1 (proj2 (Hm _ _)))|rewrite (proj1 (Hm _ _))].
    by destruct (master d).
  - repeat first [rewrite (proj2 (proj2 (proj2 (Hs _ _))))|rewrite (proj1 (proj2 (proj2 (Hs _ _))))|
                  rewrite (proj1 (proj2 (Hs _ _)))|rewrite (proj1 (Hs _ _))].
    by destruct (slave d).
Qed.

(** C38. After [pic_remap] the sixteen request lines raise the vectors 32 to 47,
    away from the exceptions, and only the keyboard's line is let through: its
    vector leads to [isr_keyboard], through a gate that user code cannot call,
    while the first 32 vectors lead to their exception stubs. *)
Theorem irq_dispatch d idt_addr isrs isr_keyboard :
  (∀ i, 0 ≤ i < 32 → 0 ≤ isrs i < 2 ^ 64) → 0 ≤ isr_keyboard < 2 ^ 64 →
  let d' := pic_remap d in
  let t := idt_init idt_boot idt_addr isrs isr_keyboard in
  (∀ irq, 0 ≤ irq < 16 → irq_vector d' irq = 32 + irq ∧ irq_enabled d' irq = bool_decide (irq = 1)) ∧
  kernel_gate (gate t (irq_vector d' 1)) isr_keyboard ∧
  (∀ v, 0 ≤ v < 32 → kernel_gate (gate t v) (isrs v)) ∧ idt_limit t = 16 * 256 - 1.
Proof.
  intros Hisr Hk d' t. destruct (pic_remap_chips d) as [Hm Hs]. fold d' in Hm, Hs.
  split; [|split; [|split; [|reflexivity]]].
  - intros irq Hirq. unfold irq_vector, irq_enabled. rewrite Hm, Hs. cbn [vector_base mask].
    assert (∀ P : Z → bool, forallb P (seqZ 0 16) = true → P irq = true) as Hall.
    { intros P HP. by apply (forall_range P 0 16). }
    split.
    + destruct (Z.ltb_spec irq 8); lia.
    + apply eqb_prop. revert Hall. intros Hall.
      apply (Hall (λ irq, eqb (if irq <? 8 then negb (Z.testbit 0xFD irq)
        else negb (Z.testbit 0xFD 2) && negb (Z.testbit 0xFF (irq - 8))) (bool_decide (irq = 1)))).
      vm_compute. reflexivity.
  - unfold irq_vector. rewrite Hm. cbn [vector_base Z.ltb Z.compare Pos.compare Pos.compare_cont].
    by apply (idt_init_gates idt_addr isrs isr_keyboard 33).
  - intros v Hv. pose proof (idt_init_gates idt_addr isrs isr_keyboard v Hisr Hk ltac:(lia)) as Hg.
    unfold handler_of in Hg. destruct (Z.eqb_spec v 33); [lia|].
    destruct (Z.ltb_spec v 32); [done|lia].
Qed.
End Pic.

(** ** A machine with two controllers *)

Definition pics : Type := chip * chip.

#[export] Instance pics_ports : Ports pics := {
  inb d port := (0, d);
  outb d port v :=
    (if port =? 0x20 then chip_command d.1 v else if port =? 0x21 then chip_data d.1 v else d.1,
     if port =? 0xA0 then chip_command d.2 v else if port =? 0xA1 then chip_data d.2 v else d.2);
  outw d port v := d;
  inl_ d port := (0, d);
  outl d port v := d;
  insw d port n := ([], d);
  outsw d port bytes := d;
}.

#[export] Instance pics_laws : PicLaws pics fst snd.
Proof. by split. Qed.

Lemma segments_correct_witness :
  tss_address (gdt_init gdt_boot 0 0xFFFFFFFF80001234) 0x28 = 0xFFFFFFFF80001234 ∧
  code64 3 (descriptor (gdt_init gdt_boot 0 0xFFFFFFFF80001234)
              (sysret_cs (syscall_init ∅ 0xFFFFFFFF80000000))).
Proof.
  destruct (segments_correct ∅ 0xFFFFFFFF80000000 0 0xFFFFFFFF80001234)
    as (_ & _ & Hc & _ & Ht & _); [lia|lia|]. split; [exact Ht|exact Hc].
Defined.

Lemma irq_dispatch_witness :
  kernel_gate (gate (idt_init idt_boot 0 (λ i, 4096 + 16 * i) 8192) 33) 8192 ∧
  irq_enabled (master := fst) (slave := snd)
    (pic_remap (mk_chip 0 8 0 0 255, mk_chip 0 112 0 0 255)) 0 = false.
Proof.
  destruct (irq_dispatch (mk_chip 0 8 0 0 255, mk_chip 0 112 0 0 255) 0 (λ i, 4096 + 16 * i) 8192)
    as (He & Hk & _ & _); [intros; lia|lia|].
  split; [exact Hk|]. apply (He 0). lia.
Defined.
