(* ===== verification/Ata.v ===== *)
(** The disk driver (src/hal/ata.c, src/hal/ata.h) over the port instructions.

    A routine is given a [fuel]: how often it polls the status register before
    the model gives up ([None]); the loop of the source has no bound. [drive]
    is the drive's side of the protocol, from the ATA standard: the registers,
    the command under way and the sectors. [AtaLaws] says that the ports lead to
    such a drive: while it is busy it takes no command and moves no data, so a
    transfer is right only after the wait before it. The drive reports no error;
    the lemmas then say what each routine does to it. AtaDisk.v draws
    from them that the driver keeps the contract of the file system's disk. *)

From S2P Require Import Io Block.
Open Scope Z_scope.

Definition ATA_PRIMARY_DATA : Z := 0x1F0.
Definition ATA_PRIMARY_SECCOUNT : Z := 0x1F2.
Definition ATA_PRIMARY_LBA_LO : Z := 0x1F3.
Definition ATA_PRIMARY_LBA_MID : Z := 0x1F4.
Definition ATA_PRIMARY_LBA_HI : Z := 0x1F5.
Definition ATA_PRIMARY_DRV_HEAD : Z := 0x1F6.
Definition ATA_PRIMARY_STATUS : Z := 0x1F7.
Definition ATA_PRIMARY_COMMAND : Z := 0x1F7.

Definition ATA_CMD_READ_PIO : Z := 0x20.
Definition ATA_CMD_WRITE_PIO : Z := 0x30.
Definition ATA_CMD_CACHE_FLUSH : Z := 0xE7.

Definition ata_error : list Z := str "ATA: Erro de Hardware ou I/O invalido detectado." ++ [10].

Section Driver.
Context {D : Type} `{Ports D}.

(** One turn of the loop of [ata_wait_ready]: what is printed when it ends. *)
Definition ata_wait_step (d : D) : D + (list Z * D) :=
  let '(status, d) := inb d ATA_PRIMARY_STATUS in
  let status := u8 status in
  if (status .& 0x80 =? 0) && negb (status .& 0x40 =? 0) then inr ([], d)
  else if negb (status .& 0x01 =? 0) then inr (ata_error, d)
  else inl d.

Definition ata_wait_ready (fuel : positive) (d : D) : option (list Z * D) :=
  match while ata_wait_step fuel d with inr r => Some r | inl _ => None end.

(** The six register writes that start a command. *)
Definition ata_command (lba cmd : Z) (d : D) : D :=
  let d := outb d ATA_PRIMARY_DRV_HEAD (0xE0 .| ((lba >> 24) .& 0x0F)) in
  let d := outb d ATA_PRIMARY_SECCOUNT 1 in
  let d := outb d ATA_PRIMARY_LBA_LO (u8 lba) in
  let d := outb d ATA_PRIMARY_LBA_MID (u8 (lba >> 8)) in
  let d := outb d ATA_PRIMARY_LBA_HI (u8 (lba >> 16)) in
  outb d ATA_PRIMARY_COMMAND cmd.

(** What is printed, the bytes stored in the buffer, the devices. *)
Definition ata_read_sector (fuel : positive) (d : D) (lba : Z) : option (list Z * list Z * D) :=
  match ata_wait_ready fuel d with
  | None => None
  | Some (out1, d) =>
      let d := ata_command lba ATA_CMD_READ_PIO d in
      match ata_wait_ready fuel d with
      | None => None
      | Some (out2, d) =>
          let '(buffer, d) := insw d ATA_PRIMARY_DATA 256 in
          Some (out1 ++ out2, buffer, d)
      end
  end.

Definition ata_write_sector (fuel : positive) (d : D) (lba : Z) (buffer : list Z) :
    option (list Z * D) :=
  match ata_wait_ready fuel d with
  | None => None
  | Some (out1, d) =>
      let d := ata_command lba ATA_CMD_WRITE_PIO d in
      match ata_wait_ready fuel d with
      | None => None
      | Some (out2, d) =>
          let d := outsw d ATA_PRIMARY_DATA (take 512 buffer) in
          let d := outb d ATA_PRIMARY_COMMAND ATA_CMD_CACHE_FLUSH in
          match ata_wait_ready fuel d with
          | None => None
          | Some (out3, d) => Some (out1 ++ out2 ++ out3, d)
          end
      end
  end.
End Driver.

(** ** The drive *)

Inductive transfer := NoData | DataIn (lba : Z) | DataOut (lba : Z).

(** [busy]: how many more reads of the status register find the drive busy;
    [delays]: the same for the commands to come. *)
Record drive := mk_drive {
  r_head : Z; r_lo : Z; r_mid : Z; r_hi : Z;
  phase : transfer;
  busy : nat;
  delays : list nat;
  store : gmap Z (list Z);
}.

Definition sector_of (d : drive) (s : Z) : list Z := default zero_sector (store d !! s).

Definition set_phase (d : drive) (p : transfer) (b : nat) (l : list nat) : drive :=
  mk_drive (r_head d) (r_lo d) (r_mid d) (r_hi d) p b l (store d).

(** The 28-bit address in the registers. *)
Definition address (d : drive) : Z :=
  r_lo d + 2 ^ 8 * r_mid d + 2 ^ 16 * r_hi d + 2 ^ 24 * (r_head d mod 16).

Definition run_command (d : drive) (p : transfer) : drive :=
  set_phase d p (hd 0%nat (delays d)) (tl (delays d)).

(** A register or the command is written, the drive being ready ... *)
Definition take_write (d : drive) (port v : Z) : drive :=
  if port =? 0x1F6 then mk_drive v (r_lo d) (r_mid d) (r_hi d) (phase d) 0 (delays d) (store d)
  else if port =? 0x1F3 then mk_drive (r_head d) v (r_mid d) (r_hi d) (phase d) 0 (delays d) (store d)
  else if port =? 0x1F4 then mk_drive (r_head d) (r_lo d) v (r_hi d) (phase d) 0 (delays d) (store d)
  else if port =? 0x1F5 then mk_drive (r_head d) (r_lo d) (r_mid d) v (phase d) 0 (delays d) (store d)
  else if port =? 0x1F7 then
    if v =? 0x20 then run_command d (DataIn (address d))
    else if v =? 0x30 then run_command d (DataOut (address d))
    else if v =? 0xE7 then run_command d NoData
    else d
  else d.

(** ... and at any time: a busy drive does not look at it. *)
Definition drive_outb (d : drive) (port v : Z) : drive :=
  match busy d with S _ => d | O => take_write d port v end.

(** Busy, then ready (with a data request while a transfer is open). *)
Definition drive_status (d : drive) : Z * drive :=
  match busy d with
  | S b => (0x80, set_phase d (phase d) b (delays d))
  | O => (match phase d with NoData => 0x50 | _ => 0x58 end, d)
  end.

(** The sector moves when the drive is ready and has asked for the transfer; what
    the data register gives at other times is not specified. *)
Definition drive_in (d : drive) : list Z * drive :=
  match busy d, phase d with
  | O, DataIn lba => (sector_of d lba, set_phase d NoData 0 (delays d))
  | _, _ => (repeat 0xFF 512, d)
  end.

(** Once it has the data, the drive is busy writing them. *)
Definition drive_out (d : drive) (bytes : list Z) : drive :=
  match busy d, phase d with
  | O, DataOut lba =>
      run_command (mk_drive (r_head d) (r_lo d) (r_mid d) (r_hi d) NoData 0 (delays d)
        (<[lba := bytes]> (store d))) NoData
  | _, _ => d
  end.

(** The drive asks for a transfer. *)
Definition requests (d : drive) (p : transfer) : Prop := busy d = 0%nat ∧ phase d = p.

Class AtaLaws (D : Type) `{Ports D} (view : D → drive) := {
  ata_outb d port v : 0x1F0 ≤ port ≤ 0x1F7 → view (outb d port v) = drive_outb (view d) port v;
  ata_inb d : (inb d 0x1F7).1 = (drive_status (view d)).1 ∧
              view (inb d 0x1F7).2 = (drive_status (view d)).2;
  ata_insw d lba : requests (view d) (DataIn lba) →
    (insw d 0x1F0 256).1 = (drive_in (view d)).1 ∧ view (insw d 0x1F0 256).2 = (drive_in (view d)).2;
  ata_outsw d bytes lba : requests (view d) (DataOut lba) →
    view (outsw d 0x1F0 bytes) = drive_out (view d) bytes;
}.

(** ** The driver against the drive *)

Section Refinement.
Context {D : Type} `{AtaLaws D view}.

(** Nothing under way, and every wait is shorter than the fuel. *)
Definition idle (fuel : positive) (d : drive) : Prop :=
  phase d = NoData ∧ (busy d < Pos.to_nat fuel)%nat ∧
  Forall (λ b, (b < Pos.to_nat fuel)%nat) (delays d).

(** Waiting ends once the drive is no longer busy, and prints nothing. *)
Lemma wait_ready fuel d :
  (busy (view d) < Pos.to_nat fuel)%nat →
  ∃ d', ata_wait_ready fuel d = Some ([], d') ∧
    view d' = set_phase (view d) (phase (view d)) 0 (delays (view d)).
Proof.
  intros Hb. unfold ata_wait_ready. rewrite while_steps. generalize dependent (Pos.to_nat fuel).
  intros n. revert d. induction n as [|n IH]; intros d Hb; [lia|]. cbn [steps].
  unfold ata_wait_step at 1. change ATA_PRIMARY_STATUS with 0x1F7.
  destruct (ata_inb d) as [Hs Hv]. destruct (inb d 0x1F7) as [status d1]. cbn [fst snd] in Hs, Hv.
  unfold drive_status in Hs, Hv. destruct (busy (view d)) as [|b] eqn:Eb; cbn [fst snd] in Hs, Hv.
  - assert ((u8 status .& 0x80 =? 0) && negb (u8 status .& 0x40 =? 0) = true) as ->.
    { subst status. by destruct (phase (view d)). }
    exists d1. split; [done|]. rewrite Hv. destruct (view d); cbn in *. by subst.
  - subst status. cbn -[steps]. destruct (IH d1) as (d' & Hd' & Hv'); [rewrite Hv; cbn; lia|].
    exists d'. split; [exact Hd'|]. by rewrite Hv', Hv.
Qed.

(** A register of a ready drive. *)
Lemma outb_ready d port v :
  0x1F0 ≤ port ≤ 0x1F7 → port ≠ 0x1F7 → busy (view d) = 0%nat →
  view (outb d port v) = take_write (view d) port v ∧ busy (view (outb d port v)) = 0%nat.
Proof.
  intros Hp Hne Hb.
  assert (view (outb d port v) = take_write (view d) port v) as He.
  { rewrite ata_outb by done. unfold drive_outb. by rewrite Hb. }
  split; [done|]. rewrite He. unfold take_write. rewrite (proj2 (Z.eqb_neq port 0x1F7) Hne).
  by repeat destruct (_ =? _).
Qed.

(** The registers hold the low 28 bits of the sector number, once the drive is ready. *)
Lemma command_address lba cmd d :
  0 ≤ lba < 2 ^ 32 → busy (view d) = 0%nat →
  let r := mk_drive (0xE0 .| ((lba >> 24) .& 0x0F)) (u8 lba) (u8 (lba >> 8)) (u8 (lba >> 16))
             (phase (view d)) 0 (delays (view d)) (store (view d)) in
  view (ata_command lba cmd d) = drive_outb r 0x1F7 cmd ∧ address r = lba mod 2 ^ 28.
Proof.
  intros Hl Hb. cbn zeta. split.
  - unfold ata_command. cbn zeta.
    rewrite ata_outb by (cbv; split; discriminate). f_equal.
    destruct (outb_ready d ATA_PRIMARY_DRV_HEAD (0xE0 .| ((lba >> 24) .& 0x0F))) as [E1 B1]; [done|done|done|].
    destruct (outb_ready _ ATA_PRIMARY_SECCOUNT 1 ltac:(done) ltac:(done) B1) as [E2 B2].
    destruct (outb_ready _ ATA_PRIMARY_LBA_LO (u8 lba) ltac:(done) ltac:(done) B2) as [E3 B3].
    destruct (outb_ready _ ATA_PRIMARY_LBA_MID (u8 (lba >> 8)) ltac:(done) ltac:(done) B3) as [E4 B4].
    destruct (outb_ready _ ATA_PRIMARY_LBA_HI (u8 (lba >> 16)) ltac:(done) ltac:(done) B4) as [E5 _].
    rewrite E5, E4, E3, E2, E1. reflexivity.
  - unfold address. cbn [r_lo r_mid r_hi r_head]. unfold u8.
    rewrite !Z.shiftr_div_pow2 by lia. change 0x0F with (Z.ones 4). rewrite Z.land_ones by lia.
    change 0xE0 with (14 * 2 ^ 4).
    rewrite (lor_aligned (14 * 2 ^ 4) _ 4) by (lia || done || apply Z.mod_pos_bound; lia).
    dlia.
Qed.

Lemma delays_tail (P : nat → Prop) (l : list nat) : P 0%nat → Forall P l → P (hd 0%nat l) ∧ Forall P (tl l).
Proof. intros HP [|x l' Hx Hl]; cbn; [by split; [|constructor]|done]. Qed.

(** A command on an idle drive opens its transfer and the drive gets ready. *)
Lemma command_ready fuel d lba cmd p :
  0 ≤ lba < 2 ^ 32 → idle fuel (view d) →
  (∀ r, busy r = 0%nat → drive_outb r 0x1F7 cmd = run_command r (p (address r))) →
  ∃ d1 d2, ata_wait_ready fuel d = Some ([], d1) ∧
    ata_wait_ready fuel (ata_command lba cmd d1) = Some ([], d2) ∧
    requests (view d2) (p (lba mod 2 ^ 28)) ∧
    Forall (λ b, (b < Pos.to_nat fuel)%nat) (delays (view d2)) ∧ store (view d2) = store (view d).
Proof.
  intros Hl (Hph & Hb & Hd) Hcmd. destruct (wait_ready fuel d Hb) as (d1 & Hw1 & Hv1).
  exists d1. destruct (command_address lba cmd d1 Hl) as [Hv Ha]; [by rewrite Hv1|].
  rewrite Hcmd, Ha in Hv by done.
  assert (delays (view d1) = delays (view d)) as Hd1 by by rewrite Hv1.
  destruct (delays_tail (λ b, (b < Pos.to_nat fuel)%nat) _ ltac:(cbv beta; lia) Hd) as [Hhd Htl]. rewrite <- Hd1 in Hhd, Htl.
  destruct (wait_ready fuel (ata_command lba cmd d1)) as (d2 & Hw2 & Hv2); [by rewrite Hv|].
  exists d2. split; [done|]. split; [done|]. rewrite Hv2, Hv. cbn.
  split; [done|]. split; [done|]. by rewrite Hv1.
Qed.

Definition sector_number (lba : Z) : Z := lba mod 2 ^ 28.

Lemma takes_command cmd p :
  (cmd = ATA_CMD_READ_PIO ∧ p = DataIn) ∨ (cmd = ATA_CMD_WRITE_PIO ∧ p = DataOut) →
  ∀ r, busy r = 0%nat → drive_outb r 0x1F7 cmd = run_command r (p (address r)).
Proof. intros [[-> ->]|[-> ->]] r Hb; unfold drive_outb; rewrite Hb; reflexivity. Qed.

(** Reading stores the sector's bytes and changes no sector. *)
Lemma read_sector_spec fuel d lba :
  0 ≤ lba < 2 ^ 32 → idle fuel (view d) →
  ∃ d', ata_read_sector fuel d lba = Some ([], sector_of (view d) (sector_number lba), d') ∧
    idle fuel (view d') ∧ store (view d') = store (view d).
Proof.
  intros Hl Hidle.
  destruct (command_ready fuel d lba ATA_CMD_READ_PIO DataIn Hl Hidle (takes_command _ _ ltac:(by left)))
    as (d1 & d2 & Hw1 & Hw2 & Hr & Hd & Hs).
  unfold ata_read_sector. rewrite Hw1, Hw2. change ATA_PRIMARY_DATA with 0x1F0.
  destruct (ata_insw d2 _ Hr) as [Hdata Hv]. destruct (insw d2 0x1F0 256) as [data d3]. cbn [fst snd] in Hdata, Hv.
  destruct Hr as [Hb Hp].
  unfold drive_in in Hdata, Hv. rewrite Hb, Hp in Hdata, Hv. cbn [fst snd] in Hdata, Hv.
  exists d3. rewrite Hdata, Hv. unfold sector_of. rewrite Hs.
  split; [done|]. split; [|done]. split; [done|]. cbn. split; [lia|done].
Qed.

(** Handing the drive its data and flushing the cache; the drive may still be busy
    with the data, and then the flush is not taken. *)
Lemma flush_ready fuel d lba buffer :
  requests (view d) (DataOut lba) → Forall (λ b, (b < Pos.to_nat fuel)%nat) (delays (view d)) →
  ∃ d', ata_wait_ready fuel (outb (outsw d 0x1F0 buffer) 0x1F7 ATA_CMD_CACHE_FLUSH) = Some ([], d') ∧
    idle fuel (view d') ∧ store (view d') = <[lba := buffer]> (store (view d)).
Proof.
  intros Hr Hd. set (d3 := outsw d 0x1F0 buffer).
  pose proof (ata_outsw d buffer _ Hr) as Hv3. fold d3 in Hv3. destruct Hr as [Hb Hp].
  unfold drive_out in Hv3. rewrite Hb, Hp in Hv3.
  set (d4 := outb d3 0x1F7 ATA_CMD_CACHE_FLUSH).
  destruct (delays_tail (λ b, (b < Pos.to_nat fuel)%nat) _ ltac:(cbv beta; lia) Hd) as [Hhd Htl].
  assert (phase (view d4) = NoData ∧ (busy (view d4) < Pos.to_nat fuel)%nat ∧
    Forall (λ b, (b < Pos.to_nat fuel)%nat) (delays (view d4)) ∧
    store (view d4) = <[lba := buffer]> (store (view d))) as (Hp4 & Hb4 & Hd4 & Hs4).
  { unfold d4. rewrite ata_outb by (cbv; split; discriminate). rewrite Hv3. unfold drive_outb. cbn.
    destruct (delays_tail (λ b, (b < Pos.to_nat fuel)%nat) _ ltac:(cbv beta; lia) Htl) as [Hhd2 Htl2].
    destruct (hd 0%nat (delays (view d))) as [|b] eqn:Eb; unfold run_command; cbn; [done|by rewrite Eb]. }
  destruct (wait_ready fuel d4 Hb4) as (d5 & Hw5 & Hv5).
  exists d5. split; [done|]. rewrite Hv5. cbn. split; [|done].
  split; [done|]. cbn. split; [lia|done].
Qed.

(** Writing replaces that sector and no other. *)
Lemma write_sector_spec fuel d lba buffer :
  0 ≤ lba < 2 ^ 32 → idle fuel (view d) → is_sector buffer →
  ∃ d', ata_write_sector fuel d lba buffer = Some ([], d') ∧ idle fuel (view d') ∧
    store (view d') = <[sector_number lba := buffer]> (store (view d)).
Proof.
  intros Hl Hidle [Hlen _].
  destruct (command_ready fuel d lba ATA_CMD_WRITE_PIO DataOut Hl Hidle (takes_command _ _ ltac:(by right)))
    as (d1 & d2 & Hw1 & Hw2 & Hr & Hd & Hs).
  unfold ata_write_sector. rewrite Hw1, Hw2. change ATA_PRIMARY_DATA with 0x1F0.
  change ATA_PRIMARY_COMMAND with 0x1F7. rewrite take_ge by lia.
  destruct (flush_ready fuel d2 _ buffer Hr Hd) as (d3 & Hw3 & Hi3 & Hs3).
  exists d3. rewrite Hw3. by rewrite <- Hs.
Qed.

Lemma sector_of_write d d' s buffer t :
  store d' = <[s := buffer]> (store d) → sector_of d' t = if decide (t = s) then buffer else sector_of d t.
Proof.
  intros Hs. unfold sector_of. rewrite Hs. case_decide; subst.
  - by rewrite lookup_insert_eq.
  - by rewrite lookup_insert_ne.
Qed.

(** An error that the drive reports together with readiness is not seen: the
    test for readiness comes first, and the transfer goes on. *)
Lemma ata_error_unseen fuel d status d' :
  inb d ATA_PRIMARY_STATUS = (status, d') → u8 status .& 0x80 = 0 → u8 status .& 0x40 ≠ 0 →
  u8 status .& 0x01 ≠ 0 → ata_wait_ready fuel d = Some ([], d').
Proof.
  intros Hin Hb Hr _. unfold ata_wait_ready. rewrite while_steps.
  destruct (Pos.to_nat fuel) as [|n] eqn:E; [lia|]. cbn [steps]. unfold ata_wait_step.
  rewrite Hin, Hb. rewrite (proj2 (Z.eqb_neq _ _) Hr). done.
Qed.
End Refinement.

(** ** A machine that is just a drive *)

#[export] Instance drive_ports : Ports drive := {
  inb d port := if port =? 0x1F7 then drive_status d else (0xFF, d);
  outb := drive_outb;
  outw d port v := d;
  inl_ d port := (0, d);
  outl d port v := d;
  insw d port n := if port =? 0x1F0 then drive_in d else (repeat 0xFF 512, d);
  outsw d port bytes := if port =? 0x1F0 then drive_out d bytes else d;
}.

#[export] Instance drive_laws : AtaLaws drive id.
Proof. by split. Qed.
