(* ===== verification/AtaDisk.v ===== *)
(** The disk driver as the block device of the file system: Ata.v implements
    Block.v.

    A request of a client ([request]) goes either to a [Disk] or, through the
    driver, to the ports of a machine. A client is a program whose next request
    may depend on what it has read so far ([client], a free monad over requests).
    The simulation [agree] says that the drive's sectors are those of an abstract
    disk; it is kept by every request, so no client can tell the two apart.
    [ata_disk_laws] is the instance of the class that the theorems about
    src/kernel/fat16.c are proved against: the machines whose drive is ready. *)

From S2P Require Import Io Block Ata.
Open Scope Z_scope.

(** ** Clients *)

Inductive request := ReadSector (lba : Z) | WriteSector (lba : Z) (buffer : list Z).

Inductive client (A : Type) :=
  | Done (a : A)
  | Ask (r : request) (k : list Z → client A).
Arguments Done {A} _.
Arguments Ask {A} _ _.

Fixpoint bind {A B} (c : client A) (f : A → client B) : client B :=
  match c with
  | Done a => f a
  | Ask r k => Ask r (λ l, bind (k l) f)
  end.

(** A request to a disk; writing answers nothing. *)
Definition on_disk {D} `{Disk D} (r : request) (d : D) : list Z * D :=
  match r with
  | ReadSector s => (Block.ata_read_sector d s, d)
  | WriteSector s l => ([], Block.ata_write_sector d s l)
  end.

Fixpoint run_disk {A D} `{Disk D} (c : client A) (d : D) : A * D :=
  match c with
  | Done a => (a, d)
  | Ask r k => let '(l, d) := on_disk r d in run_disk (k l) d
  end.

(** A request to the driver: what it prints, the answer, the machine. *)
Definition on_ports {D} `{Ports D} (fuel : positive) (r : request) (d : D) :
    option (list Z * list Z * D) :=
  match r with
  | ReadSector s => ata_read_sector fuel d s
  | WriteSector s l =>
      match ata_write_sector fuel d s l with
      | Some (out, d) => Some (out, [], d)
      | None => None
      end
  end.

Fixpoint run_ports {A D} `{Ports D} (fuel : positive) (c : client A) (d : D) :
    option (list Z * A * D) :=
  match c with
  | Done a => Some ([], a, d)
  | Ask r k =>
      match on_ports fuel r d with
      | None => None
      | Some (out, l, d) =>
          match run_ports fuel (k l) d with
          | None => None
          | Some (out', a, d) => Some (out ++ out', a, d)
          end
      end
  end.

(** Requests inside a disk of [n] sectors. *)
Definition within (n : Z) (r : request) : Prop :=
  match r with
  | ReadSector s => 0 ≤ s < n
  | WriteSector s l => 0 ≤ s < n ∧ is_sector l
  end.

(** Every request is inside the disk, whatever the answers, and the result
    satisfies [Q]. *)
Fixpoint stays {A} (n : Z) (c : client A) (Q : A → Prop) : Prop :=
  match c with
  | Done a => Q a
  | Ask r k => within n r ∧ ∀ l, match r with ReadSector _ => is_sector l | _ => l = [] end →
      stays n (k l) Q
  end.

Lemma stays_mono {A} n (c : client A) (P Q : A → Prop) :
  stays n c P → (∀ a, P a → Q a) → stays n c Q.
Proof.
  intros Hc HPQ. induction c as [a|r k IH]; [by apply HPQ|].
  destruct Hc as [Hr Hk]. split; [done|]. intros l Hl. by apply IH, Hk.
Qed.

Lemma stays_bind {A B} n (c : client A) (f : A → client B) (P : A → Prop) (Q : B → Prop) :
  stays n c P → (∀ a, P a → stays n (f a) Q) → stays n (bind c f) Q.
Proof.
  intros Hc Hf. induction c as [a|r k IH]; [by apply Hf|].
  destruct Hc as [Hr Hk]. split; [done|]. intros l Hl. by apply IH, Hk.
Qed.

Lemma run_disk_bind {A B D} `{Disk D} (c : client A) (f : A → client B) (d : D) :
  run_disk (bind c f) d = let '(a, d) := run_disk c d in run_disk (f a) d.
Proof.
  revert d. induction c as [a|r k IH]; intros d; [done|]. cbn [bind run_disk].
  destruct (on_disk r d). apply IH.
Qed.

(** ** The simulation *)

(** The sectors that 28 bits can name. *)
Definition LBA_SECTORS : Z := 2 ^ 28.

Lemma sector_number_id s : 0 ≤ s < LBA_SECTORS → sector_number s = s.
Proof. apply Z.mod_small. Qed.

Section Simulation.
Context {D : Type} `{AtaLaws D view} {E : Type} `{DiskLaws E} (fuel : positive).

Definition agree (d : D) (e : E) : Prop :=
  idle fuel (view d) ∧
  ∀ s, 0 ≤ s < sectors e → sector_of (view d) s = Block.ata_read_sector e s.

Lemma request_agrees r d e :
  sectors e ≤ LBA_SECTORS → agree d e → within (sectors e) r →
  ∃ d', on_ports fuel r d = Some ([], (on_disk r e).1, d') ∧ agree d' (on_disk r e).2 ∧
    sectors (on_disk r e).2 = sectors e.
Proof.
  intros Hn [Hi Ha] Hr. unfold LBA_SECTORS in Hn. destruct r as [s|s l]; cbn [on_disk fst snd].
  - cbn in Hr. destruct (read_sector_spec fuel d s ltac:(lia) Hi) as (d' & Hd & Hi' & Hs).
    rewrite sector_number_id, Ha in Hd by (unfold LBA_SECTORS; lia).
    exists d'. split; [exact Hd|]. split; [|done]. split; [done|].
    unfold sector_of. rewrite Hs. exact Ha.
  - destruct Hr as [Hr Hl]. destruct (write_sector_spec fuel d s l ltac:(lia) Hi Hl) as (d' & Hd & Hi' & Hs).
    rewrite sector_number_id in Hs by (unfold LBA_SECTORS; lia).
    exists d'. cbn [on_ports]. rewrite Hd. split; [done|]. split; [|apply sectors_write].
    split; [done|]. intros t Ht. rewrite sectors_write in Ht.
    rewrite (sector_of_write _ _ _ _ t Hs), read_write, Ha by done.
    repeat case_decide; congruence.
Qed.

(** No client tells the driver and an abstract disk apart: from a drive that
    holds the disk's sectors and gets ready within the fuel, every program of
    requests inside the disk, whatever it makes of the answers, runs to its end
    through the driver, prints nothing, has the result it has on the disk, and
    leaves the drive idle with the sectors the disk then has. *)
Theorem ata_runs_client {A} (c : client A) d e :
  sectors e ≤ LBA_SECTORS → agree d e → stays (sectors e) c (λ _, True) →
  ∃ d', run_ports fuel c d = Some ([], (run_disk c e).1, d') ∧ agree d' (run_disk c e).2.
Proof.
  revert d e. induction c as [a|r k IH]; intros d e Hn Ha Hc; [by exists d|].
  destruct Hc as [Hr Hk]. destruct (request_agrees r d e Hn Ha Hr) as (d1 & Hd1 & Ha1 & Hs1).
  cbn [run_ports run_disk]. rewrite Hd1.
  destruct (on_disk r e) as [l e1] eqn:He. cbn [fst snd] in *.
  destruct (IH l d1 e1) as (d' & Hd' & Ha'); [by rewrite Hs1|done| |].
  - rewrite Hs1. apply Hk. destruct r; cbn in He; simplify_eq; [apply read_is_sector|done].
  - exists d'. by rewrite Hd'.
Qed.
End Simulation.

(** ** The driver as a disk *)

(** A machine whose drive is ready and holds whole sectors. *)
Definition ready {D} `{AtaLaws D view} (fuel : positive) (d : D) : Prop :=
  idle fuel (view d) ∧ map_Forall (λ _, is_sector) (store (view d)).

Record ata_disk {D} (view : D → drive) `{AtaLaws D view} (fuel : positive) := mk_ata_disk {
  machine : D;
  machine_ready : ready fuel machine;
}.
Arguments mk_ata_disk {_ _ _ _ _} _ _.
Arguments machine {_ _ _ _ _} _.
Arguments machine_ready {_ _ _ _ _} _.

Section Instance_.
Context {D : Type} `{HD : AtaLaws D view} (fuel : positive).
Implicit Types d : ata_disk view fuel.

Lemma sector_of_ready (d : D) s : ready fuel d → is_sector (sector_of (view d) s).
Proof.
  intros [_ Hs]. unfold sector_of. destruct (store (view d) !! s) as [l|] eqn:E; cbn.
  - exact (Hs s l E).
  - apply zero_is_sector.
Qed.

(** The machine after a request, and that it is ready again; [d] where the
    driver does not end (it does: [ports_ready]). *)
Definition after (r : request) (d : D) : D :=
  match on_ports fuel r d with Some (_, _, d') => d' | None => d end.
Definition answer_of (r : request) (d : D) : list Z :=
  match on_ports fuel r d with Some (_, l, _) => l | None => [] end.

Lemma ports_ready r (d : D) : ready fuel d → within (2 ^ 32) r →
  on_ports fuel r d = Some ([], answer_of r d, after r d) ∧ ready fuel (after r d) ∧
  match r with
  | ReadSector s => answer_of r d = sector_of (view d) (sector_number s) ∧
      store (view (after r d)) = store (view d)
  | WriteSector s l => store (view (after r d)) = <[sector_number s := l]> (store (view d))
  end.
Proof.
  intros [Hi Hs] Hr. unfold after, answer_of. destruct r as [s|s l]; cbn [on_ports].
  - destruct (read_sector_spec fuel d s Hr Hi) as (d' & -> & Hi' & Hs').
    split; [done|]. split; [|done]. split; [done|]. by rewrite Hs'.
  - destruct Hr as [Hr Hl]. destruct (write_sector_spec fuel d s l Hr Hi Hl) as (d' & -> & Hi' & Hs').
    split; [done|]. split; [|done]. split; [done|]. rewrite Hs'. by apply map_Forall_insert_2.
Qed.

(** A write by the callers of the driver: a whole sector, the number as the
    [uint32_t] it is. Other buffers do not occur and leave the disk alone. *)
Lemma write_within s l : is_sector l → within (2 ^ 32) (WriteSector (u32 s) l).
Proof. intros Hl. split; [apply u32_range|done]. Qed.

Definition write_disk d (s : Z) (l : list Z) : ata_disk view fuel :=
  match decide (is_sector l) with
  | left Hl =>
      mk_ata_disk (after (WriteSector (u32 s) l) (machine d))
        (proj1 (proj2 (ports_ready _ _ (machine_ready d) (write_within s l Hl))))
  | right _ => d
  end.

#[export] Instance ata_disk_ops : Disk (ata_disk view fuel) := {
  ata_read_sector d s := answer_of (ReadSector (u32 s)) (machine d);
  ata_write_sector := write_disk;
  sectors _ := LBA_SECTORS;
}.

Lemma read_answer d s :
  Block.ata_read_sector d s = sector_of (view (machine d)) (sector_number (u32 s)).
Proof. apply (ports_ready (ReadSector (u32 s)) _ (machine_ready d) (u32_range s)). Qed.

Lemma number_id s : 0 ≤ s < LBA_SECTORS → sector_number (u32 s) = s.
Proof. unfold LBA_SECTORS, sector_number. intros Hs. rewrite u32_small by lia. apply Z.mod_small. lia. Qed.

#[export] Instance ata_disk_laws : DiskLaws (ata_disk view fuel).
Proof.
  assert (∀ d s t l, 0 ≤ s < LBA_SECTORS → 0 ≤ t < LBA_SECTORS → is_sector l →
    Block.ata_read_sector (Block.ata_write_sector d s l) t = if decide (t = s) then l else Block.ata_read_sector d t)
    as Hrw.
  { intros d s t l Hs Ht Hl. rewrite !read_answer, (number_id t) by done.
    cbn [Block.ata_write_sector ata_disk_ops]. unfold write_disk.
    destruct (decide (is_sector l)) as [Hl'|]; [|done]. cbn [machine].
    pose proof (ports_ready _ _ (machine_ready d) (write_within s l Hl')) as (_ & _ & Hst).
    rewrite number_id in Hst by done. by apply sector_of_write. }
  split.
  - intros d s. rewrite read_answer. apply sector_of_ready, machine_ready.
  - done.
  - intros d s l Hs Hl. rewrite Hrw by done. by rewrite decide_True.
  - intros d s t l Hs Ht Hne. destruct (decide (is_sector l)) as [Hl|Hl].
    + rewrite Hrw by done. by rewrite decide_False.
    + cbn [Block.ata_write_sector ata_disk_ops]. unfold write_disk. by destruct (decide (is_sector l)).
Qed.

(** The instance is the driver: its disks simulate their own machines. *)
Lemma machine_agrees d : agree (view := view) fuel (machine d) d.
Proof.
  split; [apply (machine_ready d)|]. intros s Hs. by rewrite read_answer, number_id.
Qed.
End Instance_.
