(* ===== verification/Fat16Ports.v ===== *)
(** The file system over the disk driver: kernel/fat16.c on the ports of
    hal/ata.c.

    Each routine of Fat16.v once more as a [client] of AtaDisk.v, a program of
    requests in the order in which the C code makes them ([read_file_c] for
    fat16_read_file, and so on). [run_*] say that on an abstract disk it is the
    function of Fat16.v; [*_stays] that on a volume of the geometry [vol_ok] no
    request leaves the 28 bits of a sector number, whatever the disk answers, so
    also where the directory or the chains are damaged. With the simulation of AtaDisk.v
    the routines then do on the ports what Fat16.v says. *)

From S2P Require Import Io Block Ata AtaDisk Fat16 Fat16Table Fat16Data Fat16Proofs.
Open Scope Z_scope.

#[export] Instance client_ret : MRet client := @Done.
#[export] Instance client_bind : MBind client := λ A B f c, AtaDisk.bind c f.

(** ** Loops *)

Section Loops.
Context {S R : Type}.

Fixpoint for_loop_c (n : nat) (i : Z) (body : Z → S → client (S + R)) (s : S) : client (S + R) :=
  match n with
  | O => mret (inl s)
  | Datatypes.S n => r ← body i s; match r with inl s => for_loop_c n (i + 1) body s | inr r => mret (inr r) end
  end.

Fixpoint while_c (body : S → client (S + R)) (fuel : positive) (s : S) : client (S + R) :=
  match fuel with
  | xH => body s
  | xO p => r ← while_c body p s; match r with inl s => while_c body p s | inr r => mret (inr r) end
  | xI p =>
      r ← body s;
      match r with
      | inl s => r ← while_c body p s; match r with inl s => while_c body p s | inr r => mret (inr r) end
      | inr r => mret (inr r)
      end
  end.

(** A loop whose body keeps an invariant of its state. *)
Lemma for_loop_stays n (k : nat) i body s (P : S → Prop) (Q : R → Prop) :
  P s →
  (∀ j s, i ≤ j < i + Z.of_nat k → P s →
     stays n (body j s) (λ r, match r with inl s => P s | inr r => Q r end)) →
  stays n (for_loop_c k i body s) (λ r, match r with inl s => P s | inr r => Q r end).
Proof.
  revert i s. induction k as [|k IH]; intros i s Hs Hb; [exact Hs|].
  eapply stays_bind; [apply Hb; [lia|done]|]. intros [s'|r] Hr; [|exact Hr].
  apply IH; [done|]. intros j s2 Hj. apply Hb. lia.
Qed.

Lemma while_stays n body fuel s (P : S → Prop) (Q : R → Prop) :
  P s →
  (∀ s, P s → stays n (body s) (λ r, match r with inl s => P s | inr r => Q r end)) →
  stays n (while_c body fuel s) (λ r, match r with inl s => P s | inr r => Q r end).
Proof.
  intros Hs Hb. revert s Hs. induction fuel as [p IH|p IH|]; intros s Hs; cbn [while_c]; [|..|by apply Hb].
  - eapply stays_bind; [by apply Hb|]. intros [s1|r] Hr; [|exact Hr].
    eapply stays_bind; [by apply IH|]. intros [s2|r] Hr2; [by apply IH|exact Hr2].
  - eapply stays_bind; [by apply IH|]. intros [s2|r] Hr; [by apply IH|exact Hr].
Qed.
End Loops.

Fixpoint for_each_c {S} (n : nat) (i : Z) (body : Z → S → client S) (s : S) : client S :=
  match n with
  | O => mret s
  | Datatypes.S n => s ← body i s; for_each_c n (i + 1) body s
  end.

Lemma for_each_stays {S} n (k : nat) i (body : Z → S → client S) s (P : S → Prop) :
  P s → (∀ j s, i ≤ j < i + Z.of_nat k → P s → stays n (body j s) P) →
  stays n (for_each_c k i body s) P.
Proof.
  revert i s. induction k as [|k IH]; intros i s Hs Hb; [exact Hs|].
  eapply stays_bind; [apply Hb; [lia|done]|]. intros s' Hs'.
  apply IH; [done|]. intros j s2 Hj. apply Hb. lia.
Qed.

Section RunLoops.
Context {E : Type} `{DiskLaws E} {S R : Type}.

Lemma run_bind {A B} (c : client A) (f : A → client B) e :
  run_disk (c ≫= f) e = let '(a, e) := run_disk c e in run_disk (f a) e.
Proof. apply run_disk_bind. Qed.

(** A loop that only reads. *)
Lemma run_for_loop_reads n i (body : Z → S → client (S + R)) pure s e :
  (∀ j s, run_disk (body j s) e = (pure j s, e)) →
  run_disk (for_loop_c n i body s) e = (for_loop n i pure s, e).
Proof.
  intros Hb. revert i s. induction n as [|n IH]; intros i s; [done|].
  cbn [for_loop for_loop_c]. rewrite run_bind, Hb. destruct (pure i s); [apply IH|done].
Qed.

Lemma run_while_reads (body : S → client (S + R)) pure fuel s e :
  (∀ s, run_disk (body s) e = (pure s, e)) →
  run_disk (while_c body fuel s) e = (while pure fuel s, e).
Proof.
  intros Hb. revert s. induction fuel as [p IH|p IH|]; intros s; cbn [while while_c]; [|..|apply Hb].
  - rewrite run_bind, Hb. destruct (pure s) as [s1|r]; [|done].
    rewrite run_bind, IH. destruct (while pure p s1); [apply IH|done].
  - rewrite run_bind, IH. destruct (while pure p s); [apply IH|done].
Qed.

(** A loop that only reads until its exit, which may write. *)
Definition exited (e : E) (x : S + R * E) : (S + R) * E :=
  match x with inl s => (inl s, e) | inr (r, e) => (inr r, e) end.

Lemma run_for_loop_exit n i (body : Z → S → client (S + R)) pure s e :
  (∀ j s, run_disk (body j s) e = exited e (pure j s)) →
  run_disk (for_loop_c n i body s) e = exited e (for_loop n i pure s).
Proof.
  intros Hb. revert i s. induction n as [|n IH]; intros i s; [done|].
  cbn [for_loop for_loop_c]. rewrite run_bind, Hb. destruct (pure i s) as [s'|[r e']]; [apply IH|done].
Qed.

(** The loops of a function that threads the disk: [join] and [leave] put the
    disk where the function has it. *)
Context {T U : Type} (join : E → S → T) (leave : E → R → U).

Definition joined (x : (S + R) * E) : T + U :=
  match x with (inl s, e) => inl (join e s) | (inr r, e) => inr (leave e r) end.

Lemma run_while (body : S → client (S + R)) pure fuel s e :
  (∀ s e, pure (join e s) = joined (run_disk (body s) e)) →
  while pure fuel (join e s) = joined (run_disk (while_c body fuel s) e).
Proof.
  intros Hb. revert s e. induction fuel as [p IH|p IH|]; intros s e; cbn [while while_c]; [|..|apply Hb];
    rewrite run_bind.
  - rewrite Hb. destruct (run_disk (body s) e) as [[s1|r] e1]; cbn [joined]; [|done].
    rewrite IH, run_bind. destruct (run_disk (while_c body p s1) e1) as [[s2|r] e2]; cbn [joined]; [|done].
    apply IH.
  - rewrite IH. destruct (run_disk (while_c body p s) e) as [[s2|r] e2]; cbn [joined]; [|done]. apply IH.
Qed.

Lemma run_for_each n i (body : Z → S → client S) pure s e :
  (∀ j s e, pure j (join e s) = let '(s', e') := run_disk (body j s) e in join e' s') →
  for_each n i pure (join e s) = let '(s', e') := run_disk (for_each_c n i body s) e in join e' s'.
Proof.
  intros Hb. revert i s e. induction n as [|n IH]; intros i s e; [done|].
  cbn [for_each for_each_c]. rewrite Hb, run_bind. destruct (run_disk (body i s) e) as [s' e']. apply IH.
Qed.
End RunLoops.

(** ** The routines *)

Definition read (s : Z) : client (list Z) := Ask (ReadSector s) Done.
Definition write (s : Z) (l : list Z) : client unit := Ask (WriteSector s l) (λ _, Done ()).

Section Clients.
Context (v : vol).

Definition get_fat_c (cluster : Z) : client Z :=
  sector ← read (fat_sector v cluster); mret (get16 sector (cluster * 2 mod 512)).

Definition set_fat_c (cluster value : Z) : client unit :=
  sector ← read (fat_sector v cluster);
  let sector := put16 sector (cluster * 2 mod 512) value in
  write (fat_sector v cluster) sector ;;
  if 1 <? table_count (bpb v) then write (u32 (fat_sector v cluster + table_size_16 (bpb v))) sector
  else mret ().

Definition alloc_c : client Z :=
  r ← for_loop_c (Z.to_nat (Z.min (total_clusters v) 0xFFF0 - 2)) 2
        (λ i (_ : unit),
           x ← get_fat_c i;
           if x =? 0 then set_fat_c i 0xFFFF ;; mret (inr i) else mret (inl ())) ();
  mret (match r with inr i => i | inl _ => 0 end).

Definition free_chain_c (cluster : Z) : client unit :=
  while_c (λ c, if in_chain c then next ← get_fat_c c; set_fat_c c 0 ;; mret (inl next)
                else mret (inr ())) chain_fuel cluster ;;
  mret ().

(** Looking a file up: one request for a sector of the directory, then its
    sixteen entries in memory. *)
Definition find_file_c {R} (target : list Z) (none : client R) (found : Z → Z → list Z → client R) : client R :=
  r ← for_loop_c (Z.to_nat (root_dir_size v)) 0
        (λ sec (_ : unit),
           root_sec ← read (u32 (root_dir_sector v + sec));
           match
             for_loop 16 0
               (λ i (_ : unit),
                  let first := at_ root_sec (field i NAME) in
                  if first =? 0 then inr none
                  else if first =? 0xE5 then inl ()
                  else if name_matches root_sec i target &&
                          (at_ root_sec (field i ATTRIBUTES) .& 0x10 =? 0)
                  then inr (found sec i root_sec)
                  else inl ()) ()
           with
           | inl _ => mret (inl ())
           | inr c => x ← c; mret (inr x)
           end) ();
  match r with inl _ => none | inr x => mret x end.

Definition read_cluster_c (cluster size : Z) (out : list Z) : client (list Z + list Z) :=
  for_loop_c (Z.to_nat (sectors_per_cluster (bpb v))) 0
    (λ c out,
       temp_sec ← read (u32 (cluster_sector v cluster + c));
       let to_copy := Z.min 512 (u32 (size - Z.of_nat (length out))) in
       let out := out ++ take (Z.to_nat to_copy) temp_sec in
       mret (if size <=? Z.of_nat (length out) then inr out else inl out)) out.

Definition read_clusters_c (cluster size : Z) : client (list Z) :=
  r ← while_c
        (λ '(c, out),
           if in_chain c then
             r ← read_cluster_c c size out;
             match r with
             | inr out => mret (inr out)
             | inl out =>
                 if size <=? Z.of_nat (length out) then mret (inr out)
                 else next ← get_fat_c c; mret (inl (next, out))
             end
           else mret (inr out)) chain_fuel (cluster, []);
  mret (match r with inr out => out | inl (_, out) => out end).

Definition read_file_c (filename : list Z) : client (Z * list Z) :=
  find_file_c (format_fat_name filename) (mret (0, []))
    (λ sec i root_sec,
       let size := get32 root_sec (field i FILE_SIZE) in
       data ← read_clusters_c (get16 root_sec (field i FIRST_CLUSTER)) size;
       mret (s32 size, data)).

Definition get_file_size_c (filename : list Z) : client Z :=
  find_file_c (format_fat_name filename) (mret 0)
    (λ sec i root_sec, mret (get32 root_sec (field i FILE_SIZE))).

Definition delete_file_c (filename : list Z) : client Z :=
  find_file_c (format_fat_name filename) (mret 0)
    (λ sec i root_sec,
       free_chain_c (get16 root_sec (field i FIRST_CLUSTER)) ;;
       write (u32 (root_dir_sector v + sec)) (upd root_sec (field i NAME) 0xE5) ;;
       mret 1).

(** Step 1 of writing: the slot; a match frees the old clusters. *)
Definition find_slot_c (target : list Z) : client (option (Z * Z)) :=
  r ← for_loop_c (Z.to_nat (root_dir_size v)) 0
        (λ sec slot,
           root_sec ← read (u32 (root_dir_sector v + sec));
           match
             for_loop 16 0
               (λ i slot,
                  let first := at_ root_sec (field i NAME) in
                  if (first =? 0) || (first =? 0xE5) then
                    let slot := match slot with None => Some (sec, i) | Some s => Some s end in
                    if first =? 0 then inr (inl slot) else inl slot
                  else if name_matches root_sec i target then
                    inr (inr (Some (sec, i), get16 root_sec (field i FIRST_CLUSTER)))
                  else inl slot) slot
           with
           | inl slot => mret (inl slot)
           | inr (inl slot) => mret (inl slot)
           | inr (inr (found, cluster)) => free_chain_c cluster ;; mret (inr found)
           end) None;
  mret (match r with inl slot => slot | inr found => found end).

Definition write_cluster_c (cluster : Z) (buffer : list Z) (size bytes_written : Z) : client Z :=
  for_each_c (Z.to_nat (sectors_per_cluster (bpb v))) 0
    (λ c w,
       write (u32 (cluster_sector v cluster + c)) (write_buf buffer w) ;;
       mret (Z.min size (w + 512))) bytes_written.

(** Step 2: allocate and write. *)
Definition write_step_c (buffer : list Z) (size : Z) :
    Z * Z * Z → client ((Z * Z * Z) + option Z) :=
  λ '(first_cluster, current_cluster, w),
  if (w <? size) || ((size =? 0) && (first_cluster =? 0)) then
    new_c ← alloc_c;
    if new_c =? 0 then
      (if first_cluster =? 0 then mret () else free_chain_c first_cluster) ;; mret (inr None)
    else
      (if first_cluster =? 0 then mret () else set_fat_c current_cluster new_c) ;;
      let first_cluster := if first_cluster =? 0 then new_c else first_cluster in
      w ← write_cluster_c new_c buffer size w;
      if size =? 0 then mret (inr (Some first_cluster)) else mret (inl (first_cluster, new_c, w))
  else mret (inr (Some first_cluster)).

Definition write_data_c (buffer : list Z) (size : Z) : client (option Z) :=
  r ← while_c (write_step_c buffer size) chain_fuel (0, 0, 0);
  mret (match r with inr x => x | inl _ => None end).

(** Step 3: the directory entry. *)
Definition write_entry_c (sec i : Z) (target : list Z) (first_cluster size : Z) : client unit :=
  root_sec ← read (u32 (root_dir_sector v + sec));
  let root_sec := for_each 11 0 (λ j l, upd l (field i (NAME + j)) (at_ target j)) root_sec in
  let root_sec := upd root_sec (field i ATTRIBUTES) 0x20 in
  let root_sec := put16 root_sec (field i FIRST_CLUSTER) first_cluster in
  let root_sec := put32 root_sec (field i FILE_SIZE) size in
  write (u32 (root_dir_sector v + sec)) root_sec.

Definition write_file_c (filename buffer : list Z) (size : Z) : client Z :=
  let target_name := format_fat_name filename in
  slot ← find_slot_c target_name;
  match slot with
  | None => mret 0
  | Some (sec, i) =>
      r ← write_data_c buffer size;
      match r with
      | None => mret 0
      | Some first_cluster => write_entry_c sec i target_name first_cluster size ;; mret (s32 size)
      end
  end.
End Clients.

(** ** On an abstract disk they are the functions of Fat16.v *)

Section Run.
Context {E : Type} `{DiskLaws E} (v : vol).
Implicit Types (e : E).

Lemma run_get_fat c e : run_disk (get_fat_c v c) e = (fat16_get_fat_entry v e c, e).
Proof. reflexivity. Qed.

Lemma run_set_fat c x e : run_disk (set_fat_c v c x) e = ((), fat16_set_fat_entry v e c x).
Proof. unfold set_fat_c, fat16_set_fat_entry. cbn. by destruct (1 <? _). Qed.

Lemma run_alloc e : run_disk (alloc_c v) e = fat16_alloc_cluster v e.
Proof.
  unfold alloc_c, fat16_alloc_cluster, search. rewrite run_bind.
  set (n := Z.to_nat _). generalize 2. induction n as [|n IH]; intros i; [done|].
  cbn [for_loop for_loop_c]. rewrite !run_bind, run_get_fat.
  destruct (fat16_get_fat_entry v e i =? 0); [|apply IH].
  by rewrite run_bind, run_set_fat.
Qed.

Lemma run_free_chain c e : run_disk (free_chain_c v c) e = ((), free_chain v e c).
Proof.
  unfold free_chain_c, free_chain. rewrite run_bind.
  rewrite (run_while (λ e (c : Z), (e, c)) (λ e (_ : unit), e)
    (λ c, if in_chain c then next ← get_fat_c v c; set_fat_c v c 0 ;; mret (inl next) else mret (inr ()))).
  - by destruct (run_disk _ e) as [[c'|[]] e'].
  - intros c' e'. destruct (in_chain c'); [|done]. by rewrite run_bind, run_get_fat, run_bind, run_set_fat.
Qed.

Lemma run_find_file {R} target (none : client R) found e :
  run_disk (find_file_c v target none found) e =
  find_file v e target (run_disk none e) (λ sec i l, run_disk (found sec i l) e).
Proof.
  unfold find_file_c, find_file. rewrite run_bind.
  match goal with |- _ = match for_loop _ _ ?p _ with _ => _ end => rewrite (run_for_loop_exit _ _ _ p) end.
  - by destruct (for_loop _ _ _ _) as [[]|[x e']].
  - intros sec []. rewrite run_bind. cbn [read run_disk on_disk]. cbv zeta.
    set (l := ata_read_sector e _).
    match goal with |- run_disk match for_loop 16 0 ?f () with _ => _ end e = exited e (for_loop 16 0 ?g ()) =>
      assert (same_exit (λ (c : client R) x, run_disk c e = x) (for_loop 16 0 f ()) (for_loop 16 0 g ())) as Hrel;
      [|destruct (for_loop 16 0 f ()) as [[]|c], (for_loop 16 0 g ()) as [[]|x]; try done] end.
    + apply for_loop_rel. intros i []. repeat case_match; simplify_eq; done.
    + cbn in Hrel. rewrite run_bind, Hrel. by destruct x.
Qed.

Lemma run_read_cluster c size out e :
  run_disk (read_cluster_c v c size out) e = (read_cluster v e c size out, e).
Proof. apply run_for_loop_reads. intros j s. by rewrite run_bind. Qed.

Lemma run_read_clusters c size e :
  run_disk (read_clusters_c v c size) e = (read_clusters v e c size, e).
Proof.
  unfold read_clusters_c, read_clusters. rewrite run_bind.
  match goal with |- _ = (match while ?p _ _ with _ => _ end, _) => rewrite (run_while_reads _ p) end.
  - by destruct (while _ _ _) as [[]|].
  - intros [c' out]. destruct (in_chain c'); [|done]. rewrite run_bind, run_read_cluster.
    destruct (read_cluster v e c' size out) as [out'|out']; [|done].
    destruct (_ <=? _); [done|]. by rewrite run_bind, run_get_fat.
Qed.

Lemma run_read_file f e : run_disk (read_file_c v f) e = (fat16_read_file v e f, e).
Proof.
  unfold read_file_c, fat16_read_file. rewrite run_find_file.
  apply (find_file_rel v (λ x y, x = (y, e))); [done|]. intros sec i rs _. by rewrite run_bind, run_read_clusters.
Qed.

Lemma run_get_file_size f e : run_disk (get_file_size_c v f) e = (fat16_get_file_size v e f, e).
Proof.
  unfold get_file_size_c, fat16_get_file_size. rewrite run_find_file.
  by apply (find_file_rel v (λ x y, x = (y, e))).
Qed.

Lemma run_delete_file f e : run_disk (delete_file_c v f) e = fat16_delete_file v e f.
Proof.
  unfold delete_file_c, fat16_delete_file. rewrite run_find_file.
  apply (find_file_rel v (λ x y, x = y)); [done|]. intros sec i rs _. by rewrite run_bind, run_free_chain.
Qed.

Lemma run_find_slot target e : run_disk (find_slot_c v target) e = find_slot v e target.
Proof.
  unfold find_slot_c, find_slot. rewrite run_bind.
  match goal with |- _ = match for_loop _ _ ?p _ with _ => _ end => rewrite (run_for_loop_exit _ _ _ p) end.
  - by destruct (for_loop _ _ _ _) as [|[]].
  - intros sec slot. rewrite run_bind. cbn [read run_disk on_disk]. cbv zeta.
    set (l := ata_read_sector e _).
    set (P := λ (x : option (Z * Z) + option (Z * Z) * Z) (y : option (Z * Z) + option (Z * Z) * E),
      match x, y with inl a, inl b => a = b | inr (f, c), inr z => z = (f, free_chain v e c) | _, _ => False end).
    match goal with |- run_disk match for_loop 16 0 ?f _ with _ => _ end e = exited e match for_loop 16 0 ?g _ with _ => _ end =>
      assert (same_exit P (for_loop 16 0 f slot) (for_loop 16 0 g slot)) as Hrel;
      [|destruct (for_loop 16 0 f slot) as [x|[x|[x c]]], (for_loop 16 0 g slot) as [y|[y|y]];
        cbn in Hrel; try done; subst; try done] end.
    + apply for_loop_rel. intros i o. repeat case_match; simplify_eq; done.
    + by rewrite run_bind, run_free_chain.
Qed.

Lemma run_write_cluster c buffer size w e :
  run_disk (write_cluster_c v c buffer size w) e =
  let '(e, w) := write_cluster v e c buffer size w in (w, e).
Proof.
  unfold write_cluster_c, write_cluster.
  rewrite (run_for_each (λ e (w : Z), (e, w)) _ _ (λ c0 w, write (u32 (cluster_sector v c + c0)) (write_buf buffer w) ;;
    mret (Z.min size (w + 512)))); [by destruct (run_disk _ e)|done].
Qed.

Definition step_join e (s : Z * Z * Z) : E * Z * Z * Z := let '(f, c, w) := s in (e, f, c, w).

Lemma run_write_step buffer size s e :
  write_step v buffer size (step_join e s) =
  joined step_join pair (run_disk (write_step_c v buffer size s) e).
Proof.
  destruct s as [[first cur] w]. unfold write_step, write_step_c, step_join.
  destruct ((w <? size) || _); [|done]. rewrite run_bind, run_alloc.
  destruct (fat16_alloc_cluster v e) as [new_c e1]. destruct (new_c =? 0).
  - rewrite run_bind. destruct (first =? 0); [done|]. by rewrite run_free_chain.
  - rewrite run_bind. destruct (first =? 0).
    + cbn [mret client_ret run_disk]. rewrite run_bind, run_write_cluster.
      destruct (write_cluster _ _ _ _ _ _) as [e2 w2]. by destruct (size =? 0).
    + rewrite run_set_fat, run_bind, run_write_cluster.
      destruct (write_cluster _ _ _ _ _ _) as [e2 w2]. by destruct (size =? 0).
Qed.

Lemma run_write_data buffer size e :
  run_disk (write_data_c v buffer size) e = let '(e, r) := write_data v e buffer size in (r, e).
Proof.
  unfold write_data_c, write_data. rewrite run_bind. change (e, 0, 0, 0) with (step_join e (0, 0, 0)).
  rewrite (run_while step_join pair (write_step_c v buffer size) _ _ _ _ (run_write_step buffer size)).
  by destruct (run_disk _ e) as [[[[f c] w]|r] e'].
Qed.

Lemma run_write_entry sec i target first size e :
  run_disk (write_entry_c v sec i target first size) e = ((), write_entry v e sec i target first size).
Proof. reflexivity. Qed.

Lemma run_write_file f buffer size e :
  run_disk (write_file_c v f buffer size) e = fat16_write_file v e f buffer size.
Proof.
  unfold write_file_c, fat16_write_file. rewrite run_bind, run_find_slot.
  destruct (find_slot _ _ _) as [[[sec i]|] e1]; [|done]. rewrite run_bind, run_write_data.
  destruct (write_data _ _ _ _) as [e2 [first|]]; [|done]. by rewrite run_bind, run_write_entry.
Qed.
End Run.

(** ** Their requests have sector numbers of 28 bits *)

Section Stays.
Context {E : Type} `{DiskLaws E} (v : vol) (e0 : E) (Hok : vol_ok v e0).

Local Abbreviation N := LBA_SECTORS.
Local Abbreviation any := (λ _, True).

Lemma stays_read {A} s (f : list Z → client A) Q :
  0 ≤ s < N → (∀ l, is_sector l → stays N (f l) Q) → stays N (read s ≫= f) Q.
Proof. intros Hs Hf. eapply (stays_bind N (read s) f is_sector); [by split|exact Hf]. Qed.

Lemma stays_write {A} s l (f : client A) Q :
  0 ≤ s < N → is_sector l → stays N f Q → stays N (write s l ;; f) Q.
Proof. intros Hs Hl Hf. eapply (stays_bind N (write s l) (λ _, f) any); [by split|done]. Qed.

Lemma stays_write_last s l : 0 ≤ s < N → is_sector l → stays N (write s l) any.
Proof. by intros Hs Hl. Qed.

Lemma fat_sector_lba c : 0 ≤ c < 2 ^ 16 → 0 ≤ fat_sector v c < 2 ^ 17.
Proof.
  intros Hc. pose proof (ok_reserved _ _ Hok). unfold fat_sector.
  assert (0 ≤ c * 2 / 512 < 2 ^ 8) by dlia. rewrite u32_small by lia. lia.
Qed.

Lemma root_sector_lba sec :
  0 ≤ sec < root_dir_size v → 0 ≤ u32 (root_dir_sector v + sec) < N.
Proof.
  intros Hs. pose proof (ok_reserved _ _ Hok). pose proof (ok_tables _ _ Hok). pose proof (ok_tsize _ _ Hok).
  pose proof (ok_root_size _ _ Hok). rewrite (ok_root _ _ Hok).
  assert (0 ≤ table_count (bpb v) * table_size_16 (bpb v) < 2 ^ 24) by nia.
  unfold LBA_SECTORS. rewrite u32_small by lia. lia.
Qed.

Lemma cluster_sector_lba c k :
  2 ≤ c < 2 ^ 16 → 0 ≤ k < sectors_per_cluster (bpb v) → 0 ≤ u32 (cluster_sector v c + k) < N.
Proof.
  intros Hc Hk. pose proof (ok_reserved _ _ Hok). pose proof (ok_tables _ _ Hok). pose proof (ok_tsize _ _ Hok).
  pose proof (ok_root_size _ _ Hok). pose proof (ok_spc _ _ Hok).
  assert (0 ≤ table_count (bpb v) * table_size_16 (bpb v) < 2 ^ 24) by nia.
  assert (0 ≤ (c - 2) * sectors_per_cluster (bpb v) < 2 ^ 24) by nia.
  unfold cluster_sector, LBA_SECTORS. rewrite (ok_data _ _ Hok), (ok_root _ _ Hok).
  rewrite (u32_small (_ + (c - 2) * _)) by lia. rewrite u32_small by lia. lia.
Qed.

Lemma get_fat_stays c : 0 ≤ c < 2 ^ 16 → stays N (get_fat_c v c) any.
Proof.
  intros Hc. pose proof (fat_sector_lba c Hc). apply stays_read; [unfold LBA_SECTORS; lia|done].
Qed.

Lemma set_fat_stays c x : 0 ≤ c < 2 ^ 16 → stays N (set_fat_c v c x) any.
Proof.
  intros Hc. pose proof (fat_sector_lba c Hc) as Hf. pose proof (ok_tsize _ _ Hok).
  apply stays_read; [unfold LBA_SECTORS; lia|]. intros l Hl. pose proof (put16_sector l (c * 2 mod 512) x Hl).
  apply stays_write; [unfold LBA_SECTORS; lia|done|].
  destruct (1 <? _); [|done]. apply stays_write_last; [|done].
  unfold LBA_SECTORS. rewrite u32_small by lia. lia.
Qed.

Lemma in_chain_range c : in_chain c = true → 2 ≤ c < 2 ^ 16.
Proof. unfold in_chain. lia. Qed.

Lemma alloc_stays : stays N (alloc_c v) (λ c, 0 ≤ c < 2 ^ 16 ∧ (c ≠ 0 → 2 ≤ c)).
Proof.
  unfold alloc_c. set (n := Z.to_nat _).
  assert (2 + Z.of_nat n ≤ 2 ^ 16) as Hn by (unfold n; lia).
  eapply (stays_bind N _ _ (λ r, match r with inl _ => True | inr c => 2 ≤ c < 2 ^ 16 end)).
  - apply (for_loop_stays N n 2 _ () any (λ c, 2 ≤ c < 2 ^ 16)); [done|]. intros i [] Hi _.
    eapply stays_bind; [apply get_fat_stays; lia|]. intros x _. destruct (x =? 0); [|done].
    eapply stays_bind; [apply set_fat_stays; lia|]. intros [] _. cbn. lia.
  - intros [[]|c] Hc; cbn; lia.
Qed.

Lemma free_chain_stays c : stays N (free_chain_c v c) any.
Proof.
  unfold free_chain_c. eapply (stays_bind N _ _ any); [|done].
  eapply stays_mono; [apply (while_stays N _ chain_fuel c any any)|done]; [done|]. intros c' _.
  destruct (in_chain c') eqn:Hc; [|done]. apply in_chain_range in Hc.
  eapply stays_bind; [apply get_fat_stays; lia|]. intros x _.
  eapply stays_bind; [apply set_fat_stays; lia|done].
Qed.

Lemma find_file_stays {R} target (none : client R) found Q :
  stays N none Q →
  (∀ sec i l, 0 ≤ sec < root_dir_size v → is_sector l → stays N (found sec i l) Q) →
  stays N (find_file_c v target none found) Q.
Proof.
  intros Hn Hf. unfold find_file_c.
  eapply (stays_bind N _ _ (λ r, match r with inl _ => True | inr x => Q x end)); [|by intros [[]|x]].
  apply (for_loop_stays N _ 0 _ () any Q); [done|]. intros sec [] Hsec _.
  assert (0 ≤ sec < root_dir_size v) as Hs by (pose proof (ok_root_size _ _ Hok); lia).
  apply stays_read; [by apply root_sector_lba|]. intros l Hl.
  match goal with |- stays _ match for_loop 16 0 ?f () with _ => _ end _ =>
    assert (match for_loop 16 0 f () with inl _ => True | inr c => stays N c Q end) as Hc;
    [|destruct (for_loop 16 0 f ()) as [[]|c]; [done|by eapply stays_bind]] end.
  apply (for_loop_ind (λ _ _, True) (λ c, stays N c Q)); [done|]. intros i [] _ _.
  repeat case_match; simplify_eq; try done. by apply Hf.
Qed.

Lemma read_cluster_stays c size out :
  2 ≤ c < 2 ^ 16 → stays N (read_cluster_c v c size out) any.
Proof.
  intros Hc. eapply stays_mono; [apply (for_loop_stays N _ 0 _ out any any)|done]; [done|]. intros k o Hk _.
  apply stays_read; [|intros l _; cbn; by case_match].
  apply cluster_sector_lba; [done|]. pose proof (ok_spc _ _ Hok). lia.
Qed.

Lemma read_clusters_stays c size : stays N (read_clusters_c v c size) any.
Proof.
  unfold read_clusters_c. eapply (stays_bind N _ _ any); [|done].
  eapply stays_mono; [apply (while_stays N _ chain_fuel (c, []) any any)|done]; [done|]. intros [c' out] _.
  destruct (in_chain c') eqn:Hc; [|done]. apply in_chain_range in Hc.
  eapply stays_bind; [by apply read_cluster_stays|]. intros [o|o] _; [|done].
  destruct (_ <=? _); [done|]. eapply stays_bind; [apply get_fat_stays; lia|done].
Qed.

Lemma read_file_stays f : stays N (read_file_c v f) any.
Proof.
  apply find_file_stays; [done|]. intros sec i l _ _. eapply stays_bind; [apply read_clusters_stays|done].
Qed.

Lemma get_file_size_stays f : stays N (get_file_size_c v f) any.
Proof. by apply find_file_stays. Qed.

Lemma delete_file_stays f : stays N (delete_file_c v f) any.
Proof.
  apply find_file_stays; [done|]. intros sec i l Hs Hl. eapply stays_bind; [apply free_chain_stays|]. intros [] _.
  apply stays_write; [by apply root_sector_lba|by apply upd_sector|done].
Qed.

Lemma find_slot_stays target :
  stays N (find_slot_c v target)
    (λ r, match r with Some (sec, _) => 0 ≤ sec < root_dir_size v | None => True end).
Proof.
  set (P := λ r : option (Z * Z), match r with Some (sec, _) => 0 ≤ sec < root_dir_size v | None => True end).
  unfold find_slot_c. eapply (stays_bind N _ _ (λ r, match r with inl s => P s | inr s => P s end)); [|by intros []].
  apply (for_loop_stays N _ 0 _ None P P); [done|]. intros sec slot Hsec Hslot.
  assert (0 ≤ sec < root_dir_size v) as Hs by (pose proof (ok_root_size _ _ Hok); lia).
  apply stays_read; [by apply root_sector_lba|]. intros l Hl.
  match goal with |- stays _ match for_loop 16 0 ?f slot with _ => _ end _ =>
    assert (match for_loop 16 0 f slot with
            | inl s => P s | inr (inl s) => P s | inr (inr (s, _)) => P s end) as Hc end.
  { match goal with |- context [for_loop 16 0 ?f slot] =>
      apply (for_loop_ind (λ _ s, P s) (λ x, match x with inl s => P s | inr (s, _) => P s end)); [done|] end.
    intros i o _ Ho. repeat case_match; simplify_eq; done. }
  destruct (for_loop 16 0 _ slot) as [x|[x|[x c]]]; [done|done|].
  eapply stays_bind; [apply free_chain_stays|done].
Qed.

Lemma write_cluster_stays c buffer size w :
  2 ≤ c < 2 ^ 16 → Forall is_byte buffer → stays N (write_cluster_c v c buffer size w) any.
Proof.
  intros Hc Hb. apply (for_each_stays N _ 0 _ w any); [done|]. intros k w' Hk _.
  apply stays_write; [|by apply write_buf_sector|done].
  apply cluster_sector_lba; [done|]. pose proof (ok_spc _ _ Hok). lia.
Qed.

(** The clusters in the state of the loop are clusters. *)
Lemma write_data_stays buffer size :
  Forall is_byte buffer → stays N (write_data_c v buffer size) any.
Proof.
  intros Hb. unfold write_data_c. eapply (stays_bind N _ _ any); [|done].
  eapply stays_mono; [apply (while_stays N _ chain_fuel (0, 0, 0)
    (λ s, 0 ≤ s.1.2 < 2 ^ 16) any)|done]; [cbn; lia|].
  intros [[first cur] w] Hcur. cbn [fst snd] in Hcur. unfold write_step_c.
  destruct ((w <? size) || _); [|done].
  eapply stays_bind; [apply alloc_stays|]. intros c [Hc Hc0]. destruct (Z.eqb_spec c 0) as [|Hne].
  - eapply (stays_bind N _ _ any); [|done]. destruct (first =? 0); [done|apply free_chain_stays].
  - eapply (stays_bind N _ _ any).
    { destruct (first =? 0); [done|apply set_fat_stays; lia]. }
    intros [] _. eapply stays_bind; [apply write_cluster_stays; [specialize (Hc0 Hne); lia|done]|].
    intros w' _. destruct (size =? 0); [done|]. cbn. lia.
Qed.

Lemma write_entry_stays sec i target first size :
  0 ≤ sec < root_dir_size v → Forall is_byte target →
  stays N (write_entry_c v sec i target first size) any.
Proof.
  intros Hs Ht. apply stays_read; [by apply root_sector_lba|]. intros l Hl.
  apply stays_write_last; [by apply root_sector_lba|].
  apply put32_sector, put16_sector, upd_sector; [|done].
  apply (for_each_ind (λ _ l, is_sector l)); [done|]. intros j l' _ Hl'. apply upd_sector; [done|by apply at_byte].
Qed.

Lemma write_file_stays f buffer size :
  Forall is_byte f → Forall is_byte buffer → stays N (write_file_c v f buffer size) any.
Proof.
  intros Hf Hb. eapply stays_bind; [apply find_slot_stays|]. intros [[sec i]|] Hs; [|done].
  eapply stays_bind; [by apply write_data_stays|]. intros [first|] _; [|done].
  eapply (stays_bind N _ _ any); [|done]. apply write_entry_stays; [done|by apply format_fat_name_ok].
Qed.
End Stays.

(** ** On the ports *)

Section Ports.
Context {D : Type} `{AtaLaws D view} {E : Type} `{DiskLaws E} (fuel : positive) (v : vol).

(** A call of a routine of fat16.c. *)
Inductive file_call :=
  | ReadFile (filename : list Z)
  | GetSize (filename : list Z)
  | DeleteFile (filename : list Z)
  | WriteFile (filename buffer : list Z) (size : Z).

Definition call_ok (o : file_call) : Prop :=
  match o with
  | ReadFile f | GetSize f | DeleteFile f => Forall is_byte f
  | WriteFile f buffer _ => Forall is_byte f ∧ Forall is_byte buffer
  end.

(** What it returns and what it stores in the caller's buffer. *)
Definition call_c (o : file_call) : client (Z * list Z) :=
  match o with
  | ReadFile f => read_file_c v f
  | GetSize f => n ← get_file_size_c v f; mret (n, [])
  | DeleteFile f => n ← delete_file_c v f; mret (n, [])
  | WriteFile f buffer size => n ← write_file_c v f buffer size; mret (n, [])
  end.

Definition call_on (o : file_call) (e : E) : (Z * list Z) * E :=
  match o with
  | ReadFile f => (fat16_read_file v e f, e)
  | GetSize f => ((fat16_get_file_size v e f, []), e)
  | DeleteFile f => let '(n, e) := fat16_delete_file v e f in ((n, []), e)
  | WriteFile f buffer size => let '(n, e) := fat16_write_file v e f buffer size in ((n, []), e)
  end.

Fixpoint calls_c (os : list file_call) : client (list (Z * list Z)) :=
  match os with
  | [] => mret []
  | o :: os => r ← call_c o; rs ← calls_c os; mret (r :: rs)
  end.

Fixpoint calls_on (os : list file_call) (e : E) : list (Z * list Z) * E :=
  match os with
  | [] => ([], e)
  | o :: os => let '(r, e) := call_on o e in let '(rs, e) := calls_on os e in (r :: rs, e)
  end.

Lemma run_call o e : run_disk (call_c o) e = call_on o e.
Proof.
  destruct o as [f|f|f|f buffer size]; cbn [call_c call_on]; [apply run_read_file|..]; rewrite run_bind.
  - by rewrite run_get_file_size.
  - rewrite run_delete_file. by destruct (fat16_delete_file v e f).
  - rewrite run_write_file. by destruct (fat16_write_file v e f buffer size).
Qed.

Lemma run_calls os e : run_disk (calls_c os) e = calls_on os e.
Proof.
  revert e. induction os as [|o os IH]; intros e; [done|]. cbn [calls_c calls_on].
  rewrite run_bind, run_call. destruct (call_on o e) as [r e1].
  rewrite run_bind, IH. by destruct (calls_on os e1).
Qed.

Lemma call_stays o e : vol_ok v e → call_ok o → stays LBA_SECTORS (call_c o) (λ _, True).
Proof.
  intros Hok Ho. destruct o as [f|f|f|f buffer size]; cbn [call_c call_ok] in *.
  - by eapply read_file_stays.
  - eapply (stays_bind _ _ _ (λ _, True)); [by eapply get_file_size_stays|done].
  - eapply (stays_bind _ _ _ (λ _, True)); [by eapply delete_file_stays|done].
  - destruct Ho. eapply (stays_bind _ _ _ (λ _, True)); [by eapply write_file_stays|done].
Qed.

Lemma calls_stay os e : vol_ok v e → Forall call_ok os → stays LBA_SECTORS (calls_c os) (λ _, True).
Proof.
  intros Hok. induction 1 as [|o os Ho _ IH]; [done|]. cbn [calls_c].
  eapply (stays_bind _ _ _ (λ _, True)); [by apply (call_stays o e)|]. intros r _.
  eapply (stays_bind _ _ _ (λ _, True)); [done|done].
Qed.

(** C22. The file system on the drive. On a machine whose drive, of 2^28 sectors,
    holds the sectors of an abstract disk, reports no errors and gets ready within
    the fuel (while it is busy it takes no command and moves no data), every sequence of calls of
    fat16_read_file, fat16_get_file_size, fat16_delete_file and fat16_write_file,
    request by request through the ports of ata.c, ends and prints nothing; the
    calls return and store what the functions of Fat16.v say, each on the disk the
    one before it left, and the drive is idle at the end and holds the sectors the
    last one left. Of the volume nothing but its geometry is assumed: damaged
    directories and circular chains are included. *)
Theorem fat16_on_ports os d e :
  vol_ok v e → sectors e = LBA_SECTORS → agree (view := view) fuel d e → Forall call_ok os →
  ∃ d', run_ports fuel (calls_c os) d = Some ([], (calls_on os e).1, d') ∧
    agree (view := view) fuel d' (calls_on os e).2.
Proof.
  intros Hok Hs Ha Hos. rewrite <- run_calls. apply ata_runs_client; [lia|done|rewrite Hs; by apply (calls_stay os e)].
Qed.
End Ports.
