(* ===== verification/Fat16PortsDemo.v ===== *)
(** The file system on a concrete drive: the volume of Fat16Demo.v with its file
    A.TXT, in the first sectors of a drive of 2^28. *)

From S2P Require Import Ata AtaDisk Fat16 Fat16Table Fat16Demo Fat16Ports.

(** The same sectors as an abstract disk and in a drive that is busy at first
    and in its first commands. *)
Definition ports_disk : gmap_disk := mk_gdisk LBA_SECTORS (g_data demo_file).
Definition ports_drive : drive := mk_drive 0 0 0 0 NoData 3 [5; 0; 2; 4]%nat (g_data demo_file).

(** Reading the file, deleting it, asking for its size, writing another that
    needs a cluster, and one for which the disk has no room. *)
Definition ports_calls : list file_call :=
  [ReadFile (str "A.TXT"); DeleteFile (str "A.TXT"); GetSize (str "a.txt");
   WriteFile (str "b.txt") [1; 2; 3] 3; ReadFile (str "b.txt"); WriteFile (str "c.txt") (repeat 7 1025) 1025].

Lemma ports_vol_ok : vol_ok demo_vol ports_disk.
Proof.
  split; cbn [demo_vol bpb bytes_per_sector sectors_per_cluster reserved_sector_count
    table_count table_size_16 root_dir_sector root_dir_size data_sector];
    try change (limit demo_vol) with 4; change (sectors ports_disk) with LBA_SECTORS; unfold LBA_SECTORS; lia.
Qed.

Lemma ports_results :
  (calls_on demo_vol ports_calls ports_disk).1 =
    [(2, str "hi"); (1, []); (0, []); (3, []); (3, [1; 2; 3]); (0, [])].
Proof. vm_compute. reflexivity. Qed.

Lemma ports_sectors s : sector_of ports_drive s = Block.ata_read_sector ports_disk s.
Proof.
  cbn [Block.ata_read_sector gmap_disk_ops]. unfold as_sector. rewrite decide_True; [done|].
  change (g_data ports_disk) with (g_data demo_file).
  assert (map_Forall (λ _ l, is_sector l) (g_data demo_file)) as Hall.
  { apply (bool_decide_unpack _). vm_compute. done. }
  destruct (g_data demo_file !! s) as [l|] eqn:Hs; cbn; [by apply (Hall s)|apply zero_is_sector].
Qed.

Lemma ports_agree : agree (view := id) 10 ports_drive ports_disk.
Proof.
  split; [|intros s _; apply ports_sectors].
  split; [done|]. cbn. split; [lia|]. repeat constructor; lia.
Qed.

Lemma ports_calls_ok : Forall call_ok ports_calls.
Proof.
  do 6 (apply (Forall_cons_2 call_ok); [cbn [call_ok]; try split; apply bytes_of; vm_compute; reflexivity|]).
  apply (Forall_nil_2 call_ok).
Qed.

Lemma fat16_on_ports_witness :
  ∃ d', run_ports 10 (calls_c demo_vol ports_calls) ports_drive =
      Some ([], [(2, str "hi"); (1, []); (0, []); (3, []); (3, [1; 2; 3]); (0, [])], d') ∧
    agree (view := id) 10 d' (calls_on demo_vol ports_calls ports_disk).2.
Proof.
  rewrite <- ports_results.
  apply (fat16_on_ports 10 demo_vol ports_calls ports_drive ports_disk).
  - exact ports_vol_ok.
  - exact (eq_refl LBA_SECTORS).
  - exact ports_agree.
  - exact ports_calls_ok.
Defined.
