(* ===== verification/Pci.v ===== *)
(** The PCI bus scan (src/hal/pci.c) with the USB stubs it calls
    (src/hal/usb.c), and the serial port (src/hal/serial.c).

    The scan is a loop over 256 buses of 32 slots; what it prints is collected
    in [scan]. [PciLaws] is the configuration mechanism of the PCI
    specification: the address written to port 0xCF8 selects the word that port
    0xCFC then gives. *)

From S2P Require Import Io.
Open Scope Z_scope.

(** [(bus << 16) | (slot << 11) | (func << 8) | (offset & 0xfc) | 0x80000000] *)
Definition config_address (bus slot func offset : Z) : Z :=
  u32 ((bus << 16) .| (slot << 11) .| (func << 8) .| (offset .& 0xfc) .| 0x80000000).

Definition ehci_stub : list Z := str "USB: Inicializando driver EHCI puro (stub)..." ++ [10].
Definition xhci_stub : list Z := str "USB: Inicializando driver xHCI puro (stub)..." ++ [10].

(** The stubs print and do nothing else. *)
Definition usb_ehci_init (out : list Z) (bus slot func : Z) : list Z := out ++ ehci_stub.
Definition usb_xhci_init (out : list Z) (bus slot func : Z) : list Z := out ++ xhci_stub.

(** What is reported of a USB controller. *)
Definition usb_found (out : list Z) (bus slot func prog_if : Z) : list Z :=
  if prog_if =? 0x00 then out ++ str "PCI: Encontrado Controlador USB UHCI" ++ [10]
  else if prog_if =? 0x10 then out ++ str "PCI: Encontrado Controlador USB OHCI" ++ [10]
  else if prog_if =? 0x20 then
    usb_ehci_init (out ++ str "PCI: Encontrado Controlador USB EHCI" ++ [10]) bus slot func
  else if prog_if =? 0x30 then
    usb_xhci_init (out ++ str "PCI: Encontrado Controlador USB xHCI" ++ [10]) bus slot func
  else out ++ str "PCI: Encontrado Controlador USB Desconhecido" ++ [10].

Definition legacy_note : list Z :=
  str "USB: Rotinas xHCI/EHCI nativas ainda nao iniciadas. Usando BIOS SMI Legacy Emulation." ++ [10].

Section Scan.
Context {D : Type} `{Ports D}.

Definition pci_read_config (d : D) (bus slot func offset : Z) : Z * D :=
  let d := outl d 0xCF8 (config_address bus slot func offset) in
  inl_ d 0xCFC.

(** The devices, what has been printed, and [found_usb]. *)
Definition scan : Type := D * list Z * bool.

Definition scan_func (bus slot func : Z) (s : scan) : scan :=
  let '(d, out, found_usb) := s in
  let '(class_info, d) := pci_read_config d bus slot func 0x08 in
  let class_code := u8 ((class_info >> 24) .& 0xFF) in
  let subclass := u8 ((class_info >> 16) .& 0xFF) in
  let prog_if := u8 ((class_info >> 8) .& 0xFF) in
  if (class_code =? 0x0C) && (subclass =? 0x03) then (d, usb_found out bus slot func prog_if, true)
  else (d, out, found_usb).

Definition scan_slot (bus slot : Z) (s : scan) : scan :=
  let '(d, out, found_usb) := s in
  let '(vendor, d) := pci_read_config d bus slot 0 0 in
  if vendor .& 0xFFFF =? 0xFFFF then (d, out, found_usb)
  else for_each 8 0 (scan_func bus slot) (d, out, found_usb).

Definition pci_init (d : D) : D * list Z :=
  let '(d, out, found_usb) :=
    for_each 256 0 (λ bus s, for_each 32 0 (scan_slot bus) s) (d, [], false) in
  (d, if found_usb then out ++ legacy_note else out).

(** ** The serial port *)

Definition PORT : Z := 0x3f8.

Definition serial_init (d : D) : D :=
  let d := outb d (PORT + 1) 0x00 in
  let d := outb d (PORT + 3) 0x80 in
  let d := outb d (PORT + 0) 0x03 in
  let d := outb d (PORT + 1) 0x00 in
  let d := outb d (PORT + 3) 0x03 in
  let d := outb d (PORT + 2) 0xC7 in
  outb d (PORT + 4) 0x0B.

Definition is_transmit_empty (d : D) : Z * D :=
  let '(status, d) := inb d (PORT + 5) in (u8 status .& 0x20, d).

(** [None]: the port was not ready within [fuel] polls. *)
Definition serial_putchar (fuel : positive) (d : D) (a : Z) : option D :=
  match
    while (λ d, let '(ready, d) := is_transmit_empty d in if ready =? 0 then inl d else inr d) fuel d
  with
  | inr d => Some (outb d PORT (u8 a))
  | inl _ => None
  end.

Fixpoint serial_print (fuel : positive) (d : D) (s : list Z) : option D :=
  match s with
  | [] => Some d
  | c :: s => match serial_putchar fuel d c with Some d => serial_print fuel d s | None => None end
  end.
End Scan.

(** ** What the scan reports *)

(** The configuration space: the word at an offset of a function. *)
Definition config_space : Type := Z → Z → Z → Z → Z.

(** [config d] is the space, [latch d] the address selected. *)
Class PciLaws (D : Type) `{Ports D} (config : D → config_space) (latch : D → Z) := {
  pci_select d a : config (outl d 0xCF8 a) = config d ∧ latch (outl d 0xCF8 a) = a;
  pci_word d bus slot func offset :
    0 ≤ bus < 256 → 0 ≤ slot < 32 → 0 ≤ func < 8 → 0 ≤ offset < 64 →
    latch d = 2 ^ 31 + 2 ^ 16 * bus + 2 ^ 11 * slot + 2 ^ 8 * func + 4 * offset →
    (inl_ d 0xCFC).1 = config d bus slot func offset;
  pci_read_keeps d : config (inl_ d 0xCFC).2 = config d;
}.

(** The address is the sum of its fields. *)
Lemma config_address_spec bus slot func offset :
  0 ≤ bus < 256 → 0 ≤ slot < 32 → 0 ≤ func < 8 → 0 ≤ offset < 64 →
  config_address bus slot func (4 * offset) =
  2 ^ 31 + 2 ^ 16 * bus + 2 ^ 11 * slot + 2 ^ 8 * func + 4 * offset.
Proof.
  intros Hb Hs Hf Ho. unfold config_address. rewrite !Z.shiftl_mul_pow2 by lia.
  assert (4 * offset .& 0xfc = 4 * offset) as ->.
  { apply Z.eqb_eq, (forall_range (λ o, 4 * o .& 0xfc =? 4 * o) 0 64); [by vm_compute|lia]. }
  rewrite (lor_aligned (bus * 2 ^ 16) (slot * 2 ^ 11) 16) by (lia || dlia).
  rewrite (lor_aligned _ (func * 2 ^ 8) 11) by (lia || dlia).
  rewrite (lor_aligned _ (4 * offset) 8) by (lia || dlia).
  rewrite Z.lor_comm. change 0x80000000 with (2 ^ 31). rewrite (lor_aligned (2 ^ 31) _ 31) by (lia || dlia).
  rewrite u32_small; lia.
Qed.

Section Report.
Context {D : Type} `{PciLaws D}.

(** The specification: the USB controllers of the functions of the slots that
    answer, in order. *)
Definition class_of (c : config_space) (bus slot func : Z) : Z := c bus slot func 2.
Definition is_usb (c : config_space) (bus slot func : Z) : bool :=
  class_of c bus slot func / 2 ^ 16 mod 2 ^ 16 =? 0x0C03.
Definition present (c : config_space) (bus slot : Z) : bool := negb (c bus slot 0 0 mod 2 ^ 16 =? 0xFFFF).

Definition func_report (c : config_space) (bus slot func : Z) : list Z :=
  if is_usb c bus slot func
  then usb_found [] bus slot func (class_of c bus slot func / 2 ^ 8 mod 2 ^ 8) else [].
Definition slot_report (c : config_space) (bus slot : Z) : list Z :=
  if present c bus slot then concat (func_report c bus slot <$> seqZ 0 8) else [].
Definition slot_usb (c : config_space) (bus slot : Z) : bool :=
  present c bus slot && existsb (is_usb c bus slot) (seqZ 0 8).
Definition bus_report (c : config_space) (bus : Z) : list Z := concat (slot_report c bus <$> seqZ 0 32).
Definition bus_usb (c : config_space) (bus : Z) : bool := existsb (slot_usb c bus) (seqZ 0 32).

Lemma usb_found_app out bus slot func p :
  usb_found out bus slot func p = out ++ usb_found [] bus slot func p.
Proof.
  unfold usb_found, usb_ehci_init, usb_xhci_init. rewrite !app_nil_l.
  by destruct (p =? 0), (p =? 0x10), (p =? 0x20), (p =? 0x30); rewrite ?app_assoc.
Qed.

Lemma read_config_spec d bus slot func offset :
  0 ≤ bus < 256 → 0 ≤ slot < 32 → 0 ≤ func < 8 → 0 ≤ offset < 64 →
  ∃ d', pci_read_config d bus slot func (4 * offset) = (config d bus slot func offset, d') ∧
    config d' = config d.
Proof.
  intros Hb Hs Hf Ho. unfold pci_read_config. rewrite config_address_spec by done.
  destruct (pci_select d (2 ^ 31 + 2 ^ 16 * bus + 2 ^ 11 * slot + 2 ^ 8 * func + 4 * offset)) as [Hc Hl].
  set (d1 := outl d 0xCF8 _) in *.
  pose proof (pci_word d1 bus slot func offset Hb Hs Hf Ho Hl) as Hw.
  pose proof (pci_read_keeps d1) as Hk. destruct (inl_ d1 0xCFC) as [w d2]. cbn in Hw, Hk.
  exists d2. rewrite Hw, Hk, Hc. done.
Qed.

(** A loop whose body adds a report and keeps the configuration space. *)
Lemma scan_loop (c : config_space) (f : Z → scan → scan) (R : Z → list Z) (B : Z → bool) (n : nat) i d out b :
  (∀ j d out b, i ≤ j < i + Z.of_nat n → config d = c →
     ∃ d', f j (d, out, b) = (d', out ++ R j, b || B j) ∧ config d' = c) →
  config d = c →
  ∃ d', for_each n i f (d, out, b) =
      (d', out ++ concat (R <$> seqZ i (Z.of_nat n)), b || existsb B (seqZ i (Z.of_nat n))) ∧
    config d' = c.
Proof.
  revert i d out b. induction n as [|n IH]; intros i d out b Hf Hd; cbn [for_each].
  - exists d. cbn. by rewrite app_nil_r, orb_false_r.
  - destruct (Hf i d out b ltac:(lia) Hd) as (d1 & -> & Hd1).
    destruct (IH (i + 1) d1 (out ++ R i) (b || B i)) as (d2 & -> & Hd2); [|done|].
    { intros j d' out' b' Hj. apply Hf. lia. }
    exists d2. split; [|done]. rewrite (seqZ_cons i (Z.of_nat (S n))) by lia.
    replace (Z.succ i) with (i + 1) by lia. replace (Z.pred (Z.of_nat (S n))) with (Z.of_nat n) by lia.
    cbn. by rewrite <- app_assoc, <- orb_assoc.
Qed.

(** The class bytes, as the code takes them apart. *)
Lemma class_bytes x k : 0 ≤ k → u8 ((x >> k) .& 0xFF) = x / 2 ^ k mod 2 ^ 8.
Proof.
  intros Hk. change 0xFF with (Z.ones 8). rewrite Z.land_ones, Z.shiftr_div_pow2 by lia.
  unfold u8. by rewrite Z.mod_mod by lia.
Qed.

Lemma usb_test x :
  (u8 ((x >> 24) .& 0xFF) =? 0x0C) && (u8 ((x >> 16) .& 0xFF) =? 0x03) =
  (x / 2 ^ 16 mod 2 ^ 16 =? 0x0C03).
Proof.
  rewrite !class_bytes by lia. apply eq_true_iff_eq.
  rewrite andb_true_iff, !Z.eqb_eq. split; dlia.
Qed.

Lemma scan_func_spec c bus slot func d out b :
  0 ≤ bus < 256 → 0 ≤ slot < 32 → 0 ≤ func < 8 → config d = c →
  ∃ d', scan_func bus slot func (d, out, b) =
      (d', out ++ func_report c bus slot func, b || is_usb c bus slot func) ∧ config d' = c.
Proof.
  intros Hb Hs Hf Hd. destruct (read_config_spec d bus slot func 2 Hb Hs Hf ltac:(lia)) as (d' & Hr & Hc).
  unfold scan_func. change 0x08 with (4 * 2). rewrite Hr, Hd. exists d'.
  split; [|congruence]. rewrite usb_test. unfold func_report, is_usb, class_of.
  destruct (_ =? 0x0C03); [|by rewrite app_nil_r, orb_false_r].
  by rewrite usb_found_app, orb_true_r, class_bytes by lia.
Qed.

Lemma scan_slot_spec c bus slot d out b :
  0 ≤ bus < 256 → 0 ≤ slot < 32 → config d = c →
  ∃ d', scan_slot bus slot (d, out, b) =
      (d', out ++ slot_report c bus slot, b || slot_usb c bus slot) ∧ config d' = c.
Proof.
  intros Hb Hs Hd. destruct (read_config_spec d bus slot 0 0 Hb Hs ltac:(lia) ltac:(lia)) as (d1 & Hr & Hc).
  unfold scan_slot. rewrite Z.mul_0_r in Hr. rewrite Hr, Hd. unfold slot_report, slot_usb, present.
  change 0xFFFF with (Z.ones 16) at 1. rewrite Z.land_ones by lia. change (Z.ones 16) with 0xFFFF.
  destruct (_ =? 0xFFFF); cbn [negb andb].
  - exists d1. rewrite app_nil_r, orb_false_r. split; [done|congruence].
  - apply (scan_loop c (scan_func bus slot) (func_report c bus slot) (is_usb c bus slot) 8); [|congruence].
    intros. apply scan_func_spec; lia || done.
Qed.

(** C39. The scan of the bus prints one report for each USB controller of the
    configuration space, in the order of buses, slots and functions, skipping
    the slots whose first function is absent, and the closing note exactly when
    there was one. *)
Theorem pci_report d :
  (pci_init d).2 =
  concat (bus_report (config d) <$> seqZ 0 256) ++
  (if existsb (bus_usb (config d)) (seqZ 0 256) then legacy_note else []).
Proof.
  unfold pci_init. destruct (scan_loop (config d) (λ bus s, for_each 32 0 (scan_slot bus) s)
    (bus_report (config d)) (bus_usb (config d)) 256 0 d [] false) as (d' & -> & _); [|done|].
  - intros bus d1 out b Hbus Hd1.
    apply (scan_loop (config d) (scan_slot bus) (slot_report (config d) bus) (slot_usb (config d) bus) 32);
      [|done].
    intros. apply scan_slot_spec; lia || done.
  - cbn [snd]. rewrite app_nil_l, orb_false_l. change (Z.of_nat 256) with 256.
    destruct (existsb _ _); [done|by rewrite app_nil_r].
Qed.
End Report.

(** ** The serial port as a queue *)

Section Serial.
Context {D : Type} `{Ports D}.

(** [sent d] are the bytes sent; [wait d] is how many more polls find the port
    busy. *)
Class SerialLaws (sent : D → list Z) (wait : D → nat) := {
  serial_poll d : sent (inb d 0x3FD).2 = sent d ∧
    match wait d with
    | O => u8 (inb d 0x3FD).1 .& 0x20 ≠ 0
    | S n => u8 (inb d 0x3FD).1 .& 0x20 = 0 ∧ wait (inb d 0x3FD).2 = n
    end;
  serial_send d v : sent (outb d 0x3F8 v) = sent d ++ [v];
}.

Context `{SerialLaws sent wait} (fuel : positive).

Lemma serial_putchar_spec d a :
  (wait d < Pos.to_nat fuel)%nat →
  ∃ d', serial_putchar fuel d a = Some d' ∧ sent d' = sent d ++ [u8 a].
Proof.
  intros Hw. unfold serial_putchar. rewrite while_steps. generalize dependent (Pos.to_nat fuel).
  intros n. revert d. induction n as [|n IH]; intros d Hw; [lia|]. cbn [steps].
  unfold is_transmit_empty at 1. change (PORT + 5) with 0x3FD.
  destruct (serial_poll d) as [Hs Hp]. destruct (inb d 0x3FD) as [status d1]. cbn [fst snd] in *.
  destruct (wait d) as [|w].
  - rewrite (proj2 (Z.eqb_neq _ _) Hp). eexists. split; [done|]. change PORT with 0x3F8.
    by rewrite serial_send, Hs.
  - destruct Hp as [-> Hw1]. cbn -[steps]. destruct (IH d1 ltac:(lia)) as (d' & Hd' & Hs').
    exists d'. split; [exact Hd'|]. by rewrite Hs', Hs.
Qed.

(** Printing sends the characters in order, when the port always gets ready. *)
Lemma serial_print_spec d s :
  (∀ d, (wait d < Pos.to_nat fuel)%nat) →
  ∃ d', serial_print fuel d s = Some d' ∧ sent d' = sent d ++ (u8 <$> s).
Proof.
  intros Hw. revert d. induction s as [|c s IH]; intros d; cbn [serial_print].
  - exists d. by rewrite app_nil_r.
  - destruct (serial_putchar_spec d c (Hw d)) as (d1 & -> & H1).
    destruct (IH d1) as (d2 & Hd2 & H2). exists d2. split; [done|]. rewrite H2, H1.
    by rewrite <- app_assoc.
Qed.
End Serial.

(** ** A machine with one xHCI controller, at slot 3 of bus 0 *)

Record pci_bench := mk_pci_bench { bench_config : config_space; bench_latch : Z }.

Definition demo_config : config_space := λ bus slot func offset,
  if (bus =? 0) && (slot =? 3) && (func =? 0) then (if offset =? 2 then 0x0C033000 else 0x12348086)
  else 0xFFFFFFFF.

Definition pci_lookup (d : pci_bench) : Z :=
  let a := bench_latch d in
  bench_config d (a / 2 ^ 16 mod 2 ^ 8) (a / 2 ^ 11 mod 2 ^ 5) (a / 2 ^ 8 mod 2 ^ 3) (a / 4 mod 64).

#[export] Instance pci_ports : Ports pci_bench := {
  inb d port := (0, d);
  outb d port v := d;
  outw d port v := d;
  inl_ d port := (pci_lookup d, d);
  outl d port v := mk_pci_bench (bench_config d) v;
  insw d port n := ([], d);
  outsw d port bytes := d;
}.

#[export] Instance pci_laws : PciLaws pci_bench bench_config bench_latch.
Proof.
  split; [done| |done]. intros d bus slot func offset Hb Hs Hf Ho Hl. cbn. unfold pci_lookup. rewrite Hl.
  f_equal; dlia.
Qed.

Lemma demo_bus :
  bus_report demo_config 0 = (str "PCI: Encontrado Controlador USB xHCI" ++ [10]) ++ xhci_stub.
Proof. vm_compute. reflexivity. Qed.

Lemma concat_first {A} (f : Z → list A) (n : Z) rest :
  0 < n → concat (f <$> seqZ 0 n) ++ rest = f 0 ++ concat (f <$> seqZ 1 (n - 1)) ++ rest.
Proof. intros Hn. rewrite seqZ_cons by done. cbn. by rewrite <- app_assoc. Qed.

Lemma pci_report_witness :
  ∃ after, (pci_init (mk_pci_bench demo_config 0)).2 =
    ((str "PCI: Encontrado Controlador USB xHCI" ++ [10]) ++ xhci_stub) ++ after.
Proof.
  eexists. etransitivity; [apply (pci_report (mk_pci_bench demo_config 0))|].
  cbn [bench_config]. rewrite concat_first by lia. rewrite demo_bus. reflexivity.
Defined.
