(* ===== verification/Acpi.v ===== *)
(** Power management (src/hal/acpi.c).

    The tables of the firmware are bytes of the memory [m]; the packed
    structures are read at their offsets. [acpi] holds the two static
    variables; what is printed and what is sent to ports is returned. *)

From S2P Require Import Io Mem.
Open Scope Z_scope.

Record acpi := mk_acpi { pm1a_cnt_blk : Z; slp_typa : Z }.

Definition acpi_boot : acpi := mk_acpi 0 0.

Definition SIZEOF_SDT_HEADER : Z := 36.

(** Fields of the tables. *)
Definition rsdp_RsdtAddress (m : mem) (p : Z) : Z := rd32 m (p + 16).
Definition sdt_Length (m : mem) (p : Z) : Z := rd32 m (p + 4).
Definition fadt_Dsdt (m : mem) (p : Z) : Z := rd32 m (p + 40).
Definition fadt_SMI_CommandPort (m : mem) (p : Z) : Z := rd32 m (p + 48).
Definition fadt_AcpiEnable (m : mem) (p : Z) : Z := rd8 m (p + 52).
Definition fadt_PM1aControlBlock (m : mem) (p : Z) : Z := rd32 m (p + 64).

(** [strncmp(s1, s2, n)] of this file: the first difference of signed
    characters, with no stop at a NUL. *)
Definition strncmp (m : mem) (s1 : Z) (s2 : list Z) (n : nat) : Z :=
  match
    for_loop n 0
      (λ i (u : unit), if negb (s8 (rd8 m (s1 + i)) =? at_ s2 i)
                       then inr (s8 (rd8 m (s1 + i)) - at_ s2 i) else inl u) ()
  with inr r => r | inl _ => 0 end.

Section Acpi.
Context {D : Type} `{Ports D} (hhdm_offset : Z).

Definition phystokv (phys : Z) : Z := u64 (phys + hhdm_offset).

(** The first table with the signature FACP among the entries of the RSDT. *)
Definition find_fadt (m : mem) (rsdt : Z) : option Z :=
  let entries := s32 (u64 (sdt_Length m rsdt - SIZEOF_SDT_HEADER) / 4) in
  let ptrs := rsdt + SIZEOF_SDT_HEADER in
  match
    for_loop (Z.to_nat entries) 0
      (λ i (u : unit),
         let h := phystokv (rd32 m (ptrs + 4 * i)) in
         if strncmp m h (str "FACP") 4 =? 0 then inr h else inl u) ()
  with inr h => Some h | inl _ => None end.

(** The test at index [i] of the bytes at [p]: the name _S5_, after a NameOp. *)
Definition s5_name (m : mem) (p i : Z) : bool :=
  let b j := rd8 m (p + i + j) in
  (b 0 =? 95) && (b 1 =? 83) && (b 2 =? 53) && (b 3 =? 95) &&
  (((0 <? i) && (b (-1) =? 0x08)) || ((1 <? i) && (b (-2) =? 0x08) && (b (-1) =? 92))).

(** One turn of the search; the pointer moves when a name is found, also when
    what follows is not a package. *)
Definition s5_step (m : mem) (i s5Addr : Z) : Z + Z :=
  if s5_name m s5Addr i then
    let s5Addr := s5Addr + i + 4 in
    if rd8 m s5Addr =? 0x12 then
      let s5Addr := s5Addr + 3 in
      let s5Addr := if rd8 m s5Addr =? 0x0A then s5Addr + 1 else s5Addr in
      inr (u16 (rd8 m s5Addr << 10))
    else inl s5Addr
  else inl s5Addr.

Definition find_s5 (m : mem) (dsdt : Z) : option Z :=
  let len := s32 (sdt_Length m dsdt) in
  match for_loop (Z.to_nat (len - 4)) 0 (s5_step m) dsdt with inr v => Some v | inl _ => None end.

Definition acpi_init (m : mem) (a : acpi) (d : D) (rsdp : option Z) : acpi * D * list Z :=
  match rsdp with
  | None => (a, d, str "ACPI: RSDP nao encontrado pelo Limine." ++ [10])
  | Some rsdp =>
      let rsdt := phystokv (rsdp_RsdtAddress m rsdp) in
      match find_fadt m rsdt with
      | None => (a, d, str "ACPI: FADT nao encontrado." ++ [10])
      | Some fadt =>
          let d :=
            if negb (fadt_SMI_CommandPort m fadt =? 0) && negb (fadt_AcpiEnable m fadt =? 0)
            then outb d (u16 (fadt_SMI_CommandPort m fadt)) (fadt_AcpiEnable m fadt) else d in
          let pm1a := fadt_PM1aControlBlock m fadt in
          let dsdt := phystokv (fadt_Dsdt m fadt) in
          let slp :=
            if dsdt =? 0 then slp_typa a
            else match find_s5 m dsdt with Some v => v | None => slp_typa a end in
          let slp := if slp =? 0 then 5 << 10 else slp in
          (mk_acpi pm1a slp, d, [])
      end
  end.

Definition acpi_poweroff (a : acpi) (d : D) : D :=
  if pm1a_cnt_blk a =? 0 then
    let d := outw d 0x604 0x2000 in
    outw d 0xB004 0x2000
  else outw d (u16 (pm1a_cnt_blk a)) (u16 (slp_typa a .| 0x2000)).

(** ** The sleep type that is found *)

(** The table of [len] bytes at [dsdt] names its first S5 package at index [p],
    and the package's first element is [val], in either encoding. *)
Record s5_package (m : mem) (dsdt p val : Z) : Prop := {
  s5_range : 0 ≤ p < s32 (sdt_Length m dsdt) - 4;
  s5_first i : 0 ≤ i < p → s5_name m dsdt i = false;
  s5_found : s5_name m dsdt p = true;
  s5_op : rd8 m (dsdt + p + 4) = 0x12;
  s5_value : (rd8 m (dsdt + p + 7) = 0x0A ∧ rd8 m (dsdt + p + 8) = val) ∨
             (rd8 m (dsdt + p + 7) ≠ 0x0A ∧ rd8 m (dsdt + p + 7) = val);
}.

Lemma find_s5_spec m dsdt p val :
  s5_package m dsdt p val → find_s5 m dsdt = Some (u16 (val << 10)).
Proof.
  intros [Hr Hno Hyes Hop Hval]. unfold find_s5.
  replace (Z.to_nat (s32 (sdt_Length m dsdt) - 4))
    with (Z.to_nat p + S (Z.to_nat (s32 (sdt_Length m dsdt) - 4 - p - 1)))%nat by lia.
  rewrite for_loop_app.
  pose proof (for_loop_ind (λ _ s, s = dsdt) (λ _, False) (Z.to_nat p) 0 (s5_step m) dsdt eq_refl) as Hloop.
  destruct (for_loop (Z.to_nat p) 0 _ _) as [s|r].
  2: { destruct Hloop. intros j s Hj ->. unfold s5_step. by rewrite Hno by lia. }
  rewrite Hloop.
  2: { intros j s' Hj ->. unfold s5_step. by rewrite Hno by lia. }
  rewrite Z.add_0_l, Z2Nat.id by lia. cbn [for_loop]. unfold s5_step at 1. rewrite Hyes, Hop.
  cbn [Z.eqb Pos.eqb]. replace (dsdt + p + 4 + 3) with (dsdt + p + 7) by lia.
  destruct Hval as [[-> Hv]|[Hne Hv]].
  - cbn [Z.eqb Pos.eqb]. replace (dsdt + p + 7 + 1) with (dsdt + p + 8) by lia. by rewrite Hv.
  - rewrite (proj2 (Z.eqb_neq _ _) Hne). by rewrite Hv.
Qed.

(** [FACP] is read at the address. *)
Definition facp_at (m : mem) (h : Z) : Prop :=
  rd8 m h = 70 ∧ rd8 m (h + 1) = 65 ∧ rd8 m (h + 2) = 67 ∧ rd8 m (h + 3) = 80.

Lemma strncmp_facp m h : strncmp m h (str "FACP") 4 = 0 ↔ facp_at m h.
Proof.
  unfold strncmp, facp_at. cbn [for_loop]. rewrite Z.add_0_r.
  assert (∀ x c, 0 ≤ x < 2 ^ 8 → 0 < c < 128 → s8 x = c ↔ x = c) as Hs.
  { intros x c Hx Hc. unfold s8, signed. rewrite (Z.mod_small x) by done.
    change (2 ^ (8 - 1)) with 128. change (2 ^ 8) with 256 in *.
    destruct (Z.ltb_spec x 128); lia. }
  change (at_ (str "FACP") 0) with 70. change (at_ (str "FACP") (0 + 1)) with 65.
  change (at_ (str "FACP") (0 + 1 + 1)) with 67. change (at_ (str "FACP") (0 + 1 + 1 + 1)) with 80.
  change (h + (0 + 1 + 1 + 1)) with (h + 3). change (h + (0 + 1 + 1)) with (h + 2). change (h + (0 + 1)) with (h + 1).
  rewrite <- !(Hs _ 70), <- !(Hs _ 65), <- !(Hs _ 67), <- !(Hs _ 80) by (apply rd8_range || lia).
  destruct (Z.eqb_spec (s8 (rd8 m h)) 70); cbn [negb]; [|split; [lia|tauto]].
  destruct (Z.eqb_spec (s8 (rd8 m (h + 1))) 65); cbn [negb]; [|split; [lia|tauto]].
  destruct (Z.eqb_spec (s8 (rd8 m (h + 2))) 67); cbn [negb]; [|split; [lia|tauto]].
  destruct (Z.eqb_spec (s8 (rd8 m (h + 3))) 80); cbn [negb]; [done|split; [lia|tauto]].
Qed.

(** The RSDT of [n] entries lists a FADT, first at entry [k]. *)
Record rsdt_lists (m : mem) (rsdt n k : Z) : Prop := {
  rl_length : 0 ≤ n ∧ sdt_Length m rsdt = SIZEOF_SDT_HEADER + 4 * n;
  rl_range : 0 ≤ k < n;
  rl_first i : 0 ≤ i < k → ¬ facp_at m (phystokv (rd32 m (rsdt + SIZEOF_SDT_HEADER + 4 * i)));
  rl_found : facp_at m (phystokv (rd32 m (rsdt + SIZEOF_SDT_HEADER + 4 * k)));
}.

Lemma find_fadt_spec m rsdt n k :
  rsdt_lists m rsdt n k →
  find_fadt m rsdt = Some (phystokv (rd32 m (rsdt + SIZEOF_SDT_HEADER + 4 * k))).
Proof.
  intros [[Hn Hlen] Hk Hno Hyes]. unfold find_fadt. cbn zeta.
  pose proof (rd32_range m (rsdt + 4)) as Hr. unfold sdt_Length in *.
  rewrite Hlen in *. unfold SIZEOF_SDT_HEADER in *.
  assert (s32 (u64 (36 + 4 * n - 36) / 4) = n) as ->.
  { rewrite u64_small by lia. replace (36 + 4 * n - 36) with (n * 4) by lia.
    rewrite Z.div_mul by lia. unfold s32. rewrite signed_small; lia. }
  destruct (search_cases (λ i, strncmp m (phystokv (rd32 m (rsdt + 36 + 4 * i))) (str "FACP") 4 =? 0)
    (λ i, phystokv (rd32 m (rsdt + 36 + 4 * i))) () (Z.to_nat n) 0) as [[_ Hnone]|(j & Hj & Ht & Heq & Hfirst)].
  - specialize (Hnone k ltac:(lia)). apply Z.eqb_neq in Hnone. destruct Hnone. by apply strncmp_facp.
  - unfold search in Heq. rewrite Heq. apply Z.eqb_eq, strncmp_facp in Ht.
    destruct (Z.lt_trichotomy j k) as [Hlt|[->|Hgt]]; [by destruct (Hno j ltac:(lia))|done|].
    specialize (Hfirst k ltac:(lia)). apply Z.eqb_neq in Hfirst. destruct Hfirst. by apply strncmp_facp.
Qed.

(** The value that ends in the control register: the sleep type in bits 10 to
    12 and the enable bit. *)
Lemma sleep_value val :
  0 < val < 8 → u16 (u16 (val << 10) .| 0x2000) = val * 2 ^ 10 + 2 ^ 13.
Proof.
  intros Hv. assert (val = 1 ∨ val = 2 ∨ val = 3 ∨ val = 4 ∨ val = 5 ∨ val = 6 ∨ val = 7) as Hc by lia.
  by repeat destruct Hc as [->|Hc]; subst.
Qed.

(** C40. On a machine whose tables describe the soft-off state, turning the
    machine off writes the sleep type of its S5 package, with the enable bit, to
    its PM1a control register; before that ACPI has been enabled through the SMI
    port when there is one. *)
Theorem poweroff_correct m d rsdp n k p val :
  let rsdt := phystokv (rsdp_RsdtAddress m rsdp) in
  let fadt := phystokv (rd32 m (rsdt + SIZEOF_SDT_HEADER + 4 * k)) in
  let dsdt := phystokv (fadt_Dsdt m fadt) in
  rsdt_lists m rsdt n k → dsdt ≠ 0 → s5_package m dsdt p val → 0 < val < 8 →
  0 < fadt_PM1aControlBlock m fadt < 2 ^ 16 →
  let '(a, d', out) := acpi_init m acpi_boot d (Some rsdp) in
  out = [] ∧
  d' = (if (fadt_SMI_CommandPort m fadt =? 0) || (fadt_AcpiEnable m fadt =? 0) then d
        else outb d (u16 (fadt_SMI_CommandPort m fadt)) (fadt_AcpiEnable m fadt)) ∧
  acpi_poweroff a d' = outw d' (fadt_PM1aControlBlock m fadt) (val * 2 ^ 10 + 2 ^ 13).
Proof.
  intros rsdt fadt dsdt Hl Hd Hs Hv Hpm. unfold acpi_init. fold rsdt.
  rewrite (find_fadt_spec m rsdt n k Hl). fold fadt. cbn zeta. fold dsdt.
  rewrite (proj2 (Z.eqb_neq dsdt 0) Hd), (find_s5_spec m dsdt p val Hs).
  assert (u16 (val << 10) ≠ 0) as Hnz.
  { rewrite Z.shiftl_mul_pow2 by lia. rewrite u16_small; lia. }
  rewrite (proj2 (Z.eqb_neq _ 0) Hnz). split; [done|]. split; [by rewrite <- negb_orb; destruct (_ || _)|].
  unfold acpi_poweroff. cbn [pm1a_cnt_blk slp_typa].
  destruct (Z.eqb_spec (fadt_PM1aControlBlock m fadt) 0); [lia|].
  rewrite sleep_value by done.
  by rewrite (u16_small (fadt_PM1aControlBlock m fadt)) by lia.
Qed.
End Acpi.

(** ** A machine whose second table is the FADT *)

Definition demo_tables : mem :=
  wr32 (wr32 (wr32 (wr32 (wr32 (wr32 (wr8 (wr32 (wr32
    (wr_bytes (wr_bytes (wr_bytes ∅ 0x300 (str "APIC")) 0x400 (str "FACP"))
      0x628 [0x08; 95; 83; 53; 95; 0x12; 0x0A; 0x04; 0x0A; 0x05; 0x0A; 0x05])
    0x604 0x60) 0x440 0x604) 0x434 0xA0) 0x430 0xB2) 0x428 0x600)
    0x228 0x400) 0x224 0x300) 0x204 44) 0x110 0x200.

Lemma poweroff_correct_witness :
  ∃ a d', acpi_init 0 demo_tables acpi_boot (mk_bench [] []) (Some 0x100) = (a, d', []) ∧
    acpi_poweroff a d' = outw d' 0x604 0x3400.
Proof.
  pose proof (poweroff_correct 0 demo_tables (mk_bench [] []) 0x100 2 1 0x29 5) as Hp.
  destruct (acpi_init 0 demo_tables acpi_boot (mk_bench [] []) (Some 0x100)) as [[a d'] out].
  destruct Hp as (-> & _ & Hoff).
  - split; [vm_compute; split; [discriminate|reflexivity]|lia| |vm_compute; repeat split].
    intros i Hi. assert (i = 0) as -> by lia. vm_compute. intros [? _]. discriminate.
  - vm_compute. discriminate.
  - split; [vm_compute; split; [discriminate|reflexivity]| |by vm_compute|by vm_compute|by left; vm_compute].
    intros i Hi. apply negb_true_iff.
    by apply (forall_range (λ i, negb (s5_name demo_tables 0x600 i)) 0 0x29); [vm_compute|lia].
  - lia.
  - vm_compute. split; reflexivity.
  - exists a, d'. split; [done|]. exact Hoff.
Defined.
