(* ===== verification/System.v ===== *)
(** The running system: the shell over the modelled kernel.

    [system] joins the state of the parts: the kernel of Syscall.v (frames and
    memory, CR3, screen, keyboard, disk), the mounted archive, the power
    management and the port devices. [system_services] is the implementation of
    the shell's services by the operations of the other files; [exec] loads a
    program, lets it run and comes back when it exits. A program is a function
    [user] of which only what the processor enforces is assumed ([exits]): it
    acts through stores to its own memory and system calls until sys_exit.

    The theorem is about whole sessions: after any number of commands the free
    frames, CR3 and every frame that was allocated before are as they were, and
    nothing is drawn outside the frame buffer. Two conditions on a session are
    named: [exits_on_grid], that programs exit and never set the cursor to a cell
    outside the screen, and [lines_fit], that the program files are absent or ones
    the loader handles. *)

From S2P Require Export Loader SyscallProofs.
From S2P Require Import Io Block Fat16 Keyboard.
From S2P Require Vga TarFs Acpi Shell.
Open Scope Z_scope.

Section System.
Context {St : Type} `{PageAllocatorLaws St} {D : Type} `{DiskLaws D} {P : Type} `{Ports P}.

Record system := mk_system {
  core : @kernel St D;
  archive : TarFs.tarfs;
  power : Acpi.acpi;
  devices : P;
}.

Definition with_core (w : system) (k : kernel) : system :=
  mk_system k (archive w) (power w) (devices w).

Context (after_font : Z → Z) (v : vol) (kstack : Z) (NAME : Z) (user_program : usermode → @kernel St D → @kernel St D).

Definition print (w : system) (s : list Z) : system := with_core w (Syscall.print after_font (core w) s).

(** The memory with the argument of a command at [NAME], in [args] on the
    kernel's stack. *)
Definition named (m : mem) (name : list Z) : mem := wr_bytes m NAME (name ++ [0]).

(** What drive A answers for a name, and drive C. *)
Definition drive_a (w : system) (name : list Z) : answer := fat_file v (disk (core w)) name.
Definition drive_c (w : system) (name : list Z) (m : mem) : answer :=
  tar_file (archive w) NAME (named m name).

Definition entering : list Z := str "Exec: Entrando no Ring 3..." ++ [10].

(** The kernel when the program is entered: its note is printed and CR3 holds
    the new page map. *)
Definition entered (w : system) (a : St) (regs : usermode) : kernel :=
  let k := Syscall.print after_font (with_pages (core w) a) entering in
  mk_kernel (pages k) (um_cr3 regs) (kernel_pml4 k) (screen k) (keyboard k) (scancodes k) (disk k).

Definition exec (w : system) (name : list Z) (args : option (list Z)) : system :=
  let k := core w in
  match process_exec (kernel_pml4 k) kstack (drive_a w name) (drive_c w name) args (pages k) with
  | (Failed message, a) => print (with_core w (with_pages k a)) message
  | (Started regs, a) => with_core w (user_program regs (entered w a regs))
  end.

#[export] Instance system_services : Shell.Services system := {
  Shell.vga_print := print;
  Shell.vga_putchar w c :=
    with_core w (with_screen (core w) (Vga.vga_putchar after_font (screen (core w)) c));
  Shell.vga_clear w := with_core w (with_screen (core w) (Vga.vga_clear (screen (core w))));
  Shell.tarfs_dir w := print w (TarFs.tarfs_dir (ram (pages (core w))) (archive w));
  Shell.fat16_dir w := print w (fat16_dir v (disk (core w)));
  Shell.tarfs_type w name :=
    print w (TarFs.tarfs_type (named (ram (pages (core w))) name) (archive w) NAME);
  Shell.process_exec := exec;
  Shell.fat16_delete_file w name :=
    let '(r, d) := fat16_delete_file v (disk (core w)) name in (r, with_core w (with_disk (core w) d));
  Shell.acpi_poweroff w :=
    mk_system (core w) (archive w) (power w) (Acpi.acpi_poweroff (power w) (devices w));
  Shell.inb w port :=
    let '(x, d) := inb (devices w) port in (x, mk_system (core w) (archive w) (power w) d);
  Shell.outb w port x := mk_system (core w) (archive w) (power w) (outb (devices w) port x);
}.

(** ** Programs *)

(** Every run of a program ends in sys_exit. *)
Definition exits : Prop :=
  ∀ regs k, space (pages k) (cr3 k) →
    ∃ k', rtc (pstep after_font v) k k' ∧ do_exit k' = Exit (user_program regs k).

(** A name of no file, or of a program file that the loader starts or refuses
    without trouble: no page of it in the kernel half or mapped twice
    ([placeable]), and the frames that are free do not run out between a page and
    its tables ([fits]). *)
Definition runnable (w : system) (name : list Z) (args : option (list Z)) : Prop :=
  (file_size (drive_a w name) = 0 ∧ u32 (file_size (drive_c w name (ram (pages (core w))))) = 0) ∨
  ∃ img, program_file (drive_a w name) (drive_c w name) (pages (core w)) img ∧ placeable img args ∧
    fits img (Z.of_nat (size (free_set (pages (core w))))) = true.

Lemma startable_runnable w name args img :
  program_file (drive_a w name) (drive_c w name) (pages (core w)) img →
  startable img args (pages (core w)) → runnable w name args.
Proof.
  intros Hfile Hs. right. exists img. split; [done|].
  split; [by apply loadable_placeable, (sa_loadable _ _ _ Hs)|by apply fits_enough, (sa_room _ _ _ Hs)].
Qed.

(** ** What a session keeps *)

Record steady (w w' : system) : Prop := {
  sd_wf : alloc_wf (pages (core w'));
  sd_free i : i ∈ free_set (pages (core w')) ↔ i ∈ free_set (pages (core w));
  sd_cr3 : cr3 (core w') = cr3 (core w);
  sd_pml4 : kernel_pml4 (core w') = kernel_pml4 (core w);
  sd_frames : preserves (pages (core w)) (pages (core w'));
}.

(** Between commands: the allocator is sound and CR3 holds the kernel's page
    map, whose root is an allocated frame. *)
Record system_ok (w : system) : Prop := {
  so_wf : alloc_wf (pages (core w));
  so_table : kernel_table (pages (core w)) (kernel_pml4 (core w));
  so_cr3 : cr3 (core w) = u64 (kernel_pml4 (core w) - hhdm (pages (core w)));
}.

Lemma steady_same w w' :
  system_ok w → pages (core w') = pages (core w) → cr3 (core w') = cr3 (core w) →
  kernel_pml4 (core w') = kernel_pml4 (core w) → steady w w'.
Proof. intros [Hwf _ _] Hp Hc Hk. by split; rewrite ?Hp. Qed.

Lemma steady_trans w1 w2 w3 : steady w1 w2 → steady w2 w3 → steady w1 w3.
Proof.
  intros [_ Hf Hc Hk Hp] [Hwf' Hf' Hc' Hk' Hp']. split; [done| |congruence|congruence|by etransitivity].
  intros i. by rewrite Hf'.
Qed.

Lemma steady_ok w w' : system_ok w → steady w w' → system_ok w'.
Proof.
  intros [Hwf (t & Ht & Hf) Hc] [Hwf' _ Hc' Hk' Hp]. pose proof (pv_layout _ _ Hp) as Hl. split; [done| |].
  - exists t. rewrite Hk', Ht. split; [symmetry; by apply table_layout|by apply (pv_frame _ _ Hp)].
  - rewrite Hc', Hk', Hc. by rewrite (proj1 Hl).
Qed.
(** The program that [exec] starts, if it starts one, runs until its exit. *)
Definition exec_exits (w : system) (name : list Z) (args : option (list Z)) : Prop :=
  ∀ regs a,
    process_exec (kernel_pml4 (core w)) kstack (drive_a w name) (drive_c w name) args (pages (core w)) =
      (Started regs, a) →
    space a (um_cr3 regs) →
    ∃ k', rtc (pstep after_font v) (entered w a regs) k' ∧
      do_exit k' = Exit (user_program regs (entered w a regs)).

Lemma exits_exec w name args : exits → exec_exits w name args.
Proof. intros Hex regs a _ Sp. by apply Hex. Qed.

(** What the loader hands over to a program that is started. *)
Record started (w : system) (a : St) (map : Z) : Prop := {
  sr_space : space a map;
  sr_owned : owned (pages (core w)) a map;
  sr_reach : out_of_reach (pages (core w)) a map;
  sr_kernel i : 256 ≤ i < 512 →
    ent a map i = rd64 (ram (pages (core w))) (kernel_pml4 (core w) + 8 * i);
}.

(** What the loader does: it starts the program, or all is as before. *)
Lemma exec_loads w name args r a :
  alloc_wf (pages (core w)) → kernel_table (pages (core w)) (kernel_pml4 (core w)) →
  runnable w name args →
  process_exec (kernel_pml4 (core w)) kstack (drive_a w name) (drive_c w name) args (pages (core w)) = (r, a) →
  (∃ message, r = Failed message ∧ alloc_wf a ∧
     (∀ i, i ∈ free_set a ↔ i ∈ free_set (pages (core w))) ∧ preserves (pages (core w)) a) ∨
  ∃ regs, r = Started regs ∧ started w a (um_cr3 regs).
Proof.
  intros Hwf Hkt [[Hfat Htar]|(img & Hfile & L & Hroom)] He.
  - revert He. unfold process_exec. rewrite Hfat, Z.eqb_refl, Htar. intros [= <- <-].
    left. by eexists.
  - destruct (exec_cases _ _ _ _ _ _ _ _ Hwf Hkt L Hfile Hroom He)
      as [Hp [(msg & Hr & Hwf' & Hfs & _)|(map & Hr & _ & Sp & Ho & Hk & _)]]; cbn [fst snd] in *; subst r.
    { left. by exists msg. }
    right. eexists. split; [done|]. split; [done|done|split; [done|]|done].
    intros u Hu. destruct (space_holds a map u Sp Hu) as (i & -> & _).
    intros (j & Hij & _ & Hj). assert (j = i) as -> by (unfold PAGE_SIZE in Hij; lia).
    apply Hj, (Ho i). by right.
Qed.

(** Whether the loader fails or the program runs until its exit. *)
Lemma exec_steady w name args :
  exec_exits w name args → system_ok w → runnable w name args → steady w (exec w name args).
Proof.
  intros Hex [Hwf Hkt Hc3] Hrun. unfold exec.
  destruct (process_exec _ _ _ _ _ _) as [r a] eqn:He.
  destruct (exec_loads w name args r a Hwf Hkt Hrun He)
    as [(msg & -> & Hwf' & Hfs & Hp)|(regs & -> & [Sp Ho Hre _])]; [by split|].
  destruct (Hex regs a He Sp) as (k2 & Hsteps & Hexit). set (k1 := entered w a regs) in *.
  destruct (exit_spec after_font v (pages (core w)) k1 k2 Sp Ho Hsteps)
    as (k3 & Hk3 & Hwf3 & Hfs3 & Hc & Hk & Hreach).
  rewrite Hexit in Hk3. injection Hk3 as <-.
  split; [done|exact Hfs3| |exact Hk|by apply Hreach].
  etransitivity; [exact Hc|]. etransitivity; [|symmetry; exact Hc3].
  unfold k1, entered. cbn [kernel_pml4 pages Syscall.print with_screen with_pages]. do 2 f_equal.
  apply (pv_layout _ _ (proj1 Hre)).
Qed.

(** A program that the loader can start, and that reaches its exit with [Q]. *)
Lemma exec_runs (Q : kernel → Prop) w name args img :
  system_ok w → program_file (drive_a w name) (drive_c w name) (pages (core w)) img →
  startable img args (pages (core w)) →
  (∀ map a, process_ready (pages (core w)) a (kernel_pml4 (core w)) map img args →
     let regs := mk_usermode map (e_entry (image img) 0) (stack_pointer args) (stack_pointer args)
                   (u64 (kstack + 4096)) in
     let k := entered w a regs in
     ∃ k1, rtc (pstep after_font v) k k1 ∧ do_exit k1 = Exit (user_program regs k) ∧ Q k1) →
  steady w (exec w name args) ∧ ∃ k1, do_exit k1 = Exit (core (exec w name args)) ∧ Q k1.
Proof.
  intros Hw Hfile Hs Hrun. pose proof Hw as [Hwf Hkt _].
  destruct (exec_started _ kstack _ _ args _ img Hwf Hkt Hfile Hs) as (map & a & He & R & _).
  destruct (Hrun map a R) as (k1 & Hsteps & Hexit & HQ). split.
  - apply exec_steady; [|done|by apply (startable_runnable w name args img)].
    intros regs a' He' _. rewrite He in He'. injection He' as <- <-. by exists k1.
  - exists k1. split; [|done]. unfold exec. by rewrite He.
Qed.

(** sys_exit leaves the devices alone. *)
Lemma exit_devices (k k' : @kernel St D) : do_exit k = Exit k' →
  screen k' = screen k ∧ disk k' = disk k ∧ keyboard k' = keyboard k ∧ scancodes k' = scancodes k.
Proof. unfold do_exit. by intros [= <-]. Qed.

(** ** Commands *)

(** The program that a command runs. *)
Definition exec_target (cmd_name args : list Z) : option (list Z * option (list Z)) :=
  if Shell.is_cmd cmd_name "edit" then Some (str "bin/editor.elf", Some args)
  else if Shell.is_cmd cmd_name "lisp" then Some (str "bin/lisp.elf", Some args)
  else if Shell.is_cmd cmd_name "exec" then Some (args, None)
  else None.

(** Only the screen differs. *)
Record same_machine (w w' : system) : Prop := {
  sm_pages : pages (core w') = pages (core w);
  sm_cr3 : cr3 (core w') = cr3 (core w);
  sm_pml4 : kernel_pml4 (core w') = kernel_pml4 (core w);
  sm_disk : disk (core w') = disk (core w);
  sm_archive : archive w' = archive w;
}.

Lemma same_machine_trans w1 w2 w3 : same_machine w1 w2 → same_machine w2 w3 → same_machine w1 w3.
Proof. intros [] []. split; congruence. Qed.

Lemma same_machine_steady w w' : system_ok w → same_machine w w' → steady w w'.
Proof. intros Hw []. by apply steady_same. Qed.

Lemma same_machine_runnable w w' f a : same_machine w w' → runnable w f a → runnable w' f a.
Proof.
  intros [Hp Hc Hk Hd Ha]. unfold runnable, drive_a, drive_c. by rewrite Hp, Hd, Ha.
Qed.

Lemma read_command_same w keys cmd :
  same_machine w (Shell.read_command w keys cmd).1 ∧
  ∀ w', (Shell.read_command w' keys cmd).2 = (Shell.read_command w keys cmd).2.
Proof.
  revert w cmd. induction keys as [|c keys IH]; intros w cmd; cbn [Shell.read_command]; [by split|].
  destruct (c =? 10); [by split|].
  assert (∀ d l, let r := Shell.read_command (Shell.vga_putchar w d) keys l in
    same_machine w r.1 ∧ ∀ w', (Shell.read_command (Shell.vga_putchar w' d) keys l).2 = r.2) as Hnext.
  { intros d l. destruct (IH (Shell.vga_putchar w d) l) as [Hs Hr]. split; [|intros w'; apply Hr].
    by apply (same_machine_trans _ (Shell.vga_putchar w d)). }
  destruct (c =? 8); [|apply Hnext]. destruct (0 <? _); [apply Hnext|apply IH].
Qed.

(** The frames, CR3, the kernel's page map and the archive are as they were. *)
Definition same_kernel (w w' : system) : Prop :=
  pages (core w') = pages (core w) ∧ cr3 (core w') = cr3 (core w) ∧
  kernel_pml4 (core w') = kernel_pml4 (core w) ∧ archive w' = archive w.

Lemma same_kernel_steady w w' : system_ok w → same_kernel w w' → steady w w'.
Proof. intros Hw (Hp & Hc & Hk & _). by apply steady_same. Qed.

Lemma exec_archive w name args : archive (exec w name args) = archive w.
Proof. unfold exec. by destruct (process_exec _ _ _ _ _ _) as [[msg|regs] a]. Qed.

(** A command runs a program or leaves the kernel's state alone. *)
Lemma run_command_cases fuel w keys cmd_name args w' keys' :
  Shell.run_command fuel w keys cmd_name args = Shell.Next w' keys' →
  (∃ f a, exec_target cmd_name args = Some (f, a) ∧ w' = exec w f a) ∨ same_kernel w w'.
Proof.
  unfold Shell.run_command, exec_target.
  destruct (Shell.is_cmd cmd_name "echo"); [intros [= <- _]; by right|].
  destruct (Shell.is_cmd cmd_name "cls" || _); [intros [= <- _]; by right|].
  destruct (Shell.is_cmd cmd_name "dir"); [intros [= <- _]; by right|].
  destruct (Shell.is_cmd cmd_name "edit"); [intros [= <- _]; left; by do 2 eexists|].
  destruct (Shell.is_cmd cmd_name "lisp"); [intros [= <- _]; left; by do 2 eexists|].
  destruct (Shell.is_cmd cmd_name "type"); [intros [= <- _]; by right|].
  destruct (Shell.is_cmd cmd_name "exec"); [intros [= <- _]; left; by do 2 eexists|].
  destruct (Shell.is_cmd cmd_name "rm").
  { destruct args as [|c args]; [intros [= <- _]; by right|].
    cbn [Shell.fat16_delete_file system_services]. destruct (fat16_delete_file _ _ _) as [r d].
    destruct (r =? 1); intros [= <- _]; by right. }
  destruct (Shell.is_cmd cmd_name "poweroff" || _); [done|].
  destruct (Shell.is_cmd cmd_name "reboot"); [by destruct (Shell.wait_controller _ _)|].
  intros [= <- _]. by right.
Qed.

(** The program of the line typed, if it runs one, is runnable. *)
Definition keys_runnable (w : system) (keys : list Z) : Prop :=
  ∀ cmd rest cmd_name args f a,
    (Shell.read_command w keys []).2 = Some (cmd, rest) →
    Shell.split_command cmd = Some (cmd_name, args) →
    exec_target cmd_name args = Some (f, a) → runnable w f a.

(** A line that is typed and whose program, if it runs one, is runnable. *)
Definition fit_turn (fuel : positive) (w w' : system) : Prop :=
  ∃ keys keys', Shell.shell_turn fuel w keys = Shell.Next w' keys' ∧ keys_runnable w keys.

(** A turn prints and echoes, and then runs a program that its line names or
    leaves the kernel's state alone. *)
Lemma turn_cases fuel w w' :
  fit_turn fuel w w' →
  ∃ w1, same_machine w w1 ∧
    (same_kernel w1 w' ∨ ∃ f a, runnable w1 f a ∧ w' = exec w1 f a).
Proof.
  intros (keys & keys' & Hturn & Hrun). unfold Shell.shell_turn in Hturn.
  set (w1 := Shell.vga_print w _) in *. assert (same_machine w w1) as H01 by done.
  destruct (read_command_same w1 keys []) as [H12 Hr]. unfold keys_runnable in Hrun. rewrite (Hr w) in Hrun.
  destruct (Shell.read_command w1 keys []) as [w2 [[cmd rest]|]]; [|done]. cbn [fst snd] in *.
  pose proof (same_machine_trans _ _ _ H01 H12) as H02. exists w2. split; [done|].
  destruct cmd as [|c cmd]; [left; by injection Hturn as <- _|].
  destruct (Shell.split_command (c :: cmd)) as [[name args]|] eqn:Hsplit; [|done].
  destruct (run_command_cases fuel w2 rest name args w' keys' Hturn) as [(f & a & Ht & ->)|]; [right|by left].
  exists f, a. split; [|done]. apply (same_machine_runnable w); [done|]. by eapply Hrun.
Qed.

Lemma turn_archive fuel w w' : fit_turn fuel w w' → archive w' = archive w.
Proof.
  intros Ht. destruct (turn_cases fuel w w' Ht) as (w1 & H1' & [(_ & _ & _ & ->)|(f & a & _ & ->)]).
  - apply H1'.
  - rewrite exec_archive. apply H1'.
Qed.

Lemma turn_steady fuel w w' : exits → system_ok w → fit_turn fuel w w' → steady w w'.
Proof.
  intros Hex Hw Ht. destruct (turn_cases fuel w w' Ht) as (w1 & H1' & Hc).
  pose proof (same_machine_steady w w1 Hw H1') as Hs1. pose proof (steady_ok w w1 Hw Hs1) as Hw1.
  apply (steady_trans _ w1); [done|]. destruct Hc as [Hk|(f & a & Hrun & ->)].
  - by apply same_kernel_steady.
  - apply exec_steady; [by apply exits_exec|done|done].
Qed.

Lemma turns_steady fuel w0 w : exits → system_ok w0 → rtc (fit_turn fuel) w0 w → steady w0 w.
Proof.
  intros Hex Hw0 Hs. apply (@rtc_ind_r _ (fit_turn fuel) (λ w, steady w0 w) w0); [by apply steady_same| |done].
  intros w1 w2 _ Ht Hs1. apply (steady_trans _ w1); [done|].
  apply (turn_steady fuel); [done|by apply (steady_ok w0)|done].
Qed.

(** ** Sessions *)

(** The machine after the lines typed, each up to its Enter; [None] when one of
    them does not come back to the prompt. *)
Fixpoint run_lines (fuel : positive) (w : system) (lines : list (list Z)) : option system :=
  match lines with
  | [] => Some w
  | keys :: lines =>
      match Shell.shell_turn fuel w keys with
      | Shell.Next w' _ => run_lines fuel w' lines
      | _ => None
      end
  end.

(** The programs that the lines name are runnable when their turn comes. *)
Fixpoint lines_fit (fuel : positive) (w : system) (lines : list (list Z)) : Prop :=
  match lines with
  | [] => True
  | keys :: lines =>
      keys_runnable w keys ∧
      match Shell.shell_turn fuel w keys with
      | Shell.Next w' _ => lines_fit fuel w' lines
      | _ => True
      end
  end.

Lemma lines_turns fuel w lines w' :
  run_lines fuel w lines = Some w' → lines_fit fuel w lines → rtc (fit_turn fuel) w w'.
Proof.
  revert w. induction lines as [|keys lines IH]; intros w Hl Hfit.
  { cbn [run_lines] in Hl. injection Hl as ->. apply rtc_refl. }
  cbn [run_lines lines_fit] in Hl, Hfit. destruct Hfit as [Hr Hfit].
  destruct (Shell.shell_turn fuel w keys) as [w1 keys'|w1|w1|] eqn:Ht; [|discriminate Hl..].
  apply (rtc_l _ _ w1); [by exists keys, keys'|by apply IH].
Qed.

(** *** The screen *)

(** No word outside the frame buffer is written. *)
Definition drawn (w w' : system) : Prop := Vga.draws_inside (screen (core w)) (screen (core w')).

(** What a program draws from its entry to its end is on the screen. *)
Definition program_draws : Prop :=
  ∀ regs k, space (pages k) (cr3 k) → Vga.vga_ok (screen k) →
    Vga.draws_inside (screen k) (screen (user_program regs k)).

(** Every run of a program ends in sys_exit, and it never sets the cursor to a
    cell outside the screen. *)
Definition exits_on_grid : Prop :=
  ∀ regs k, space (pages k) (cr3 k) →
    ∃ k', rtc (gstep after_font v) k k' ∧ do_exit k' = Exit (user_program regs k).

Lemma exits_on_grid_exits : exits_on_grid → exits.
Proof.
  intros Hg regs k Sp. destruct (Hg regs k Sp) as (k' & Hs & He). exists k'.
  split; [by apply gsteps_psteps|done].
Qed.

Lemma exits_on_grid_draws : exits_on_grid → program_draws.
Proof.
  intros Hg regs k Sp Hv. destruct (Hg regs k Sp) as (k' & Hs & He).
  destruct (exit_devices _ _ He) as [-> _]. by apply (gsteps_draw after_font v k k' Hv).
Qed.

Lemma print_drawn w w' s : drawn w w' → drawn w (print w' s).
Proof. apply Vga.then_print. Qed.

Lemma drawn_trans w1 w2 w3 : drawn w1 w2 → drawn w2 w3 → drawn w1 w3.
Proof. apply Vga.draws_inside_trans. Qed.

Lemma read_command_drawn w0 w keys cmd : drawn w0 w → drawn w0 (Shell.read_command w keys cmd).1.
Proof.
  assert (∀ w c, drawn w0 w → drawn w0 (Shell.vga_putchar w c)) as Hput.
  { intros w1 c Hd. apply (Vga.draws_inside_trans _ _ _ Hd), Vga.putchar_inside, Hd. }
  revert w cmd. induction keys as [|c keys IH]; intros w cmd Hd; cbn [Shell.read_command]; [done|].
  destruct (c =? 10); [by apply Hput|]. destruct (c =? 8); [|by apply IH, Hput].
  destruct (0 <? _); [by apply IH, Hput|by apply IH].
Qed.

Lemma exec_drawn w name args :
  program_draws → alloc_wf (pages (core w)) → kernel_table (pages (core w)) (kernel_pml4 (core w)) →
  runnable w name args → Vga.vga_ok (screen (core w)) → drawn w (exec w name args).
Proof.
  intros Hd Hwf Hkt Hrun Hv. unfold exec.
  destruct (process_exec _ _ _ _ _ _) as [r a] eqn:He.
  destruct (exec_loads w name args r a Hwf Hkt Hrun He)
    as [(msg & -> & _)|(regs & -> & Hst)]; [by apply print_drawn, Vga.draws_inside_refl|].
  assert (Vga.draws_inside (screen (core w)) (screen (entered w a regs))) as He1 by by apply Vga.print_inside.
  apply (Vga.draws_inside_trans _ _ _ He1), Hd; [apply (sr_space _ _ _ Hst)|apply He1].
Qed.

(** A command runs a program or draws itself. *)
Lemma run_command_drawn fuel w keys cmd_name args w' keys' :
  Vga.vga_ok (screen (core w)) → Shell.run_command fuel w keys cmd_name args = Shell.Next w' keys' →
  (∃ f a, exec_target cmd_name args = Some (f, a) ∧ w' = exec w f a) ∨ drawn w w'.
Proof.
  intros Hv. pose proof (Vga.draws_inside_refl _ Hv) as Hr. unfold Shell.run_command, exec_target.
  destruct (Shell.is_cmd cmd_name "echo"); [intros [= <- _]; right; by do 2 apply print_drawn|].
  destruct (Shell.is_cmd cmd_name "cls" || _); [intros [= <- _]; right; by apply Vga.clear_inside|].
  destruct (Shell.is_cmd cmd_name "dir"); [intros [= <- _]; right; by do 2 apply print_drawn|].
  destruct (Shell.is_cmd cmd_name "edit"); [intros [= <- _]; left; by do 2 eexists|].
  destruct (Shell.is_cmd cmd_name "lisp"); [intros [= <- _]; left; by do 2 eexists|].
  destruct (Shell.is_cmd cmd_name "type"); [intros [= <- _]; right; by apply print_drawn|].
  destruct (Shell.is_cmd cmd_name "exec"); [intros [= <- _]; left; by do 2 eexists|].
  destruct (Shell.is_cmd cmd_name "rm").
  { destruct args as [|c args]; [intros [= <- _]; right; by apply print_drawn|].
    cbn [Shell.fat16_delete_file system_services]. destruct (fat16_delete_file _ _ _) as [r d].
    destruct (r =? 1); intros [= <- _]; right; by apply print_drawn. }
  destruct (Shell.is_cmd cmd_name "poweroff" || _); [done|].
  destruct (Shell.is_cmd cmd_name "reboot"); [by destruct (Shell.wait_controller _ _)|].
  intros [= <- _]. right. by apply print_drawn.
Qed.

Lemma turn_drawn fuel w w' :
  program_draws → alloc_wf (pages (core w)) → kernel_table (pages (core w)) (kernel_pml4 (core w)) →
  Vga.vga_ok (screen (core w)) → fit_turn fuel w w' → drawn w w'.
Proof.
  intros Hd Hwf Hkt Hv (keys & keys' & Hturn & Hrun). unfold Shell.shell_turn in Hturn.
  set (w1 := Shell.vga_print w _) in *.
  assert (drawn w w1) as H01 by by apply print_drawn, Vga.draws_inside_refl.
  destruct (read_command_same w1 keys []) as [H12 Hr].
  pose proof (read_command_drawn w w1 keys [] H01) as H02. unfold keys_runnable in Hrun. rewrite (Hr w) in Hrun.
  destruct (Shell.read_command w1 keys []) as [w2 [[cmd rest]|]]; [|done]. cbn [fst snd] in *.
  destruct cmd as [|c cmd]; [by injection Hturn as <- _|].
  destruct (Shell.split_command (c :: cmd)) as [[name args]|] eqn:Hsplit; [|done].
  apply (drawn_trans w w2); [done|].
  destruct (run_command_drawn fuel w2 rest name args w' keys' (Vga.di_ok _ _ H02) Hturn)
    as [(f & a & Ht & ->)|]; [|done].
  destruct H12 as [Hp Hc Hk Hdk Har]. apply exec_drawn; [done|by rewrite Hp|by rewrite Hp, Hk| |apply H02].
  apply (same_machine_runnable w); [by split|]. by eapply Hrun.
Qed.

(** Over sessions, with what keeps the kernel's tables in place. *)
Lemma turns_drawn (I : system → Prop) fuel w0 w :
  (∀ w, I w → alloc_wf (pages (core w)) ∧ kernel_table (pages (core w)) (kernel_pml4 (core w))) →
  (∀ w1 w2, I w1 → fit_turn fuel w1 w2 → I w2) →
  program_draws → I w0 → Vga.vga_ok (screen (core w0)) → rtc (fit_turn fuel) w0 w → drawn w0 w.
Proof.
  intros Htab Hkeep Hd Hi0 Hv Hs. enough (I w ∧ drawn w0 w) as [_ ?] by done.
  apply (@rtc_ind_r _ (fit_turn fuel) (λ w, I w ∧ drawn w0 w) w0); [|intros w1 w2 _ Ht [Hi1 Hd1]|done].
  { split; [done|by apply Vga.draws_inside_refl]. }
  destruct (Htab w1 Hi1) as [Hwf Hkt]. split; [by apply (Hkeep w1)|]. apply (drawn_trans _ w1); [done|].
  apply (turn_drawn fuel); [done|done|done|apply Hd1|done].
Qed.

(** C4. A session of the shell. Any number of lines are typed and the programs they
    name run: every program runs until sys_exit, whatever stores and system calls
    it makes before, apart from setting the cursor to a cell outside the screen;
    and a program file is absent, or one that the loader can place or refuses
    without running out of frames between a page and its tables ([lines_fit]).
    Then the machine is back between commands where it started: CR3 holds the
    kernel's page map, the same frames are free, every frame allocated at the
    start, the kernel's tables among them, is allocated still with its contents,
    nothing is drawn outside the frame buffer, and the next session can begin. *)
Theorem session_steady fuel lines w0 w :
  exits_on_grid → system_ok w0 → Vga.vga_ok (screen (core w0)) →
  run_lines fuel w0 lines = Some w → lines_fit fuel w0 lines →
  steady w0 w ∧ system_ok w ∧ drawn w0 w.
Proof.
  intros Hex Hw0 Hv Hl Hfit. pose proof (lines_turns fuel w0 lines w Hl Hfit) as Hs.
  pose proof (exits_on_grid_exits Hex) as Hex'. pose proof (turns_steady fuel w0 w Hex' Hw0 Hs) as Hst.
  split; [done|]. split; [by apply (steady_ok w0)|].
  apply (turns_drawn system_ok fuel); [by intros w1 []| |by apply exits_on_grid_draws|done..].
  intros w1 w2 Hw1 Ht. apply (steady_ok w1); [done|]. by apply (turn_steady fuel).
Qed.
End System.
