(* ===== verification/Faults.v ===== *)
(** Programs that crash (hal/idt.c under kernel/main.c and process.c).

    An exception in ring 3 leaves the process through [exception_handler] and
    asm_return_to_kernel, which brings back the kernel's stack and nothing else:
    CR3 still holds the page map of the process, and no frame is given back.
    [crash_leaks] says exactly that. [crash_session] says what the kernel can
    rely on all the same, over sessions in which programs exit or crash: the
    page map in CR3 always has the kernel's half, its frames are never handed out
    again, the allocator stays sound and nothing of the kernel is overwritten, for programs
    that never set the cursor to a cell outside the screen ([ends_on_grid]). *)

From S2P Require Export System.
From S2P Require Import Block Fat16 Cpu.
From S2P Require Vga Shell.
Open Scope Z_scope.

Section Faults.
Context {St : Type} `{PageAllocatorLaws St} {D : Type} `{DiskLaws D} {P : Type} `{Ports P}.
Context (after_font : Z → Z) (v : vol) (kstack : Z) (NAME : Z).
Context (user_program : usermode → @kernel St D → @kernel St D).
Implicit Types (k : @kernel St D) (w : @system St D P).

(** The kernel after an exception of user code; [None]: the handler does not
    leave the process. *)
Definition abort (r : registers) (cr2 : Z) k : option (@kernel St D) :=
  match exception_handler after_font (screen k) r cr2 with
  | Aborted s => Some (with_screen k s)
  | _ => None
  end.

(** From ring 3, and not the keyboard's vector, it leaves the process. *)
Lemma abort_ring3 r cr2 k :
  int_no r ≠ 33 → cs r .& 3 = 3 → ∃ s, abort r cr2 k = Some (with_screen k s).
Proof.
  intros Hn Hc. unfold abort, exception_handler.
  rewrite (proj2 (Z.eqb_neq _ _) Hn), Hc. by eexists.
Qed.

Lemma abort_screen r cr2 k k' : abort r cr2 k = Some k' → ∃ s, k' = with_screen k s.
Proof. unfold abort. destruct (exception_handler _ _ _ _); [done| |done]. intros [= <-]. by eexists. Qed.

(** Every run of a program ends in sys_exit or in an exception. *)
Definition crashes_at regs k : Prop :=
  ∃ k' r cr2, rtc (pstep after_font v) k k' ∧ abort r cr2 k' = Some (user_program regs k).

Definition exits_at regs k : Prop :=
  ∃ k', rtc (pstep after_font v) k k' ∧ do_exit k' = Exit (user_program regs k).

Definition ends : Prop := ∀ regs k, space (pages k) (cr3 k) → exits_at regs k ∨ crashes_at regs k.

(** ** What the kernel needs to go on *)

(** The page map in CR3 is allocated and has the kernel's half. *)
Definition kernel_mapped w : Prop :=
  table_frame (pages (core w)) (cr3 (core w)) ∧
  ∀ i, 256 ≤ i < 512 →
    ent (pages (core w)) (cr3 (core w)) i = rd64 (ram (pages (core w))) (kernel_pml4 (core w) + 8 * i).

Record up w : Prop := {
  up_wf : alloc_wf (pages (core w));
  up_table : kernel_table (pages (core w)) (kernel_pml4 (core w));
  up_mapped : kernel_mapped w;
}.

(** Frames may be lost; those in use are as they were. *)
Record worn w w' : Prop := {
  wn_free : free_set (pages (core w')) ⊆ free_set (pages (core w));
  wn_pml4 : kernel_pml4 (core w') = kernel_pml4 (core w);
  wn_frames : preserves (pages (core w)) (pages (core w'));
}.

Lemma worn_refl w : worn w w.
Proof. by split. Qed.
Lemma worn_trans w1 w2 w3 : worn w1 w2 → worn w2 w3 → worn w1 w3.
Proof. intros [? ? ?] [? ? ?]. split; [set_solver|congruence|by etransitivity]. Qed.

(** The kernel's half of a table, read where it was and where it is. *)
Lemma kernel_half w w' i :
  kernel_table (pages (core w)) (kernel_pml4 (core w)) → worn w w' → 0 ≤ i < 512 →
  rd64 (ram (pages (core w'))) (kernel_pml4 (core w') + 8 * i) =
  rd64 (ram (pages (core w))) (kernel_pml4 (core w) + 8 * i).
Proof.
  intros (t & Ht & Hf) [_ Hk Hp] Hi. rewrite Hk, Ht.
  pose proof (pv_kept _ _ Hp t Hf i Hi) as Hkept. unfold ent in Hkept.
  by rewrite (table_layout _ _ t (pv_layout _ _ Hp)) in Hkept.
Qed.

Lemma worn_table w w' :
  kernel_table (pages (core w)) (kernel_pml4 (core w)) → worn w w' →
  kernel_table (pages (core w')) (kernel_pml4 (core w')).
Proof.
  intros (t & Ht & Hf) [_ Hk Hp]. exists t. rewrite Hk, Ht.
  split; [symmetry; by apply table_layout, (pv_layout _ _ Hp)|by apply (pv_frame _ _ Hp)].
Qed.

(** The same page map in CR3 stays good. *)
Lemma worn_mapped w w' :
  up w → worn w w' → cr3 (core w') = cr3 (core w) → kernel_mapped w'.
Proof.
  intros [_ Hkt [Hf Hm]] Hw Hc. pose proof (wn_frames _ _ Hw) as Hp. unfold kernel_mapped. rewrite Hc.
  split; [by apply (pv_frame _ _ Hp)|]. intros i Hi.
  rewrite (pv_kept _ _ Hp _ Hf), (kernel_half w) by (done || lia). by apply Hm.
Qed.

(** The kernel's own page map is one. *)
Lemma kernel_map_frame w t :
  alloc_wf (pages (core w)) → table_frame (pages (core w)) t →
  kernel_pml4 (core w) = table (pages (core w)) t →
  u64 (kernel_pml4 (core w) - hhdm (pages (core w))) = t.
Proof.
  intros Hwf Hf ->. rewrite table_small by done. destruct (hhdm_bounds _ Hwf).
  destruct Hf as (j & -> & [Hj _] & _). unfold PAGE_SIZE in *. rewrite u64_small by lia. lia.
Qed.

Lemma kernel_map_mapped w :
  alloc_wf (pages (core w)) → kernel_table (pages (core w)) (kernel_pml4 (core w)) →
  cr3 (core w) = u64 (kernel_pml4 (core w) - hhdm (pages (core w))) → kernel_mapped w.
Proof.
  intros Hwf (t & Ht & Hf) Hc. unfold kernel_mapped. rewrite Hc, (kernel_map_frame w t) by done.
  split; [done|]. intros i _. by rewrite Ht.
Qed.

Lemma system_ok_up w : system_ok w → up w.
Proof. intros [Hwf Hkt Hc]. split; [done|done|by apply kernel_map_mapped]. Qed.

(** ** A program that crashes *)

Local Abbreviation run_exec := (exec after_font v kstack NAME user_program).
Local Abbreviation load w name args :=
  (process_exec (kernel_pml4 (core w)) kstack (drive_a v w name) (drive_c NAME w name) args (pages (core w))).

(** The state in which the kernel goes on. *)
Record crashed w a (map : Z) w' : Prop := {
  cd_cr3 : cr3 (core w') = map;
  cd_space : same_space a (pages (core w')) map;
  cd_owned : owned (pages (core w)) (pages (core w')) map;
  cd_worn : worn w w';
  cd_mapped : kernel_mapped w';
}.

Lemma exec_crashed w name args regs a :
  alloc_wf (pages (core w)) → kernel_table (pages (core w)) (kernel_pml4 (core w)) →
  load w name args = (Started regs, a) → started w a (um_cr3 regs) →
  crashes_at regs (entered after_font w a regs) →
  crashed w a (um_cr3 regs) (run_exec w name args).
Proof.
  intros Hwf Hkt He [Sp Ho Hre Hker] (k' & r & cr2 & Hsteps & Hab). unfold exec. rewrite He.
  destruct (abort_screen _ _ _ _ Hab) as [s Hs]. rewrite Hs. clear Hab Hs.
  set (w' := with_core w _). set (k1 := entered after_font w a regs) in *.
  destruct (steps_running after_font v (pages (core w)) k1 k' Sp Ho Hsteps) as [Hc Hk Hsp Hown Hreach Hroot].
  assert (worn w w') as Hw.
  { split; [|exact Hk|apply Hreach, Hre]. intros i Hi. apply Hown. by left. }
  split; [exact Hc|exact Hsp|exact Hown|exact Hw|].
  unfold kernel_mapped. change (cr3 (core w')) with (cr3 k'). rewrite Hc.
  split; [apply (space_root _ _ (ss_space _ _ _ Hsp))|]. intros i Hi.
  rewrite (kernel_half w) by (done || lia). change (pages (core w')) with (pages k').
  rewrite (Hroot i ltac:(lia)). by apply Hker.
Qed.

Lemma exec_refused w name args message a :
  up w → load w name args = (Failed message, a) → alloc_wf a → preserves (pages (core w)) a →
  (∀ i, i ∈ free_set a ↔ i ∈ free_set (pages (core w))) →
  worn w (run_exec w name args) ∧ up (run_exec w name args).
Proof.
  intros Hup He Hwf' Hp Hfs.
  assert (worn w (run_exec w name args)) as Hw.
  { unfold exec. rewrite He. split; [|done|done]. intros i Hi. by apply Hfs. }
  split; [done|]. split; [unfold exec; by rewrite He|apply (worn_table w); [apply Hup|done]|].
  apply (worn_mapped w); [done|done|]. unfold exec. by rewrite He.
Qed.

(** A program that exits leaves the kernel's page map in CR3, whatever was
    there before. *)
Lemma exec_exited w name args regs a :
  up w → load w name args = (Started regs, a) → started w a (um_cr3 regs) →
  exits_at regs (entered after_font w a regs) →
  worn w (run_exec w name args) ∧ system_ok (run_exec w name args).
Proof.
  intros [_ Hkt _] He [Sp Ho Hre _] (k' & Hsteps & Hex). set (k1 := entered after_font w a regs) in *.
  destruct (exit_spec after_font v (pages (core w)) k1 k' Sp Ho Hsteps)
    as (k3 & Hk3 & Hwf3 & Hfs3 & Hc & Hk & Hreach).
  rewrite Hex in Hk3. injection Hk3 as <-.
  assert (run_exec w name args = with_core w (user_program regs k1)) as -> by (unfold exec; by rewrite He).
  assert (worn w (with_core w (user_program regs k1))) as Hw.
  { split; [|exact Hk|by apply Hreach]. intros i Hi. by apply Hfs3. }
  split; [done|]. split; [done|by apply (worn_table w)|].
  cbn [core with_core]. rewrite Hc, Hk. do 2 f_equal.
  change (pages k1) with a. destruct (pv_layout _ _ (proj1 Hre)) as [Hh _].
  destruct (pv_layout _ _ (wn_frames _ _ Hw)) as [Hh' _]. cbn [core with_core] in Hh'. congruence.
Qed.

(** One command: exit, crash or a file that is refused. *)
Lemma exec_worn w name args :
  ends → up w → runnable v NAME w name args →
  worn w (run_exec w name args) ∧ up (run_exec w name args).
Proof.
  intros Hends Hup Hrun. pose proof Hup as [Hwf Hkt Hm].
  destruct (load w name args) as [r a] eqn:He.
  destruct (exec_loads v kstack NAME w name args r a Hwf Hkt Hrun He)
    as [(msg & -> & Hwf' & Hfs & Hp)|(regs & -> & Hst)]; [by eapply exec_refused|].
  destruct (Hends regs (entered after_font w a regs) (sr_space _ _ _ Hst)) as [Hex|Hcr].
  - destruct (exec_exited w name args regs a Hup He Hst Hex) as [Hw Hok]. split; [done|by apply system_ok_up].
  - pose proof (exec_crashed w name args regs a Hwf Hkt He Hst Hcr) as [_ Hsp _ Hw Hm'].
    split; [done|]. split; [apply (sp_wf _ _ (ss_space _ _ _ Hsp))|by apply (worn_table w)|done].
Qed.

(** ** Sessions *)

Local Abbreviation turn := (fit_turn after_font v kstack NAME user_program).
Local Abbreviation run_lines := (System.run_lines after_font v kstack NAME user_program).
Local Abbreviation lines_fit := (System.lines_fit after_font v kstack NAME user_program).

Lemma same_kernel_up w w' : up w → same_kernel w w' → worn w w' ∧ up w'.
Proof.
  intros [Hwf Hkt Hm] (Hp & Hc & Hk & _). unfold kernel_mapped in Hm.
  split; (split; [by rewrite Hp|by rewrite ?Hp, ?Hk|]); [by rewrite Hp|].
  unfold kernel_mapped. by rewrite Hp, Hc, Hk.
Qed.

Lemma same_machine_up w w' : up w → same_machine w w' → up w'.
Proof. intros Hup Hs. apply (same_kernel_up w); [done|]. by split_and!; apply Hs. Qed.

Lemma turn_worn fuel w w' : ends → up w → turn fuel w w' → worn w w' ∧ up w'.
Proof.
  intros Hends Hup Ht.
  destruct (turn_cases after_font v kstack NAME user_program fuel w w' Ht) as (w1 & H1' & Hcase).
  destruct (same_kernel_up w w1 Hup) as [Hw1 Hup1]; [by split_and!; apply H1'|].
  assert (worn w1 w' ∧ up w') as [Hw2 Hup2].
  { destruct Hcase as [Hk|(f & a & Hrun & ->)]; [by apply same_kernel_up|by apply exec_worn]. }
  split; [by apply (worn_trans _ w1)|done].
Qed.

Lemma turns_worn fuel w0 w : ends → up w0 → rtc (turn fuel) w0 w → worn w0 w ∧ up w.
Proof.
  intros Hends Hup Hs. apply (@rtc_ind_r _ (turn fuel) (λ w, worn w0 w ∧ up w) w0); [|intros w1 w2 _ Ht [Hw1 Hup1]|done].
  { split; [apply worn_refl|done]. }
  destruct (turn_worn fuel w1 w2 Hends Hup1 Ht) as [Hw2 Hup2]. split; [by apply (worn_trans _ w1)|done].
Qed.

(** *** The screen *)

Lemma aborted_inj s s' : Aborted s = Aborted s' → s = s'.
Proof. by intros [= ->]. Qed.

Lemma handler_screen v0 r cr2 s :
  Vga.vga_ok v0 → exception_handler after_font v0 r cr2 = Aborted s → Vga.draws_inside v0 s.
Proof.
  intros Hv. unfold exception_handler. cbv zeta. pose proof (Vga.draws_inside_refl _ Hv) as Hr.
  destruct (int_no r =? 33); [discriminate|]. destruct (_ =? 3); [|discriminate].
  intros He. apply aborted_inj in He. rewrite <- He.
  apply Vga.then_print, Vga.then_print_hex, Vga.then_print, Vga.then_print_hex, Vga.then_print,
    Vga.then_print_hex, Vga.then_print. exact Hr.
Qed.

Lemma abort_draws r cr2 k k' :
  Vga.vga_ok (screen k) → abort r cr2 k = Some k' → Vga.draws_inside (screen k) (screen k').
Proof.
  intros Hv. unfold abort. destruct (exception_handler _ _ _ _) eqn:He; [discriminate| |discriminate].
  intros [= <-]. by apply (handler_screen _ r cr2).
Qed.

(** Every run of a program ends in sys_exit or in an exception, and it never sets
    the cursor to a cell outside the screen. *)
Definition ends_on_grid : Prop :=
  ∀ regs k, space (pages k) (cr3 k) →
    (∃ k', rtc (gstep after_font v) k k' ∧ do_exit k' = Exit (user_program regs k)) ∨
    ∃ k' r cr2, rtc (gstep after_font v) k k' ∧ abort r cr2 k' = Some (user_program regs k).

Lemma ends_on_grid_ends : ends_on_grid → ends.
Proof.
  intros Hg regs k Sp. destruct (Hg regs k Sp) as [(k' & Hs & He)|(k' & r & cr2 & Hs & Ha)].
  - left. exists k'. split; [by apply gsteps_psteps|done].
  - right. exists k', r, cr2. split; [by apply gsteps_psteps|done].
Qed.

Lemma ends_on_grid_draws : ends_on_grid → program_draws user_program.
Proof.
  intros Hg regs k Sp Hv. destruct (Hg regs k Sp) as [(k' & Hs & He)|(k' & r & cr2 & Hs & Ha)];
    pose proof (gsteps_draw after_font v k k' Hv Hs) as Hd.
  - by destruct (exit_devices _ _ He) as [-> _].
  - apply (Vga.draws_inside_trans _ _ _ Hd). by apply (abort_draws r cr2); [apply Hd|].
Qed.

Lemma turns_drawn_up fuel w0 w :
  ends_on_grid → up w0 → Vga.vga_ok (screen (core w0)) → rtc (turn fuel) w0 w → drawn w0 w.
Proof.
  intros Hg Hup Hv Hs.
  apply (turns_drawn after_font v kstack NAME user_program up fuel); [by intros w1 []| |by apply ends_on_grid_draws|done..].
  intros w1 w2 Hup1 Ht. by destruct (turn_worn fuel w1 w2 (ends_on_grid_ends Hg) Hup1 Ht).
Qed.

(** C7. Sessions in which programs crash. Every program exits or is thrown out by an
    exception, whatever stores and system calls it makes before, apart from
    setting the cursor to a cell outside the screen; a program file is absent, or
    one that the loader can place or refuses without running out of frames
    between a page and its tables ([lines_fit]). Then between commands the page
    map in CR3 is allocated and has the kernel's half, the allocator is sound, the
    kernel's tables and all other frames in use are as they were, no frame
    becomes free that was not free before, and nothing is drawn outside the frame
    buffer: crashes cost frames and nothing else. *)
Theorem crash_session fuel lines w0 w :
  ends_on_grid → up w0 → Vga.vga_ok (screen (core w0)) →
  run_lines fuel w0 lines = Some w → lines_fit fuel w0 lines →
  worn w0 w ∧ up w ∧ drawn w0 w.
Proof.
  intros Hg Hup Hv Hl Hfit. pose proof (lines_turns _ _ _ _ _ fuel w0 lines w Hl Hfit) as Hs.
  destruct (turns_worn fuel w0 w (ends_on_grid_ends Hg) Hup Hs). split; [done|]. split; [done|].
  by apply (turns_drawn_up fuel).
Qed.

(** C34. What a crash costs. After an exception in a program that the loader has
    started, CR3 holds the page map of the process and not the kernel's, the
    process's memory is mapped as before, and the frames that were free before
    the command are those that are free now and those the page map holds, its
    root among them. No later command gives any of these back. *)
Theorem crash_leaks w name args regs a :
  up w → runnable v NAME w name args →
  load w name args = (Started regs, a) → crashes_at regs (entered after_font w a regs) →
  let w' := run_exec w name args in
  cr3 (core w') = um_cr3 regs ∧
  cr3 (core w') ≠ u64 (kernel_pml4 (core w') - hhdm (pages (core w'))) ∧
  (∀ x, user x → lookup_page (pages (core w')) (cr3 (core w')) x = lookup_page a (um_cr3 regs) x) ∧
  (∀ i, i ∈ free_set (pages (core w)) ↔
     i ∈ free_set (pages (core w')) ∨ holds (pages (core w')) (cr3 (core w')) (i * PAGE_SIZE)) ∧
  holds (pages (core w')) (cr3 (core w')) (cr3 (core w')) ∧
  ∀ fuel lines w2 i, ends → run_lines fuel w' lines = Some w2 → lines_fit fuel w' lines →
    holds (pages (core w')) (cr3 (core w')) (i * PAGE_SIZE) → i ∉ free_set (pages (core w2)).
Proof.
  intros Hup Hrun He Hcr w'. pose proof Hup as [Hwf Hkt Hm].
  destruct (exec_loads v kstack NAME w name args _ a Hwf Hkt Hrun He)
    as [(msg & [=] & _)|(regs' & [= <-] & Hst)].
  pose proof (exec_crashed w name args regs a Hwf Hkt He Hst Hcr) as [Hc Hsp Ho Hw Hm'].
  fold w' in Hc, Hsp, Ho, Hw, Hm'. pose proof (ss_space _ _ _ Hsp) as Sp.
  assert (up w') as Hup' by (split; [apply (sp_wf _ _ Sp)|by apply (worn_table w)|done]).
  rewrite Hc. split_and!; [done| |apply Hsp|exact Ho|by left|].
  - destruct Hkt as (t & Ht & Hf). rewrite (wn_pml4 _ _ Hw).
    destruct (pv_layout _ _ (wn_frames _ _ Hw)) as [-> _]. rewrite (kernel_map_frame w t) by done.
    intros Heq. apply (proj2 (sr_reach _ _ _ Hst) (um_cr3 regs)); [by left|by rewrite Heq].
  - intros fuel lines w2 i Hends Hl Hfit Hh Hfree.
    pose proof (lines_turns _ _ _ _ _ fuel w' lines w2 Hl Hfit) as Hs.
    destruct (turns_worn fuel w' w2 Hends Hup' Hs) as [[Hsub _ _] _].
    destruct (space_holds _ _ _ Sp Hh) as (j & Hij & _ & Hj).
    assert (j = i) as -> by (unfold PAGE_SIZE in Hij; lia). by apply Hj, Hsub.
Qed.
End Faults.
