(* ===== verification/Initrd.v ===== *)
(** Drive C under a running system: the archive of tarfs.c in the memory that
    programs and the kernel share.

    The boot loader has put the archive into frames that are never given out
    ([initrd]); a session leaves such frames alone (Faults.v), so looking a name up
    gives the same member at any time, and a program of the archive can be
    started as long as enough frames are free. *)

From S2P Require Export System Faults.
From S2P Require Import Io Block Fat16.
From S2P Require Shell TarFs.
Open Scope Z_scope.

Section Initrd.
Context {St : Type} `{PageAllocatorLaws St} {D : Type} `{DiskLaws D} {P : Type} `{Ports P}.
Context (NAME : Z).
Implicit Types (w : @system St D P) (a : St).

(** The byte at [x] belongs to a frame that is in use. *)
Definition in_use a (x : Z) : Prop := ∃ k, table_frame a (k * PAGE_SIZE) ∧ in_page (hhdm a) k x.

Lemma in_use_public a x : in_use a x → ¬ private a x.
Proof.
  intros (k & (k' & Hk & [_ Hp] & _) & Hx). assert (k' = k) as -> by (unfold PAGE_SIZE in Hk; lia).
  by apply Hp.
Qed.

Lemma in_use_kept a a' x :
  alloc_wf a → preserves a a' → in_use a x → in_use a' x ∧ rd8 (ram a') x = rd8 (ram a) x.
Proof.
  intros Hwf [Hl Hf Hk] (k & Ht & Hx). split.
  - exists k. split; [by apply Hf|]. by destruct Hl as [-> _].
  - set (t := k * PAGE_SIZE) in *. set (j := (x - (hhdm a + t)) / 8).
    assert (hhdm a + t ≤ x < hhdm a + t + 4096) as Hr by (unfold in_page, t, PAGE_SIZE in *; lia).
    assert (0 ≤ j < 512) as Hj by (unfold j; dlia). specialize (Hk t Ht j Hj). unfold ent in Hk.
    rewrite (table_layout a a' t Hl), (table_small a t Hwf Ht) in Hk.
    apply (rd_le_inj 8 _ _ _ Hk). unfold j. dlia.
Qed.

(** The archive lies in frames in use, apart from the name that is looked up. *)
Record initrd w (es : list TarFs.member) : Prop := {
  ir_mounted : TarFs.mounted (ram (pages (core w))) (archive w) es;
  ir_frames x : TarFs.ramdisk_base (archive w) ≤ x < TarFs.ramdisk_base (archive w) + TarFs.span es →
    in_use (pages (core w)) x;
  ir_name : NAME + Shell.ARGS_SIZE ≤ TarFs.ramdisk_base (archive w) ∨
    TarFs.ramdisk_base (archive w) + TarFs.span es ≤ NAME;
}.

Lemma initrd_kept w w' es :
  alloc_wf (pages (core w)) → preserves (pages (core w)) (pages (core w')) → archive w' = archive w →
  initrd w es → initrd w' es.
Proof.
  intros Hwf Hp Ha [Hm Hf Hn]. split; rewrite ?Ha; [|intros x Hx; by apply (in_use_kept _ _ _ Hwf Hp), Hf|done].
  apply (TarFs.mounted_ext (ram (pages (core w)))); [|done].
  intros x Hx. by apply (in_use_kept _ _ _ Hwf Hp), Hf.
Qed.

(** A name that fits in [args]. *)
Definition short_name (n : list Z) : Prop :=
  Forall (λ c, 0 < c < 2 ^ 8) n ∧ Z.of_nat (length n) < Shell.ARGS_SIZE.

Lemma named_cstr m n : short_name n → cstr (named NAME m n) NAME n.
Proof.
  intros [Hb _]. split; [done|]. rewrite List.Forall_forall in Hb. split.
  - intros i c Hi. unfold named. rewrite (wr_bytes_inside _ _ (n ++ [0]) i c) by by apply lookup_app_l_Some.
    specialize (Hb c). unfold u8. rewrite Z.mod_small; [done|].
    enough (0 < c < 2 ^ 8) by lia. apply Hb. by apply list_elem_of_In, (list_elem_of_lookup_2 _ i).
  - unfold named. apply (wr_bytes_inside _ _ _ _ 0). by rewrite lookup_app_r, Nat.sub_diag by lia.
Qed.

(** What drive C answers for the name [n]. *)
Definition member_answer (es : list TarFs.member) (n : list Z) : answer :=
  match TarFs.find_member es n with
  | Some e => mk_answer (Z.of_nat (length (TarFs.data e))) (s32 (Z.of_nat (length (TarFs.data e))), TarFs.data e)
  | None => mk_answer 0 (0, [])
  end.

(** The allocator's own data is all that may differ in the memory. *)
Lemma drive_c_answers w es n m :
  initrd w es → short_name n →
  (∀ x, ¬ private (pages (core w)) x → rd8 m x = rd8 (ram (pages (core w))) x) →
  drive_c NAME w n m = member_answer es n.
Proof.
  intros [Hm Hf Hn] Hs Hx. unfold drive_c, tar_file, member_answer.
  assert (TarFs.mounted (named NAME m n) (archive w) es) as Hmn.
  { apply (TarFs.mounted_ext (ram (pages (core w)))); [|done]. intros x Hr. unfold named.
    rewrite wr_bytes_outside; [apply Hx, in_use_public; by apply Hf|].
    rewrite length_app. cbn [length]. destruct Hs. lia. }
  pose proof (TarFs.tar_lookup _ _ _ NAME n Hmn (named_cstr m n Hs)) as Hl.
  by destruct (TarFs.find_member es n) as [e|]; destruct Hl as [-> ->].
Qed.

(** A member that drive A does not hide is what the loader is given. *)
Lemma member_program v w es n e :
  initrd w es → short_name n → TarFs.find_member es n = Some e →
  Z.of_nat (length (TarFs.data e)) < 2 ^ 31 → file_size (drive_a v w n) = 0 →
  program_file (drive_a v w n) (drive_c NAME w n) (pages (core w)) (TarFs.data e).
Proof.
  intros Hi Hs He Hlen Ha. right. split; [done|]. intros m Hm.
  rewrite (drive_c_answers w es n m Hi Hs Hm). unfold member_answer, file_answer. rewrite He.
  by rewrite (signed_small 32) by lia.
Qed.
End Initrd.

Section Session.
Context {St : Type} `{PageAllocatorLaws St} {D : Type} `{DiskLaws D} {P : Type} `{Ports P}.
Context (after_font : Z → Z) (v : vol) (kstack NAME : Z).
Context (user_program : usermode → @kernel St D → @kernel St D).
Implicit Types (w : @system St D P).

Local Abbreviation turn := (fit_turn after_font v kstack NAME user_program).

Lemma turns_initrd fuel w0 w es :
  ends after_font v user_program → up w0 → rtc (turn fuel) w0 w → initrd NAME w0 es → initrd NAME w es.
Proof.
  intros Hends Hup Hs Hi.
  destruct (turns_worn after_font v kstack NAME user_program fuel w0 w Hends Hup Hs) as [[_ _ Hp] _].
  apply (initrd_kept NAME w0); [apply Hup|done| |done]. clear Hp Hi Hup.
  induction Hs as [w|w w1 w2 Ht _ IH]; [done|]. rewrite IH. by eapply turn_archive.
Qed.

(** C2. Drive C in a session. Any number of lines are typed and the programs they
    name run: every program exits or crashes, whatever stores and system calls it
    makes before, apart from setting the cursor to a cell outside the screen; and a
    program file is absent, or one that the loader can place or refuses without
    running out of frames between a page and its tables ([lines_fit]). Then looking
    a name up on the archive finds the first member of that name, with its size and
    its bytes, or nothing if there is none; the archive's frames have kept their
    contents, and nothing has been drawn outside the frame buffer, so over the
    archive neither. *)
Theorem drive_c_session fuel lines w0 w es n :
  ends_on_grid after_font v user_program → up w0 → Vga.vga_ok (screen (core w0)) → initrd NAME w0 es →
  run_lines after_font v kstack NAME user_program fuel w0 lines = Some w →
  lines_fit after_font v kstack NAME user_program fuel w0 lines → short_name n →
  drive_c NAME w n (ram (pages (core w))) = member_answer es n ∧ initrd NAME w es ∧ drawn w0 w.
Proof.
  intros Hg Hup Hv Hi Hl Hfit Hn. pose proof (lines_turns _ _ _ _ _ fuel w0 lines w Hl Hfit) as Hs.
  assert (initrd NAME w es) as Hiw by (apply (turns_initrd fuel w0); [by apply ends_on_grid_ends|done..]).
  split; [by apply drive_c_answers|]. split; [done|].
  by apply (turns_drawn_up after_font v kstack NAME user_program fuel).
Qed.
End Session.
