(* ===== verification/Boot.v ===== *)
(** Starting the kernel (src/kernel/main.c, [_start] up to the command loop).

    [_start] calls the initialisations of all components in the code's order
    and gives the state the shell starts in. What comes from outside is in
    [firmware] (the boot loader's responses), [image_layout] (addresses the
    linker chose) and the state of processor, devices, disk and memory at entry.
    What main.c writes to the serial port goes, like the screen's output, to the
    record of the bytes sent; that the port driver sends them is
    [Pci.serial_print_spec].

    The theorem joins boot and sessions: the machine that comes up satisfies the
    invariant of System.v, so whatever is run on it, between commands the free
    frames are those of the memory map without the bitmap, or some of these when
    programs crash. *)

From S2P Require Export System Faults Pmm.
From S2P Require Import Io Block Fat16 Keyboard.
From S2P Require Vga TarFs Acpi Cpu Pci Heap Shell.
Open Scope Z_scope.

Record firmware := mk_firmware {
  fw_hhdm : option Z;
  fw_memmap : option (list limine_memmap_entry);
  fw_framebuffer : option (list Vga.framebuffer);
  fw_module : option (list (Z * Z));
  fw_rsdp : option Z;
}.

Record image_layout := mk_layout {
  at_gdt : Z; at_tss : Z; at_idt : Z; at_isrs : Z → Z; at_isr_keyboard : Z; at_syscall_entry : Z;
}.

(** The registers and tables of the processor. *)
Record processor := mk_processor {
  p_gdt : Cpu.gdt_state;
  p_idt : Cpu.idt_state;
  p_cr0 : Z;
  p_cr4 : Z;
  p_msrs : gmap Z Z;
}.

Section Boot.
Context {D : Type} `{DiskLaws D} {P : Type} `{Ports P}.
Context (after_font : Z → Z).

(** [serial_print]. *)
Definition log (s : Vga.vga) (line : string) : Vga.vga :=
  Vga.mk_vga (Vga.fb s) (Vga.terminal_row s) (Vga.terminal_column s) (Vga.fg_color s) (Vga.bg_color s)
    (Vga.pixels s) (Vga.serial s ++ str line ++ [10]).

(** [bpb] and the other statics of fat16.c before [fat16_init]. *)
Definition vol_boot : vol := mk_vol (mk_bpb 0 0 0 0 0 0 0 0) 0 0 0.
Definition no_signature : list Z := str "FAT16: Assinatura 0xAA55 nao encontrada no setor 0." ++ [10].

(** The volume after [fat16_init], and what it prints. *)
Definition mount (disk : D) : vol * list Z :=
  match fat16_init disk with Some v => (v, []) | None => (vol_boot, no_signature) end.

(** [None]: [pmm_init] has halted the machine. *)
Definition _start (fw : firmware) (ad : image_layout) (msrs : gmap Z Z) (cr0 cr4 cr3 : Z) (m : mem)
    (disk : D) (d : P) : option (processor * Heap.heap pmm * vol * @system pmm D P) :=
  let d := Pci.serial_init d in
  let s := log Vga.vga_boot "[BOOT] serial_init done" in
  let s := Vga.vga_init s (fw_framebuffer fw) in
  let s := Vga.vga_print after_font s (str "Inicializando Hardware e Memoria..." ++ [10]) in
  let s := log s "[BOOT] vga_init done" in
  let gdt := Cpu.gdt_init Cpu.gdt_boot (at_gdt ad) (at_tss ad) in
  let s := log s "[BOOT] gdt_init done" in
  let idt := Cpu.idt_init Cpu.idt_boot (at_idt ad) (at_isrs ad) (at_isr_keyboard ad) in
  let s := log s "[BOOT] idt_init done" in
  let '(cr0, cr4) := Cpu.fpu_init cr0 cr4 in
  let s := log s "[BOOT] fpu_init done" in
  let msrs := Cpu.syscall_init msrs (at_syscall_entry ad) in
  let s := log s "[BOOT] syscall_init done" in
  let d := Cpu.pic_remap d in
  let s := log s "[BOOT] pic_remap done" in
  match pmm_init (fw_hhdm fw) (fw_memmap fw) m with
  | None => None
  | Some a =>
      let s := log s "[BOOT] pmm_init done" in
      let kernel_pml4 := vmm_init a cr3 in
      let s := log s "[BOOT] vmm_init done" in
      let h := Heap.heap_init a in
      let s := log s "[BOOT] heap_init done" in
      let '(archive, out) := TarFs.tarfs_init TarFs.tarfs_boot (fw_module fw) in
      let s := Vga.vga_print after_font s out in
      let s := log s "[BOOT] tarfs_init done" in
      let '(v, out) := mount disk in
      let s := Vga.vga_print after_font s out in
      let s := log s "[BOOT] fat16_init done" in
      let '(d, out) := Pci.pci_init d in
      let s := Vga.vga_print after_font s out in
      let s := log s "[BOOT] pci_init done" in
      let '(power, d, out) := Acpi.acpi_init (hhdm a) (ram a) Acpi.acpi_boot d (fw_rsdp fw) in
      let s := Vga.vga_print after_font s out in
      let s := log s "[BOOT] acpi_init done" in
      let s := Vga.vga_print after_font s (str "LISP-DOS Iniciado com sucesso!" ++ [10; 10]) in
      Some (mk_processor gdt idt cr0 cr4 msrs, h, v,
            mk_system (mk_kernel a cr3 kernel_pml4 s kbd_boot [] disk) archive power d)
  end.

(** The boot loader's memory map is one the allocator's initialisation handles
    ([boot_map_ok]; above all, the bitmap fills whole pages, or else the defect of
    [pmm_init_exposes_bitmap] shows), its page tables, which the kernel goes on
    with, are in a region that is not marked usable, and its first frame buffer,
    if there is one, holds a cell of text and rows as long as its pitch says. *)
Record loaded (fw : firmware) (cr3 off : Z) (l : list limine_memmap_entry) : Prop := {
  ld_hhdm : fw_hhdm fw = Some off;
  ld_memmap : fw_memmap fw = Some l;
  ld_map : boot_map_ok off l;
  ld_cr3 : ∃ k, cr3 = k * PAGE_SIZE ∧ 0 < k < highest_address l / PAGE_SIZE ∧ k ∉ map_frames l;
  ld_screen f fs : fw_framebuffer fw = Some (f :: fs) → Vga.fb_ok f;
}.

Lemma elem_of_map_frames l i : i ∈ map_frames l ↔ ∃ e, e ∈ l ∧ i ∈ entry_frames e.
Proof.
  unfold map_frames. rewrite elem_of_union_list. split.
  - intros (X & HX & Hi). apply list_elem_of_fmap in HX as (e & -> & He). by exists e.
  - intros (e & He & Hi). exists (entry_frames e). split; [by apply list_elem_of_fmap_2|done].
Qed.

Lemma pmm_init_kernel off l m k :
  boot_map_ok off l → 0 < k < highest_address l / PAGE_SIZE → k ∉ map_frames l →
  ∃ a e, e ∈ l ∧ pmm_init (Some off) (Some l) m = Some a ∧ alloc_wf a ∧ hhdm a = off ∧
    table_frame a (k * PAGE_SIZE) ∧
    ∀ i, i ∈ free_set a ↔ i ∈ map_frames l ∧ i ∉ bitmap_frames (base e) (highest_address l / PAGE_SIZE / 8).
Proof.
  intros Hok Hk Hmap. destruct (pmm_init_correct off l m Hok)
    as (a & e & He & Hh & Ha & Hwf & Hoff & Hbm & Hhi & Hfree).
  exists a, e. split; [done|]. split; [done|]. split; [done|]. split; [done|]. split; [|done].
  exists k. split; [done|]. split; [|intros Hf%Hfree; tauto].
  split; [cbn; by rewrite Hhi|]. cbn. rewrite Hoff. unfold in_page, in_bitmap. rewrite Hbm, Hhi.
  intros x Hx Hb. apply Hmap. destruct Hok as [_ _ Hg _ _ Hexact _]. destruct Hh as [Hu Hle].
  rewrite List.Forall_forall in Hg. apply list_elem_of_In in He.
  destruct (Hg e He Hu) as (_ & _ & Hba & Hla & _).
  apply elem_of_map_frames. exists e. split; [by apply list_elem_of_In|].
  apply elem_of_entry_frames. split; [done|].
  unfold PAGE_SIZE in *. dlia.
Qed.
(** *** The screen *)

Lemma then_log v v' line : Vga.draws_inside v v' → Vga.draws_inside v (log v' line).
Proof.
  intros [Hf Hv Ho]. split; [done| |done]. intros f Hfb. by apply (Hv f).
Qed.

(** The screen before the first character. *)
Definition blank (framebuffers : option (list Vga.framebuffer)) : Vga.vga :=
  Vga.mk_vga (match framebuffers with Some (f :: _) => Some f | _ => None end) 0 0 0x00FF00 0x000000 ∅ [].

Lemma init_draws framebuffers line :
  (∀ f fs, framebuffers = Some (f :: fs) → Vga.fb_ok f) →
  Vga.draws_inside (blank framebuffers) (Vga.vga_init (log Vga.vga_boot line) framebuffers).
Proof.
  intros Hok. unfold Vga.vga_init. destruct framebuffers as [[|f fs]|]; [split; [done|by intros f|done]| |split; [done|by intros f|done]].
  assert (Vga.vga_ok (blank (Some (f :: fs)))) as Hb.
  { intros f' [= <-]. pose proof (Hok f fs eq_refl) as Hf. split; [done|].
    pose proof (Vga.fb_small f Hf) as (_ & _ & ? & ?). by split; cbn. }
  apply (Vga.draws_inside_trans _ (Vga.mk_vga (Some f) 0 0 0x00FF00 0x000000 ∅ (Vga.serial (log Vga.vga_boot line)))).
  - split; [done|exact Hb|done].
  - apply Vga.clear_inside. exact Hb.
Qed.

(** C13. The kernel comes up, and sessions on it. When the boot loader's memory map
    is one that [pmm_init] handles, with a bitmap that fills whole pages, and its
    page tables and frame buffer are sound ([loaded]), [_start] reaches the command
    loop, with CR3 and the kernel's page map as the boot loader set them. From then
    on, while the program files the lines name are absent or ones that the loader
    can place or refuses without running out of frames between a page and its
    tables ([lines_fit]), and no program sets the cursor to a cell outside the
    screen: if all programs exit, the frames that are free between commands are
    those of the usable regions without the bitmap's, and CR3 is the kernel's; if
    they exit or crash, none but those frames is ever free, the kernel stays
    mapped, and nothing has ever been drawn outside the frame buffer. *)
Theorem boot_session fw ad msrs cr0 cr4 cr3 m disk d off l :
  loaded fw cr3 off l →
  ∃ c h v w0 e, _start fw ad msrs cr0 cr4 cr3 m disk d = Some (c, h, v, w0) ∧ e ∈ l ∧ system_ok w0 ∧
    Syscall.cr3 (core w0) = cr3 ∧ kernel_pml4 (core w0) = off + cr3 ∧
    ∀ kstack name user_program fuel lines w,
      run_lines after_font v kstack name user_program fuel w0 lines = Some w →
      lines_fit after_font v kstack name user_program fuel w0 lines →
      let frames_of_map i :=
        i ∈ map_frames l ∧ i ∉ bitmap_frames (base e) (highest_address l / PAGE_SIZE / 8) in
      (exits_on_grid after_font v user_program →
         Syscall.cr3 (core w) = cr3 ∧ ∀ i, i ∈ free_set (pages (core w)) ↔ frames_of_map i) ∧
      (ends_on_grid after_font v user_program →
         up w ∧ (∀ i, i ∈ free_set (pages (core w)) → frames_of_map i) ∧
         ∀ i, ¬ Vga.frame_word (screen (core w)) i → Vga.pixels (screen (core w)) !! i = None).
Proof.
  intros [Hhhdm Hmm Hok (k & -> & Hk & Hmap) Hfb]. unfold _start. rewrite Hhhdm, Hmm.
  destruct (pmm_init_kernel off l m k Hok Hk Hmap) as (a & e & He & Ha & Hwf & Hoff & Hf & Hfree).
  rewrite Ha. cbn zeta.
  destruct (TarFs.tarfs_init _ _) as [archive out1]. destruct (mount disk) as [v out2].
  destruct (Pci.pci_init _) as [d1 out3]. destruct (Acpi.acpi_init _ _ _ _ _) as [[power d2] out4].
  destruct (Cpu.fpu_init cr0 cr4) as [cr0' cr4'].
  do 4 eexists. exists e. split; [done|].
  match goal with |- context [system_ok ?w] => set (w0 := w) end.
  assert (Vga.draws_inside (blank (fw_framebuffer fw)) (screen (core w0))) as Hscreen.
  { cbn [screen core w0]. repeat first [apply then_log | apply Vga.then_print]. by apply init_draws. }
  assert (vmm_init a (k * PAGE_SIZE) = off + k * PAGE_SIZE) as Hpml4.
  { change (table a (k * PAGE_SIZE) = off + k * PAGE_SIZE). by rewrite table_small, Hoff. }
  assert (system_ok w0) as Hw0.
  { split; [done|by exists (k * PAGE_SIZE)|]. cbn [core kernel_pml4 Syscall.cr3 pages w0].
    rewrite Hpml4, Hoff. replace (off + k * PAGE_SIZE - off) with (k * PAGE_SIZE) by lia.
    destruct (hhdm_bounds a Hwf). destruct Hf as (j & Hj & [Hjr _] & _). unfold PAGE_SIZE in *.
    symmetry. apply u64_small. lia. }
  split; [done|]. split; [done|]. split; [done|]. split; [exact Hpml4|].
  intros kstack name user fuel lines w Hl Hfit.
  pose proof (lines_turns after_font v kstack name user fuel w0 lines w Hl Hfit) as Hs. split.
  - intros Hex%exits_on_grid_exits.
    destruct (turns_steady after_font v kstack name user fuel w0 w Hex Hw0 Hs) as [_ Hfr Hc _ _].
    split; [by rewrite Hc|]. intros i. by rewrite Hfr, <- Hfree.
  - intros Hg. pose proof (ends_on_grid_ends _ _ _ Hg) as Hends.
    destruct (turns_worn after_font v kstack name user fuel w0 w Hends (system_ok_up _ Hw0) Hs) as [[Hfr _ _] Hup].
    split; [exact Hup|]. split; [intros i Hi; by apply Hfree, Hfr|]. intros i Hi.
    pose proof (turns_drawn_up after_font v kstack name user fuel w0 w Hg (system_ok_up _ Hw0)
      (Vga.di_ok _ _ Hscreen) Hs) as Hd.
    pose proof (Vga.draws_inside_trans _ _ _ Hscreen Hd) as [Hsame _ Ho]. apply Ho.
    intros (f & Hff & Hif). apply Hi. exists f. split; [congruence|done].
Qed.
End Boot.
