(* ===== verification/SystemDemo.v ===== *)
(** A session on a concrete machine: the sixteen frames of LoaderDemo.v and a
    disk with the program of that file, which the command "exec p" runs; and a
    machine that boots from a memory map of 32768 frames. *)

From S2P Require Import Pmm Machine Loader LoaderDemo Block Fat16 Fat16Demo Keyboard System Boot.
From S2P Require Vga TarFs Acpi Shell.
Open Scope Z_scope.

Definition no_screen : Vga.vga := Vga.mk_vga None 0 0 7 0 ∅ [].

(** The disk after the program has been written to it. *)
Definition program_disk : gmap_disk :=
  (fat16_write_file demo_vol demo_empty (str "p") demo_elf (Z.of_nat (length demo_elf))).2.

Lemma program_on_disk : fat_file demo_vol program_disk (str "p") = file_answer demo_elf.
Proof. vm_compute. reflexivity. Qed.

Definition session_start : @system pmm gmap_disk bench :=
  mk_system (mk_kernel big 4096 (BASE + 4096) Vga.demo_vga kbd_boot [] program_disk)
    TarFs.tarfs_boot Acpi.acpi_boot (mk_bench [] []).

(** A program that prints a letter and exits. *)
Definition print_and_exit (regs : usermode) (k : @kernel pmm gmap_disk) : kernel :=
  match do_exit (with_screen k (Vga.vga_putchar (λ _, 0) (screen k) 65)) with
  | Exit k' => k'
  | _ => k
  end.

Lemma print_and_exit_exits v : exits_on_grid (λ _, 0) v print_and_exit.
Proof.
  intros regs k _. exists (with_screen k (Vga.vga_putchar (λ _, 0) (screen k) 65)). split; [|done].
  apply rtc_once. by apply (gstep_call (λ _, 0) v k 4 65 0 0 0).
Qed.

Lemma session_start_ok : system_ok session_start.
Proof. split; [exact big_wf|exact big_kernel|reflexivity]. Qed.

Lemma program_loadable : loadable demo_elf None.
Proof. destruct demo_loadable as [Hs Hl _]. by split. Qed.

(** Computes the turn of a concrete line on any machine. *)
Ltac line_typed line cmd name args :=
  unfold Shell.shell_turn;
  match goal with |- context [@Shell.read_command ?W ?S ?w1 line []] =>
    let Hread := fresh in let w2 := fresh in let o := fresh in
    assert ((@Shell.read_command W S w1 line []).2 = Some (cmd, [])) as Hread by reflexivity;
    destruct (@Shell.read_command W S w1 line []) as [w2 o]; cbn [snd] in Hread; subst o end;
  change (Shell.split_command cmd) with (Some (name, args));
  cbn [str list_ascii_of_string map]; unfold Shell.run_command;
  repeat match goal with |- context [Shell.is_cmd ?a ?b] =>
    let r := eval vm_compute in (Shell.is_cmd a b) in change (Shell.is_cmd a b) with r end;
  cbn [orb].

Definition exec_line : list Z := str "exec p" ++ [10].

(** The line typed, for whatever the program does. *)
Lemma exec_turn user :
  ∃ w, Shell.shell_turn (H := system_services (λ _, 0) demo_vol 0 0 user) 5 session_start exec_line
    = Shell.Next w [].
Proof.
  generalize session_start. intros w0.
  line_typed exec_line (str "exec p") (str "exec") (str "p"). by eexists.
Qed.

Lemma program_runnable : runnable demo_vol 0 session_start (str "p") None.
Proof.
  right. exists demo_elf. split; [left; exact program_on_disk|].
  split; [apply loadable_placeable, program_loadable|]. apply fits_enough. vm_compute. discriminate.
Qed.

Lemma exec_runnable user : keys_runnable (λ _, 0) demo_vol 0 0 user session_start exec_line.
Proof.
  intros cmd rest name args f a Hr Hs Ht.
  pose proof (eq_trans (eq_sym Hr) (eq_refl : _ = Some (str "exec p", []))) as Hc.
  injection Hc as -> ->. injection Hs as <- <-.
  injection Ht as <- <-. exact program_runnable.
Qed.

Lemma exec_session user w :
  Shell.shell_turn (H := system_services (λ _, 0) demo_vol 0 0 user) 5 session_start exec_line = Shell.Next w [] →
  run_lines (λ _, 0) demo_vol 0 0 user 5 session_start [exec_line] = Some w ∧
  lines_fit (λ _, 0) demo_vol 0 0 user 5 session_start [exec_line].
Proof.
  intros Ht. unfold run_lines, lines_fit. rewrite Ht. split; [done|]. split; [apply exec_runnable|done].
Qed.

Lemma session_steady_witness :
  ∃ w, run_lines (λ _, 0) demo_vol 0 0 print_and_exit 5 session_start [exec_line] = Some w ∧
    (∀ i, i ∈ free_set (pages (core w)) ↔ 2 ≤ i < 16) ∧
    ∀ i, 1024 ≤ i → Vga.pixels (screen (core w)) !! i = None.
Proof.
  destruct (exec_turn print_and_exit) as [w Ht]. destruct (exec_session _ w Ht) as [Hl Hfit].
  exists w. split; [exact Hl|].
  destruct (session_steady (λ _, 0) demo_vol 0 0 print_and_exit 5 [exec_line] session_start w
    (print_and_exit_exits demo_vol) session_start_ok Vga.demo_vga_ok Hl Hfit) as ([_ Hf _ _ _] & _ & [_ _ Ho]).
  split; [intros i; etransitivity; [apply Hf|]; apply big_free|].
  intros i Hi. etransitivity; [apply Ho|reflexivity]. intros (f & Hff & Hs). injection Hff as <-.
  assert (i < 1024) by exact (proj2 Hs). lia.
Defined.

(** Frame 0 reserved, the page tables in frame 1, the rest usable. *)
Definition boot_map : list limine_memmap_entry :=
  [mk_entry 0 4096 1; mk_entry 4096 4096 5; mk_entry 8192 (32766 * 4096) LIMINE_MEMMAP_USABLE].

Definition demo_firmware : firmware := mk_firmware (Some BASE) (Some boot_map) None None None.

Lemma boot_map_fine : boot_map_ok BASE boot_map.
Proof.
  split; [done|vm_compute; congruence| | |done|done|].
  - repeat constructor; intros Hu; done.
  - split; [apply disjoint_empty_l|]. split; [apply disjoint_empty_l|]. split; [apply disjoint_empty_r|done].
  - right. right. left. split; [done|vm_compute; congruence].
Qed.

Lemma boot_loaded : loaded demo_firmware 4096 BASE boot_map.
Proof.
  split; [done|done|exact boot_map_fine| |done]. exists 1. split; [done|].
  split; [vm_compute; split; reflexivity|]. intros (e & He & Hi)%elem_of_map_frames.
  apply elem_of_entry_frames in Hi as [Hu Hr].
  unfold boot_map in He. rewrite !elem_of_cons, elem_of_nil in He.
  destruct He as [->|[->|[->|[]]]]; [discriminate Hu|discriminate Hu|].
  cbn [base length_] in Hr. change (8192 / PAGE_SIZE) with 2 in Hr. lia.
Qed.

Lemma boot_session_witness :
  ∃ c h v w0, _start (λ _, 0) demo_firmware (mk_layout 0 0 0 (λ _, 0) 0 0) ∅ 0 0 4096 ∅ demo_empty (mk_bench [] [])
      = Some (c, h, v, w0) ∧
    ∀ fuel lines w, run_lines (λ _, 0) v 0 0 print_and_exit fuel w0 lines = Some w →
      lines_fit (λ _, 0) v 0 0 print_and_exit fuel w0 lines → Syscall.cr3 (core w) = 4096.
Proof.
  destruct (boot_session (λ _, 0) demo_firmware (mk_layout 0 0 0 (λ _, 0) 0 0) ∅ 0 0 4096 ∅ demo_empty
    (mk_bench [] []) BASE boot_map boot_loaded) as (c & h & v & w0 & e & Hs & _ & _ & _ & _ & Hrun).
  exists c, h, v, w0. split; [exact Hs|]. intros fuel lines w Hl Hfit.
  apply (proj1 (Hrun 0 0 print_and_exit fuel lines w Hl Hfit) (print_and_exit_exits v)).
Defined.
