(* ===== verification/UserProg.v ===== *)
(** What a user program relies on: the bytes it stored or was loaded with are
    what the kernel finds when a system call takes a string or a buffer.

    [mapped] is a range of user memory the program owns, [holds_at] says what
    bytes a range holds, and [string_in] that a string with its NUL lies there. *)

From S2P Require Export SyscallProofs Loader.
From S2P Require Import Block Fat16 Keyboard.
Open Scope Z_scope.

Section Memory.
Context {St : Type} `{PageAllocatorLaws St}.
Implicit Types (a : St).

Definition mapped a (map p n : Z) : Prop :=
  ∀ w, p ≤ w < p + n → user w ∧ is_Some (lookup_page a map w).

(** The bytes [l] from [p] on. *)
Definition holds_at (view : Z → option Z) (p : Z) (l : list Z) : Prop :=
  ∀ i c, l !! i = Some c → view (p + Z.of_nat i) = Some c.

Definition string_in (view : Z → option Z) (p : Z) (s : list Z) : Prop := holds_at view p (s ++ [0]).

Lemma view_byte a map x c : user_view a map x = Some c → load_byte a map x = c.
Proof.
  unfold user_view, load_byte. destruct (lookup_page a map x); [|done]. by intros [= <-].
Qed.

Lemma mapped_access a map p n w wr : space a map → mapped a map p n → p ≤ w < p + n → user_access a map w wr.
Proof. intros Sp Hm Hw. destruct (Hm w Hw) as [Hu [e He]]. by apply (space_access a map w e). Qed.

Lemma mapped_prefix a map p n m : m ≤ n → mapped a map p n → mapped a map p m.
Proof. intros Hmn Hm w Hw. apply Hm. lia. Qed.

Lemma mapped_same a a' map p n : same_space a a' map → mapped a map p n → mapped a' map p n.
Proof.
  intros Hs Hm w Hw. destruct (Hm w Hw) as [Hu He]. split; [done|].
  by rewrite (ss_lookup _ _ _ Hs w Hu).
Qed.

(** A range of the view is mapped. *)
Lemma view_mapped a map p l :
  0 ≤ p → p + Z.of_nat (length l) ≤ USER_LIMIT → holds_at (user_view a map) p l →
  mapped a map p (Z.of_nat (length l)).
Proof.
  intros Hp Hl Hv w Hw. split; [unfold user; lia|].
  destruct (lookup_lt_is_Some_2 l (Z.to_nat (w - p)) ltac:(lia)) as [c Hc].
  specialize (Hv _ _ Hc). rewrite Z2Nat.id in Hv by lia. replace (p + (w - p)) with w in Hv by lia.
  unfold user_view in Hv. destruct (lookup_page a map w); [by eexists|done].
Qed.

(** After a store the range holds the bytes; the rest is as before. *)
Lemma store_inside a map p l :
  space a map → mapped a map p (Z.of_nat (length l)) → Forall (λ c, 0 ≤ c < 256) l →
  holds_at (user_view (user_store a map p l) map) p l.
Proof.
  intros Sp Hm Hl i c Hi. destruct (store_spec a map p l Sp Hm) as (Hs & _ & Hin).
  pose proof (lookup_lt_Some _ _ _ Hi). destruct (Hm (p + Z.of_nat i) ltac:(lia)) as [Hu [e He]].
  specialize (Hin i c Hi). unfold load_byte in Hin. unfold user_view.
  rewrite (ss_lookup _ _ _ Hs) in * by done. rewrite He in *. rewrite Hin. f_equal. apply u8_small.
  rewrite List.Forall_forall in Hl. by apply Hl, list_elem_of_In, (list_elem_of_lookup_2 _ i).
Qed.

Lemma store_outside a map p l w :
  space a map → mapped a map p (Z.of_nat (length l)) → user w →
  ¬ p ≤ w < p + Z.of_nat (length l) →
  user_view (user_store a map p l) map w = user_view a map w.
Proof.
  intros Sp Hm Hu Hw. destruct (store_spec a map p l Sp Hm) as (Hs & Hr & _).
  unfold user_view. rewrite (ss_lookup _ _ _ Hs w Hu).
  destruct (lookup_page a map w) as [e|] eqn:He; [|done].
  rewrite (table_layout a _ (page_base e)) by apply Hs. f_equal. apply Hr.
  intros w' e' Hw' He' Heq. destruct (Hm w' Hw') as [Hu' _].
  by pose proof (user_address_inj a map w w' e e' Sp Hu Hu' He He' Heq) as ->.
Qed.

Lemma store_same a map p l :
  space a map → mapped a map p (Z.of_nat (length l)) → same_space a (user_store a map p l) map.
Proof. intros Sp Hm. by apply store_spec. Qed.

(** Bytes elsewhere survive a store. *)
Lemma store_keeps a map p l q s :
  space a map → mapped a map p (Z.of_nat (length l)) → mapped a map q (Z.of_nat (length s)) →
  q + Z.of_nat (length s) ≤ p ∨ p + Z.of_nat (length l) ≤ q →
  holds_at (user_view a map) q s → holds_at (user_view (user_store a map p l) map) q s.
Proof.
  intros Sp Hm Hq Hd Hv i c Hi. pose proof (lookup_lt_Some _ _ _ Hi).
  rewrite store_outside; [by apply Hv|done|done| |lia]. by apply Hq; lia.
Qed.

(** The kernel finds a buffer. *)
Lemma user_bytes_found a map p l :
  holds_at (user_view a map) p l → user_bytes a map p (Z.of_nat (length l)) = l.
Proof.
  intros Hv. apply list_eq. intros i. unfold user_bytes. rewrite list_lookup_fmap.
  destruct (l !! i) as [c|] eqn:Hi.
  - pose proof (lookup_lt_Some _ _ _ Hi). rewrite lookup_seqZ_lt by lia. cbn.
    f_equal. rewrite Z.add_0_l. by apply view_byte, Hv.
  - apply lookup_ge_None in Hi. by rewrite lookup_seqZ_ge by lia.
Qed.

(** The kernel finds a string. *)
Lemma user_string_found a map p s :
  space a map → 0 ≤ p → p + Z.of_nat (length s) < USER_LIMIT → Forall (λ c, c ≠ 0) s →
  string_in (user_view a map) p s →
  user_string load_byte a map p ∧ user_str a map p = inr s.
Proof.
  intros Sp Hp Hlim Hs Hstr. set (n := Z.of_nat (length s)) in *.
  assert (∀ w, p ≤ w ≤ p + n → user_access a map w false) as Hacc.
  { intros w Hw. apply (mapped_access a map p (Z.of_nat (length (s ++ [0])))); [done| |rewrite length_app; cbn; lia].
    apply view_mapped; [done|rewrite length_app; cbn; lia|done]. }
  assert (∀ i c, s !! i = Some c → load_byte a map (p + Z.of_nat i) = c) as Hbytes.
  { intros i c Hi. apply view_byte, Hstr. by apply lookup_app_l_Some. }
  assert (load_byte a map (p + n) = 0) as Hnul.
  { apply view_byte, Hstr. rewrite lookup_app_r by lia. by rewrite Nat.sub_diag. }
  assert (user_string load_byte a map p) as Hus by (exists n; split_and!; [lia|done..]).
  split; [done|].
  destruct (user_str_spec a map p Hp Hus) as (m & Hm & -> & _ & _ & Hz & Hnz).
  assert (m = n) as ->.
  { destruct (Z.lt_trichotomy m n) as [Hlt|[?|Hgt]]; [|done|by destruct (Hnz n ltac:(lia))].
    destruct (lookup_lt_is_Some_2 s (Z.to_nat m) ltac:(lia)) as [c Hc].
    pose proof (Hbytes _ _ Hc) as Hb. rewrite Z2Nat.id in Hb by lia.
    rewrite List.Forall_forall in Hs. destruct (Hs c); [|congruence].
    by apply list_elem_of_In, (list_elem_of_lookup_2 _ (Z.to_nat m)). }
  f_equal. apply user_bytes_found. intros i c Hi. apply Hstr. by apply lookup_app_l_Some.
Qed.
End Memory.

Section Calls.
Context {St : Type} `{PageAllocatorLaws St} {D : Type} `{DiskLaws D}.
Implicit Types (k : @kernel St D).

Lemma check_string_found k p s :
  space (pages k) (cr3 k) → 0 ≤ p → p + Z.of_nat (length s) < USER_LIMIT → Forall (λ c, c ≠ 0) s →
  string_in (user_view (pages k) (cr3 k)) p s →
  check_string k p = true ∧ user_str (pages k) (cr3 k) p = inr s.
Proof.
  intros Sp Hp Hlim Hs Hstr.
  destruct (user_string_found (pages k) (cr3 k) p s Sp Hp Hlim Hs Hstr) as [Hus Hstr'].
  split; [|exact Hstr']. unfold check_string.
  by apply (proj2 (vmm_check_user_string_spec load_byte (pages k) (cr3 k) p ltac:(unfold USER_LIMIT in *; lia))).
Qed.

Lemma with_string_found k p s f :
  space (pages k) (cr3 k) → 0 ≤ p → p + Z.of_nat (length s) < USER_LIMIT → Forall (λ c, c ≠ 0) s →
  string_in (user_view (pages k) (cr3 k)) p s → with_string k p f = f s.
Proof.
  intros Sp Hp Hlim Hs Hstr. destruct (check_string_found k p s Sp Hp Hlim Hs Hstr) as [Hc Hu].
  unfold with_string. by rewrite Hc, Hu.
Qed.

Lemma check_ptr_found k p n wr :
  space (pages k) (cr3 k) → 0 ≤ p → 0 ≤ n → p + n < USER_LIMIT → mapped (pages k) (cr3 k) p n →
  check_ptr k p n wr = true.
Proof.
  intros Sp Hp Hn Hlim Hm. unfold check_ptr.
  apply (proj2 (vmm_check_user_ptr_spec (pages k) (cr3 k) p n wr ltac:(unfold USER_LIMIT in *; lia)
    ltac:(unfold USER_LIMIT in *; lia))).
  right. split; [lia|]. intros x Hx. by apply (mapped_access _ _ p n).
Qed.

(** A call with a string returns, whatever is at [p]. *)
Lemma with_string_returns k p f :
  0 ≤ p < 2 ^ 64 → (∀ s, ∃ r k', f s = Return r k') → ∃ r k', with_string k p f = Return r k'.
Proof.
  intros Hp Hf. unfold with_string. destruct (check_string k p) eqn:Hs; cbn [negb]; [|by do 2 eexists].
  unfold check_string in Hs.
  pose proof (proj1 (vmm_check_user_string_spec load_byte (pages k) (cr3 k) p Hp) Hs) as Hus.
  destruct (user_str_spec (pages k) (cr3 k) p (proj1 Hp) Hus) as (n & _ & -> & _). apply Hf.
Qed.
End Calls.

(** ** Calls that read a file *)

(** What the stubs leave in the registers. *)
Definition regs_ok (r : regs) : Prop := 0 ≤ rdi r < 2 ^ 64 ∧ 0 ≤ rsi r < 2 ^ 64.

(** A name that the programs pass. *)
Definition name_bytes (name : list Z) : Prop :=
  Forall is_byte name ∧ Forall (λ c, c ≠ 0) name ∧ (length name ≤ 31)%nat.

(** A character goes through a register unharmed. *)
Lemma char_register c : cong 8 (u64 (s8 c)) c.
Proof.
  unfold cong, u64. rewrite <- (signed_cong 8 c) by lia. fold (s8 c).
  apply Z.mod_mod_divide. by exists (2 ^ 56).
Qed.

Section ReadFile.
Context {St : Type} `{PageAllocatorLaws St} {D : Type} `{DiskLaws D}.
Context (after_font : Z → Z) (v : vol) (r0 : regs).
Implicit Types (k : @kernel St D).

Definition store k (p : Z) (bytes : list Z) : kernel :=
  with_pages k (user_store (pages k) (cr3 k) p bytes).

Lemma store_screen k p l : screen (store k p l) = screen k.
Proof. reflexivity. Qed.
Lemma store_disk k p l : disk (store k p l) = disk k.
Proof. reflexivity. Qed.
Lemma store_keys k p l : keyboard (store k p l) = keyboard k ∧ scancodes (store k p l) = scancodes k.
Proof. split; reflexivity. Qed.

(** A store into mapped memory is a step. *)
Lemma store_step k p l :
  space (pages k) (cr3 k) → 0 ≤ p → mapped (pages k) (cr3 k) p (Z.of_nat (length l)) →
  pstep after_font v k (store k p l).
Proof.
  intros Sp Hp Hm. apply step_store; [done|]. intros x Hx. split; [apply (Hm x Hx)|].
  by apply (mapped_access _ _ p (Z.of_nat (length l))).
Qed.

(** A call whose result is an [int]; 0 where it does not return. *)
Definition int_of (o : @Syscall.outcome St D) : Z := default 0 (int_result o).

Lemma int_of_return x k : int_of (Return x k) = s32 x.
Proof. reflexivity. Qed.

Lemma entry_size k p : syscall_entry after_font v k (sys_fat16_get_file_size r0 p) =
  with_string k p (λ name, Return (u64 (fat16_get_file_size v (disk k) name)) k).
Proof. reflexivity. Qed.

Lemma entry_read k p q : syscall_entry after_font v k (sys_fat16_read_file r0 p q) = do_read after_font v k p q.
Proof. reflexivity. Qed.

(** The buffer is mapped and the file fits into it. *)
Lemma read_call k p f q n content :
  space (pages k) (cr3 k) → Forall (λ c, c ≠ 0) f → string_in (user_view (pages k) (cr3 k)) p f →
  0 ≤ p → p + Z.of_nat (length f) < USER_LIMIT →
  mapped (pages k) (cr3 k) q n → 0 ≤ q → q + n < USER_LIMIT →
  fat16_get_file_size v (disk k) f = Z.of_nat (length content) →
  fat16_read_file v (disk k) f = (s32 (Z.of_nat (length content)), content) →
  0 < Z.of_nat (length content) ≤ n → n < 2 ^ 31 →
  syscall_entry after_font v k (sys_fat16_read_file r0 p q) =
    Return (Z.of_nat (length content)) (store k q content).
Proof.
  intros Sp Hz Ha Ha0 Hal Hm Hq Hql Hsize Hread Hl Hn.
  rewrite entry_read. unfold do_read. rewrite (with_string_found k p f) by done. cbn zeta.
  rewrite Hsize, Hread. rewrite (proj2 (Z.eqb_neq _ 0)) by lia.
  rewrite check_ptr_found; [|done|lia..|].
  - cbn [negb]. unfold s32. rewrite signed_small, u64_small by lia. done.
  - eapply mapped_prefix; [|exact Hm]. lia.
Qed.

Lemma file_bytes d f r content : fat16_read_file v d f = (r, content) → Forall is_byte content.
Proof. intros Hread. pose proof (read_file_out v d f) as [[_ Hout] _]. by rewrite Hread in Hout. Qed.
End ReadFile.

(** ** From the image to the memory of the process *)

Section Image.
Context {St : Type} `{PageAllocatorLaws St}.

(** The image loads the addresses from [p] to [p + n], below the stack. *)
Definition loads_range (img : list Z) (p n : Z) : Prop :=
  0 ≤ p ∧ p + n < USER_STACK ∧
  ∀ w, p ≤ w < p + n → is_Some (seg_view img (loads img (e_phnum (image img) 0)) w).

Lemma ready_view a a' pml4 map img args w :
  process_ready a a' pml4 map img args → 0 ≤ w < USER_STACK →
  user_view a' map w = seg_view img (loads img (e_phnum (image img) 0)) w.
Proof.
  intros R Hw. apply (pr_segments _ _ _ _ _ _ R).
  - unfold user, USER_LIMIT, USER_STACK in *. lia.
  - rewrite page_base_spec. unfold USER_STACK in *. dlia.
Qed.

Lemma ready_mapped a a' pml4 map img args p n :
  process_ready a a' pml4 map img args → loads_range img p n → mapped a' map p n.
Proof.
  intros R (Hp & Hlim & Hl) w Hw. split; [unfold user, USER_LIMIT, USER_STACK in *; lia|].
  destruct (Hl w Hw) as [c Hc]. rewrite <- (ready_view _ _ _ _ _ _ w R) in Hc by lia.
  unfold user_view in Hc. destruct (lookup_page a' map w); [by eexists|done].
Qed.

(** The image holds the string at the user address [p], below the stack. *)
Definition carries (img : list Z) (p : Z) (s : list Z) : Prop :=
  string_in (seg_view img (loads img (e_phnum (image img) 0))) p s ∧
  0 ≤ p ∧ p + Z.of_nat (length s) < USER_STACK ∧ Forall (λ c, c ≠ 0) s.

Lemma ready_string a a' pml4 map img args p s :
  process_ready a a' pml4 map img args → carries img p s → string_in (user_view a' map) p s.
Proof.
  intros R (Hstr & Hp & Hlim & _) i c Hi. pose proof (lookup_lt_Some _ _ _ Hi) as Hl.
  rewrite length_app in Hl. cbn in Hl. rewrite (ready_view _ _ _ _ _ _ _ R) by lia. by apply Hstr.
Qed.

(** The argument on the stack. *)
Lemma ready_args a a' pml4 map img f :
  process_ready a a' pml4 map img (Some f) → Forall is_byte f →
  string_in (user_view a' map) (stack_pointer (Some f)) f.
Proof.
  intros R Hf i c Hi. rewrite (pr_args _ _ _ _ _ _ R i c Hi). f_equal. apply u8_small.
  assert (Forall is_byte (f ++ [0])) as Hb by (apply Forall_app; split; [done|by repeat constructor]).
  rewrite List.Forall_forall in Hb. by apply Hb, list_elem_of_In, (list_elem_of_lookup_2 _ i).
Qed.
End Image.

(** ** The keys to come *)

Section Keys.
Context {St D : Type}.
Implicit Types (k : @kernel St D).

(** The characters that wait in the ring and those the scancodes still to come
    will type, as bytes. *)
Definition keystrokes k (cs : list Z) : Prop :=
  kbd_wf (keyboard k) ∧ Forall (λ s, 0 ≤ s < 256) (scancodes k) ∧
  u8 <$> coming (keyboard k) (scancodes k) = cs.

Lemma keystrokes_inj k cs cs' : keystrokes k cs → keystrokes k cs' → cs = cs'.
Proof. intros (_ & _ & <-) (_ & _ & <-). done. Qed.

Lemma keystrokes_same k k' cs :
  keyboard k' = keyboard k → scancodes k' = scancodes k → keystrokes k cs → keystrokes k' cs.
Proof. intros Hk Hs (Hwf & Hsc & Hc). unfold keystrokes. by rewrite Hk, Hs. Qed.

(** Every character takes one that waits or one of the scancodes. *)
Definition key_fuel k : nat := 256 + length (scancodes k).

Lemma keystrokes_fuel k cs : keystrokes k cs → (length cs < key_fuel k)%nat.
Proof. intros (_ & _ & <-). rewrite length_fmap. apply coming_length. Qed.

(** The next character, taken as [keyboard_getchar] does. *)
Lemma keystrokes_next k c cs :
  keystrokes k (c :: cs) →
  ∃ c0 irqs kb, keyboard_getchar (keyboard k) (scancodes k) = Some (c0, irqs, kb) ∧ u8 c0 = c ∧
    ∀ k' : @kernel St D, keyboard k' = kb → scancodes k' = irqs → keystrokes k' cs.
Proof.
  intros (Hwf & Hsc & Hc). destruct (coming (keyboard k) (scancodes k)) as [|c0 q] eqn:Hq; [done|].
  injection Hc as <- <-.
  destruct (getchar_next _ _ _ _ Hwf Hsc Hq) as (irqs & kb & Hg & Hwf' & Hsc' & <-).
  exists c0, irqs, kb. split; [done|]. split; [done|]. intros k' Hk Hs. unfold keystrokes. by rewrite Hk, Hs.
Qed.

(** An interrupt that does not wait for a reader, with room in the ring, makes no
    difference to what is read. *)
Lemma keystrokes_irq k k' s l cs :
  scancodes k = s :: l → pending (keyboard k) < 255 →
  keyboard k' = handle_scancode (keyboard k) s → scancodes k' = l →
  keystrokes k cs → keystrokes k' cs.
Proof.
  intros Hsc Hp Hk Hl (Hwf & Hb & Hc). rewrite Hsc in Hb, Hc. apply Forall_cons_1 in Hb as [Hs Hb].
  destruct (handle_scancode_spec _ s Hwf Hs Hp) as (Hwf' & Hcont & Hmode).
  unfold keystrokes. rewrite Hk, Hl. split; [done|]. split; [done|]. rewrite <- Hc.
  unfold coming. rewrite Hcont, Hmode, (Keyboard.typed_app _ [s] l). by rewrite app_assoc.
Qed.

(** No character: [keyboard_getchar] waits for ever. *)
Lemma keystrokes_none k : keystrokes k [] → keyboard_getchar (keyboard k) (scancodes k) = None.
Proof.
  intros (Hwf & Hsc & Hc). apply fmap_nil_inv in Hc.
  pose proof (getchar_correct _ _ Hwf Hsc) as Hg.
  destruct (keyboard_getchar _ _) as [[[c irqs] kb]|]; [|done].
  destruct Hg as (used & Hsp & _ & Hq & _). unfold coming in Hc. rewrite Hsp, Keyboard.typed_app, app_assoc, Hq in Hc.
  done.
Qed.
End Keys.
