(* ===== verification/Hello.v ===== *)
(** The test program (src/test/test.c), from its file to the screen.

    [test_start] is the program's [_start]: a sys_write of the string at the
    address the compiler gave it, [p], then sys_exit; [Hello.sys_write] and
    [Hello.sys_exit] are its own stubs. The theorem runs through all
    layers: the file system's answer, the loader, the page map, the check and the
    reading of the user's string, the screen, and the release of everything. *)

From S2P Require Export UserProg System.
From S2P Require Import Io Block Fat16 Keyboard.
From S2P Require Vga.
Open Scope Z_scope.

Definition message : list Z := str "Ola do Ring 3! (User Space)" ++ [10].

(** The registers the stubs set. *)
Definition sys_write (r : regs) (s : Z) : regs := mk_regs 1 1 s 0.
Definition sys_exit (r : regs) : regs := mk_regs 60 (rdi r) (rsi r) (rdx r).

Section Hello.
Context {St : Type} `{PageAllocatorLaws St} {D : Type} `{DiskLaws D} {P : Type} `{Ports P}.
Context (after_font : Z → Z) (v : vol) (kstack NAME : Z).

Section Program.
(** [r0]: the registers at entry. *)
Context (p : Z) (r0 : regs).

(** [_start]: the call that waits for ever does not occur. *)
Definition test_start (k : @kernel St D) : kernel :=
  match syscall_entry after_font v k (sys_write r0 p) with
  | Return rax k =>
      match syscall_entry after_font v k (sys_exit (mk_regs rax (rdi r0) (rsi r0) (rdx r0))) with
      | Exit k => k
      | _ => k
      end
  | _ => k
  end.

Lemma handler_write (k : @kernel St D) :
  syscall_handler_c after_font v k 1 1 p 0 =
  with_string k p (λ s, Return 0 (Syscall.print after_font k s)).
Proof. reflexivity. Qed.

(** The call that prints the string at [p]. *)
Lemma sys_write_call k :
  syscall_entry after_font v k (sys_write r0 p) =
  with_string k p (λ s, Return 0 (Syscall.print after_font k s)).
Proof. done. Qed.

Lemma sys_exit_call k r : syscall_entry after_font v k (sys_exit r) = do_exit k.
Proof. done. Qed.

Definition exit_state (k : @kernel St D) : kernel := match do_exit k with Exit k => k | _ => k end.

Lemma do_exit_state (k : @kernel St D) : do_exit k = Exit (exit_state k).
Proof. done. Qed.

Lemma test_start_eq (k : @kernel St D) :
  test_start k =
  match with_string k p (λ s, Return 0 (Syscall.print after_font k s)) with
  | Return _ k => exit_state k
  | _ => k
  end.
Proof.
  unfold test_start. rewrite sys_write_call. destruct (with_string _ _ _) as [r k1| |]; [|done..].
  by rewrite sys_exit_call.
Qed.

(** Whatever the memory holds, the call returns. *)
Lemma write_returns (k : @kernel St D) : 0 ≤ p < 2 ^ 64 →
  ∃ r k1, with_string k p (λ s, Return 0 (Syscall.print after_font k s)) = Return r k1.
Proof. intros Hp. apply with_string_returns; [done|]. intros s. by do 2 eexists. Qed.

Lemma test_exits : 0 ≤ p < 2 ^ 64 → exits after_font v (λ _ k, test_start k).
Proof.
  intros Hp regs k _. cbv beta. rewrite test_start_eq. destruct (write_returns k Hp) as (r & k1 & Hc).
  exists k1. rewrite Hc. split; [|apply do_exit_state]. apply rtc_once.
  apply (step_call after_font v k 1 1 p 0 r); [lia|done|]. by rewrite handler_write.
Qed.
End Program.

(** ** From the file to the screen *)

(** C12. The test program, run from a command line on a machine with enough free
    frames: the machine is afterwards as it was before, and what has been printed is
    the loader's note and then the program's string, whatever
    address the string has been linked at and whatever else the file holds. *)
Theorem hello_printed (w : @system St D P) name img p s r0 :
  system_ok w → program_file (drive_a v w name) (drive_c NAME w name) (pages (core w)) img →
  startable img None (pages (core w)) → carries img p s →
  let w' := exec after_font v kstack NAME (λ _ k, test_start p r0 k) w name None in
  steady w w' ∧
  screen (core w') = Vga.vga_print after_font (Vga.vga_print after_font (screen (core w)) entering) s.
Proof.
  intros Hw Hfile Hst Hcar. destruct Hcar as (Hstr & Hp & Hlim & Hs) eqn:Ecar.
  assert (0 ≤ p < 2 ^ 64) as Hp64 by (unfold USER_STACK in *; lia). cbv zeta.
  destruct (exec_runs after_font v kstack NAME (λ _ k, test_start p r0 k)
    (λ k1, screen k1 = Vga.vga_print after_font (Vga.vga_print after_font (screen (core w)) entering) s)
    w name None img Hw Hfile Hst) as [Hsteady (k1 & Hexit & Hscr)].
  - intros map a R regs k. destruct (test_exits p r0 Hp64 regs k (pr_space _ _ _ _ _ _ R)) as (k1 & Hsteps & Hexit).
    exists k1. split; [done|]. split; [done|]. destruct (exit_devices _ _ Hexit) as [<- _].
    rewrite test_start_eq.
    rewrite (with_string_found _ p s); [done|apply R|done|unfold USER_LIMIT, USER_STACK in *; lia|done|].
    exact (ready_string _ _ _ _ _ _ p s R Hcar).
  - split; [done|]. by destruct (exit_devices _ _ Hexit) as [-> _].
Qed.
End Hello.
