(* ===== verification/HelloDemo.v ===== *)
(** The test program as a file of one segment on a small disk, run on the
    machine of LoaderDemo.v. *)

From S2P Require Import Pmm Machine Loader LoaderDemo Block Fat16 Fat16Demo Keyboard SystemDemo Hello.
From S2P Require Vga TarFs Acpi.
Open Scope Z_scope.

(** Four bytes of code, then the string, from 0x400078 on. *)
Definition hello_elf : list Z :=
  [127; 69; 76; 70] ++ replicate 20 0 ++ le64 4194424 ++ le64 64 ++ replicate 16 0 ++
  [1; 0] ++ replicate 6 0 ++
  [1; 0; 0; 0; 5; 0; 0; 0] ++ le64 120 ++ le64 4194424 ++ le64 0 ++ le64 33 ++ le64 33 ++ le64 4096 ++
  [144; 144; 15; 5] ++ message ++ [0].

Definition hello_segment : phdr := mk_phdr 1 120 4194424 33 33.

Lemma hello_phnum : e_phnum (image hello_elf) 0 = 1.
Proof. reflexivity. Qed.

Lemma hello_hdr : hdr hello_elf 0 = hello_segment.
Proof. reflexivity. Qed.

Lemma hello_loadable : loadable hello_elf None.
Proof.
  split; [cbn; lia| |cbn; lia]. rewrite hello_phnum. split.
  - intros i Hi _. assert (i = 0) as -> by lia. rewrite hello_hdr.
    split; unfold USER_LIMIT, USER_STACK; cbn; try lia.
    left. vm_compute. discriminate.
  - intros i j. lia.
Qed.

Lemma hello_carries : carries hello_elf 4194428 message.
Proof.
  split; [|split; [lia|split; [vm_compute; reflexivity|]]].
  - assert (forallb (λ i, bool_decide (seg_view hello_elf (loads hello_elf (e_phnum (image hello_elf) 0))
      (4194428 + Z.of_nat i) = (message ++ [0]) !! i)) (seq 0 29) = true) as Hall by (vm_compute; reflexivity).
    intros i c Hi. pose proof (lookup_lt_Some _ _ _ Hi) as Hl. change (length _) with 29%nat in Hl.
    rewrite forallb_forall in Hall. specialize (Hall i ltac:(apply in_seq; lia)).
    apply bool_decide_eq_true in Hall. by rewrite Hall.
  - repeat (constructor; [discriminate|]). constructor.
Qed.

Definition hello_disk : gmap_disk :=
  (fat16_write_file demo_vol demo_empty (str "test.elf") hello_elf (Z.of_nat (length hello_elf))).2.

Lemma hello_on_disk : fat_file demo_vol hello_disk (str "test.elf") = file_answer hello_elf.
Proof. vm_compute. reflexivity. Qed.

Definition hello_machine : @system pmm gmap_disk bench :=
  mk_system (mk_kernel big 4096 (BASE + 4096) no_screen kbd_boot [] hello_disk)
    TarFs.tarfs_boot Acpi.acpi_boot (mk_bench [] []).

Lemma hello_machine_ok : system_ok hello_machine.
Proof. split; [exact big_wf|exact big_kernel|reflexivity]. Qed.

Lemma hello_startable : startable hello_elf None big.
Proof.
  split; [exact hello_loadable|reflexivity| | |apply big_run; vm_compute; discriminate].
  - rewrite hello_phnum. intros i Hi. assert (i = 0) as -> by lia. reflexivity.
  - vm_compute. discriminate.
Qed.

Lemma hello_printed_witness :
  ∃ w, steady hello_machine w ∧
    screen (core w) = Vga.vga_print (λ _, 0) (Vga.vga_print (λ _, 0) no_screen entering) message.
Proof.
  eexists. apply (hello_printed (λ _, 0) demo_vol 0 0 hello_machine (str "test.elf") hello_elf 4194428 message
    (mk_regs 0 0 0 0)).
  - exact hello_machine_ok.
  - left. exact hello_on_disk.
  - exact hello_startable.
  - exact hello_carries.
Defined.
