(* ===== verification/FaultsDemo.v ===== *)
(** A program that crashes on the machine of SystemDemo.v: a page fault at its
    first instruction. *)

From S2P Require Import Pmm Machine Loader LoaderDemo Block Fat16 Fat16Demo Cpu System SystemDemo Faults.
From S2P Require Shell.
Open Scope Z_scope.

(** Vector 14, in the code segment of user mode. *)
Definition page_fault (entry : Z) : registers := mk_registers 14 entry 0x23.

Definition fault_at_once (regs : usermode) (k : @kernel pmm gmap_disk) : kernel :=
  default k (abort (λ _, 0) (page_fault (um_entry regs)) 0 k).

Lemma faults_at_once regs k : crashes_at (λ _, 0) demo_vol fault_at_once regs k.
Proof.
  destruct (abort_ring3 (λ _, 0) (page_fault (um_entry regs)) 0 k) as [s Hs]; [done|done|].
  exists k, (page_fault (um_entry regs)), 0. split; [done|]. unfold fault_at_once. by rewrite Hs.
Qed.

Lemma fault_ends : ends (λ _, 0) demo_vol fault_at_once.
Proof. intros regs k _. right. apply faults_at_once. Qed.

Lemma fault_on_grid : ends_on_grid (λ _, 0) demo_vol fault_at_once.
Proof.
  intros regs k _. right. destruct (abort_ring3 (λ _, 0) (page_fault (um_entry regs)) 0 k) as [s Hs]; [done|done|].
  exists k, (page_fault (um_entry regs)), 0. split; [done|]. unfold fault_at_once. by rewrite Hs.
Qed.

Lemma crash_session_witness :
  ∃ w, run_lines (λ _, 0) demo_vol 0 0 fault_at_once 5 session_start [exec_line] = Some w ∧
    up w ∧ ∀ i, i ∈ free_set (pages (core w)) → 2 ≤ i < 16.
Proof.
  destruct (exec_turn fault_at_once) as [w Ht]. destruct (exec_session _ w Ht) as [Hl Hfit].
  exists w. split; [exact Hl|].
  destruct (crash_session (λ _, 0) demo_vol 0 0 fault_at_once 5 [exec_line] session_start w
    fault_on_grid (system_ok_up _ session_start_ok) Vga.demo_vga_ok Hl Hfit) as ([Hf _ _] & Hup & _).
  split; [exact Hup|]. intros i Hi. by apply big_free, Hf.
Defined.

(** The page map of the process is in frame 3. *)
Definition demo_regs : usermode := mk_usermode 12288 4194424 123145302315008 123145302315008 4096.

Lemma demo_started :
  ∃ a, process_exec (kernel_pml4 (core session_start)) 0 (drive_a demo_vol session_start (str "p"))
    (drive_c 0 session_start (str "p")) None (pages (core session_start)) = (Started demo_regs, a).
Proof.
  destruct (process_exec _ _ _ _ _ _) as [r a] eqn:E. exists a. f_equal.
  apply (f_equal fst) in E. cbn [fst] in E. rewrite <- E. vm_compute. reflexivity.
Qed.

Lemma crash_leaks_witness :
  let w := exec (λ _, 0) demo_vol 0 0 fault_at_once session_start (str "p") None in
  cr3 (core w) = 12288 ∧ 3 ∉ free_set (pages (core w)).
Proof.
  intros w. destruct demo_started as [a He].
  destruct (crash_leaks (λ _, 0) demo_vol 0 0 fault_at_once session_start (str "p") None demo_regs a
    (system_ok_up _ session_start_ok) program_runnable He (faults_at_once _ _)) as (Hc & _ & _ & _ & Hh & Hno).
  split; [exact Hc|]. apply (Hno 5%positive [] w 3 fault_ends eq_refl I).
  rewrite Hc in Hh at 2. exact Hh.
Defined.
