(* ===== verification/Files.v ===== *)
(** The files of the disk over whole sessions (fat16.c under syscall.c, main.c
    and process.c).

    The specification is a map from stored names to contents; an [event] is a
    file written or removed. [holds_files] relates a disk to the map: every name
    reads what the map says. A system call, a run of a program ([run]), a command
    and a session of the shell ([session]) have a trace of events read off from
    their arguments, and the disk afterwards holds the map with the events
    applied, provided that no write failed. Programs end in sys_exit or in an
    exception: a crash loses frames (Faults.v), but no file. *)

From S2P Require Export System Faults.
From S2P Require Import Block Fat16 Fat16Proofs.
From S2P Require Shell.
Open Scope Z_scope.

(** ** The specification *)

(** [result] is what [fat16_write_file] returned. *)
Inductive event :=
  | Put (name buffer : list Z) (result : Z)
  | Remove (name : list Z).

Abbreviation file_map := (gmap (list Z) (list Z)).

Definition effect (M : file_map) (e : event) : file_map :=
  match e with
  | Put name buffer _ => <[format_fat_name name := buffer]> M
  | Remove name => delete (format_fat_name name) M
  end.

Definition effects (M : file_map) (es : list event) : file_map := foldl effect M es.

(** The write succeeded; the name does not begin with the mark of deleted
    entries. *)
Definition succeeded (e : event) : Prop :=
  match e with
  | Put name buffer result =>
      head name ≠ Some 0xE5 ∧ 0 < Z.of_nat (length buffer) < 2 ^ 31 ∧ result ≠ 0
  | Remove _ => True
  end.

Section Files.
Context {D : Type} `{DiskLaws D}.
Context (v : vol).

Definition holds_files (d : D) (M : file_map) : Prop :=
  ∀ g, Forall is_byte g →
    let c := default [] (M !! format_fat_name g) in
    fat16_read_file v d g = (s32 (Z.of_nat (length c)), c) ∧
    fat16_get_file_size v d g = Z.of_nat (length c).

(** A sound volume that holds the files of [M]. *)
Definition volume (d : D) (M : file_map) : Prop := fs_ok v d ∧ holds_files d M.

(** The disk operation behind an event. *)
Definition happens (d : D) (e : event) (d' : D) : Prop :=
  match e with
  | Put name buffer result =>
      Forall is_byte name ∧ Forall (λ c, c ≠ 0) name ∧ Forall is_byte buffer ∧
      fat16_write_file v d name buffer (Z.of_nat (length buffer)) = (result, d')
  | Remove name => Forall is_byte name ∧ (fat16_delete_file v d name).2 = d'
  end.

(** A name changed and the others as before. *)
Lemma holds_files_update d d' M M' name c :
  holds_files d M → others_read v d d' name →
  default [] (M' !! format_fat_name name) = c →
  (∀ t, t ≠ format_fat_name name → M' !! t = M !! t) →
  (∀ g, format_fat_name g = format_fat_name name →
     fat16_read_file v d' g = (s32 (Z.of_nat (length c)), c) ∧
     fat16_get_file_size v d' g = Z.of_nat (length c)) →
  holds_files d' M'.
Proof.
  intros Hh Ho Hc Hrest Hname g Hg. cbn zeta.
  destruct (decide (format_fat_name g = format_fat_name name)) as [He|Hne].
  - rewrite He, Hc. by apply Hname.
  - destruct (Ho g Hg Hne) as [-> ->]. rewrite Hrest by done. by apply Hh.
Qed.

Lemma happens_volume d e d' M :
  volume d M → happens d e d' → succeeded e → volume d' (effect M e).
Proof.
  intros [Hfs Hh]. destruct e as [name buffer result|name]; cbn [happens succeeded effect].
  - intros (Hb & Hz & Hbuf & Hw) (H5 & Hlen & Hr).
    assert (name_ok name) as Hok.
    { split; [done|]. split; [done|]. destruct name; [done|]. intros ->. by apply H5. }
    destruct (write_cases v d name buffer result d' Hfs Hok Hbuf Hlen Hw)
      as [[? _]|(_ & Hfs' & Hf & Ho)]; [done|].
    split; [done|]. apply (holds_files_update d d' M _ name buffer); [done|done| | |].
    + by rewrite lookup_insert_eq.
    + intros t Ht. by rewrite lookup_insert_ne.
    + intros g Hg. apply read_holds; [done|]. by rewrite Hg.
  - intros [Hb Hd] _. destruct (fat16_delete_file v d name) as [r d1] eqn:Hdel. cbn [snd] in Hd. subst d1.
    assert (fs_ok v d' ∧ no_file v d' (format_fat_name name) ∧ others_read v d d' name)
      as (Hfs' & Hno & Ho).
    { destruct (delete_cases v d name r d' Hfs Hb Hdel) as [(_ & -> & ?)|(_ & ? & ? & _ & ?)]; [|done].
      by split. }
    split; [done|]. apply (holds_files_update d d' M _ name []); [done|done| | |].
    + by rewrite lookup_delete_eq.
    + intros t Ht. by rewrite lookup_delete_ne.
    + intros g Hg. apply read_none; [done|]. by rewrite Hg.
Qed.
End Files.

(** ** The trace of a program *)

Section Trace.
Context {St : Type} `{PageAllocatorLaws St} {D : Type} `{DiskLaws D}.
Context (after_font : Z → Z) (v : vol).
Implicit Types (k : @kernel St D).

(** The file that a system call writes. *)
Definition call_events k (num arg1 arg2 arg3 : Z) : list event :=
  if (num =? 9) && check_string k arg1 && check_ptr k arg2 (u32 arg3) false then
    match user_str (pages k) (cr3 k) arg1 with
    | inr name =>
        let buffer := user_bytes (pages k) (cr3 k) arg2 (u32 arg3) in
        [Put name buffer (fat16_write_file v (disk k) name buffer (u32 arg3)).1]
    | inl _ => []
    end
  else [].

(** A run of a program, as in [pstep], with its trace. *)
Inductive run : kernel → list event → kernel → Prop :=
  | run_done k : run k [] k
  | run_store k p bytes es k' :
      0 ≤ p →
      (∀ x, p ≤ x < p + Z.of_nat (length bytes) →
         x < USER_LIMIT ∧ user_access (pages k) (cr3 k) x true) →
      run (with_pages k (user_store (pages k) (cr3 k) p bytes)) es k' →
      run k es k'
  | run_call k num arg1 arg2 arg3 r k1 es k' :
      0 ≤ arg1 < 2 ^ 64 → 0 ≤ arg2 < 2 ^ 64 →
      syscall_handler_c after_font v k num arg1 arg2 arg3 = Return r k1 →
      run k1 es k' →
      run k (call_events k num arg1 arg2 arg3 ++ es) k'.

Lemma run_steps k es k' : run k es k' → rtc (pstep after_font v) k k'.
Proof.
  induction 1 as [|k p bytes es k' Hp Hx _ IH|k num x1 x2 x3 r k1 es k' Hx1 Hx2 Hc _ IH]; [done|..].
  - eapply rtc_l; [|exact IH]. by apply step_store.
  - eapply rtc_l; [|exact IH]. by apply (step_call _ _ k num x1 x2 x3 r k1).
Qed.

Lemma user_bytes_ok (a : St) map p n : Forall is_byte (user_bytes a map p n).
Proof.
  apply Forall_fmap, List.Forall_forall. intros i _. cbn. unfold load_byte.
  destruct (lookup_page _ _ _); [apply rd8_range|unfold is_byte; lia].
Qed.

Lemma length_user_bytes (a : St) map p n : 0 ≤ n → Z.of_nat (length (user_bytes a map p n)) = n.
Proof. intros Hn. unfold user_bytes. rewrite length_fmap, length_seqZ. lia. Qed.

(** A system call changes the disk by its events. *)
Lemma with_string_disk k p f r k' :
  (∀ s, f s = Return r k' → disk k' = disk k) → with_string k p f = Return r k' → disk k' = disk k.
Proof.
  intros Hf. unfold with_string. destruct (check_string k p); cbn [negb]; [|by intros [= _ <-]].
  destruct (user_str _ _ _) as [|s]; [done|]. apply Hf.
Qed.

Lemma read_disk k arg1 arg2 r k' :
  do_read after_font v k arg1 arg2 = Return r k' → disk k' = disk k.
Proof.
  unfold do_read. apply with_string_disk. intros s. cbn zeta.
  destruct (_ =? 0); [by intros [= _ <-]|]. destruct (check_ptr _ _ _ _); cbn [negb].
  - destruct (fat16_read_file _ _ _). by intros [= _ <-].
  - by intros [= _ <-].
Qed.

Lemma handler_disk k num arg1 arg2 arg3 r k' :
  num ≠ 9 → syscall_handler_c after_font v k num arg1 arg2 arg3 = Return r k' → disk k' = disk k.
Proof.
  intros Hnum. unfold syscall_handler_c, do_exit. rewrite (proj2 (Z.eqb_neq num 9) Hnum).
  destruct (num =? 1); [apply with_string_disk; by intros s [= _ <-]|].
  do 5 (destruct (num =? _); [by intros [= _ <-]|]).
  destruct (num =? 7).
  { destruct (Keyboard.keyboard_getchar _ _) as [[[c irqs] kb]|]; [|done]. by intros [= _ <-]. }
  destruct (num =? 8); [apply read_disk|].
  destruct (num =? 10); [apply with_string_disk; by intros s [= _ <-]|].
  destruct (num =? 60); [done|]. by intros [= _ <-].
Qed.

Lemma write_call_disk k arg1 arg2 arg3 r k' :
  0 ≤ arg1 < 2 ^ 64 → do_write_file v k arg1 arg2 arg3 = Return r k' →
  (call_events k 9 arg1 arg2 arg3 = [] ∧ disk k' = disk k) ∨
  ∃ e, call_events k 9 arg1 arg2 arg3 = [e] ∧ happens v (disk k) e (disk k').
Proof.
  intros H1'. unfold do_write_file, call_events, with_string. change (9 =? 9) with true. cbn [andb].
  destruct (check_string k arg1) eqn:Hs; cbn [negb andb]; [|intros [= _ <-]; by left].
  unfold check_string in Hs.
  destruct (user_str_spec (pages k) (cr3 k) arg1 (proj1 H1'))
    as (n & Hn & -> & _ & _ & _ & Hnz);
    [by apply (proj1 (vmm_check_user_string_spec load_byte _ _ _ H1'))|].
  destruct (check_ptr k arg2 (u32 arg3) false); cbn [negb]; [|intros [= _ <-]; by left].
  destruct (fat16_write_file _ _ _ _ _) as [q d] eqn:Hw. intros [= _ <-]. right.
  eexists. split; [done|]. cbn [happens fst disk with_disk].
  split; [apply user_bytes_ok|]. split; [|split; [apply user_bytes_ok|]].
  - apply Forall_fmap, List.Forall_forall. intros i Hi%list_elem_of_In%elem_of_seqZ. cbn. apply Hnz. lia.
  - rewrite length_user_bytes by apply u32_range. exact Hw.
Qed.

Lemma call_disk k num arg1 arg2 arg3 r k' :
  0 ≤ arg1 < 2 ^ 64 → syscall_handler_c after_font v k num arg1 arg2 arg3 = Return r k' →
  (call_events k num arg1 arg2 arg3 = [] ∧ disk k' = disk k) ∨
  ∃ e, call_events k num arg1 arg2 arg3 = [e] ∧ happens v (disk k) e (disk k').
Proof.
  intros H1' Hc. destruct (Z.eq_dec num 9) as [-> |Hnum]; [by apply (write_call_disk _ _ _ _ r)|left].
  split; [|by eapply handler_disk]. unfold call_events. by rewrite (proj2 (Z.eqb_neq num 9) Hnum).
Qed.

Lemma run_volume k es k' M :
  run k es k' → volume v (disk k) M → Forall succeeded es → volume v (disk k') (effects M es).
Proof.
  intros Hr. revert M. induction Hr as [|k p bytes es k' Hp Hx _ IH|
    k num x1 x2 x3 r k1 es k' Hx1 Hx2 Hc _ IH]; intros M Hv Hes; [done|by apply IH|].
  destruct (call_disk k num x1 x2 x3 r k1 Hx1 Hc) as [[He Hd]|(e & He & Hd)]; rewrite He in *.
  - cbn [app] in *. apply IH; [by rewrite Hd|done].
  - cbn [app] in *. apply Forall_cons_1 in Hes as [Hs Hes]. cbn [effects foldl].
    apply IH; [|done]. by apply (happens_volume v (disk k)).
Qed.
End Trace.

(** ** The trace of a session *)

Section Session.
Context {St : Type} `{PageAllocatorLaws St} {D : Type} `{DiskLaws D} {P : Type} `{Ports P}.
Context (after_font : Z → Z) (v : vol) (kstack : Z) (NAME : Z).
Context (user_program : usermode → @kernel St D → @kernel St D).
Context (user_events : usermode → @kernel St D → list event).
Implicit Types (w : @system St D P).

Local Abbreviation services := (system_services after_font v kstack NAME user_program).

(** Every run of a program ends in sys_exit or in an exception, with this trace. *)
Definition ends_with : Prop :=
  ∀ regs k, space (pages k) (cr3 k) →
    ∃ k', run after_font v k (user_events regs k) k' ∧
      (do_exit k' = Exit (user_program regs k) ∨ ∃ r cr2, abort after_font r cr2 k' = Some (user_program regs k)).

Definition exec_events w (name : list Z) (args : option (list Z)) : list event :=
  let k := core w in
  match process_exec (kernel_pml4 k) kstack (drive_a v w name) (drive_c NAME w name) args (pages k) with
  | (Failed _, _) => []
  | (Started regs, a) => user_events regs (entered after_font w a regs)
  end.

Definition command_events w (cmd_name args : list Z) : list event :=
  match exec_target cmd_name args with
  | Some (f, a) => exec_events w f a
  | None =>
      if Shell.is_cmd cmd_name "rm" then match args with [] => [] | _ => [Remove args] end else []
  end.

Definition turn_events w (keys : list Z) : list event :=
  match Shell.read_command (H := services) (Shell.vga_print (Services := services) w (str "C:\> ")) keys [] with
  | (w, Some (cmd, _)) =>
      match Shell.split_command cmd with
      | Some (cmd_name, args) => command_events w cmd_name args
      | None => []
      end
  | (_, None) => []
  end.

(** Lines typed, with the trace of what they do to the files. *)
Inductive session (fuel : positive) : system → list event → system → Prop :=
  | session_nil w : session fuel w [] w
  | session_turn w keys keys' w1 es w2 :
      Forall is_byte keys →
      Shell.shell_turn (H := services) fuel w keys = Shell.Next w1 keys' →
      keys_runnable after_font v kstack NAME user_program w keys →
      session fuel w1 es w2 →
      session fuel w (turn_events w keys ++ es) w2.

Lemma ends_with_ends : ends_with → ends after_font v user_program.
Proof.
  intros Hex regs k Sp. destruct (Hex regs k Sp) as (k' & Hr & He). apply run_steps in Hr.
  destruct He as [He|(r & cr2 & He)]; [left; by exists k'|right; by exists k', r, cr2].
Qed.

(** Leaving the process does not touch the disk. *)
Lemma end_disk (k k' : @kernel St D) :
  (do_exit k = Exit k' ∨ ∃ r cr2, abort after_font r cr2 k = Some k') → disk k' = disk k.
Proof.
  intros [He|(r & cr2 & He)].
  - unfold do_exit in He. by injection He as <-.
  - by destruct (abort_screen _ _ _ _ _ He) as [s ->].
Qed.

Lemma exec_volume w name args M :
  ends_with → up w → runnable v NAME w name args →
  volume v (disk (core w)) M → Forall succeeded (exec_events w name args) →
  volume v (disk (core (exec after_font v kstack NAME user_program w name args)))
    (effects M (exec_events w name args)).
Proof.
  intros Hex [Hwf Hkt _] Hrun Hv. unfold exec_events, exec.
  destruct (process_exec _ _ _ _ _ _) as [r a] eqn:He.
  destruct (exec_loads v kstack NAME w name args r a Hwf Hkt Hrun He)
    as [(msg & -> & _)|(regs & -> & Hst)]; [by intros _|].
  destruct (Hex regs (entered after_font w a regs) (sr_space _ _ _ Hst)) as (k' & Hr & Hend). intros Hes.
  pose proof (run_volume _ _ _ _ _ M Hr Hv Hes) as Hv'. cbn [core with_core]. by rewrite (end_disk _ _ Hend).
Qed.

(** What is left of a command that writes no file. *)
Lemma quiet_volume w w' es M :
  volume v (disk (core w)) M → es = [] → disk (core w') = disk (core w) →
  volume v (disk (core w')) (effects M es).
Proof. by intros Hv -> ->. Qed.

Lemma remove_volume w args M :
  Forall is_byte args → volume v (disk (core w)) M →
  volume v (fat16_delete_file v (disk (core w)) args).2 (effects M [Remove args]).
Proof. intros Hb Hv. by apply (happens_volume v (disk (core w)) (Remove args)). Qed.

Ltac command_is s :=
  match goal with
  | |- context [Shell.is_cmd ?c s] =>
      let E := fresh in destruct (Shell.is_cmd c s) eqn:E;
      [apply bool_decide_eq_true in E; subst c|]
  end.

Lemma command_volume fuel w keys cmd_name args w' keys' M :
  ends_with → up w → Forall is_byte args →
  (∀ f a, exec_target cmd_name args = Some (f, a) → runnable v NAME w f a) →
  volume v (disk (core w)) M → Forall succeeded (command_events w cmd_name args) →
  Shell.run_command (H := services) fuel w keys cmd_name args = Shell.Next w' keys' →
  volume v (disk (core w')) (effects M (command_events w cmd_name args)).
Proof.
  intros Hex Hw Hargs Hrun Hv Hes. unfold Shell.run_command.
  command_is "echo"%string; [intros [= <- _]; by apply (quiet_volume w)|].
  command_is "cls"%string; [intros [= <- _]; by apply (quiet_volume w)|].
  command_is "clear"%string; [intros [= <- _]; by apply (quiet_volume w)|]. cbn [orb].
  command_is "dir"%string; [intros [= <- _]; by apply (quiet_volume w)|].
  command_is "edit"%string; [intros [= <- _]; apply exec_volume; try done; by apply Hrun|].
  command_is "lisp"%string; [intros [= <- _]; apply exec_volume; try done; by apply Hrun|].
  command_is "type"%string; [intros [= <- _]; by apply (quiet_volume w)|].
  command_is "exec"%string; [intros [= <- _]; apply exec_volume; try done; by apply Hrun|].
  command_is "rm"%string.
  { destruct args as [|c args]; [intros [= <- _]; by apply (quiet_volume w)|].
    pose proof (remove_volume w (c :: args) M Hargs Hv) as Hrm.
    cbn [Shell.fat16_delete_file system_services]. destruct (fat16_delete_file _ _ _) as [r d].
    destruct (r =? 1); intros [= <- _]; exact Hrm. }
  destruct (Shell.is_cmd cmd_name "poweroff" || _); [done|].
  destruct (Shell.is_cmd cmd_name "reboot"); [by destruct (Shell.wait_controller _ _)|].
  intros [= <- _]. apply (quiet_volume w); [done| |done]. unfold command_events, exec_target.
  repeat match goal with E : Shell.is_cmd _ _ = false |- _ => rewrite E; clear E end. done.
Qed.

(** What is typed consists of characters. *)
Lemma read_command_bytes w keys cmd w' line rest :
  Forall is_byte keys → Forall is_byte cmd →
  Shell.read_command (H := services) w keys cmd = (w', Some (line, rest)) → Forall is_byte line.
Proof.
  revert w cmd. induction keys as [|c keys IH]; intros w cmd Hk Hc; cbn [Shell.read_command]; [done|].
  apply Forall_cons_1 in Hk as [Hb Hk].
  destruct (c =? 10); [by intros [= _ <- _]|]. destruct (c =? 8).
  - destruct (0 <? _); [|by apply IH]. apply IH; [done|].
    destruct cmd as [|x cmd] using rev_ind; [done|]. rewrite removelast_last. by apply Forall_app in Hc as [].
  - apply IH; [done|]. destruct (_ <? _); [|done]. apply Forall_app. by split; [|constructor].
Qed.

Lemma split_command_bytes cmd name args :
  Forall is_byte cmd → Shell.split_command cmd = Some (name, args) → Forall is_byte args.
Proof.
  intros Hc. unfold Shell.split_command. destruct (negb _).
  - destruct (_ <? Shell.ARGS_SIZE); [|done]. intros [= _ <-]. by apply Forall_drop.
  - by intros [= _ <-].
Qed.

Lemma turn_volume fuel w keys keys' w' M :
  ends_with → up w → Forall is_byte keys →
  Shell.shell_turn (H := services) fuel w keys = Shell.Next w' keys' →
  keys_runnable after_font v kstack NAME user_program w keys →
  volume v (disk (core w)) M → Forall succeeded (turn_events w keys) →
  volume v (disk (core w')) (effects M (turn_events w keys)).
Proof.
  intros Hex Hw Hb Hturn Hrun Hv. unfold turn_events, Shell.shell_turn in *. cbv zeta in Hturn.
  set (w1 := Shell.vga_print w _) in *.
  assert (same_machine w w1) as H01 by done. clearbody w1.
  destruct (read_command_same after_font v kstack NAME user_program w1 keys []) as [H12 Hr].
  unfold keys_runnable in Hrun. rewrite (Hr w) in Hrun. clear Hr.
  pose proof (λ w' line rest, read_command_bytes w1 keys [] w' line rest Hb (Forall_nil_2 _)) as Hcmd.
  destruct (Shell.read_command w1 keys []) as [w2 [[cmd rest]|]]; [|discriminate Hturn]. cbn [fst snd] in *.
  pose proof (same_machine_trans _ _ _ H01 H12) as H02.
  assert (volume v (disk (core w2)) M) as Hv2 by by rewrite (sm_disk _ _ H02).
  pose proof (same_machine_up w w2 Hw H02) as Hw2.
  specialize (Hcmd _ _ _ eq_refl).
  destruct cmd as [|c cmd]; [injection Hturn as <- _; intros _; by apply (quiet_volume w2)|].
  destruct (Shell.split_command (c :: cmd)) as [[name args]|] eqn:Hsplit; [|discriminate Hturn]. intros Hes.
  eapply command_volume; try done; [by eapply split_command_bytes|].
  intros f a Ht. apply (same_machine_runnable v NAME w); [done|]. by eapply Hrun.
Qed.

End Session.
