(* ===== verification/FilesDemo.v ===== *)
(** A session on the machine of HelloDemo.v whose program writes a file and
    crashes; the next line removes the program's own file. *)

From S2P Require Import Pmm Machine Loader LoaderDemo Block Fat16 Fat16Proofs Fat16Demo Keyboard.
From S2P Require Import System SystemDemo Hello HelloDemo Faults FaultsDemo Files.
From S2P Require Vga TarFs Acpi Shell.
Open Scope Z_scope.

(** The string of the program. *)
Definition text_at : Z := 4194428.

(** A program that writes the first four bytes of its string to the file of
    that name, and then jumps to address 0. *)
Definition write_and_crash (regs : usermode) (k : @kernel pmm gmap_disk) : kernel :=
  let k := match syscall_handler_c (λ _, 0) demo_vol k 9 text_at text_at 4 with Return _ k' => k' | _ => k end in
  default k (abort (λ _, 0) (page_fault 0) 0 k).

Definition write_events (regs : usermode) (k : @kernel pmm gmap_disk) : list event :=
  match syscall_handler_c (λ _, 0) demo_vol k 9 text_at text_at 4 with
  | Return _ _ => call_events demo_vol k 9 text_at text_at 4
  | _ => []
  end.

Lemma page_fault_aborts (k : @kernel pmm gmap_disk) :
  ∃ r cr2, abort (λ _, 0) r cr2 k = Some (default k (abort (λ _, 0) (page_fault 0) 0 k)).
Proof.
  destruct (abort_ring3 (λ _, 0) (page_fault 0) 0 k) as [s Hs]; [done|done|].
  exists (page_fault 0), 0. by rewrite Hs.
Qed.

Lemma write_and_crash_ends : ends_with (λ _, 0) demo_vol write_and_crash write_events.
Proof.
  intros regs k _. unfold write_events, write_and_crash.
  destruct (syscall_handler_c _ _ k 9 text_at text_at 4) as [r k'| |k'] eqn:Hc;
    [|exists k; split; [constructor|right; apply page_fault_aborts]..].
  exists k'. split; [|right; apply page_fault_aborts]. rewrite <- (app_nil_r (call_events _ _ _ _ _ _)).
  by apply (run_call _ _ k 9 text_at text_at 4 r k'); [..|constructor].
Qed.

Definition hello_put : event := Put (str "test.elf") hello_elf (Z.of_nat (length hello_elf)).

Lemma demo_no_files : volume demo_vol demo_empty ∅.
Proof.
  split; [exact demo_empty_ok|]. intros g _. rewrite lookup_empty. apply read_none; [exact demo_empty_ok|].
  intros n Hn. unfold Fat16Dir.is_file.
  assert (Fat16Dir.is_used demo_vol demo_empty n = false) as ->; [|done].
  apply negb_true_iff. revert n Hn. apply demo_entries. vm_compute. reflexivity.
Qed.

Lemma hello_stored :
  (fat16_write_file demo_vol demo_empty (str "test.elf") hello_elf (Z.of_nat (length hello_elf))).1 =
  Z.of_nat (length hello_elf).
Proof. vm_compute. reflexivity. Qed.

Lemma hello_volume : volume demo_vol hello_disk (effects ∅ [hello_put]).
Proof.
  apply (happens_volume demo_vol demo_empty hello_put hello_disk ∅ demo_no_files).
  - split; [apply bytes_of; vm_compute; reflexivity|]. split; [by repeat constructor|].
    split; [apply bytes_of; vm_compute; reflexivity|]. exact (Fat16Demo.pair_eq _ _ hello_stored).
  - split; [discriminate|]. split; [vm_compute; split; reflexivity|discriminate].
Qed.

Definition first_line : list Z := str "exec test.elf" ++ [10].
Definition second_line : list Z := str "rm test.elf" ++ [10].
Definition four_bytes : list Z := str "Ola ".

(** The first line stores four bytes. *)
Lemma first_events :
  turn_events (λ _, 0) demo_vol 0 0 write_and_crash write_events hello_machine first_line =
  [Put message four_bytes 4].
Proof. vm_compute. reflexivity. Qed.

Lemma first_runnable : keys_runnable (λ _, 0) demo_vol 0 0 write_and_crash hello_machine first_line.
Proof.
  intros cmd rest name args f a Hr Hs Ht.
  pose proof (eq_trans (eq_sym Hr) (eq_refl : _ = Some (str "exec test.elf", []))) as Hc.
  injection Hc as -> ->. injection Hs as <- <-.
  injection Ht as <- <-. right. exists hello_elf. split; [left; exact hello_on_disk|].
  split; [apply loadable_placeable, hello_loadable|]. apply fits_enough. vm_compute. discriminate.
Qed.

Lemma first_turn (w : @system pmm gmap_disk bench) :
  ∃ w', Shell.shell_turn (H := system_services (λ _, 0) demo_vol 0 0 write_and_crash) 5 w first_line
    = Shell.Next w' [].
Proof. line_typed first_line (str "exec test.elf") (str "exec") (str "test.elf"). by eexists. Qed.

(** The second line, on every machine. *)
Lemma second_turn (w : @system pmm gmap_disk bench) :
  (∃ w', Shell.shell_turn (H := system_services (λ _, 0) demo_vol 0 0 write_and_crash) 5 w second_line
     = Shell.Next w' []) ∧
  turn_events (λ _, 0) demo_vol 0 0 write_and_crash write_events w second_line = [Remove (str "test.elf")] ∧
  keys_runnable (λ _, 0) demo_vol 0 0 write_and_crash w second_line.
Proof.
  split; [|split; [reflexivity|]].
  - line_typed second_line (str "rm test.elf") (str "rm") (str "test.elf").
    destruct (Shell.fat16_delete_file _ _) as [r w3]. destruct (r =? 1); by eexists.
  - intros cmd rest name args f a Hr Hs Ht.
    pose proof (eq_trans (eq_sym Hr) (eq_refl : _ = Some (str "rm test.elf", []))) as Hc.
    injection Hc as -> ->. injection Hs as <- <-. discriminate.
Qed.

Lemma hello_session :
  ∃ w, session (λ _, 0) demo_vol 0 0 write_and_crash write_events 5 hello_machine
    [Put message four_bytes 4; Remove (str "test.elf")] w.
Proof.
  destruct (first_turn hello_machine) as [w1 H1]. destruct (second_turn w1) as ([w2 H2] & He2 & Hr2). exists w2.
  change [Put message four_bytes 4; Remove (str "test.elf")]
    with ([Put message four_bytes 4] ++ [Remove (str "test.elf")] ++ []).
  rewrite <- first_events, <- He2.
  apply (session_turn _ _ _ _ _ _ _ _ _ [] w1);
    [apply bytes_of; vm_compute; reflexivity|exact H1|exact first_runnable|].
  apply (session_turn _ _ _ _ _ _ _ _ _ [] w2);
    [apply bytes_of; vm_compute; reflexivity|exact H2|exact Hr2|]. constructor.
Qed.

