(* ===== verification/EditorRun.v ===== *)
(** The editor as a process: Editor.v over the system calls of Syscall.v.

    The program's variables lie in its memory: the name at [filename_at], the
    text in the pool at [pool_at], the string literals at [lit]. Each recorded
    [call] of Editor.v is the stub of tools/syscalls.h with its arguments; what the
    program has stored since the last call ([user_store]) is in memory when the
    kernel reads it. [editor_main] is the whole program from its entry to
    sys_exit. *)

From S2P Require Export UserProg System Files.
From S2P Require Import Io Block Fat16 Fat16Proofs Keyboard Editor.
From S2P Require Vga.
Open Scope Z_scope.

Record editor_layout := mk_layout {
  lit : list Z → Z;
  filename_at : Z;
  pool_at : Z;
}.

Definition default_name : list Z := str "buffer.txt".

Section Program.
Context {St : Type} `{PageAllocatorLaws St} {D : Type} `{DiskLaws D}.
Context (after_font : Z → Z) (v : vol) (L : editor_layout) (r0 : regs).
Implicit Types (k : @kernel St D).

(** The registers of a call; [r0] is what the stubs leave alone. *)
Definition call_regs (c : call) : regs :=
  match c with
  | Clear => sys_clear r0
  | SetCursor row col => sys_set_cursor r0 row col
  | Print s => sys_write r0 (lit L s)
  | Putchar c => sys_putchar r0 (s8 c)
  | SetColor a b => sys_set_color r0 a b
  | WriteFile _ data =>
      sys_fat16_write_file r0 (filename_at L) (pool_at L) (u32 (Z.of_nat (length data)))
  | Editor.Exit => sys_exit r0
  end.

Definition make_call k (c : call) : Syscall.outcome := syscall_entry after_font v k (call_regs c).

(** Calls in order; a value that one of them returns is not used here. *)
Fixpoint make_calls k (calls : list call) : Syscall.outcome :=
  match calls with
  | [] => Return 0 k
  | c :: calls =>
      match make_call k c with
      | Return _ k => make_calls k calls
      | o => o
      end
  end.

Definition max_rows_of k : Z := int_of (syscall_entry after_font v k (sys_get_max_rows r0)).

(** What sys_fat16_write_file returns for the buffer [buf]. *)
Definition write_answer k (buf : list Z) (name data : list Z) : Z :=
  int_of (make_call (store k (pool_at L) buf) (WriteFile name data)).

(** One key: what it stores in the buffer, then its calls. *)
Definition key_turn k (e : editor) (c : Z) : Editor.outcome * Syscall.outcome :=
  let saved := upd (edit_buffer e) (buffer_len e) 0 in
  let r := editor_key (max_rows_of k) (write_answer k saved) e c in
  (r, match r with
      | Continue e' calls => make_calls (store k (pool_at L) (edit_buffer e')) calls
      | Finish calls => make_calls (if c =? 119 then store k (pool_at L) saved else k) calls
      end).

(** The key loop. [n] bounds the keys; [Blocked]: it waits for ever. *)
Fixpoint key_loop (n : nat) k (e : editor) : Syscall.outcome :=
  match n with
  | O => Blocked
  | S n =>
      match syscall_entry after_font v k (sys_keyboard_getchar r0) with
      | Return c k =>
          match key_turn k e (u8 (s8 c)) with
          | (Continue e' _, Return _ k) => key_loop n k e'
          | (_, o) => o
          end
      | o => o
      end
  end.

(** [_start] up to the loop: [args] is the pointer in rdi. *)
Definition editor_open k (args : Z) : kernel * Editor.outcome :=
  let given := negb (args =? 0) && negb (load_byte (pages k) (cr3 k) args =? 0) in
  let filename := if given then args else lit L default_name in
  let name := match user_str (pages k) (cr3 k) filename with inr s => s | inl _ => [] end in
  let k := store k (filename_at L) (kstrncpy name 32 ++ [0]) in
  let fsize := int_of (syscall_entry after_font v k (sys_fat16_get_file_size r0 filename)) in
  let room := bool_decide (is_Some (editor_malloc 0 (s32 (fsize + 8192))).1) in
  let '(k, size) :=
    if (0 <? fsize) && room then
      match syscall_entry after_font v k (sys_fat16_read_file r0 filename (pool_at L)) with
      | Return r k => (k, s32 r)
      | _ => (k, 0)
      end
    else (k, 0) in
  let data := if 0 <? size then user_bytes (pages k) (cr3 k) (pool_at L) size else [] in
  (k, editor_start (max_rows_of k) (Some name) (λ _, fsize) (λ _, (size, data))).

Definition editor_main k (args : Z) : Syscall.outcome :=
  match editor_open k args with
  | (k, Continue e calls) =>
      match make_calls k calls with
      | Return _ k => key_loop (key_fuel k) k e
      | o => o
      end
  | (k, Finish calls) => make_calls k calls
  end.

(** The program as [exec] runs it. *)
Definition editor_program (regs : usermode) k : kernel :=
  match editor_main k (um_args regs) with
  | Syscall.Exit k => k
  | _ => k
  end.
End Program.

(** ** The calls *)

(** Calls that touch nothing but the screen. *)
Definition quiet (c : call) : Prop :=
  match c with
  | WriteFile _ _ | Editor.Exit => False
  | SetColor a b => 0 ≤ a < 2 ^ 64 ∧ 0 ≤ b < 2 ^ 64
  | _ => True
  end.

Lemma draw_quiet e rows : Forall quiet (draw_editor_ui e rows).
Proof.
  unfold draw_editor_ui. apply Forall_app. split.
  - unfold draw_status. repeat case_match; repeat constructor.
  - unfold draw_loop. apply (for_each_ind (λ _ out, Forall quiet out)); [constructor|].
    intros i out _ Hout. apply Forall_app. split; [done|]. unfold draw_char.
    repeat case_match; repeat constructor; cbn; lia.
Qed.

Section Calls.
Context {St : Type} `{PageAllocatorLaws St} {D : Type} `{DiskLaws D}.
Context (after_font : Z → Z) (v : vol) (L : editor_layout) (r0 : regs).
Context (Hr0 : regs_ok r0) (Hlit : ∀ s, 0 ≤ lit L s < 2 ^ 64).
Implicit Types (k : @kernel St D).

Local Abbreviation step := (pstep after_font v).
Local Abbreviation calls_of := (make_calls after_font v L r0).

Lemma entry_print k s :
  make_call after_font v L r0 k (Print s) =
  with_string k (lit L s) (λ s, Return 0 (Syscall.print after_font k s)).
Proof. reflexivity. Qed.

Lemma entry_write k name data :
  make_call after_font v L r0 k (WriteFile name data) =
  do_write_file v k (filename_at L) (pool_at L) (u32 (Z.of_nat (length data))).
Proof. reflexivity. Qed.

Lemma entry_exit k : make_call after_font v L r0 k Editor.Exit = do_exit k.
Proof. reflexivity. Qed.

(** Only the screen is changed. *)
Lemma quiet_call k c : quiet c →
  ∃ r s, make_call after_font v L r0 k c = Return r (with_screen k s) ∧ step k (with_screen k s).
Proof.
  intros Hq. destruct Hr0 as [H1' H2'].
  assert (∃ r s, make_call after_font v L r0 k c = Return r (with_screen k s)) as (r & s & Hc).
  { destruct c; try done; try by do 2 eexists.
    rewrite entry_print. unfold with_string. destruct (check_string k (lit L s)) eqn:Hs; cbn [negb].
    - unfold check_string in Hs.
      pose proof (proj1 (vmm_check_user_string_spec load_byte (pages k) (cr3 k) _ (Hlit s)) Hs) as Hus.
      destruct (user_str_spec (pages k) (cr3 k) _ (proj1 (Hlit s)) Hus) as (n & _ & -> & _). by do 2 eexists.
    - exists FAIL, (screen k). by destruct k. }
  exists r, s. split; [done|]. unfold make_call, syscall_entry in Hc.
  refine (step_call _ _ k _ _ _ _ r _ _ _ Hc);
    destruct c; try done; cbn [call_regs sys_clear sys_set_cursor sys_write sys_putchar sys_set_color
      syscall0 syscall1 syscall2 syscall3 rdi rsi];
    first [apply u64_range|done|apply Hlit|apply Hq].
Qed.

Lemma make_calls_app k l1 l2 :
  calls_of k (l1 ++ l2) = match calls_of k l1 with Return _ k' => calls_of k' l2 | o => o end.
Proof.
  revert k. induction l1 as [|c l1 IH]; intros k; [done|]. cbn [make_calls app].
  destruct (make_call _ _ _ _ _ _); [apply IH|done..].
Qed.

Lemma quiet_calls k calls : Forall quiet calls →
  ∃ s, calls_of k calls = Return 0 (with_screen k s) ∧ rtc step k (with_screen k s).
Proof.
  intros Hq. revert k. induction Hq as [|c calls Hc Hq IH]; intros k.
  { exists (screen k). split; [by destruct k|]. by destruct k. }
  destruct (quiet_call k c Hc) as (r & s & Heq & Hst). cbn [make_calls]. rewrite Heq.
  destruct (IH (with_screen k s)) as (s' & Heq' & Hst'). exists s'. split; [exact Heq'|].
  eapply rtc_l; [exact Hst|exact Hst'].
Qed.
End Calls.

(** ** Keys

    The mode after a key, [None] for a key that ends the editor. *)
Definition key_mode (insert : bool) (c : Z) : option bool :=
  if c =? 27 then Some false
  else if (128 <=? c) && (c <=? 131) then Some insert
  else if insert then Some true
  else if c =? 105 then Some true
  else if (c =? 119) || (c =? 113) then None
  else Some false.

Fixpoint keys_mode (insert : bool) (cs : list Z) : option bool :=
  match cs with
  | [] => Some insert
  | c :: cs => match key_mode insert c with Some m => keys_mode m cs | None => None end
  end.

(** What the abstract editor makes of the keys. *)
Inductive spec_keys (max : Z) : screen_text → list Z → screen_text → Prop :=
  | keys_none s : spec_keys max s [] s
  | keys_cons s c s1 cs s2 :
      spec_key max s c s1 → spec_keys max s1 cs s2 → spec_keys max s (c :: cs) s2.

(** It is one text, with one cursor. *)
Lemma spec_keys_fun max s cs s1 s2 : spec_keys max s cs s1 → spec_keys max s cs s2 → s1 = s2.
Proof.
  intros H1. revert s2. induction H1 as [|s c s1 cs s2 Hk _ IH]; intros s3 H3; inversion H3 as [|? ? s1' ? ? Hk' Hks]; subst; [done|].
  apply IH. by rewrite (spec_key_fun max s c s1 s1' Hk Hk').
Qed.

Lemma spec_keys_app max s cs cs' s' :
  spec_keys max s (cs ++ cs') s' → ∃ s1, spec_keys max s cs s1 ∧ spec_keys max s1 cs' s'.
Proof.
  revert s. induction cs as [|c cs IH]; intros s Hs; [exists s; by split; [constructor|]|].
  inversion Hs as [|? ? s1 ? ? Hk Hks]; subst. destruct (IH _ Hks) as (s2 & H1' & H2').
  exists s2. split; [by eapply keys_cons|done].
Qed.

(** Printable characters typed at the end of the text. *)
Lemma spec_types max t cs s :
  Forall printable cs → Z.of_nat (length t + length cs) < max →
  spec_keys max (mk_spec t (Z.of_nat (length t)) true) cs s →
  s = mk_spec (t ++ cs) (Z.of_nat (length (t ++ cs))) true.
Proof.
  intros Hp. revert t. induction Hp as [|c cs Hc _ IH]; intros t Hl Hs; inversion Hs as [|? ? s1 ? ? Hk Hks]; subst.
  { by rewrite app_nil_r. }
  cbn [length] in Hl. unfold printable in Hc.
  inversion Hk; subst; try lia; [|unfold printable in *; lia].
  assert (before t (Z.of_nat (length t)) ++ [c] ++ after t (Z.of_nat (length t)) = t ++ [c]) as Heq.
  { unfold before, after. rewrite Nat2Z.id, firstn_all, skipn_all. done. }
  rewrite Heq in Hks. rewrite (cons_middle c t cs), app_assoc. apply IH; [rewrite length_app; cbn; lia|].
  rewrite length_app. cbn [length]. by replace (Z.of_nat (length t + 1)) with (Z.of_nat (length t) + 1) by lia.
Qed.

(** A text typed into an empty file: 'i', the text, escape. *)
Definition typing (text : list Z) : list Z := 105 :: text ++ [27].

Lemma spec_typing max text s :
  Forall printable text → Z.of_nat (length text) < max →
  spec_keys max (mk_spec [] 0 false) (typing text) s → s_text s = text.
Proof.
  intros Hp Hl Hs. inversion Hs as [|? ? s1 ? ? Hk Hks]; subst.
  assert (s1 = mk_spec [] 0 true) as -> by (inversion Hk; subst; (done || lia)).
  apply spec_keys_app in Hks as (s2 & Ht & He). apply (spec_types _ [] text) in Ht as ->; [|done|cbn; lia].
  inversion He as [|? ? s3 ? ? Hk3 Hn]; subst. inversion Hn; subst. inversion Hk3; subst; try done; unfold printable in *; lia.
Qed.

Lemma typing_mode text : Forall printable text → keys_mode false (typing text) = Some false.
Proof.
  intros Hp. unfold typing. cbn [keys_mode]. change (key_mode false 105) with (Some true). cbn iota.
  induction Hp as [|c text Hc _ IH]; [done|]. cbn [app keys_mode].
  assert (key_mode true c = Some true) as ->; [|done].
  unfold key_mode, printable in *. repeat (case_match; try lia); done.
Qed.

Lemma bytes_at buf : Forall is_byte buf ↔ ∀ i, 0 ≤ i → is_byte (at_ buf i).
Proof.
  split; [intros Hb i _; by apply at_byte|]. intros Hat. apply List.Forall_forall. intros c Hc.
  apply list_elem_of_In, list_elem_of_lookup in Hc as [i Hi].
  specialize (Hat (Z.of_nat i) ltac:(lia)). unfold at_ in Hat.
  by rewrite Nat2Z.id, nth_lookup, Hi in Hat.
Qed.

Lemma key_up_buffer e : edit_buffer (key_up e) = edit_buffer e ∧ edit_buffer_max (key_up e) = edit_buffer_max e ∧
  current_filename (key_up e) = current_filename e ∧ is_insert_mode (key_up e) = is_insert_mode e.
Proof.
  unfold key_up. destruct (back _ _ _ _) as [col p]. destruct (0 <=? p); [|done].
  by destruct (back _ _ _ _) as [x q].
Qed.

Lemma key_down_buffer e : edit_buffer (key_down e) = edit_buffer e ∧
  edit_buffer_max (key_down e) = edit_buffer_max e ∧
  current_filename (key_down e) = current_filename e ∧ is_insert_mode (key_down e) = is_insert_mode e.
Proof. unfold key_down. destruct (back _ _ _ _) as [col p]. by destruct (_ <? _). Qed.

Lemma arrow_buffer e c : edit_buffer (arrow_key e c) = edit_buffer e ∧
  edit_buffer_max (arrow_key e c) = edit_buffer_max e ∧
  current_filename (arrow_key e c) = current_filename e ∧ is_insert_mode (arrow_key e c) = is_insert_mode e.
Proof.
  unfold arrow_key. destruct (c =? 130); [by destruct (_ <? _)|]. destruct (c =? 131); [by destruct (_ <? _)|].
  destruct (c =? 128); [apply key_up_buffer|]. destruct (c =? 129); [apply key_down_buffer|done].
Qed.

Lemma insert_buffer e c : editor_wf e → Forall is_byte (edit_buffer e) →
  Forall is_byte (edit_buffer (insert_key e c)) ∧ edit_buffer_max (insert_key e c) = edit_buffer_max e ∧
  current_filename (insert_key e c) = current_filename e ∧ is_insert_mode (insert_key e c) = is_insert_mode e.
Proof.
  intros (Hl & Hcur & Hb) Hbytes. unfold insert_key.
  destruct (c =? 8).
  { destruct (Z.ltb_spec 0 (cursor_pos e)); [|done]. split; [|done]. cbn [edit_buffer set_text].
    apply bytes_at. intros i Hi.
    destruct (shift_left_spec (edit_buffer e) (cursor_pos e) (buffer_len e)) as [_ Hat]; [lia..|].
    rewrite Hat by done. case_decide; by apply at_byte. }
  destruct (Z.ltb_spec (buffer_len e) (edit_buffer_max e - 1)); cbn [andb]; [|done].
  destruct (((32 <=? c) && (c <=? 126)) || (c =? 10)) eqn:Hc; [|done]. split; [|done].
  cbn [edit_buffer set_text]. apply bytes_at. intros i Hi.
  destruct (shift_right_spec (edit_buffer e) (buffer_len e) (cursor_pos e)) as [Hlen Hat]; [lia..|].
  rewrite at_upd by lia. case_decide; [unfold is_byte; lia|]. rewrite Hat by done.
  case_decide; by apply at_byte.
Qed.

(** What the loop relies on between keys. *)
Record editing (max : Z) (name : list Z) (e : editor) : Prop := {
  ed_wf : editor_wf e;
  ed_max : edit_buffer_max e = max;
  ed_name : current_filename e = name;
  ed_bytes : Forall is_byte (edit_buffer e);
}.

Lemma key_continue max name rows answer e c m :
  editing max name e → key_mode (is_insert_mode e) c = Some m →
  ∃ e', editor_key rows answer e c = Continue e' (draw_editor_ui e' rows) ∧
    editing max name e' ∧ is_insert_mode e' = m ∧ spec_key max (abs e) c (abs e').
Proof.
  intros [Hwf Hmax Hname Hb] Hm.
  assert (∃ e', editor_key rows answer e c = redraw rows e' ∧ is_insert_mode e' = m ∧
    edit_buffer_max e' = max ∧ current_filename e' = name ∧ Forall is_byte (edit_buffer e')) as
    (e' & Hk & Him & Hmax' & Hname' & Hb').
  { unfold key_mode in Hm. unfold editor_key.
    destruct (c =? 27); [injection Hm as <-; by eexists|].
    destruct ((128 <=? c) && (c <=? 131)).
    { injection Hm as <-. destruct (arrow_buffer e c) as (H1' & H2' & H3' & H4').
      exists (arrow_key e c). rewrite H1', H2', H3', H4'. done. }
    destruct (is_insert_mode e) eqn:Hi.
    { injection Hm as <-. destruct (insert_buffer e c Hwf Hb) as (H1' & H2' & H3' & H4').
      exists (insert_key e c). rewrite H2', H3', H4'. done. }
    destruct (c =? 105); [injection Hm as <-; by eexists|].
    destruct (c =? 119); [done|]. destruct (c =? 113); [done|]. injection Hm as <-.
    eexists. split; [reflexivity|]. by split. }
  exists e'. split; [exact Hk|].
  destruct (editor_key_continue rows answer e c e' _ Hwf Hk) as (Hwf' & Hs & _).
  split; [by split|]. split; [done|]. by rewrite <- Hmax.
Qed.

(** ** The memory of the editor *)

Definition save_failed : list Z := str "Erro ao salvar o arquivo." ++ [10].

(** [s], with its NUL, lies at [p] below the user limit and apart from [q] to [q + n]. *)
Definition clear_of (p : Z) (s : list Z) (q n : Z) : Prop :=
  0 ≤ p ∧ p + Z.of_nat (length s) < USER_LIMIT ∧
  (p + Z.of_nat (length s) + 1 ≤ q ∨ q + n ≤ p).

(** Where the linker put things: the objects the proof is about are apart. *)
Record layout_ok (L : editor_layout) : Prop := {
  lo_lit s : 0 ≤ lit L s < 2 ^ 64;
  lo_pool : 0 ≤ pool_at L ∧ pool_at L + MEMORY_POOL_SIZE < USER_LIMIT;
  lo_name : 0 ≤ filename_at L ∧ filename_at L + 32 < USER_LIMIT;
  lo_apart : filename_at L + 32 ≤ pool_at L ∨ pool_at L + MEMORY_POOL_SIZE ≤ filename_at L;
  lo_error : clear_of (lit L save_failed) save_failed (pool_at L) MEMORY_POOL_SIZE ∧
             clear_of (lit L save_failed) save_failed (filename_at L) 32;
}.

Section Editing.
Context {St : Type} `{PageAllocatorLaws St} {D : Type} `{DiskLaws D}.
Context (after_font : Z → Z) (v : vol) (L : editor_layout) (r0 : regs).
Context (Hr0 : regs_ok r0) (HL : layout_ok L).
Implicit Types (k : @kernel St D).

Local Abbreviation step := (pstep after_font v).
Local Abbreviation view k := (user_view (pages k) (cr3 k)).

(** The variables of the process are mapped; its name and the literal of the
    last message are where they belong. *)
Record memory_ok k (name : list Z) : Prop := {
  mo_space : space (pages k) (cr3 k);
  mo_pool : mapped (pages k) (cr3 k) (pool_at L) MEMORY_POOL_SIZE;
  mo_name : string_in (view k) (filename_at L) name;
  mo_error : string_in (view k) (lit L save_failed) save_failed;
}.

Lemma memory_ok_same k k' name :
  pages k' = pages k → cr3 k' = cr3 k → memory_ok k name → memory_ok k' name.
Proof. intros Hp Hc [Sp Hm Hn He]. by split; rewrite ?Hp, ?Hc. Qed.

(** Storing the buffer. *)
Lemma store_pool k name buf :
  memory_ok k name → (length name ≤ 31)%nat → Z.of_nat (length buf) ≤ MEMORY_POOL_SIZE →
  Forall is_byte buf →
  memory_ok (store k (pool_at L) buf) name ∧ step k (store k (pool_at L) buf) ∧
  holds_at (view (store k (pool_at L) buf)) (pool_at L) buf.
Proof.
  intros [Sp Hm Hn He] Hname Hlen Hb.
  pose proof (mapped_prefix _ _ _ _ _ Hlen Hm) as Hmb.
  destruct (lo_pool _ HL) as [Hp Hpl]. destruct (lo_name _ HL) as [Hq Hql].
  destruct (lo_error _ HL) as [(He0 & He1 & He2) _].
  pose proof (store_same _ _ _ _ Sp Hmb) as Hs.
  split; [|split; [by apply store_step|by apply store_inside]].
  split; cbn [pages cr3 store with_pages].
  - apply Hs.
  - by apply (mapped_same _ _ _ _ _ Hs).
  - pose proof (lo_apart _ HL). apply store_keeps; try done.
    + apply view_mapped; [done| |exact Hn]. rewrite length_app. cbn [length]. lia.
    + rewrite length_app. cbn [length]. lia.
  - apply store_keeps; try done.
    + apply view_mapped; [done| |exact He]. rewrite length_app. cbn [length]. lia.
    + rewrite length_app. cbn [length]. lia.
Qed.

(** ** The key loop *)

Lemma char_through c : u8 (s8 (u64 (s8 c))) = u8 c.
Proof. unfold u8, s8 at 1. rewrite (signed_cong 8 (u64 (s8 c)) ltac:(lia)). apply char_register. Qed.

Lemma entry_getchar k : syscall_entry after_font v k (sys_keyboard_getchar r0) =
  match keyboard_getchar (keyboard k) (scancodes k) with
  | Some (c, irqs, kb) =>
      Return (u64 (s8 c)) (mk_kernel (pages k) (cr3 k) (kernel_pml4 k) (screen k) kb irqs (disk k))
  | None => Blocked
  end.
Proof. reflexivity. Qed.

(** What a stretch of the run keeps. *)
Record kept_io k k' : Prop := {
  ki_cr3 : cr3 k' = cr3 k;
  ki_kernel : kernel_pml4 k' = kernel_pml4 k;
  ki_disk : disk k' = disk k;
}.

Lemma kept_io_trans k1 k2 k3 : kept_io k1 k2 → kept_io k2 k3 → kept_io k1 k3.
Proof. intros [] []. split; congruence. Qed.

Lemma next_key k name c cs :
  memory_ok k name → keystrokes k (c :: cs) →
  ∃ r k', syscall_entry after_font v k (sys_keyboard_getchar r0) = Return r k' ∧ u8 (s8 r) = c ∧
    step k k' ∧ memory_ok k' name ∧ keystrokes k' cs ∧ kept_io k k' ∧ screen k' = screen k.
Proof.
  intros Hm Hkeys. destruct (keystrokes_next k c cs Hkeys) as (c0 & irqs & kb & Hg & <- & Hrest).
  rewrite entry_getchar, Hg. do 2 eexists. split; [done|]. split; [apply char_through|].
  split; [|split; [by apply (memory_ok_same k)|split; [by apply Hrest|by split_and!]]].
  destruct Hr0 as [H1' H2']. apply (step_call _ _ k 7 (rdi r0) (rsi r0) (rdx r0) (u64 (s8 c0))); [done..|].
  change (syscall_handler_c after_font v k 7 (rdi r0) (rsi r0) (rdx r0))
    with (syscall_entry after_font v k (sys_keyboard_getchar r0)). by rewrite entry_getchar, Hg.
Qed.

Lemma turn_continue max k name e c m :
  memory_ok k name → (length name ≤ 31)%nat → max ≤ MEMORY_POOL_SIZE → editing max name e →
  key_mode (is_insert_mode e) c = Some m →
  ∃ e' calls k', key_turn after_font v L r0 k e c = (Continue e' calls, Return 0 k') ∧ rtc step k k' ∧
    memory_ok k' name ∧ editing max name e' ∧ is_insert_mode e' = m ∧ spec_key max (abs e) c (abs e') ∧
    kept_io k k' ∧ keyboard k' = keyboard k ∧ scancodes k' = scancodes k.
Proof.
  intros Hmem Hlen Hmax He Hm. unfold key_turn.
  destruct (key_continue max name (max_rows_of after_font v r0 k)
    (write_answer after_font v L r0 k (upd (edit_buffer e) (buffer_len e) 0)) e c m He Hm)
    as (e' & Hk & He' & Him & Hs).
  rewrite Hk. pose proof (ed_wf _ _ _ He') as (Hbl & _). rewrite (ed_max _ _ _ He') in Hbl.
  destruct (store_pool k name (edit_buffer e') Hmem Hlen ltac:(lia) (ed_bytes _ _ _ He'))
    as (Hmem' & Hst & _). set (k1 := store k (pool_at L) (edit_buffer e')) in *.
  destruct (quiet_calls after_font v L r0 Hr0 (lo_lit _ HL) k1 _
    (draw_quiet e' (max_rows_of after_font v r0 k))) as (s & Hcalls & Hst').
  exists e', (draw_editor_ui e' (max_rows_of after_font v r0 k)), (with_screen k1 s).
  rewrite Hcalls. split; [done|]. split; [by eapply rtc_l|].
  split; [by apply (memory_ok_same k1)|]. by split_and!.
Qed.

(** Keys that do not end the editor. *)
Lemma loop_keys max name cs : (length name ≤ 31)%nat → max ≤ MEMORY_POOL_SIZE →
  ∀ n k e rest m, memory_ok k name → editing max name e → keystrokes k (cs ++ rest) →
  keys_mode (is_insert_mode e) cs = Some m →
  ∃ k' e', key_loop after_font v L r0 (length cs + n) k e = key_loop after_font v L r0 n k' e' ∧
    rtc step k k' ∧ memory_ok k' name ∧ editing max name e' ∧ is_insert_mode e' = m ∧
    spec_keys max (abs e) cs (abs e') ∧ keystrokes k' rest ∧ kept_io k k'.
Proof.
  intros Hlen Hmax. induction cs as [|c cs IH]; intros n k e rest m Hmem He Hkeys Hm; cbn [keys_mode] in Hm.
  { injection Hm as <-. exists k, e. split; [done|]. split; [done|]. split; [done|]. split; [done|].
    split; [done|]. split; [constructor|]. by split. }
  destruct (key_mode (is_insert_mode e) c) as [m1|] eqn:Hm1; [|done].
  destruct (next_key k name c (cs ++ rest) Hmem Hkeys)
    as (r & k1 & Hget & Hr & Hst1 & Hmem1 & Hkeys1 & Hio1 & _).
  destruct (turn_continue max k1 name e c m1 Hmem1 Hlen Hmax He Hm1)
    as (e2 & calls & k2 & Hturn & Hst2 & Hmem2 & He2 & Him & Hs & Hio2 & Hkb & Hsc).
  assert (keystrokes k2 (cs ++ rest)) as Hkeys2 by (unfold keystrokes; by rewrite Hkb, Hsc).
  rewrite <- Him in Hm.
  destruct (IH n k2 e2 rest m Hmem2 He2 Hkeys2 Hm)
    as (k3 & e3 & Hloop & Hst3 & Hmem3 & He3 & Him3 & Hs3 & Hkeys3 & Hio3).
  exists k3, e3. split.
  { cbn [length Nat.add key_loop]. rewrite Hget, Hr, Hturn. exact Hloop. }
  split; [eapply rtc_l; [done|by etransitivity]|]. split; [done|]. split; [done|]. split; [done|].
  split; [by eapply keys_cons|]. split; [done|].
  eapply kept_io_trans; [done|]. by eapply kept_io_trans.
Qed.

(** ** Saving *)

Lemma holds_at_prefix (vw : Z → option Z) p l n : holds_at vw p l → holds_at vw p (take n l).
Proof. intros Hv i c Hi. apply lookup_take_Some in Hi as [Hi _]. by apply Hv. Qed.

(** The kernel writes what the variables hold. *)
Lemma write_call k name buf n :
  memory_ok k name → name_bytes name → holds_at (view k) (pool_at L) buf →
  Z.of_nat (length buf) ≤ MEMORY_POOL_SIZE → (n ≤ length buf)%nat →
  make_call after_font v L r0 k (WriteFile name (take n buf)) =
  Return 0 (with_disk k (fat16_write_file v (disk k) name (take n buf) (Z.of_nat n)).2).
Proof.
  intros [Sp Hpool Hname _] (Hb & Hz & Hlen) Hbuf Hmax Hn.
  assert (length (take n buf) = n) as Hl by (rewrite length_take; lia).
  destruct (lo_pool _ HL) as [Hp Hpl]. destruct (lo_name _ HL) as [Hq Hql].
  unfold MEMORY_POOL_SIZE in *.
  rewrite entry_write, Hl, u32_small by lia. unfold do_write_file.
  rewrite (with_string_found k (filename_at L) name) by (done || lia).
  rewrite u32_small by lia. cbn zeta.
  rewrite (check_ptr_found k (pool_at L) (Z.of_nat n)); [|done|lia..|].
  2: { eapply mapped_prefix; [|exact Hpool]. lia. }
  cbn [negb]. rewrite <- Hl at 1.
  rewrite (user_bytes_found _ _ _ (take n buf)) by by apply holds_at_prefix.
  by destruct (fat16_write_file _ _ _ _ _).
Qed.

Lemma print_call k name :
  memory_ok k name →
  make_call after_font v L r0 k (Print save_failed) = Return 0 (Syscall.print after_font k save_failed).
Proof.
  intros [Sp _ _ He]. destruct (lo_error _ HL) as [(He0 & He1 & _) _]. rewrite entry_print.
  apply (with_string_found k (lit L save_failed) save_failed); try done.
  unfold save_failed. cbn. repeat (constructor; [discriminate|]). constructor.
Qed.

Lemma save_calls k name data kd :
  memory_ok k name → make_call after_font v L r0 k (WriteFile name data) = Return 0 (with_disk k kd) →
  let k1 := Syscall.print after_font (with_screen (with_disk k kd) (Vga.vga_clear (screen k))) save_failed in
  make_calls after_font v L r0 k [WriteFile name data; Clear; Print save_failed; Editor.Exit] = do_exit k1 ∧
  rtc step k k1.
Proof.
  intros Hmem Hw k1.
  assert (make_call after_font v L r0 (with_disk k kd) Clear =
    Return 0 (with_screen (with_disk k kd) (Vga.vga_clear (screen k)))) as Hc by reflexivity.
  set (k2 := with_screen (with_disk k kd) (Vga.vga_clear (screen k))) in *.
  assert (memory_ok k2 name) as Hmem2 by by apply (memory_ok_same k).
  pose proof (print_call k2 name Hmem2) as Hp. fold k1 in Hp.
  split.
  { cbn [make_calls]. by rewrite Hw, Hc, Hp, entry_exit. }
  destruct (lo_pool _ HL) as [Hp0 Hpl]. destruct (lo_name _ HL) as [Hq Hql].
  destruct Hr0 as [H1' H2']. unfold make_call, syscall_entry in Hw, Hc, Hp. unfold MEMORY_POOL_SIZE, USER_LIMIT in *.
  eapply rtc_l; [refine (step_call _ _ k _ _ _ _ _ _ _ _ Hw); cbn; lia|].
  eapply rtc_l; [refine (step_call _ _ _ _ _ _ _ _ _ _ _ Hc); done|].
  apply rtc_once. refine (step_call _ _ _ _ _ _ _ _ _ _ _ Hp); [done|apply (lo_lit _ HL)].
Qed.

(** 'w' in normal mode: the text goes to the disk, whatever comes of it the
    message says that saving failed, and the program exits. *)
Lemma turn_save max k name e :
  memory_ok k name → name_bytes name → max ≤ MEMORY_POOL_SIZE → editing max name e →
  is_insert_mode e = false →
  ∃ calls k1, key_turn after_font v L r0 k e 119 = (Finish calls, do_exit k1) ∧ rtc step k k1 ∧
    disk k1 = (fat16_write_file v (disk k) name (text e) (Z.of_nat (length (text e)))).2 ∧
    screen k1 = Vga.vga_print after_font (Vga.vga_clear (screen k)) save_failed ∧
    keyboard k1 = keyboard k ∧ scancodes k1 = scancodes k.
Proof.
  intros Hmem Hname Hmax [Hwf Hm Hn Hb] Hi. pose proof Hwf as (Hbl & Hcur & Hlen).
  set (saved := upd (edit_buffer e) (buffer_len e) 0).
  assert (length saved = length (edit_buffer e)) as Hls by apply length_upd.
  assert (Forall is_byte saved) as Hbs.
  { apply bytes_at. intros i Hi0. unfold saved. rewrite at_upd by lia.
    case_decide; [unfold is_byte; lia|]. by apply at_byte. }
  assert (take (Z.to_nat (buffer_len e)) saved = text e) as Ht
    by (unfold saved, upd, text; apply take_insert_ge; lia).
  destruct (store_pool k name saved Hmem (proj2 (proj2 Hname)) ltac:(lia) Hbs) as (Hmem1 & Hst & Hin).
  pose proof (write_call _ name saved (Z.to_nat (buffer_len e)) Hmem1 Hname Hin ltac:(lia) ltac:(lia)) as Hw.
  rewrite Ht in Hw.
  assert (write_answer after_font v L r0 k saved name (text e) = 0) as Hans.
  { unfold write_answer. by rewrite Hw. }
  destruct (save_calls _ name (text e) _ Hmem1 Hw) as [Hcalls Hst'].
  unfold key_turn. fold saved. unfold editor_key. rewrite Hi.
  change (119 =? 27) with false. change ((128 <=? 119) && (119 <=? 131)) with false.
  change (119 =? 105) with false. change (119 =? 119) with true. cbv iota. cbn zeta.
  unfold save. cbn [edit_buffer buffer_len current_filename set_mode]. rewrite Hn. fold saved.
  rewrite Ht, Hans. cbn [Z.ltb Z.compare app]. fold save_failed. rewrite Hcalls.
  do 2 eexists. split; [reflexivity|]. split; [by eapply rtc_l|].
  split; [|by split]. cbn [disk Syscall.print with_screen with_disk].
  assert (Z.of_nat (Z.to_nat (buffer_len e)) = Z.of_nat (length (text e))) as ->
    by (pose proof (length_text e Hwf); lia).
  done.
Qed.

(** ** Opening *)

Lemma start_editing rows name data :
  name ≠ [] → (length name ≤ 31)%nat → Forall is_byte data →
  Z.of_nat (length data) + 8192 ≤ MEMORY_POOL_SIZE →
  ∃ e, editor_start rows (Some name) (λ _, Z.of_nat (length data)) (λ _, (Z.of_nat (length data), data)) =
      Continue e (draw_editor_ui e rows) ∧
    editing (Z.of_nat (length data) + 8192) name e ∧ abs e = mk_spec data 0 false.
Proof.
  intros Hne Hlen Hb Hroom. unfold MEMORY_POOL_SIZE in *.
  pose proof (editor_start_correct rows (Some name) (λ _, Z.of_nat (length data))
    (λ _, (Z.of_nat (length data), data))) as Hs. cbn zeta in Hs.
  destruct name as [|c name]; [done|]. cbn [snd fst] in Hs.
  assert ((if 0 <? Z.of_nat (length data) then data else []) = data) as Hd.
  { destruct (Z.ltb_spec 0 (Z.of_nat (length data))); [done|]. destruct data; [done|cbn in *; lia]. }
  rewrite Hd in Hs. specialize (Hs ltac:(lia) ltac:(done)).
  revert Hs. unfold editor_start, editor_malloc. rewrite Z.add_0_l.
  assert (s32 (Z.of_nat (length data) + 8192) = Z.of_nat (length data) + 8192) as ->
    by (apply signed_small; lia).
  destruct (MEMORY_POOL_SIZE <? _); [unfold MEMORY_POOL_SIZE; lia|].
  set (b := if 0 <? Z.of_nat (length data) then _ else _).
  assert (Forall is_byte b.1) as Hbb.
  { assert (∀ n, Forall is_byte (repeat 0 n)) as Hrep by (intros n; induction n; by constructor).
    unfold b. destruct (_ <? _); cbn [fst]; [|done]. apply Forall_app. split; [done|]. apply Forall_drop, Hrep. }
  clearbody b. destruct b as [buf len]. unfold redraw. intros (Hwf & Habs & Hname & _).
  eexists. split; [reflexivity|]. split; [|done]. split; [done|done| |done].
  rewrite Hname. apply take_ge. lia.
Qed.

(** What the loader leaves: the variables mapped, the argument [f] at [args]. *)
Record entry_ok k (args : Z) (f : list Z) : Prop := {
  en_space : space (pages k) (cr3 k);
  en_pool : mapped (pages k) (cr3 k) (pool_at L) MEMORY_POOL_SIZE;
  en_filename : mapped (pages k) (cr3 k) (filename_at L) 32;
  en_error : string_in (view k) (lit L save_failed) save_failed;
  en_args : string_in (view k) args f;
  en_apart : 0 < args ∧ clear_of args f (filename_at L) 32;
}.

(** The name is copied into its variable. *)
Lemma copy_name k args f :
  entry_ok k args f → name_bytes f →
  let k1 := store k (filename_at L) (f ++ [0]) in
  memory_ok k1 f ∧ step k k1 ∧ string_in (view k1) args f.
Proof.
  intros [Sp Hp Hf He Ha [Ha0 (Ha1 & Ha2 & Ha3)]] (Hb & Hz & Hlen) k1.
  destruct (lo_name _ HL) as [Hq Hql]. destruct (lo_pool _ HL) as [Hp0 Hpl].
  destruct (lo_error _ HL) as [_ (He0 & He1 & He2)].
  assert (Z.of_nat (length (f ++ [0])) ≤ 32) as Hl by (rewrite length_app; cbn; lia).
  assert (mapped (pages k) (cr3 k) (filename_at L) (Z.of_nat (length (f ++ [0])))) as Hm
    by by eapply mapped_prefix.
  pose proof (store_same _ _ _ _ Sp Hm) as Hs.
  assert (∀ q s, clear_of q s (filename_at L) 32 → string_in (view k) q s → string_in (view k1) q s) as Hkeep.
  { intros q s (Hc0 & Hc1 & Hc2) Hstr. apply store_keeps; try done.
    - apply view_mapped; [done| |exact Hstr]. rewrite length_app. cbn [length]. lia.
    - rewrite (length_app s). cbn [length]. lia. }
  split; [|split; [by apply store_step|by apply Hkeep]].
  split; cbn [pages cr3 store with_pages k1].
  - apply Hs.
  - by apply (mapped_same _ _ _ _ _ Hs).
  - apply store_inside; [done|done|]. apply Forall_app. split; [done|]. by repeat constructor.
  - by apply Hkeep.
Qed.

Lemma malloc_fits n : 0 ≤ n ≤ MEMORY_POOL_SIZE → (editor_malloc 0 (s32 n)).1 = Some 0.
Proof.
  unfold MEMORY_POOL_SIZE. intros Hn. unfold s32. rewrite signed_small by lia. unfold editor_malloc.
  destruct (Z.ltb_spec MEMORY_POOL_SIZE (0 + n)); [unfold MEMORY_POOL_SIZE in *; lia|done].
Qed.

Lemma open_file k args f content :
  entry_ok k args f → name_bytes f → f ≠ [] →
  fat16_get_file_size v (disk k) f = Z.of_nat (length content) →
  fat16_read_file v (disk k) f = (s32 (Z.of_nat (length content)), content) →
  Z.of_nat (length content) + 8192 ≤ MEMORY_POOL_SIZE →
  ∃ k' e, editor_open after_font v L r0 k args = (k', Continue e (draw_editor_ui e (max_rows_of after_font v r0 k'))) ∧
    rtc step k k' ∧ memory_ok k' f ∧ editing (Z.of_nat (length content) + 8192) f e ∧
    abs e = mk_spec content 0 false ∧ kept_io k k' ∧ keyboard k' = keyboard k ∧ scancodes k' = scancodes k.
Proof.
  intros Hen Hf Hne Hsize Hread Hroom. pose proof Hf as (Hb & Hz & Hlen).
  destruct (copy_name k args f Hen Hf) as (Hmem1 & Hst1 & Hargs1).
  destruct Hen as [Sp _ _ _ Ha [Ha0 (Ha1 & Ha2 & _)]].
  assert (Forall is_byte content) as Hbc.
  { by apply file_bytes in Hread. }
  destruct f as [|c f]; [done|]. set (name := c :: f) in *.
  assert (load_byte (pages k) (cr3 k) args = c) as Hc.
  { apply view_byte. specialize (Ha 0%nat c eq_refl). by rewrite Z.add_0_r in Ha. }
  assert (user_str (pages k) (cr3 k) args = inr name) as Hus by by apply user_string_found.
  unfold editor_open. rewrite Hc, (proj2 (Z.eqb_neq args 0)), (proj2 (Z.eqb_neq c 0)) by
    (lia || by apply Forall_cons_1 in Hz as []). cbn [negb andb]. cbv iota. cbn zeta.
  rewrite Hus. rewrite kstrncpy_take, take_ge by lia.
  set (k1 := store k (filename_at L) (name ++ [0])) in *.
  assert (0 ≤ Z.of_nat (length content) < 2 ^ 31) as Hl by (unfold MEMORY_POOL_SIZE in Hroom; lia).
  rewrite entry_size, (with_string_found k1 args name) by (done || apply Hmem1).
  change (disk k1) with (disk k). rewrite Hsize, int_of_return.
  assert (s32 (Z.of_nat (length content)) = Z.of_nat (length content)) as Hs32
    by (apply signed_small; lia).
  rewrite u64_small by lia. rewrite Hs32 in *. rewrite bool_decide_true, andb_true_r
    by (rewrite malloc_fits by lia; by eexists).
  pose proof (λ rows, start_editing rows name content Hne Hlen Hbc Hroom) as Hstart.
  destruct (Z.ltb_spec 0 (Z.of_nat (length content))) as [Hpos|Hzero].
  - destruct (lo_pool _ HL) as [Hp0 Hpl].
    rewrite (read_call after_font v r0 k1 args name (pool_at L) MEMORY_POOL_SIZE content)
      by (done || apply Hmem1 || lia || by rewrite Hs32).
    rewrite Hs32. rewrite (proj2 (Z.ltb_lt 0 _) Hpos).
    destruct (store_pool k1 name content Hmem1 Hlen ltac:(lia) Hbc) as (Hmem2 & Hst2 & Hin).
    set (k2 := store k1 (pool_at L) content) in *. rewrite (user_bytes_found _ _ _ _ Hin).
    destruct (Hstart (max_rows_of after_font v r0 k2)) as (e & -> & He & Habs).
    exists k2, e. split; [done|]. split; [eapply rtc_l; [exact Hst1|by apply rtc_once]|].
    by split_and!.
  - destruct content as [|x content]; [|cbn in Hzero; lia]. change (0 <? 0) with false. cbv iota.
    destruct (Hstart (max_rows_of after_font v r0 k1)) as (e & He0 & He & Habs).
    exists k1, e. split; [by rewrite <- He0|]. split; [by apply rtc_once|]. by split_and!.
Qed.

(** ** From the entry to the exit *)

Lemma editor_run k args f content cs rest :
  entry_ok k args f → name_bytes f → f ≠ [] →
  fat16_get_file_size v (disk k) f = Z.of_nat (length content) →
  fat16_read_file v (disk k) f = (s32 (Z.of_nat (length content)), content) →
  Z.of_nat (length content) + 8192 ≤ MEMORY_POOL_SIZE →
  keystrokes k (cs ++ 119 :: rest) → keys_mode false cs = Some false →
  ∃ k1 s scr, editor_main after_font v L r0 k args = do_exit k1 ∧ rtc step k k1 ∧
    spec_keys (Z.of_nat (length content) + 8192) (mk_spec content 0 false) cs s ∧ s_insert s = false ∧
    Forall is_byte (s_text s) ∧ Z.of_nat (length (s_text s)) < MEMORY_POOL_SIZE ∧
    disk k1 = (fat16_write_file v (disk k) f (s_text s) (Z.of_nat (length (s_text s)))).2 ∧
    screen k1 = Vga.vga_print after_font (Vga.vga_clear scr) save_failed ∧ keystrokes k1 rest.
Proof.
  intros Hen Hf Hne Hsize Hread Hroom Hkeys Hmode. pose proof Hf as (_ & _ & Hlen).
  set (max := Z.of_nat (length content) + 8192) in *.
  destruct (open_file k args f content Hen Hf Hne Hsize Hread Hroom)
    as (k1 & e & Hopen & Hst1 & Hmem1 & He1 & Habs & Hio1 & Hkb1 & Hsc1).
  destruct (quiet_calls after_font v L r0 Hr0 (lo_lit _ HL) k1 _
    (draw_quiet e (max_rows_of after_font v r0 k1))) as (s1 & Hcalls & Hst2).
  set (k2 := with_screen k1 s1) in *.
  assert (memory_ok k2 f) as Hmem2 by by apply (memory_ok_same k1).
  assert (keystrokes k2 (cs ++ 119 :: rest)) as Hkeys2
    by (unfold keystrokes, k2; cbn [keyboard scancodes with_screen]; by rewrite Hkb1, Hsc1).
  assert (is_insert_mode e = false) as Hi by (change (s_insert (abs e) = false); by rewrite Habs).
  assert (∃ n, key_fuel k2 = (length cs + S n)%nat) as [n Hn].
  { pose proof (keystrokes_fuel _ _ Hkeys2) as Hb. rewrite length_app in Hb. cbn [length] in Hb.
    exists (key_fuel k2 - length cs - 1)%nat. lia. }
  rewrite <- Hi in Hmode at 1.
  destruct (loop_keys max f cs Hlen Hroom (S n) k2 e (119 :: rest) false Hmem2 He1 Hkeys2 Hmode)
    as (k3 & e3 & Hloop & Hst3 & Hmem3 & He3 & Hi3 & Hspec & Hkeys3 & Hio3).
  destruct (next_key k3 f 119 rest Hmem3 Hkeys3)
    as (r & k4 & Hget & Hr & Hst4 & Hmem4 & Hkeys4 & Hio4 & _).
  destruct (turn_save max k4 f e3 Hmem4 Hf Hroom He3 Hi3)
    as (calls & k5 & Hturn & Hst5 & Hdisk & Hscr & Hkb5 & Hsc5).
  exists k5, (abs e3), (screen k4). split.
  { unfold editor_main. rewrite Hopen, Hcalls. fold k2. rewrite Hn, Hloop. cbn [key_loop].
    rewrite Hget, Hr, Hturn. done. }
  split.
  { etransitivity; [exact Hst1|]. etransitivity; [exact Hst2|]. etransitivity; [exact Hst3|].
    by eapply rtc_l. }
  split; [by rewrite <- Habs|]. split; [done|].
  split; [apply Forall_take, (ed_bytes _ _ _ He3)|].
  split; [pose proof (length_text e3 (ed_wf _ _ _ He3)); destruct (ed_wf _ _ _ He3) as (_ & _ & ?);
          rewrite (ed_max _ _ _ He3) in *; cbn [s_text abs]; lia|].
  split; [|split; [done|by apply (keystrokes_same k4)]]. rewrite Hdisk, (ki_disk _ _ Hio4), (ki_disk _ _ Hio3).
  cbn [disk with_screen k2]. by rewrite (ki_disk _ _ Hio1).
Qed.
End Editing.

(** ** From the command to the disk *)

(** The file of the program: it loads the variables and carries the message. *)
Record editor_image (L : editor_layout) (img : list Z) : Prop := {
  ei_pool : loads_range img (pool_at L) MEMORY_POOL_SIZE;
  ei_name : loads_range img (filename_at L) 32;
  ei_error : carries img (lit L save_failed) save_failed;
}.

Section Whole.
Context {St : Type} `{PageAllocatorLaws St} {D : Type} `{DiskLaws D} {P : Type} `{Ports P}.
Context (after_font : Z → Z) (v : vol) (kstack NAME : Z) (L : editor_layout) (r0 : regs).
Context (Hr0 : regs_ok r0) (HL : layout_ok L).
Implicit Types (w : @system St D P).

Lemma entered_ok w a0 a pml4 map img entry f :
  editor_image L img → name_bytes f → process_ready a0 a pml4 map img (Some f) →
  entry_ok L (entered after_font w a
    (mk_usermode map entry (stack_pointer (Some f)) (stack_pointer (Some f)) (u64 (kstack + 4096))))
    (stack_pointer (Some f)) f.
Proof.
  intros [Hp Hn He] (Hb & _ & Hlen) R. split; cbn [pages cr3 entered um_cr3 Syscall.print with_screen with_pages].
  - apply R.
  - by apply (ready_mapped _ _ _ _ _ _ _ _ R).
  - by apply (ready_mapped _ _ _ _ _ _ _ _ R).
  - by apply (ready_string _ _ _ _ _ _ _ _ R).
  - by apply (ready_args _ _ _ _ _ _ R).
  - destruct Hn as (Hn0 & Hn1 & _). unfold clear_of, stack_pointer, stack_bytes.
    rewrite length_app. cbn [length]. unfold USER_STACK, USER_LIMIT in *. lia.
Qed.

(** What the editor makes of the file [f] with the keys [cs] and 'w', on the disk
    of [w]: the text, and the disk and the screen in [k1] afterwards. *)
Definition saved_as w (f : list Z) (M : file_map) (cs : list Z) (k1 : @kernel St D) : Prop :=
  let content := default [] (M !! format_fat_name f) in
  ∃ s scr r, (∀ s', spec_keys (Z.of_nat (length content) + 8192) (mk_spec content 0 false) cs s' ↔ s' = s) ∧
    fat16_write_file v (disk (core w)) f (s_text s) (Z.of_nat (length (s_text s))) = (r, disk k1) ∧
    screen k1 = Vga.vga_print after_font (Vga.vga_clear scr) save_failed ∧
    (∀ rest, keystrokes (core w) (cs ++ 119 :: rest) → keystrokes k1 rest) ∧
    (s_text s ≠ [] → r ≠ 0 → volume v (disk k1) (<[format_fat_name f := s_text s]> M)).

(** A file that can be edited, and keys that end with 'w' in normal mode. *)
Record editable w (f : list Z) (M : file_map) (cs : list Z) : Prop := {
  eb_name : name_bytes f;
  eb_first : f ≠ [] ∧ head f ≠ Some 0xE5;
  eb_volume : volume v (disk (core w)) M;
  eb_room : Z.of_nat (length (default [] (M !! format_fat_name f))) + 8192 ≤ MEMORY_POOL_SIZE;
  eb_keys : ∃ rest, keystrokes (core w) (cs ++ 119 :: rest);
  eb_mode : keys_mode false cs = Some false;
}.

Lemma editor_started w img f M cs a map entry :
  editor_image L img → editable w f M cs →
  process_ready (pages (core w)) a (kernel_pml4 (core w)) map img (Some f) →
  let regs := mk_usermode map entry (stack_pointer (Some f)) (stack_pointer (Some f)) (u64 (kstack + 4096)) in
  let k := entered after_font w a regs in
  ∃ k1, rtc (pstep after_font v) k k1 ∧
    do_exit k1 = Syscall.Exit (editor_program after_font v L r0 regs k) ∧ saved_as w f M cs k1.
Proof.
  intros Himg [Hf [Hne H5] Hvol Hfit [rest Hkeys] Hmode] R regs k.
  pose proof Hvol as [_ Hh]. destruct (Hh f (proj1 Hf)) as [Hread Hsize].
  pose proof (entered_ok w _ a _ map img entry f Himg Hf R) as Hen.
  destruct (editor_run after_font v L r0 Hr0 HL k (stack_pointer (Some f)) f _ cs rest
    Hen Hf Hne Hsize Hread Hfit Hkeys Hmode)
    as (k1 & s & scr & Hmain & Hst & Hspec & _ & Hb & Hlen & Hdisk & Hscr & Hrest).
  change (disk k) with (disk (core w)) in Hdisk.
  destruct (fat16_write_file v (disk (core w)) f (s_text s) (Z.of_nat (length (s_text s)))) as [r d] eqn:Hwr.
  cbn [snd] in Hdisk. subst d. exists k1. split; [done|]. split.
  { unfold editor_program. cbn [um_args regs]. fold regs k. rewrite Hmain. done. }
  exists s, scr, r. split; [intros s'; split; [intros Hs'; by apply (spec_keys_fun _ _ _ _ _ Hs')|by intros ->]|].
  split; [done|]. split; [done|]. split.
  { intros rest' Hkeys'. pose proof (keystrokes_inj _ _ _ Hkeys Hkeys') as Heq.
    apply app_inv_head in Heq. by injection Heq as <-. }
  intros Hs Hr.
  apply (happens_volume v (disk (core w)) (Put f (s_text s) r) (disk k1) M Hvol).
  - split; [apply Hf|]. split; [apply Hf|]. by split.
  - split; [done|]. split; [|done]. unfold MEMORY_POOL_SIZE in Hlen. destruct (s_text s); [done|cbn in *; lia].
Qed.

(** What [saved_as] says is kept by sys_exit. *)
Lemma saved_as_exit w f M cs k1 k2 : do_exit k1 = Syscall.Exit k2 → saved_as w f M cs k1 → saved_as w f M cs k2.
Proof. unfold do_exit. by intros [= <-]. Qed.

(** The editor, run from a command line on the file [f]; only at the entry point
    of its file need the program be the editor. *)
Lemma editor_execs (user_program : usermode → @kernel St D → @kernel St D) w name img f M cs :
  system_ok w → program_file (drive_a v w name) (drive_c NAME w name) (pages (core w)) img →
  startable img (Some f) (pages (core w)) → editor_image L img → editable w f M cs →
  (∀ regs k, um_entry regs = e_entry (image img) 0 →
     user_program regs k = editor_program after_font v L r0 regs k) →
  let w' := exec after_font v kstack NAME user_program w name (Some f) in
  steady w w' ∧ saved_as w f M cs (core w').
Proof.
  intros Hw Hfile Hst Himg Hed Hprog w'.
  destruct (exec_runs after_font v kstack NAME user_program (saved_as w f M cs) w name (Some f) img Hw Hfile Hst)
    as [Hsteady (k1 & Hexit & Hs)].
  - intros map a R. cbv zeta. rewrite Hprog by done.
    by apply (editor_started w img f M cs a map (e_entry (image img) 0) Himg Hed R).
  - split; [done|]. by apply (saved_as_exit w f M cs k1).
Qed.

(** C6. The editor, run from a command line on the file [f] with enough frames free
    and keys that end with 'w' in normal mode: the machine is afterwards as before;
    the abstract editor, started on what the file held, makes one text of the keys
    (arrows, ESC and backspaces included),
    and the disk is the result of writing that text to [f], so that [f] holds it and
    every other file is as before unless the write failed. The message says that
    saving failed in any case; the keys after the 'w' still wait. *)
Theorem editor_saves w name img f M cs :
  system_ok w → program_file (drive_a v w name) (drive_c NAME w name) (pages (core w)) img →
  startable img (Some f) (pages (core w)) → editor_image L img → editable w f M cs →
  let w' := exec after_font v kstack NAME (editor_program after_font v L r0) w name (Some f) in
  steady w w' ∧ saved_as w f M cs (core w').
Proof. intros Hw Hfile Hst Himg Hed w'. by apply (editor_execs _ w name img). Qed.
End Whole.
