(* ===== verification/EditorDemo.v ===== *)
(** The editor on a machine of 2048 frames: its file has one segment with the
    variables, a megabyte for the text among them; the keys are "i", "h", "i",
    escape, "w" on a file that does not exist yet. *)

From S2P Require Import Pmm Machine Loader LoaderDemo Block Fat16 Fat16Proofs Fat16Demo Keyboard Editor.
From S2P Require Import System SystemDemo Files FilesDemo UserProg EditorRun.
From S2P Require Vga TarFs Acpi.
Open Scope Z_scope.

(** Frames 0 and 1 are taken. *)
Definition huge : pmm := mk_pmm BASE BASE (4096 * 2046) 2048 2 {[ BASE := 3 ]}.

Lemma huge_free i : i ∈ free_set huge ↔ 2 ≤ i < 2048.
Proof.
  cbn [free_set pmm_allocator]. rewrite elem_of_free_frames. change (pmm_highest_page huge) with 2048.
  split.
  - intros [Hi Hb]. assert (i = 0 ∨ i = 1 ∨ 2 ≤ i) as Hc by lia.
    repeat destruct Hc as [->|Hc]; try discriminate Hb. lia.
  - intros Hi. split; [lia|]. apply negb_true_iff.
    apply (forall_range (λ i, negb (bitmap_test huge i)) 2 2046); [by vm_compute|lia].
Qed.

Lemma size_interval (X : gset Z) i n : (∀ k, k ∈ X ↔ i ≤ k < i + n) → size X = Z.to_nat n.
Proof.
  intros HX. replace X with (list_to_set (seqZ i n) : gset Z).
  - rewrite size_list_to_set by apply NoDup_seqZ. apply length_seqZ.
  - apply set_eq. intros k. by rewrite elem_of_list_to_set, elem_of_seqZ, HX.
Qed.

Lemma huge_size : size (free_set huge) = 2046%nat.
Proof. apply (size_interval _ 2 2046). intros k. apply huge_free. Qed.

Lemma huge_bitmap x : in_bitmap huge x → BASE ≤ x < BASE + 256.
Proof. unfold in_bitmap. cbn. change ((2048 + 7) / 8) with 256. lia. Qed.

Lemma huge_wf : alloc_wf huge.
Proof.
  split; [done|done|done| | |].
  - change (0 ∉ free_set huge). rewrite huge_free. lia.
  - intros i x Hi. change (i ∈ free_set huge) in Hi. apply huge_free in Hi.
    intros Hp Hb%huge_bitmap. unfold in_page, PAGE_SIZE in Hp. cbn in Hp. lia.
  - change (4096 * 2046 = PAGE_SIZE * Z.of_nat (size (free_set huge))). by rewrite huge_size.
Qed.

Lemma huge_kernel : kernel_table huge (BASE + 4096).
Proof.
  exists 4096. split; [reflexivity|]. exists 1. split; [reflexivity|]. split.
  - split; [cbn; lia|]. intros x Hp Hb%huge_bitmap. unfold in_page, PAGE_SIZE in Hp. cbn in Hp. lia.
  - rewrite huge_free. lia.
Qed.

(** The file: four bytes of code, the message, and the rest zero when loaded. *)
Definition editor_elf : list Z :=
  [127; 69; 76; 70] ++ replicate 20 0 ++ le64 4194424 ++ le64 64 ++ replicate 16 0 ++
  [1; 0] ++ replicate 6 0 ++
  [1; 0; 0; 0; 7; 0; 0; 0] ++ le64 120 ++ le64 4194424 ++ le64 0 ++ le64 31 ++ le64 1056768 ++ le64 4096 ++
  [144; 144; 15; 5] ++ save_failed ++ [0].

Definition editor_segment : phdr := mk_phdr 1 120 4194424 31 1056768.

(** The name at 0x400400, the pool at 0x401000; the other literals are not loaded. *)
Definition demo_layout : editor_layout :=
  mk_layout (λ s, if bool_decide (s = save_failed) then 4194428 else 0) 4195328 4198400.

Lemma lit_error : lit demo_layout save_failed = 4194428.
Proof. reflexivity. Qed.

Lemma demo_layout_ok : layout_ok demo_layout.
Proof.
  split.
  - intros s. unfold demo_layout. cbn [lit]. destruct (bool_decide _); lia.
  - vm_compute. split; [discriminate|reflexivity].
  - vm_compute. split; [discriminate|reflexivity].
  - left. vm_compute. discriminate.
  - rewrite lit_error. unfold clear_of, USER_LIMIT, MEMORY_POOL_SIZE. cbn. lia.
Qed.

Lemma editor_phnum : e_phnum (image editor_elf) 0 = 1.
Proof. reflexivity. Qed.

Lemma editor_hdr : hdr editor_elf 0 = editor_segment.
Proof. reflexivity. Qed.

Lemma editor_loadable : loadable editor_elf (Some (str "a")).
Proof.
  split; [cbn; lia| |cbn; lia]. rewrite editor_phnum. split.
  - intros i Hi _. assert (i = 0) as -> by lia. rewrite editor_hdr.
    split; unfold USER_LIMIT, USER_STACK; cbn; try lia.
    left. vm_compute. discriminate.
  - intros i j. lia.
Qed.

Lemma editor_view w : 4194304 ≤ w < 5251072 →
  seg_view editor_elf (loads editor_elf (e_phnum (image editor_elf) 0)) w =
  Some (seg_byte editor_elf editor_segment w).
Proof.
  intros Hw. rewrite editor_phnum. change (loads editor_elf 1) with [editor_segment].
  unfold seg_view. cbn [List.find]. assert (in_seg w editor_segment = true) as ->; [|done].
  unfold in_seg. change (seg_start editor_segment) with 4194304.
  change (seg_end editor_segment) with 5255168. lia.
Qed.

Lemma editor_carries : carries editor_elf 4194428 save_failed.
Proof.
  split; [|split; [lia|split; [vm_compute; reflexivity|]]].
  - intros i c Hi. pose proof (lookup_lt_Some _ _ _ Hi) as Hl. change (length _) with 27%nat in Hl.
    rewrite editor_view by lia.
    assert (forallb (λ i, bool_decide (Some (seg_byte editor_elf editor_segment (4194428 + i)) =
      (save_failed ++ [0]) !! Z.to_nat i)) (seqZ 0 27) = true) as Hall by (vm_compute; reflexivity).
    pose proof (forall_range _ 0 27 (Z.of_nat i) Hall ltac:(lia)) as Hb.
    apply bool_decide_eq_true in Hb. rewrite Nat2Z.id in Hb. by rewrite Hb.
  - unfold save_failed. cbn. repeat (constructor; [discriminate|]). constructor.
Qed.

Lemma editor_image_ok : editor_image demo_layout editor_elf.
Proof.
  split; [| |exact editor_carries].
  - split; [vm_compute; discriminate|split; [vm_compute; reflexivity|]].
    intros w Hw. cbn [pool_at demo_layout] in Hw. unfold MEMORY_POOL_SIZE in Hw.
    rewrite editor_view by lia. by eexists.
  - split; [vm_compute; discriminate|split; [vm_compute; reflexivity|]].
    intros w Hw. cbn [filename_at demo_layout] in Hw. rewrite editor_view by lia. by eexists.
Qed.

Definition editor_disk : gmap_disk :=
  (fat16_write_file demo_vol demo_empty (str "editor") editor_elf (Z.of_nat (length editor_elf))).2.

Definition editor_put : event := Put (str "editor") editor_elf (Z.of_nat (length editor_elf)).

Lemma editor_stored :
  (fat16_write_file demo_vol demo_empty (str "editor") editor_elf (Z.of_nat (length editor_elf))).1 =
  Z.of_nat (length editor_elf).
Proof. vm_compute. reflexivity. Qed.

Lemma editor_volume : volume demo_vol editor_disk (effects ∅ [editor_put]).
Proof.
  apply (happens_volume demo_vol demo_empty editor_put editor_disk ∅ demo_no_files).
  - split; [apply bytes_of; vm_compute; reflexivity|]. split; [by repeat constructor|].
    split; [apply bytes_of; vm_compute; reflexivity|]. exact (Fat16Demo.pair_eq _ _ editor_stored).
  - split; [discriminate|]. split; [vm_compute; split; reflexivity|discriminate].
Qed.

Lemma editor_on_disk : fat_file demo_vol editor_disk (str "editor") = file_answer editor_elf.
Proof. vm_compute. reflexivity. Qed.

(** The scancodes of the five keys. *)
Definition editor_machine : @system pmm gmap_disk bench :=
  mk_system (mk_kernel huge 4096 (BASE + 4096) no_screen kbd_boot [0x17; 0x23; 0x17; 0x01; 0x11] editor_disk)
    TarFs.tarfs_boot Acpi.acpi_boot (mk_bench [] []).

Lemma editor_machine_ok : system_ok editor_machine.
Proof. split; [exact huge_wf|exact huge_kernel|reflexivity]. Qed.

Definition demo_keys : list Z := [105; 104; 105; 27].

Lemma demo_editable : editable demo_vol editor_machine (str "a") (effects ∅ [editor_put]) demo_keys.
Proof.
  split.
  - split; [apply bytes_of; reflexivity|]. split; [by repeat constructor|cbn; lia].
  - split; discriminate.
  - exact editor_volume.
  - vm_compute. discriminate.
  - exists []. split; [done|]. split; [repeat constructor; lia|vm_compute; reflexivity].
  - reflexivity.
Qed.

Lemma huge_run n : n ≤ 2046 → free_run huge n.
Proof. intros Hn. exists 2. intros k Hk. apply huge_free. lia. Qed.

(** With an argument of any length that fits. *)
Lemma editor_startable f : Z.of_nat (length (stack_bytes (Some f))) ≤ 4096 → startable editor_elf (Some f) huge.
Proof.
  intros Hf. split; [|reflexivity| | |apply huge_run; vm_compute; discriminate].
  - destruct editor_loadable as [Hs Hl _]. by split.
  - rewrite editor_phnum. intros i Hi. assert (i = 0) as -> by lia. reflexivity.
  - rewrite huge_size. vm_compute. discriminate.
Qed.

Lemma editor_saves_witness :
  let w' := exec (λ _, 0) demo_vol 0 0 (editor_program (λ _, 0) demo_vol demo_layout (mk_regs 0 0 0 0))
    editor_machine (str "editor") (Some (str "a")) in
  steady editor_machine w' ∧
  saved_as (λ _, 0) demo_vol editor_machine (str "a") (effects ∅ [editor_put]) demo_keys (core w').
Proof.
  apply (editor_saves (λ _, 0) demo_vol 0 0 demo_layout (mk_regs 0 0 0 0)
    (conj (conj (Z.le_refl 0) eq_refl) (conj (Z.le_refl 0) eq_refl)) demo_layout_ok
    editor_machine (str "editor") editor_elf (str "a") (effects ∅ [editor_put]) demo_keys editor_machine_ok).
  - left. exact editor_on_disk.
  - apply editor_startable. cbn. lia.
  - exact editor_image_ok.
  - exact demo_editable.
Defined.
