(* ===== verification/LispRun.v ===== *)
(** The interpreter as a process (tools/lisp.c over kernel/syscall.c).

    [lisp_open] makes the two calls of [_start] that read the script, with the
    pointers the program has: its argument or the literal at [default_at], and the
    pool at [pool_at], where [lisp_malloc] puts the buffer. [lisp_main] runs Lisp.v
    on what the kernel answered. The nodes of Lisp.v have no addresses, so what the
    program prints is related to its calls by [prints]: each call takes some of
    the text from wherever it lies in the process's memory ([sys_write]) or one
    character of it ([sys_putchar]), and in between the program stores what it
    likes into its own memory. [behaves] says that a program prints so what
    Lisp.v prints, and exits when it exits. *)

From S2P Require Export UserProg System Files.
From S2P Require Import Io Block Fat16 Fat16Proofs.
From S2P Require Vga Lisp LispParse LispEval LispProofs.
Open Scope Z_scope.

Definition default_name : list Z := str "lisp.txt".

Section Program.
Context {St : Type} `{PageAllocatorLaws St} {D : Type} `{DiskLaws D}.
Context (after_font : Z → Z) (v : vol) (default_at pool_at : Z) (r0 : regs).
Implicit Types (k : @kernel St D).

(** The argument as [_start] sees it, and the answers of the two calls. *)
Definition lisp_open k (args : Z) : kernel * list Z * Z * (Z * list Z) :=
  let given := negb (args =? 0) && negb (load_byte (pages k) (cr3 k) args =? 0) in
  let filename := if given then args else default_at in
  let name := if given then match user_str (pages k) (cr3 k) args with inr s => s | inl _ => [] end else [] in
  let fsize := int_of (syscall_entry after_font v k (sys_fat16_get_file_size r0 filename)) in
  if negb (fsize =? 0) && (s32 (fsize + 1) <=? Lisp.MEMORY_POOL_SIZE) then
    match syscall_entry after_font v k (sys_fat16_read_file r0 filename pool_at) with
    | Return r k => (k, name, fsize, (s32 r, user_bytes (pages k) (cr3 k) pool_at (s32 r)))
    | _ => (k, name, fsize, (0, []))
    end
  else (k, name, fsize, (0, [])).

Definition lisp_boot : Lisp.st := Lisp.mk_st 0 [] [] [].

(** [ef]: how deep the evaluation may recurse. The C frames of the recursion lie on
    the one page of stack that the loader gives (process.c:150); that they fit is not
    part of the model. *)
Definition lisp_main (ef : nat) k (args : Z) : kernel * Lisp.outcome unit :=
  let '(k, name, fsize, reply) := lisp_open k args in
  (k, Lisp._start ef name (λ _, fsize) (λ _, reply) lisp_boot).

(** A stretch of a run in which the program prints the text. *)
Inductive prints : kernel → list Z → kernel → Prop :=
  | prints_done k : prints k [] k
  | prints_store k p bytes text k' :
      0 ≤ p →
      (∀ x, p ≤ x < p + Z.of_nat (length bytes) →
         x < USER_LIMIT ∧ user_access (pages k) (cr3 k) x true) →
      prints (store k p bytes) text k' → prints k text k'
  | prints_string k p s k1 text k' :
      0 ≤ p < 2 ^ 64 → user_str (pages k) (cr3 k) p = inr s →
      syscall_entry after_font v k (sys_write r0 p) = Return 0 k1 →
      prints k1 text k' → prints k (s ++ text) k'
  | prints_char k c r k1 text k' :
      is_byte c →
      syscall_entry after_font v k (sys_putchar r0 (s8 c)) = Return r k1 →
      prints k1 text k' → prints k (c :: text) k'.

(** From [k], with the argument at [args], to the state [k'] of the kernel after
    sys_exit. *)
Definition behaves (ef : nat) k (args : Z) k' : Prop :=
  ∀ k1 s, lisp_main ef k args = (k1, Lisp.Exit s) → Forall is_byte (Lisp.out s) →
  ∃ k2, prints k1 (Lisp.out s) k2 ∧ do_exit k2 = Exit k'.

(** ** Printing *)

Record printed k (text : list Z) k' : Prop := {
  pt_screen : screen k' = Vga.vga_print after_font (screen k) text;
  pt_disk : disk k' = disk k;
  pt_keyboard : keyboard k' = keyboard k;
  pt_scancodes : scancodes k' = scancodes k;
}.

Lemma string_call k p : syscall_entry after_font v k (sys_write r0 p) =
  with_string k p (λ s, Return 0 (Syscall.print after_font k s)).
Proof. reflexivity. Qed.

Lemma char_byte c : is_byte c → u8 (u64 (s8 c)) = c.
Proof. intros Hc. transitivity (u8 c); [apply char_register|by apply u8_small]. Qed.

Lemma putchar_call k x arg2 arg3 : syscall_handler_c after_font v k 4 x arg2 arg3 =
  Return 0 (with_screen k (Vga.vga_putchar after_font (screen k) (u8 x))).
Proof. reflexivity. Qed.

Lemma stub_putchar k x : syscall_entry after_font v k (sys_putchar r0 x) =
  syscall_handler_c after_font v k 4 (u64 x) (rsi r0) (rdx r0).
Proof. reflexivity. Qed.

Lemma entry_putchar k c : is_byte c → syscall_entry after_font v k (sys_putchar r0 (s8 c)) =
  Return 0 (with_screen k (Vga.vga_putchar after_font (screen k) c)).
Proof. intros Hc. by rewrite stub_putchar, putchar_call, char_byte. Qed.

(** A call of the program is a step of its run. *)
Lemma stub_write k p : syscall_entry after_font v k (sys_write r0 p) = syscall_handler_c after_font v k 1 1 p 0.
Proof. reflexivity. Qed.

Lemma write_step k p r k1 :
  0 ≤ p < 2 ^ 64 → syscall_entry after_font v k (sys_write r0 p) = Return r k1 → pstep after_font v k k1.
Proof. rewrite stub_write. intros Hp Hc. by apply (step_call _ _ k 1 1 p 0 r). Qed.

Lemma putchar_step k x r k1 : 0 ≤ rsi r0 < 2 ^ 64 →
  syscall_entry after_font v k (sys_putchar r0 x) = Return r k1 → pstep after_font v k k1.
Proof.
  rewrite stub_putchar. intros Hr Hc. apply (step_call _ _ k 4 (u64 x) (rsi r0) (rdx r0) r); [|done..].
  apply u64_range.
Qed.

(** A string call that succeeds prints the string. *)
Lemma write_prints k p s k1 :
  user_str (pages k) (cr3 k) p = inr s → syscall_entry after_font v k (sys_write r0 p) = Return 0 k1 →
  k1 = Syscall.print after_font k s.
Proof.
  intros Hs. rewrite string_call. unfold with_string.
  destruct (check_string k p); cbn [negb]; [|discriminate]. rewrite Hs. by intros [= <-].
Qed.

Lemma print_app (scr : Vga.vga) l1 l2 :
  Vga.vga_print after_font scr (l1 ++ l2) = Vga.vga_print after_font (Vga.vga_print after_font scr l1) l2.
Proof. apply fold_left_app. Qed.

Lemma prints_printed k text k' : regs_ok r0 →
  prints k text k' → rtc (pstep after_font v) k k' ∧ printed k text k'.
Proof.
  intros [Hr1 Hr2]. induction 1 as [k|k p bytes text k' Hp Hx _ [IHs [IHscr IHd IHk IHc]]|
    k p s k1 text k' Hp Hs Hc _ [IHs [IHscr IHd IHk IHc]]|k c r k1 text k' Hb Hc _ [IHs [IHscr IHd IHk IHc]]].
  - by split.
  - split; [|by split]. eapply rtc_l; [|exact IHs]. by apply step_store.
  - pose proof (write_prints k p s k1 Hs Hc) as ->.
    split; [eapply rtc_l; [by eapply write_step|exact IHs]|].
    split; [by rewrite IHscr, print_app|exact IHd|exact IHk|exact IHc].
  - pose proof (putchar_step k _ r k1 Hr2 Hc) as Hst. rewrite entry_putchar in Hc by done.
    injection Hc as _ <-. split; [by eapply rtc_l|]. split; [by rewrite IHscr|exact IHd|exact IHk|exact IHc].
Qed.

(** One way to print: a character at a time. *)
Definition print_chars k (text : list Z) : kernel :=
  with_screen k (Vga.vga_print after_font (screen k) text).

Lemma prints_chars k text : Forall is_byte text → prints k text (print_chars k text).
Proof.
  intros Hb. revert k. induction Hb as [|c text Hc _ IH]; intros k.
  { unfold print_chars. cbn. destruct k. constructor. }
  eapply prints_char; [done|by apply entry_putchar|]. exact (IH _).
Qed.

(** ** Opening *)

Lemma lisp_opens k args f n content :
  space (pages k) (cr3 k) → Forall (λ c, c ≠ 0) f → f ≠ [] →
  string_in (user_view (pages k) (cr3 k)) args f → 0 < args →
  args + Z.of_nat (length f) < USER_LIMIT →
  mapped (pages k) (cr3 k) pool_at n → 0 ≤ pool_at → pool_at + n < USER_LIMIT →
  fat16_get_file_size v (disk k) f = Z.of_nat (length content) →
  fat16_read_file v (disk k) f = (s32 (Z.of_nat (length content)), content) →
  0 < Z.of_nat (length content) < n → n ≤ Lisp.MEMORY_POOL_SIZE →
  lisp_open k args =
    (store k pool_at content, f, Z.of_nat (length content), (Z.of_nat (length content), content)).
Proof.
  intros Sp Hz Hne Ha Ha0 Hal Hm Hq Hql Hsize Hread Hl Hn. unfold Lisp.MEMORY_POOL_SIZE in Hn.
  destruct f as [|c f]; [done|]. set (name := c :: f) in *.
  assert (load_byte (pages k) (cr3 k) args = c) as Hc.
  { apply view_byte. specialize (Ha 0%nat c eq_refl). by rewrite Z.add_0_r in Ha. }
  assert (user_str (pages k) (cr3 k) args = inr name) as Hus by (apply user_string_found; (done || lia)).
  unfold lisp_open. rewrite Hc, (proj2 (Z.eqb_neq args 0)), (proj2 (Z.eqb_neq c 0)) by
    (lia || by apply Forall_cons_1 in Hz as []). cbn [negb andb]. cbv iota zeta.
  rewrite Hus, entry_size, (with_string_found k args name) by (done || lia).
  rewrite Hsize, int_of_return, u64_small by lia. cbn zeta.
  assert (∀ x, 0 ≤ x < 2 ^ 31 → s32 x = x) as Hs by (intros; by apply signed_small).
  rewrite !Hs by (rewrite ?Hs; lia). rewrite (proj2 (Z.eqb_neq _ 0)) by lia.
  rewrite (proj2 (Z.leb_le _ _)) by (unfold Lisp.MEMORY_POOL_SIZE; lia). cbn [negb andb].
  rewrite (read_call after_font v r0 k args name pool_at n content) by (done || lia).
  rewrite !Hs by lia. do 2 f_equal. unfold store. cbn [pages cr3 with_pages].
  apply user_bytes_found, store_inside; [done| |].
  - eapply mapped_prefix; [|exact Hm]. lia.
  - by apply file_bytes in Hread.
Qed.
End Program.

(** ** From the command to the screen *)

(** The file of the program: it loads the pool, which is a static array. *)
Definition lisp_image (pool_at : Z) (img : list Z) : Prop := loads_range img pool_at Lisp.MEMORY_POOL_SIZE.

Section Whole.
Context {St : Type} `{PageAllocatorLaws St} {D : Type} `{DiskLaws D} {P : Type} `{Ports P}.
Context (after_font : Z → Z) (v : vol) (kstack NAME default_at pool_at : Z) (r0 : regs) (Hr0 : regs_ok r0).
Context (ef : nat) (user_program : usermode → @kernel St D → @kernel St D).
Implicit Types (w : @system St D P).

(** The file [f] holds the text of the forms [ps], and [text] is what evaluating
    them in order, from no definitions, and printing the last value prints. *)
Record script w (f : list Z) (M : file_map) (ps : list Lisp.ptr) (text : list Z) : Prop := {
  sc_name : name_bytes f ∧ f ≠ [];
  sc_volume : volume v (disk (core w)) M;
  sc_file : M !! format_fat_name f = Some (LispProofs.script_of ps);
  sc_size : 0 < Z.of_nat (length (LispProofs.script_of ps)) < Lisp.MEMORY_POOL_SIZE;
  sc_forms : Forall LispParse.expr ps ∧ Forall (λ p, LispProofs.wf_code p = true) ps;
  sc_text : Forall is_byte text;
  sc_meaning : ∃ s, Lisp.out s = text ∧
    LispProofs.meaning ef ps
      (Lisp.mk_st (Z.of_nat (length (LispProofs.script_of ps)) + 1) []
         (str "Executando Script LISP..." ++ [10]) (LispProofs.script_of ps)) = Lisp.Exit s;
}.

Lemma entered_screen w (a : St) regs :
  screen (entered after_font w a regs) = Vga.vga_print after_font (screen (core w)) entering.
Proof. reflexivity. Qed.
Lemma entered_disk w (a : St) regs : disk (entered after_font w a regs) = disk (core w).
Proof. reflexivity. Qed.
Lemma entered_keys w (a : St) regs :
  keyboard (entered after_font w a regs) = keyboard (core w) ∧
  scancodes (entered after_font w a regs) = scancodes (core w).
Proof. split; reflexivity. Qed.

(** The kernel of [w] after the text: nothing but the screen is different. *)
Record shows w (text : list Z) (k : @kernel St D) : Prop := {
  sh_screen : screen k = Vga.vga_print after_font (Vga.vga_print after_font (screen (core w)) entering) text;
  sh_disk : disk k = disk (core w);
  sh_keyboard : keyboard k = keyboard (core w);
  sh_scancodes : scancodes k = scancodes (core w);
}.

Lemma shows_exit w text k k' : do_exit k = Exit k' → shows w text k → shows w text k'.
Proof. intros (Hs & Hd & Hk & Hc)%exit_devices []. split; etransitivity; eassumption. Qed.

Lemma printed_shows w a regs text k : printed after_font (entered after_font w a regs) text k → shows w text k.
Proof.
  intros [Hs Hd Hk Hc]. destruct (entered_keys w a regs) as [Hek Hec].
  rewrite entered_screen in Hs. rewrite entered_disk in Hd. rewrite Hek in Hk. rewrite Hec in Hc. by split.
Qed.

Lemma meaning_defined ps s0 s :
  LispProofs.meaning ef ps s0 = Lisp.Exit s → LispProofs.run_list ef ps Lisp.NULL s0 ≠ Lisp.Undefined.
Proof. unfold LispProofs.meaning, mbind, Lisp.M_bind. by destruct (LispProofs.run_list _ _ _ _). Qed.

(** The program from its entry to its exit. *)
Lemma lisp_started w img f M ps text a map entry :
  lisp_image pool_at img → script w f M ps text →
  process_ready (pages (core w)) a (kernel_pml4 (core w)) map img (Some f) →
  let regs := mk_usermode map entry (stack_pointer (Some f)) (stack_pointer (Some f)) (u64 (kstack + 4096)) in
  let k := entered after_font w a regs in
  behaves after_font v default_at pool_at r0 ef k (um_args regs) (user_program regs k) →
  ∃ k1, rtc (pstep after_font v) k k1 ∧ do_exit k1 = Exit (user_program regs k) ∧ printed after_font k text k1.
Proof.
  intros Himg [[Hf Hne] [_ Hh] Hfile Hsize [Hps Hcode] Hb (s & <- & Hmean)] R regs k Hbeh.
  destruct (Hh f (proj1 Hf)) as [Hread Hfs]. rewrite Hfile in Hread, Hfs. cbn [default] in Hread, Hfs.
  set (content := LispProofs.script_of ps) in *. pose proof Hf as (Hfb & Hz & Hlen).
  pose proof (ready_mapped _ _ _ _ _ _ _ _ R Himg) as Hm. destruct Himg as (Hp0 & Hpl & _).
  assert (lisp_open after_font v default_at pool_at r0 k (stack_pointer (Some f)) =
    (store k pool_at content, f, Z.of_nat (length content), (Z.of_nat (length content), content))) as Hopen.
  { assert (USER_STACK < stack_pointer (Some f) ∧ stack_pointer (Some f) + Z.of_nat (length f) < USER_LIMIT) as [].
    { unfold stack_pointer, stack_bytes, USER_STACK, USER_LIMIT. rewrite length_app. cbn [length]. lia. }
    apply (lisp_opens after_font v default_at pool_at r0 k _ f Lisp.MEMORY_POOL_SIZE content); try done.
    - apply R.
    - by apply (ready_args _ _ _ _ _ _ R).
    - unfold USER_STACK in *. lia.
    - unfold USER_LIMIT, USER_STACK in *. lia. }
  assert (lisp_main after_font v default_at pool_at r0 ef k (um_args regs) =
    (store k pool_at content, Lisp.Exit s)) as Hmain.
  { unfold lisp_main. cbn [um_args regs]. rewrite Hopen. f_equal. unfold lisp_boot.
    rewrite (LispProofs.script_correct ef f _ _ ps); [exact Hmean|by destruct f..|done|done|done|].
    by apply meaning_defined in Hmean. }
  destruct (Hbeh _ _ Hmain Hb) as (k2 & Hprints & Hexit). exists k2.
  destruct (prints_printed after_font v r0 _ _ _ Hr0 Hprints) as [Hst [Hscr Hd Hk Hc]].
  rewrite store_screen in Hscr. rewrite store_disk in Hd.
  destruct (store_keys k pool_at content) as [Hsk Hsc]. rewrite Hsk in Hk. rewrite Hsc in Hc.
  assert (rtc (pstep after_font v) k k2) as Hrun.
  { eapply rtc_l; [|exact Hst]. apply store_step; [apply R|lia|].
    eapply mapped_prefix; [|exact Hm]. lia. }
  split; [exact Hrun|split; [exact Hexit|]]. split; [exact Hscr|exact Hd|exact Hk|exact Hc].
Qed.

(** The interpreter from the command line; only at the entry point of its file need
    the program behave as lisp.c. *)
Lemma lisp_execs w name img f M ps text :
  system_ok w → program_file (drive_a v w name) (drive_c NAME w name) (pages (core w)) img →
  startable img (Some f) (pages (core w)) → lisp_image pool_at img → script w f M ps text →
  (∀ regs k, um_entry regs = e_entry (image img) 0 →
     behaves after_font v default_at pool_at r0 ef k (um_args regs) (user_program regs k)) →
  let w' := exec after_font v kstack NAME user_program w name (Some f) in
  steady w w' ∧ shows w text (core w').
Proof.
  intros Hw Hfile Hst Himg Hscript Hbeh w'.
  destruct (exec_runs after_font v kstack NAME user_program (shows w text) w name (Some f) img Hw Hfile Hst)
    as [Hsteady (k1 & Hexit & Hs)].
  - intros map a R.
    destruct (lisp_started w img f M ps text a map (e_entry (image img) 0) Himg Hscript R)
      as (k1 & Hsteps & Hexit & Hp); [by apply Hbeh|].
    exists k1. split; [exact Hsteps|split; [exact Hexit|]]. by eapply printed_shows.
  - split; [exact Hsteady|]. by eapply shows_exit.
Qed.

(** C8. The interpreter, run from a command line on a file with the text of
    well-formed forms, by any program that prints and exits as lisp.c does, with
    enough frames free: the machine and its disk are afterwards as before, and what
    has been printed is the loader's note and then what the forms mean, evaluated in
    order, each with the definitions the ones before it left. *)
Theorem lisp_printed w name img f M ps text :
  system_ok w → program_file (drive_a v w name) (drive_c NAME w name) (pages (core w)) img →
  startable img (Some f) (pages (core w)) → lisp_image pool_at img → script w f M ps text →
  (∀ regs k, behaves after_font v default_at pool_at r0 ef k (um_args regs) (user_program regs k)) →
  let w' := exec after_font v kstack NAME user_program w name (Some f) in
  steady w w' ∧ shows w text (core w').
Proof.
  intros Hw Hfile Hst Himg Hscript Hbeh w'.
  apply (lisp_execs w name img f M ps text Hw Hfile Hst Himg Hscript). intros regs k _. apply Hbeh.
Qed.
End Whole.
