(* ===== verification/LispDemo.v ===== *)
(** The interpreter on the machine of EditorDemo.v: its disk holds a program file
    that loads the pool, and a script that defines the square and applies it to
    7. The program prints a character at a time. *)

From S2P Require Import Pmm Machine Loader LoaderDemo Block Fat16 Fat16Proofs Fat16Demo Keyboard.
From S2P Require Import System SystemDemo Files FilesDemo UserProg EditorDemo LispRun.
From S2P Require Vga TarFs Acpi Lisp LispProofs.
Open Scope Z_scope.

(** The segment of EditorDemo.v has room for the pool at 0x401000. *)
Definition lisp_elf : list Z := editor_elf.

Lemma lisp_image_ok : lisp_image 4198400 lisp_elf.
Proof. exact (EditorRun.ei_pool _ _ editor_image_ok). Qed.

(** The disk: the program, then the script. *)
Definition program_put : event := Put (str "lisp") lisp_elf (Z.of_nat (length lisp_elf)).
Definition script_put : event := Put (str "s") LispProofs.demo_script (Z.of_nat (length LispProofs.demo_script)).

Definition lisp_disk1 : gmap_disk :=
  (fat16_write_file demo_vol demo_empty (str "lisp") lisp_elf (Z.of_nat (length lisp_elf))).2.
Definition lisp_disk : gmap_disk :=
  (fat16_write_file demo_vol lisp_disk1 (str "s") LispProofs.demo_script
     (Z.of_nat (length LispProofs.demo_script))).2.

Lemma lisp_stored :
  (fat16_write_file demo_vol demo_empty (str "lisp") lisp_elf (Z.of_nat (length lisp_elf))).1 =
    Z.of_nat (length lisp_elf) ∧
  (fat16_write_file demo_vol lisp_disk1 (str "s") LispProofs.demo_script
     (Z.of_nat (length LispProofs.demo_script))).1 = Z.of_nat (length LispProofs.demo_script).
Proof. vm_compute. by split. Qed.

Lemma program_volume : volume demo_vol lisp_disk1 (effects ∅ [program_put]).
Proof.
  apply (happens_volume demo_vol demo_empty program_put lisp_disk1 ∅ demo_no_files).
  - split; [apply bytes_of; vm_compute; reflexivity|]. split; [by repeat constructor|].
    split; [apply bytes_of; vm_compute; reflexivity|]. exact (Fat16Demo.pair_eq _ _ (proj1 lisp_stored)).
  - split; [discriminate|]. split; [vm_compute; split; reflexivity|discriminate].
Qed.

Lemma lisp_volume : volume demo_vol lisp_disk (effects ∅ [program_put; script_put]).
Proof.
  apply (happens_volume demo_vol lisp_disk1 script_put lisp_disk _ program_volume).
  - split; [apply bytes_of; vm_compute; reflexivity|]. split; [by repeat constructor|].
    split; [apply bytes_of; vm_compute; reflexivity|]. exact (Fat16Demo.pair_eq _ _ (proj2 lisp_stored)).
  - split; [discriminate|]. split; [vm_compute; split; reflexivity|discriminate].
Qed.

Lemma lisp_on_disk : fat_file demo_vol lisp_disk (str "lisp") = file_answer lisp_elf.
Proof. vm_compute. reflexivity. Qed.

Definition lisp_machine : @system pmm gmap_disk bench :=
  mk_system (mk_kernel huge 4096 (BASE + 4096) no_screen kbd_boot [] lisp_disk)
    TarFs.tarfs_boot Acpi.acpi_boot (mk_bench [] []).

Lemma lisp_machine_ok : system_ok lisp_machine.
Proof. split; [exact huge_wf|exact huge_kernel|reflexivity]. Qed.

(** What the script prints. *)
Definition lisp_text : list Z := str "Executando Script LISP..." ++ [10] ++ str "Resultado: 49" ++ [10].

Lemma demo_is_script :
  script demo_vol 20 lisp_machine (str "s") (effects ∅ [program_put; script_put])
    [LispProofs.demo_defun; LispProofs.demo_call] lisp_text.
Proof.
  split.
  - split; [|discriminate]. split; [apply bytes_of; reflexivity|]. split; [by repeat constructor|cbn; lia].
  - exact lisp_volume.
  - reflexivity.
  - vm_compute. split; reflexivity.
  - split; [exact (Forall_take _ 2%nat _ LispProofs.demo_exprs)|]. repeat constructor; vm_compute; reflexivity.
  - apply bytes_of. vm_compute. reflexivity.
  - eexists. split; [|vm_compute; reflexivity]. vm_compute. reflexivity.
Qed.

(** A program that behaves as lisp.c does. *)
Definition lisp_by_chars (regs : usermode) (k : @kernel pmm gmap_disk) : kernel :=
  match lisp_main (λ _, 0) demo_vol 0 4198400 (mk_regs 0 0 0 0) 20 k (um_args regs) with
  | (k1, Lisp.Exit s) =>
      match do_exit (print_chars (λ _, 0) k1 (Lisp.out s)) with Exit k' => k' | _ => k end
  | _ => k
  end.

Lemma lisp_by_chars_behaves regs k :
  behaves (λ _, 0) demo_vol 0 4198400 (mk_regs 0 0 0 0) 20 k (um_args regs) (lisp_by_chars regs k).
Proof.
  intros k1 s Hmain Hb. exists (print_chars (λ _, 0) k1 (Lisp.out s)).
  split; [by apply prints_chars|]. unfold lisp_by_chars. by rewrite Hmain.
Qed.

Lemma lisp_printed_witness :
  let w' := exec (λ _, 0) demo_vol 0 0 lisp_by_chars lisp_machine (str "lisp") (Some (str "s")) in
  steady lisp_machine w' ∧ shows (λ _, 0) lisp_machine lisp_text (core w').
Proof.
  apply (lisp_printed (λ _, 0) demo_vol 0 0 0 4198400 (mk_regs 0 0 0 0)
    (conj (conj (Z.le_refl 0) eq_refl) (conj (Z.le_refl 0) eq_refl)) 20 lisp_by_chars
    lisp_machine (str "lisp") lisp_elf (str "s") (effects ∅ [program_put; script_put])
    [LispProofs.demo_defun; LispProofs.demo_call] lisp_text lisp_machine_ok).
  - left. exact lisp_on_disk.
  - apply editor_startable. cbn. lia.
  - exact lisp_image_ok.
  - exact demo_is_script.
  - exact lisp_by_chars_behaves.
Defined.
