(* ===== verification/Console.v ===== *)
(** The command loop at the keyboard: kernel/main.c over hal/keyboard.c.

    Shell.v takes the keys of a line as a list; here they come from
    [keyboard_getchar], out of the ring that the interrupts of Keyboard.v fill and
    that the programs the loop starts read too. [console_turn] is one turn of the
    loop of [_start]. A turn reads exactly the characters up to the Enter, does
    with them what Shell.v says, and leaves the characters after it to the
    program it starts or to the next turn. *)

From S2P Require Export UserProg System.
From S2P Require Import Io Block Fat16 Keyboard.
From S2P Require Vga Shell.
Open Scope Z_scope.

Section Console.
Context {St : Type} `{PageAllocatorLaws St} {D : Type} `{DiskLaws D} {P : Type} `{Ports P}.
Context (after_font : Z → Z) (v : vol) (kstack NAME : Z).
Context (user_program : usermode → @kernel St D → @kernel St D).
Implicit Types (w : @system St D P).

Local Abbreviation services := (system_services after_font v kstack NAME user_program).
Local Abbreviation putchar := (Shell.vga_putchar (Services := services)).

(** The state of the keyboard's driver and the scancodes still to come. *)
Definition with_keys w (kb : kbd) (irqs : list Z) : system :=
  let k := core w in
  with_core w (mk_kernel (pages k) (cr3 k) (kernel_pml4 k) (screen k) kb irqs (disk k)).

(** [char c = keyboard_getchar();] as a byte; [None]: it waits for ever. *)
Definition next_key w : option (Z * system) :=
  match keyboard_getchar (keyboard (core w)) (scancodes (core w)) with
  | Some (c, irqs, kb) => Some (u8 c, with_keys w kb irqs)
  | None => None
  end.

(** The loop that reads a line; [n] bounds the characters. *)
Fixpoint read_line (n : nat) w (command : list Z) : system * option (list Z) :=
  match n with
  | O => (w, None)
  | S n =>
      match next_key w with
      | None => (w, None)
      | Some (c, w) =>
          if c =? 10 then (putchar w 10, Some command)
          else if c =? 8 then
            if 0 <? Z.of_nat (length command) then read_line n (putchar w 8) (removelast command)
            else read_line n w command
          else
            read_line n (putchar w c)
              (if Z.of_nat (length command) <? Shell.COMMAND_MAX then command ++ [c] else command)
      end
  end.

(** One turn of the loop. *)
Definition console_turn (fuel : positive) w : Shell.turn system :=
  let w := Shell.vga_print (Services := services) w (str "C:\> ") in
  match read_line (key_fuel (core w)) w [] with
  | (w, None) => Shell.Waiting w
  | (w, Some []) => Shell.Next w []
  | (w, Some command) =>
      match Shell.split_command command with
      | Some (cmd_name, args) => Shell.run_command (H := services) fuel w [] cmd_name args
      | None => Shell.Overflow
      end
  end.

(** ** Reading a line *)

Lemma next_key_some w c cs :
  keystrokes (core w) (c :: cs) →
  ∃ kb irqs, next_key w = Some (c, with_keys w kb irqs) ∧ keystrokes (core (with_keys w kb irqs)) cs.
Proof.
  intros Hk. destruct (keystrokes_next _ c cs Hk) as (c0 & irqs & kb & Hg & <- & Hrest).
  exists kb, irqs. unfold next_key. rewrite Hg. split; [done|]. by apply Hrest.
Qed.

Lemma read_line_typed n w keys rest cmd :
  keystrokes (core w) (keys ++ 10 :: rest) → Forall (λ c, c ≠ 10) keys → (length keys < n)%nat →
  ∃ kb irqs, keystrokes (core (with_keys w kb irqs)) rest ∧
    read_line n w cmd =
      (putchar (Shell.echo (H := services) (with_keys w kb irqs) keys cmd) 10,
       Some (fold_left Shell.type_key keys cmd)).
Proof.
  intros Hk Hl. revert n w cmd Hk. induction Hl as [|c keys Hc _ IH]; intros [|n] w cmd Hk Hn; cbn [length] in Hn; try lia.
  - destruct (next_key_some w 10 rest Hk) as (kb & irqs & Hnext & Hrest).
    exists kb, irqs. split; [done|]. cbn [read_line]. by rewrite Hnext.
  - destruct (next_key_some w c (keys ++ 10 :: rest) Hk) as (kb & irqs & Hnext & Hrest).
    cbn [read_line fold_left Shell.echo]. rewrite Hnext. destruct (Z.eqb_spec c 10); [done|]. clear Hnext.
    set (w1 := with_keys w kb irqs) in *.
    assert (Shell.type_key cmd c = if c =? 8 then removelast cmd
      else if Z.of_nat (length cmd) <? Shell.COMMAND_MAX then cmd ++ [c] else cmd) as -> by done.
    destruct (Z.eqb_spec c 8) as [-> |]; cbn [andb].
    + destruct cmd as [|d cmd].
      * destruct (IH n w1 [] Hrest ltac:(lia)) as (kb' & irqs' & Hrest' & Hread).
        exists kb', irqs'. split; [done|]. cbn [length]. change (0 <? Z.of_nat 0) with false. cbv iota.
        rewrite bool_decide_true by done. exact Hread.
      * destruct (IH n (putchar w1 8) (removelast (d :: cmd)) Hrest ltac:(lia)) as (kb' & irqs' & Hrest' & Hread).
        exists kb', irqs'. split; [done|]. rewrite bool_decide_false by done.
        destruct (Z.ltb_spec 0 (Z.of_nat (length (d :: cmd)))); [exact Hread|cbn [length] in *; lia].
    + destruct (IH n (putchar w1 c)
        (if Z.of_nat (length cmd) <? Shell.COMMAND_MAX then cmd ++ [c] else cmd) Hrest ltac:(lia))
        as (kb' & irqs' & Hrest' & Hread).
      exists kb', irqs'. split; [done|exact Hread].
Qed.
(** Without an Enter the line is not finished, and the loop goes on waiting. *)
Lemma read_line_waits n w keys cmd :
  keystrokes (core w) keys → Forall (λ c, c ≠ 10) keys → (length keys < n)%nat →
  ∃ w', read_line n w cmd = (w', None) ∧ keystrokes (core w') [] ∧ same_machine w w'.
Proof.
  intros Hk Hl. revert n w cmd Hk. induction Hl as [|c keys Hc _ IH]; intros [|n] w cmd Hk Hn; cbn [length] in Hn; try lia.
  - exists w. cbn [read_line]. unfold next_key. by rewrite keystrokes_none.
  - destruct (next_key_some w c keys Hk) as (kb & irqs & Hnext & Hrest).
    cbn [read_line]. rewrite Hnext. destruct (Z.eqb_spec c 10); [done|].
    assert (∀ w1 cmd', keystrokes (core w1) keys → same_machine w w1 →
      ∃ w', read_line n w1 cmd' = (w', None) ∧ keystrokes (core w') [] ∧ same_machine w w') as Hgo.
    { intros w1 cmd' Hk1 Hs1. destruct (IH n w1 cmd' Hk1 ltac:(lia)) as (w' & Hr & Hw' & Hs').
      exists w'. split; [done|]. split; [done|]. by eapply same_machine_trans. }
    destruct (c =? 8); [destruct (0 <? _)|]; by apply Hgo.
Qed.

(** ** A turn *)

(** The machine of [w] at the command: the line is on the screen and taken from the
    keyboard. *)
Definition line_read w (keys : list Z) w1 : Prop :=
  ∃ kb irqs, w1 = Shell.shown_line (H := services) (with_keys w kb irqs) keys.

Lemma line_read_same w keys w1 : line_read w keys w1 → same_machine w w1.
Proof.
  intros (kb & irqs & ->). unfold Shell.shown_line.
  assert (∀ keys cmd w', same_machine w' (Shell.echo (H := services) w' keys cmd)) as Hecho.
  { clear. induction keys as [|c keys IH]; intros cmd w'; [done|]. cbn [Shell.echo].
    destruct (_ && _); [apply IH|]. eapply same_machine_trans; [|apply IH]. done. }
  eapply (same_machine_trans _ (Shell.vga_print (Services := services) (with_keys w kb irqs) (str "C:\> "))); [done|].
  eapply same_machine_trans; [apply Hecho|]. done.
Qed.

Lemma putchar_keys w c cs : keystrokes (core w) cs → keystrokes (core (putchar w c)) cs.
Proof. by apply keystrokes_same. Qed.

Lemma print_keys w s cs : keystrokes (core w) cs → keystrokes (core (print after_font w s)) cs.
Proof. by apply keystrokes_same. Qed.

Lemma echo_keys w keys cmd cs :
  keystrokes (core w) cs → keystrokes (core (Shell.echo (H := services) w keys cmd)) cs.
Proof.
  revert w cmd. induction keys as [|c keys IH]; intros w cmd Hw; [done|]. cbn [Shell.echo].
  apply IH. destruct (_ && _); [done|by apply putchar_keys].
Qed.

Lemma shown_keys w keys cs :
  keystrokes (core w) cs → keystrokes (core (Shell.shown_line (H := services) w keys)) cs.
Proof. intros Hw. by apply putchar_keys, echo_keys, print_keys. Qed.

Lemma console_line_typed fuel w keys rest :
  keystrokes (core w) (keys ++ 10 :: rest) → Forall (λ c, c ≠ 10) keys →
  ∃ kb irqs, keystrokes (core (with_keys w kb irqs)) rest ∧
    console_turn fuel w =
      let w1 := Shell.shown_line (H := services) (with_keys w kb irqs) keys in
      match Shell.typed keys with
      | [] => Shell.Next w1 []
      | line =>
          match Shell.split_command line with
          | Some (cmd_name, args) => Shell.run_command (H := services) fuel w1 [] cmd_name args
          | None => Shell.Overflow
          end
      end.
Proof.
  intros Hk Hl. unfold console_turn. set (w0 := Shell.vga_print w _).
  assert (keystrokes (core w0) (keys ++ 10 :: rest)) as Hk0 by by apply print_keys.
  pose proof (keystrokes_fuel _ _ Hk0) as Hf. rewrite length_app in Hf. cbn [length] in Hf.
  destruct (read_line_typed (key_fuel (core w0)) w0 keys rest [] Hk0 Hl ltac:(lia)) as (kb & irqs & Hrest & Hread).
  exists kb, irqs. split.
  - by apply (keystrokes_same (core (with_keys w0 kb irqs))).
  - rewrite Hread. unfold Shell.typed. by destruct (fold_left Shell.type_key keys []).
Qed.

Lemma console_typed fuel w keys rest :
  keystrokes (core w) (keys ++ 10 :: rest) → Forall (λ c, c ≠ 10) keys →
  ∃ w1, line_read w keys w1 ∧ keystrokes (core w1) rest ∧
    console_turn fuel w =
      match Shell.typed keys with
      | [] => Shell.Next w1 []
      | line =>
          match Shell.split_command line with
          | Some (cmd_name, args) => Shell.run_command (H := services) fuel w1 [] cmd_name args
          | None => Shell.Overflow
          end
      end.
Proof.
  intros Hk Hl. destruct (console_line_typed fuel w keys rest Hk Hl) as (kb & irqs & Hrest & Ht).
  exists (Shell.shown_line (H := services) (with_keys w kb irqs) keys).
  split; [by exists kb, irqs|]. split; [by apply shown_keys|exact Ht].
Qed.

(** Such a turn is a turn of Shell.v on the line alone, so what System.v, Faults.v
    and Files.v show of sessions holds of what is typed at the keyboard. *)
Lemma console_shell fuel w keys rest :
  keystrokes (core w) (keys ++ 10 :: rest) → Forall (λ c, c ≠ 10) keys →
  ∃ kb irqs, keystrokes (core (with_keys w kb irqs)) rest ∧
    console_turn fuel w = Shell.shell_turn (H := services) fuel (with_keys w kb irqs) (keys ++ [10]).
Proof.
  intros Hk Hl. destruct (console_line_typed fuel w keys rest Hk Hl) as (kb & irqs & Hrest & ->).
  exists kb, irqs. split; [done|]. rewrite Shell.shell_turn_typed by done.
  destruct (Shell.typed keys) as [|c l]; [done|]. rewrite Shell.split_words.
  destruct (Shell.words (c :: l)) as [name args]. by destruct (_ <? Shell.ARGS_SIZE).
Qed.

(** C3. A turn of the command loop. Whatever characters wait in the ring, and
    whichever scancodes are still to come: when the characters
    they type begin with a line and Enter, the loop shows the line and
    runs the command whose name is the text typed before the first blank, cut to
    31 characters, with the text after that blank, of less than 224 characters (the
    size of [args], which main.c:134 does not check), as arguments, where backspaces
    have taken effect and at most 255 characters count; an empty line
    does nothing; and the characters after the Enter wait for whoever reads next.
    Without an Enter, the loop takes what there is and goes on waiting. (A scancode
    that arrives earlier, with room in the ring, changes none of this:
    [keystrokes_irq].) *)
Theorem console_line fuel w keys :
  Forall (λ c, c ≠ 10) keys →
  (keystrokes (core w) keys → ∃ w', console_turn fuel w = Shell.Waiting w' ∧ keystrokes (core w') [] ∧ same_machine w w') ∧
  ∀ rest, keystrokes (core w) (keys ++ 10 :: rest) →
    Z.of_nat (length (Shell.words (Shell.typed keys)).2) < Shell.ARGS_SIZE →
    ∃ w1, same_machine w w1 ∧ keystrokes (core w1) rest ∧ line_read w keys w1 ∧
      console_turn fuel w =
        if bool_decide (Shell.typed keys = []) then Shell.Next w1 []
        else Shell.run_command (H := services) fuel w1 [] (take 31 (Shell.words (Shell.typed keys)).1)
               (Shell.words (Shell.typed keys)).2.
Proof.
  intros Hl. split.
  - intros Hk. unfold console_turn. set (w0 := Shell.vga_print w _).
    assert (keystrokes (core w0) keys) as Hk0 by by apply print_keys.
    destruct (read_line_waits (key_fuel (core w0)) w0 keys [] Hk0 Hl (keystrokes_fuel _ _ Hk0))
      as (w' & Hr & Hw' & Hs). exists w'. rewrite Hr.
    split; [done|]. split; [done|]. apply (same_machine_trans _ w0); [done|exact Hs].
  - intros rest Hk Hargs. destruct (console_typed fuel w keys rest Hk Hl) as (w1 & Hr & Hk1 & ->).
    exists w1. split; [by eapply line_read_same|]. split; [done|]. split; [done|].
    destruct (Shell.typed keys) as [|c l]; [by rewrite bool_decide_true|].
    rewrite bool_decide_false, Shell.split_words by done.
    destruct (Shell.words (c :: l)) as [name args]. cbn [fst snd] in *.
    by destruct (Z.ltb_spec (Z.of_nat (length args)) Shell.ARGS_SIZE); [|lia].
Qed.
End Console.
