(* ===== verification/Typed.v ===== *)
(** A program typed at the keyboard: everything together.

    The user types a line that starts the editor on a new file, the text, the keys
    that save it, and a line that starts the interpreter on the file. The
    scancodes go through the ring of keyboard.c to the command loop of main.c and
    to the editor; both programs come from the archive on drive C (tarfs.c) through
    the loader (process.c); the text goes through the system calls (syscall.c) to
    the disk (fat16.c) and back to the interpreter, whose answer goes to the screen
    (vga.c). *)

From S2P Require Export Console Initrd EditorRun LispRun.
From S2P Require Import Io Block Fat16 Fat16Proofs Keyboard Editor.
From S2P Require Vga Shell TarFs LispProofs.
Open Scope Z_scope.

Definition editor_elf_name : list Z := str "bin/editor.elf".
Definition lisp_elf_name : list Z := str "bin/lisp.elf".

(** ** Command lines *)

Lemma typed_plain l : Forall (λ c, c ≠ 8) l → (length l ≤ 255)%nat → Shell.typed l = l.
Proof.
  unfold Shell.typed. intros Hl Hn. change l with ([] ++ l) at 2. change (length l) with (length (@nil Z) + length l)%nat in Hn.
  revert Hn. generalize (@nil Z). induction Hl as [|c l Hc _ IH]; intros t Hn; cbn [fold_left length] in *.
  { by rewrite app_nil_r. }
  unfold Shell.type_key at 2. rewrite (proj2 (Z.eqb_neq c 8)) by done.
  rewrite (proj2 (Z.ltb_lt _ _)) by (unfold Shell.COMMAND_MAX; lia).
  rewrite IH by (rewrite length_app; cbn; lia). by rewrite <- app_assoc.
Qed.

(** A name that can be typed as the argument of a command. *)
Record typable (f : list Z) : Prop := {
  ty_bytes : name_bytes f;
  ty_plain : Forall (λ c, c ≠ 8 ∧ c ≠ 10) f;
  ty_first : f ≠ [] ∧ head f ≠ Some 0xE5;
}.

(** "edit f" and "lisp f". *)
Definition command_line (cmd : string) (f : list Z) : list Z := str cmd ++ 32 :: f.

Section Typed.
Context {St : Type} `{PageAllocatorLaws St} {D : Type} `{DiskLaws D} {P : Type} `{Ports P}.
Context (after_font : Z → Z) (v : vol) (kstack NAME : Z).
Context (user_program : usermode → @kernel St D → @kernel St D).
Implicit Types (w : @system St D P).

Local Abbreviation services := (system_services after_font v kstack NAME user_program).
Local Abbreviation console := (console_turn after_font v kstack NAME user_program).
Local Abbreviation run := (exec after_font v kstack NAME user_program).

(** The two commands that start a program of the archive with an argument. *)
Lemma run_edit fuel w args :
  Shell.run_command (H := services) fuel w [] (str "edit") args = Shell.Next (run w editor_elf_name (Some args)) [].
Proof. reflexivity. Qed.
Lemma run_lisp fuel w args :
  Shell.run_command (H := services) fuel w [] (str "lisp") args = Shell.Next (run w lisp_elf_name (Some args)) [].
Proof. reflexivity. Qed.

Lemma split_line (cmd : string) f :
  cmd = "edit"%string ∨ cmd = "lisp"%string → (length f ≤ 31)%nat →
  Shell.split_command (command_line cmd f) = Some (str cmd, f).
Proof.
  intros Hc Hf. unfold command_line. rewrite Shell.split_args.
  - rewrite (proj2 (Z.ltb_lt _ _)) by (unfold Shell.ARGS_SIZE; lia). by destruct Hc as [-> | ->].
  - destruct Hc as [-> | ->]; repeat (constructor; [discriminate|]); constructor.
Qed.

(** Such a line, typed at the keyboard, runs the command on the name. *)
Lemma console_command fuel w (cmd : string) f rest :
  cmd = "edit"%string ∨ cmd = "lisp"%string → typable f →
  keystrokes (core w) (command_line cmd f ++ 10 :: rest) →
  ∃ w1, same_machine w w1 ∧ keystrokes (core w1) rest ∧
    line_read after_font v kstack NAME user_program w (command_line cmd f) w1 ∧
    console fuel w = Shell.run_command (H := services) fuel w1 [] (str cmd) f.
Proof.
  intros Hc [(_ & _ & Hlen) Hf _] Hk.
  assert (Forall (λ c, c ≠ 8 ∧ c ≠ 10) (command_line cmd f)) as Hline.
  { unfold command_line. apply Forall_app. split; [|by constructor].
    destruct Hc as [-> | ->]; repeat (constructor; [split; discriminate|]); constructor. }
  destruct (console_typed after_font v kstack NAME user_program fuel w (command_line cmd f) rest Hk)
    as (w1 & Hr & Hk1 & Ht); [eapply Forall_impl; [|exact Hline]; by intros c []|].
  exists w1. split; [by eapply line_read_same|]. split; [done|]. split; [done|]. rewrite Ht, typed_plain.
  - pose proof (split_line cmd f Hc Hlen) as Hs.
    destruct (command_line cmd f) eqn:E; [by destruct Hc as [-> | ->]|]. by rewrite Hs.
  - eapply Forall_impl; [|exact Hline]; by intros c [].
  - unfold command_line. rewrite length_app. cbn [length]. assert (length (str cmd) = 4%nat) by by destruct Hc as [-> | ->].
    lia.
Qed.
End Typed.

(** ** The two programs of the archive *)

Section Session.
Context {St : Type} `{PageAllocatorLaws St} {D : Type} `{DiskLaws D} {P : Type} `{Ports P}.
Context (after_font : Z → Z) (v : vol) (kstack NAME : Z).
Context (user_program : usermode → @kernel St D → @kernel St D).
Context (L : editor_layout) (default_at pool_at : Z) (r0 : regs) (ef : nat).
Context (Hr0 : regs_ok r0) (HL : layout_ok L).
(** The archive and the members with the programs. *)
Context (es : list TarFs.member) (ed li : TarFs.member).
Context (Hed : TarFs.find_member es editor_elf_name = Some ed) (Hed_image : editor_image L (TarFs.data ed)).
Context (Hli : TarFs.find_member es lisp_elf_name = Some li) (Hli_image : lisp_image pool_at (TarFs.data li)).
Implicit Types (w : @system St D P).

(** What runs from the entry point of each. *)
Context (Hed_program : ∀ regs k, um_entry regs = e_entry (image (TarFs.data ed)) 0 →
  user_program regs k = editor_program after_font v L r0 regs k).
Context (Hli_program : ∀ regs k, um_entry regs = e_entry (image (TarFs.data li)) 0 →
  behaves after_font v default_at pool_at r0 ef k (um_args regs) (user_program regs k)).

Local Abbreviation console := (console_turn after_font v kstack NAME user_program).
Local Abbreviation line_read := (line_read after_font v kstack NAME user_program).
Local Abbreviation run := (exec after_font v kstack NAME user_program).

(** The machine between two commands: the archive is mounted, the disk holds the
    files [M], none of which hides a program, and there are frames enough for
    both programs. *)
Record ready w (M : file_map) (f : list Z) : Prop := {
  rd_ok : system_ok w;
  rd_initrd : initrd NAME w es;
  rd_volume : volume v (disk (core w)) M;
  rd_hidden : M !! format_fat_name editor_elf_name = None ∧ M !! format_fat_name lisp_elf_name = None;
  rd_editor : startable (TarFs.data ed) (Some f) (pages (core w));
  rd_lisp : startable (TarFs.data li) (Some f) (pages (core w));
}.

Lemma ready_steady w w' M M' f :
  ready w M f → steady w w' → archive w' = archive w → volume v (disk (core w')) M' →
  (M' !! format_fat_name editor_elf_name = None ∧ M' !! format_fat_name lisp_elf_name = None) →
  ready w' M' f.
Proof.
  intros [Hok Hi _ _ He Hl] Hs Ha Hv Hh. pose proof Hs as [Hwf Hfs _ _ Hp].
  split; [by apply (steady_ok w)| |done|done|by apply (startable_same _ _ _ _ Hfs)|by apply (startable_same _ _ _ _ Hfs)].
  apply (initrd_kept NAME w); [apply Hok|done..].
Qed.

Lemma ready_same w w' M f : ready w M f → same_machine w w' → ready w' M f.
Proof.
  intros Hr Hs. pose proof (same_machine_steady w w' (rd_ok _ _ _ Hr) Hs) as Hst.
  apply (ready_steady w w' M M f Hr Hst); [apply Hs| |apply Hr].
  rewrite (sm_disk _ _ Hs). apply Hr.
Qed.

Lemma ready_program w M f n e :
  ready w M f → TarFs.find_member es n = Some e → Forall is_byte n → short_name n →
  M !! format_fat_name n = None → Z.of_nat (length (TarFs.data e)) < 2 ^ 31 →
  program_file (drive_a v w n) (drive_c NAME w n) (pages (core w)) (TarFs.data e).
Proof.
  intros Hr He Hb Hn HM Hlen. apply (member_program NAME v w es n e); [apply Hr|done|done|done|].
  destruct (rd_volume _ _ _ Hr) as [_ Hh]. destruct (Hh n Hb) as [_ Hs]. unfold drive_a, fat_file. cbn [file_size].
  by rewrite Hs, HM.
Qed.

Lemma program_name n : n = editor_elf_name ∨ n = lisp_elf_name → Forall is_byte n ∧ short_name n.
Proof.
  intros Hn. assert (Forall (λ c, 0 < c < 2 ^ 8) n ∧ Z.of_nat (length n) < Shell.ARGS_SIZE) as [Hb Hl].
  { destruct Hn as [-> | ->]; (split; [|vm_compute; reflexivity]);
      apply List.Forall_forall; intros c Hc; vm_compute in Hc; lia. }
  split; [|done]. eapply Forall_impl; [|exact Hb]. intros c Hc. unfold is_byte. cbn in Hc. lia.
Qed.

(** On a disk with room the text is written. *)
Lemma write_succeeds (d : D) M f text r d' :
  volume v d M → typable f → Forall printable text → text ≠ [] → Z.of_nat (length text) < 2 ^ 31 →
  ¬ no_space v d (format_fat_name f) (length text) →
  fat16_write_file v d f text (Z.of_nat (length text)) = (r, d') → r ≠ 0.
Proof.
  intros [Hfs _] [(Hb & Hz & _) _ [_ H5]] Hp Hne Hlen Hspace Hw.
  assert (name_ok f) as Hname.
  { split; [done|]. split; [done|]. destruct f; [done|]. intros ->. by apply H5. }
  assert (Forall is_byte text) as Hbt.
  { eapply Forall_impl; [|exact Hp]. intros c. unfold printable, is_byte. lia. }
  assert (0 < Z.of_nat (length text)) as Hpos by (destruct text; [done|cbn; lia]).
  destruct (write_cases v d f text r d' Hfs Hname Hbt (conj Hpos Hlen) Hw) as [[_ ?]|(-> & _)]; [done|lia].
Qed.

(** The first command: the editor makes of the keys the file. *)
Lemma typed_edit fuel w M f text rest :
  ready w M f → typable f → M !! format_fat_name f = None →
  format_fat_name f ≠ format_fat_name editor_elf_name ∧ format_fat_name f ≠ format_fat_name lisp_elf_name →
  Forall printable text → text ≠ [] → Z.of_nat (length text) < 8192 →
  ¬ no_space v (disk (core w)) (format_fat_name f) (length text) →
  keystrokes (core w) (command_line "edit" f ++ 10 :: typing text ++ 119 :: rest) →
  ∃ w', console fuel w = Shell.Next w' [] ∧ steady w w' ∧ ready w' (<[format_fat_name f := text]> M) f ∧
    keystrokes (core w') rest.
Proof.
  intros Hr Hf HM Hfmt Hp Hne Hlen Hspace Hk.
  destruct (console_command after_font v kstack NAME user_program fuel w "edit" f _ (or_introl eq_refl) Hf Hk)
    as (w1 & Hs1 & Hk1 & _ & ->).
  pose proof (ready_same w w1 M f Hr Hs1) as Hr1. rewrite run_edit.
  destruct (program_name editor_elf_name (or_introl eq_refl)) as [Hb Hn].
  pose proof (rd_editor _ _ _ Hr1) as Hst. pose proof (ld_size _ _ (sa_loadable _ _ _ Hst)) as Hsize.
  assert (editable v w1 f M (typing text)) as Hedit.
  { split; [apply Hf|apply Hf|apply Hr1| |by exists rest|by apply typing_mode].
    rewrite HM. vm_compute. discriminate. }
  destruct (editor_execs after_font v kstack NAME L r0 Hr0 HL user_program w1 editor_elf_name (TarFs.data ed) f M
    (typing text) (rd_ok _ _ _ Hr1)
    (ready_program w1 M f _ ed Hr1 Hed Hb Hn (proj1 (rd_hidden _ _ _ Hr1)) (proj2 Hsize))
    Hst Hed_image Hedit Hed_program) as [Hs2 (s & scr & r & Hspec & Hw & _ & Hrest & Hvol)].
  rewrite HM in Hspec. cbn [default length] in Hspec. pose proof (proj2 (Hspec s) eq_refl) as Hks. apply spec_typing in Hks; [|done|lia]. rewrite Hks in *.
  assert (r ≠ 0) as Hr0'.
  { apply (write_succeeds (disk (core w1)) M f text r (disk (core (run w1 editor_elf_name (Some f)))));
      [apply Hr1|done|done|done|lia|by rewrite (sm_disk _ _ Hs1)|exact Hw]. }
  exists (run w1 editor_elf_name (Some f)). split; [done|].
  assert (steady w (run w1 editor_elf_name (Some f))) as Hsteady.
  { apply (steady_trans _ w1); [|done]. by apply same_machine_steady; [apply Hr|]. }
  split; [done|]. split; [|by apply Hrest].
  apply (ready_steady w _ M _ f Hr Hsteady).
  - rewrite exec_archive. apply Hs1.
  - by apply Hvol.
  - destruct Hfmt as [Hf1 Hf2]. rewrite !lookup_insert_ne by done. apply Hr.
Qed.
(** The forms [ps] and what running them prints, from no definitions. *)
Record prints_out (ps : list Lisp.ptr) (out : list Z) : Prop := {
  po_forms : Forall LispParse.expr ps ∧ Forall (λ p, LispProofs.wf_code p = true) ps;
  po_bytes : Forall is_byte out;
  po_meaning : ∃ s, Lisp.out s = out ∧
    LispProofs.meaning ef ps
      (Lisp.mk_st (Z.of_nat (length (LispProofs.script_of ps)) + 1) []
         (str "Executando Script LISP..." ++ [10]) (LispProofs.script_of ps)) = Lisp.Exit s;
}.

(** The second command: the interpreter prints what the file means. *)
Lemma typed_lisp fuel w M f ps out rest :
  ready w M f → typable f → M !! format_fat_name f = Some (LispProofs.script_of ps) →
  0 < Z.of_nat (length (LispProofs.script_of ps)) < Lisp.MEMORY_POOL_SIZE → prints_out ps out →
  keystrokes (core w) (command_line "lisp" f ++ 10 :: rest) →
  ∃ w1 w', console fuel w = Shell.Next w' [] ∧ steady w w' ∧ ready w' M f ∧ keystrokes (core w') rest ∧
    line_read w (command_line "lisp" f) w1 ∧ shows after_font w1 out (core w').
Proof.
  intros Hr Hf HM Hlen [Hforms Hout Hmean] Hk.
  destruct (console_command after_font v kstack NAME user_program fuel w "lisp" f _ (or_intror eq_refl) Hf Hk)
    as (w1 & Hs1 & Hk1 & Hline & ->).
  pose proof (ready_same w w1 M f Hr Hs1) as Hr1. rewrite run_lisp.
  destruct (program_name lisp_elf_name (or_intror eq_refl)) as [Hb Hn].
  pose proof (rd_lisp _ _ _ Hr1) as Hst. pose proof (ld_size _ _ (sa_loadable _ _ _ Hst)) as Hsize.
  assert (LispRun.script v ef w1 f M ps out) as Hscript.
  { split; [|apply Hr1|done..]. split; [apply Hf|apply (ty_first _ Hf)]. }
  destruct (lisp_execs after_font v kstack NAME default_at pool_at r0 Hr0 ef user_program w1 lisp_elf_name
    (TarFs.data li) f M ps out (rd_ok _ _ _ Hr1)
    (ready_program w1 M f _ li Hr1 Hli Hb Hn (proj2 (rd_hidden _ _ _ Hr1)) (proj2 Hsize))
    Hst Hli_image Hscript Hli_program) as [Hs2 Hshows].
  exists w1, (run w1 lisp_elf_name (Some f)). split; [done|].
  assert (steady w (run w1 lisp_elf_name (Some f))) as Hsteady.
  { apply (steady_trans _ w1); [|done]. by apply same_machine_steady; [apply Hr|]. }
  split; [done|]. split.
  { apply (ready_steady w _ M _ f Hr Hsteady); [rewrite exec_archive; apply Hs1| |apply Hr].
    rewrite (sh_disk _ _ _ _ Hshows). apply Hr1. }
  split; [|done]. by apply (keystrokes_same (core w1)); [apply Hshows..|].
Qed.

(** C1. A program typed at the keyboard. Whatever the scancodes that wait or are still
    to come, when the characters they type are the line "edit f" for a new
    file [f], the keys that enter the text of some well-formed forms, save it and
    leave the editor, and the line "lisp f", then two turns of the command loop
    start the editor and the interpreter from the archive of drive C; the disk
    then holds the text under that name and every other file as before; the screen
    shows, after the line and the loader's note, what the forms mean, evaluated in
    order; and the machine is as before: CR3, the free frames and the contents of
    the frames in use, with what is typed after that still waiting. *)
Theorem typed_program fuel w M f ps out rest :
  ready w M f → typable f → M !! format_fat_name f = None →
  format_fat_name f ≠ format_fat_name editor_elf_name ∧ format_fat_name f ≠ format_fat_name lisp_elf_name →
  let text := LispProofs.script_of ps in
  Forall printable text → text ≠ [] → Z.of_nat (length text) < 8192 →
  ¬ no_space v (disk (core w)) (format_fat_name f) (length text) → prints_out ps out →
  keystrokes (core w)
    (command_line "edit" f ++ 10 :: typing text ++ 119 :: command_line "lisp" f ++ 10 :: rest) →
  ∃ w1 w2 w3, console fuel w = Shell.Next w1 [] ∧ console fuel w1 = Shell.Next w3 [] ∧
    steady w w3 ∧ keystrokes (core w3) rest ∧
    volume v (disk (core w3)) (<[format_fat_name f := text]> M) ∧
    line_read w1 (command_line "lisp" f) w2 ∧
    screen (core w3) = Vga.vga_print after_font (Vga.vga_print after_font (screen (core w2)) entering) out.
Proof.
  intros Hr Hf HM Hfmt text Hp Hne Hlen Hspace Hout Hk.
  destruct (typed_edit fuel w M f text _ Hr Hf HM Hfmt Hp Hne Hlen Hspace Hk) as (w1 & Hc1 & Hs1 & Hr1 & Hk1).
  destruct (typed_lisp fuel w1 _ f ps out rest Hr1 Hf (lookup_insert_eq _ _ _)) as
    (w2 & w3 & Hc3 & Hs3 & Hr3 & Hk3 & Hline & Hshows); [|done|done|].
  { unfold Lisp.MEMORY_POOL_SIZE. fold text. destruct text; [done|cbn [length] in *; lia]. }
  exists w1, w2, w3. split; [done|]. split; [done|]. split; [by apply (steady_trans _ w1)|]. split; [done|].
  split; [apply Hr3|]. split; [done|]. apply Hshows.
Qed.
End Session.
