(* ===== verification/TypedDemo.v ===== *)
(** A program typed on the machine of EditorDemo.v with an archive: frame 2 holds
    the two program files, the disk is empty, and the scancodes type the
    script of LispDemo.v into the file "sq" and run it. *)

From S2P Require Import Pmm Machine Loader LoaderDemo Block Fat16 Fat16Proofs Fat16Demo Keyboard.
From S2P Require Import System SystemDemo Faults FaultsDemo Files FilesDemo UserProg EditorDemo LispRun LispDemo Typed.
From S2P Require Vga TarFs Acpi Lisp LispProofs.
Open Scope Z_scope.

(** ** The archive *)

(** The file of EditorDemo.v with another entry point, to tell the two apart. *)
Definition lisp_file : list Z := take 24 editor_elf ++ le64 4194425 ++ drop 32 editor_elf.

Definition editor_member : TarFs.member := TarFs.mk_member editor_elf_name 48 editor_elf.
Definition lisp_member : TarFs.member := TarFs.mk_member lisp_elf_name 48 lisp_file.
Definition members : list TarFs.member := [editor_member; lisp_member].

Definition ARCHIVE : Z := BASE + 8192.
Definition archive_at : TarFs.tarfs := TarFs.mk_tarfs ARCHIVE 4096.

(** Frames 0, 1 and 2 are taken. *)
Definition archive_mem : mem :=
  TarFs.put_member (TarFs.put_member {[ BASE := 7 ]} ARCHIVE editor_member) (ARCHIVE + 1024) lisp_member.
Definition stocked : pmm := mk_pmm BASE BASE (4096 * 2045) 2048 3 archive_mem.

Lemma stocked_bits :
  forallb (bitmap_test stocked) [0; 1; 2] && forallb (λ i, negb (bitmap_test stocked i)) (seqZ 3 2045) = true.
Proof. vm_compute. reflexivity. Qed.

Lemma stocked_free i : i ∈ free_set stocked ↔ 3 ≤ i < 2048.
Proof.
  pose proof stocked_bits as [Hused Hfree]%andb_true_iff.
  cbn [free_set pmm_allocator]. rewrite elem_of_free_frames. change (pmm_highest_page stocked) with 2048.
  split.
  - intros [Hi Hb]. rewrite forallb_forall in Hused. destruct (decide (3 ≤ i)); [lia|].
    rewrite (Hused i) in Hb; [discriminate Hb|]. cbn [In]. lia.
  - intros Hi. split; [lia|]. apply negb_true_iff.
    apply (forall_range (λ i, negb (bitmap_test stocked i)) 3 2045); [exact Hfree|lia].
Qed.

Lemma stocked_size : size (free_set stocked) = 2045%nat.
Proof. apply (size_interval _ 3 2045). intros k. apply stocked_free. Qed.

Lemma stocked_bitmap x : in_bitmap stocked x → BASE ≤ x < BASE + 256.
Proof. unfold in_bitmap. change (pmm_bitmap stocked) with BASE. change (pmm_highest_page stocked) with 2048.
  change ((2048 + 7) / 8) with 256. lia. Qed.

Lemma stocked_wf : alloc_wf stocked.
Proof.
  split; [done|done|done| | |].
  - change (0 ∉ free_set stocked). rewrite stocked_free. lia.
  - intros i x Hi. change (i ∈ free_set stocked) in Hi. apply stocked_free in Hi.
    intros Hp Hb%stocked_bitmap. unfold in_page, PAGE_SIZE in Hp. change (hhdm_offset stocked) with BASE in Hp. lia.
  - change (4096 * 2045 = PAGE_SIZE * Z.of_nat (size (free_set stocked))). by rewrite stocked_size.
Qed.

Lemma stocked_frame k : k = 1 ∨ k = 2 → table_frame stocked (k * PAGE_SIZE).
Proof.
  intros Hk. exists k. split; [done|]. split.
  - split; [change (0 < k < 2048); lia|]. intros x Hp Hb. change (in_bitmap stocked x) in Hb.
    apply stocked_bitmap in Hb. unfold in_page, PAGE_SIZE in Hp. change (hhdm stocked) with BASE in Hp. lia.
  - rewrite stocked_free. lia.
Qed.

Lemma stocked_kernel : kernel_table stocked (BASE + 4096).
Proof. exists 4096. split; [reflexivity|]. exact (stocked_frame 1 (or_introl eq_refl)). Qed.

Lemma stocked_run n : n ≤ 2045 → free_run stocked n.
Proof. intros Hn. exists 3. intros k Hk. apply stocked_free. lia. Qed.

Lemma archive_mounted : TarFs.mounted (ram stocked) archive_at members.
Proof.
  assert (∀ e, forallb (λ b, (0 <=? b) && (b <? 256)) (TarFs.data e) = true →
    (length (TarFs.name e) <? 100)%nat = true → (Z.of_nat (length (TarFs.data e)) <? 8 ^ 11) = true →
    TarFs.name e ≠ [] → TarFs.member_ok e) as Hok.
  { intros e Hb ?%Nat.ltb_lt ?%Z.ltb_lt ?. split; [done|]. split; [done|]. split; [done|]. exact (bytes_of _ Hb). }
  split; [done|]. split; [done|].
  split; [done|]. split; [apply Hok; [vm_compute; reflexivity..|discriminate]|]. split.
  { split; [apply TarFs.cstr_of; vm_compute; reflexivity|]. split_and!; vm_compute; reflexivity. }
  split; [done|]. split; [apply Hok; [vm_compute; reflexivity..|discriminate]|]. split.
  { split; [apply TarFs.cstr_of; vm_compute; reflexivity|]. split_and!; vm_compute; reflexivity. }
  right. vm_compute. reflexivity.
Qed.

(** ** The keys *)

(** The scancodes that type a character: its key, with shift where it takes shift. *)
Definition scancodes_of (c : Z) : list Z :=
  match List.find (λ i, at_ scancode_to_ascii i =? c) (seqZ 0 58) with
  | Some i => [i]
  | None =>
      match List.find (λ i, at_ scancode_to_ascii_shift i =? c) (seqZ 0 58) with
      | Some i => [0x2A; i; 0xAA]
      | None => []
      end
  end.

Definition script : list Z := LispProofs.script_of [LispProofs.demo_defun; LispProofs.demo_call].

Definition all_keys : list Z :=
  command_line "edit" (str "sq") ++ 10 :: typing script ++ 119 :: command_line "lisp" (str "sq") ++ 10 :: str "dir".

Definition typed_machine : @system pmm gmap_disk bench :=
  mk_system (mk_kernel stocked 4096 (BASE + 4096) no_screen kbd_boot (concat (scancodes_of <$> all_keys)) demo_empty)
    archive_at Acpi.acpi_boot (mk_bench [] []).

Lemma typed_keystrokes : keystrokes (core typed_machine) all_keys.
Proof.
  split; [exact kbd_boot_wf|]. split.
  - change (Forall is_byte (concat (scancodes_of <$> all_keys))). apply bytes_of. vm_compute. reflexivity.
  - vm_compute. reflexivity.
Qed.

(** ** What the theorem needs *)

(** The program that runs: by its entry point the editor or the interpreter. *)
Definition both_programs (regs : usermode) (k : @kernel pmm gmap_disk) : kernel :=
  if um_entry regs =? 4194424 then editor_program (λ _, 0) demo_vol demo_layout (mk_regs 0 0 0 0) regs k
  else lisp_by_chars regs k.

Lemma lisp_file_same : e_phnum (image lisp_file) 0 = 1 ∧ hdr lisp_file 0 = editor_segment ∧
  e_entry (image lisp_file) 0 = 4194425 ∧ e_entry (image editor_elf) 0 = 4194424.
Proof. vm_compute. done. Qed.

Lemma lisp_file_image : lisp_image 4198400 lisp_file.
Proof.
  destruct lisp_file_same as (Hn & Hh & _).
  split; [vm_compute; discriminate|split; [vm_compute; reflexivity|]].
  intros w Hw. unfold Lisp.MEMORY_POOL_SIZE in Hw. rewrite Hn.
  assert (loads lisp_file 1 = [editor_segment]) as -> by (vm_compute; reflexivity).
  unfold seg_view. cbn [List.find]. assert (in_seg w editor_segment = true) as ->; [|by eexists].
  unfold in_seg. change (seg_start editor_segment) with 4194304.
  change (seg_end editor_segment) with 5255168. lia.
Qed.

Lemma program_startable args img :
  Z.of_nat (length img) = 151 → e_phnum (image img) 0 = 1 → hdr img 0 = editor_segment →
  check_headers (image img) 0 (Z.of_nat (length img)) = None → loads img 1 = [editor_segment] →
  Z.of_nat (length (stack_bytes args)) ≤ 4096 → startable img args stocked.
Proof.
  intros Hl Hn Hh Hc Hload Hf. split; [|done| | |apply stocked_run; unfold file_pages; rewrite Hl; vm_compute; discriminate].
  - split; [rewrite Hl; lia| |done]. rewrite Hn. split; [|intros i j; lia].
    intros i Hi _. assert (i = 0) as -> by lia. rewrite Hh.
    split; unfold USER_LIMIT, USER_STACK; rewrite ?Hl; cbn; try lia. left. vm_compute. discriminate.
  - rewrite Hn. intros i Hi. assert (i = 0) as -> by lia. rewrite Hh. reflexivity.
  - rewrite stocked_size. unfold frames_needed, file_pages. rewrite Hn, Hload, Hl. vm_compute. discriminate.
Qed.

Lemma lisp_startable args :
  Z.of_nat (length (stack_bytes args)) ≤ 4096 → startable lisp_file args stocked.
Proof.
  destruct lisp_file_same as (Hn & Hh & _). intros Hargs.
  apply program_startable; [vm_compute; reflexivity|exact Hn|exact Hh|vm_compute; reflexivity..|exact Hargs].
Qed.

Lemma typed_ready : ready demo_vol 0 members editor_member lisp_member typed_machine ∅ (str "sq").
Proof.
  assert (Z.of_nat (length (stack_bytes (Some (str "sq")))) ≤ 4096) as Hargs by (cbn; lia).
  split.
  - split; [exact stocked_wf|exact stocked_kernel|reflexivity].
  - split; [exact archive_mounted| |left; vm_compute; discriminate].
    change (TarFs.ramdisk_base (archive typed_machine)) with ARCHIVE.
    change (pages (core typed_machine)) with stocked.
    intros x Hx. exists 2. split; [by apply stocked_frame; right|].
    assert (TarFs.span members = 2049) as Hspan by (vm_compute; reflexivity). rewrite Hspan in Hx.
    unfold in_page, PAGE_SIZE, ARCHIVE in *. change (hhdm stocked) with BASE. lia.
  - exact demo_no_files.
  - split; apply lookup_empty.
  - apply (program_startable _ editor_elf); (exact Hargs || vm_compute; reflexivity).
  - by apply lisp_startable.
Qed.

(** There is room: the directory is empty, and clusters 2 and 3 are free. *)
Lemma typed_space : ¬ no_space demo_vol demo_empty (format_fat_name (str "sq")) (length script).
Proof.
  intros [Hfull|(l & old & _ & Hl & _ & Hsize)].
  - assert (Fat16Dir.is_entry demo_vol 0) as H0 by (unfold Fat16Dir.is_entry, Fat16Dir.entries; cbn; lia).
    destruct (Hfull 0 H0) as [Hu _]. vm_compute in Hu. discriminate Hu.
  - assert (∀ c, c = 2 ∨ c = 3 → c ∈ l) as Hin.
    { intros c Hc. apply Hl; [unfold Fat16Table.valid; change (limit demo_vol) with 4; lia|].
      left. destruct Hc as [-> | ->]; vm_compute; reflexivity. }
    assert (length script < 1024)%nat as Hs by (apply Nat.ltb_lt; vm_compute; reflexivity).
    change (csize demo_vol) with 512%nat in Hsize.
    assert (2 ≤ length l)%nat; [|lia].
    apply (submseteq_length [2; 3] l), NoDup_submseteq.
    + repeat constructor; set_solver.
    + intros c Hc%list_elem_of_In. cbn in Hc. apply Hin. destruct Hc as [<-|[<-|[]]]; tauto.
Qed.

Lemma typed_prints : prints_out 20 [LispProofs.demo_defun; LispProofs.demo_call] lisp_text.
Proof. destruct demo_is_script. by split. Qed.

Lemma typed_sq : typable (str "sq").
Proof.
  split; [|repeat (constructor; [split; discriminate|]); constructor|split; discriminate].
  split; [apply bytes_of; reflexivity|]. split; [by repeat constructor|cbn; lia].
Qed.

Lemma script_printable : Forall Editor.printable script.
Proof.
  apply List.Forall_forall. intros c Hc.
  assert (forallb (λ c, ((32 <=? c) && (c <=? 126)) || (c =? 10)) script = true) as Hall by (vm_compute; reflexivity).
  rewrite forallb_forall in Hall. specialize (Hall c Hc). unfold Editor.printable. lia.
Qed.

Lemma typed_names : format_fat_name (str "sq") ≠ format_fat_name editor_elf_name ∧
  format_fat_name (str "sq") ≠ format_fat_name lisp_elf_name.
Proof. split; vm_compute; discriminate. Qed.

Lemma script_length : script ≠ [] ∧ Z.of_nat (length script) < 8192.
Proof. vm_compute. by split. Qed.

Lemma both_editor regs k : um_entry regs = e_entry (image editor_elf) 0 →
  both_programs regs k = editor_program (λ _, 0) demo_vol demo_layout (mk_regs 0 0 0 0) regs k.
Proof. destruct lisp_file_same as (_ & _ & _ & ->). intros He. unfold both_programs. by rewrite He, Z.eqb_refl. Qed.

Lemma both_lisp regs k : um_entry regs = e_entry (image lisp_file) 0 →
  behaves (λ _, 0) demo_vol 0 4198400 (mk_regs 0 0 0 0) 20 k (um_args regs) (both_programs regs k).
Proof.
  destruct lisp_file_same as (_ & _ & -> & _). intros He. unfold both_programs. rewrite He.
  change (4194425 =? 4194424) with false. apply lisp_by_chars_behaves.
Qed.

(** ** A line with a backspace *)

(** "rx", a backspace, "m a b", and a character after the Enter. *)
Definition line_machine : @system pmm gmap_disk bench :=
  with_core typed_machine (mk_kernel stocked 4096 (BASE + 4096) no_screen kbd_boot
    (concat (scancodes_of <$> Shell.demo_keys ++ [10; 120])) demo_empty).

Lemma line_keystrokes : keystrokes (core line_machine) (Shell.demo_keys ++ [10; 120]).
Proof.
  split; [exact kbd_boot_wf|]. split.
  - change (Forall is_byte (concat (scancodes_of <$> Shell.demo_keys ++ [10; 120]))). apply bytes_of. vm_compute. reflexivity.
  - vm_compute. reflexivity.
Qed.

Lemma rm_line : bool_decide (Shell.typed Shell.demo_keys = []) = false ∧
  (Shell.words (Shell.typed Shell.demo_keys)) = (str "rm", str "a b").
Proof. vm_compute. done. Qed.

Lemma console_line_witness :
  ∃ w1, same_machine line_machine w1 ∧ keystrokes (core w1) [120] ∧
    line_read (λ _, 0) demo_vol 0 0 both_programs line_machine Shell.demo_keys w1 ∧
    console_turn (λ _, 0) demo_vol 0 0 both_programs 5 line_machine =
      Shell.run_command (H := system_services (λ _, 0) demo_vol 0 0 both_programs) 5 w1 [] (str "rm") (str "a b").
Proof.
  destruct rm_line as [Hne Hw].
  destruct (console_line (λ _, 0) demo_vol 0 0 both_programs 5 line_machine Shell.demo_keys
    (Shell.plain_keys Shell.demo_keys eq_refl)) as [_ Hline].
  destruct (Hline [120] line_keystrokes) as (w1 & Hs & Hk & Hr & Ht).
  - rewrite Hw. vm_compute. reflexivity.
  - exists w1. rewrite Hne, Hw in Ht. split; [exact Hs|]. split; [exact Hk|]. split; [exact Hr|exact Ht].
Defined.

(** ** A program of the archive that crashes *)

Definition lisp_line : list Z := str "exec bin/lisp.elf" ++ [10].

Lemma lisp_turn :
  ∃ w, Shell.shell_turn (H := system_services (λ _, 0) demo_vol 0 0 fault_at_once) 5 typed_machine lisp_line
    = Shell.Next w [].
Proof.
  generalize typed_machine. intros w0.
  line_typed lisp_line (str "exec bin/lisp.elf") (str "exec") (str "bin/lisp.elf"). by eexists.
Qed.

Lemma lisp_found : TarFs.find_member members (str "bin/lisp.elf") = Some lisp_member.
Proof. reflexivity. Qed.

Lemma lisp_runnable : keys_runnable (λ _, 0) demo_vol 0 0 fault_at_once typed_machine lisp_line.
Proof.
  intros cmd rest name args f a Hr Hs Ht.
  pose proof (eq_trans (eq_sym Hr) (eq_refl : _ = Some (str "exec bin/lisp.elf", []))) as Hc.
  injection Hc as -> ->. injection Hs as <- <-.
  injection Ht as <- <-. destruct typed_ready as [_ _ _ [_ Hh] _ _].
  destruct (program_name lisp_elf_name (or_intror eq_refl)) as [Hb Hn].
  pose proof (lisp_startable None ltac:(cbn; lia)) as Hst.
  refine (startable_runnable demo_vol 0 typed_machine lisp_elf_name None lisp_file _ Hst).
  exact (ready_program demo_vol 0 members editor_member lisp_member typed_machine ∅ (str "sq") lisp_elf_name lisp_member
    typed_ready lisp_found Hb Hn Hh eq_refl).
Qed.

Lemma drive_c_session_witness :
  ∃ w, run_lines (λ _, 0) demo_vol 0 0 fault_at_once 5 typed_machine [lisp_line] = Some w ∧
    drive_c 0 w (str "bin/lisp.elf") (ram (pages (core w))) = mk_answer 151 (151, lisp_file) ∧
    drive_c 0 w (str "bin/none") (ram (pages (core w))) = mk_answer 0 (0, []).
Proof.
  destruct lisp_turn as [w Ht].
  assert (run_lines (λ _, 0) demo_vol 0 0 fault_at_once 5 typed_machine [lisp_line] = Some w ∧
    lines_fit (λ _, 0) demo_vol 0 0 fault_at_once 5 typed_machine [lisp_line]) as [Hl Hfit].
  { unfold run_lines, lines_fit. rewrite Ht. split; [done|]. split; [exact lisp_runnable|exact I]. }
  exists w. split; [exact Hl|].
  assert (∀ n, short_name n →
    drive_c 0 w n (ram (pages (core w))) = member_answer members n) as Hd.
  { intros n Hn. apply (drive_c_session (λ _, 0) demo_vol 0 0 fault_at_once 5 [lisp_line] typed_machine w members n
      fault_on_grid (system_ok_up _ (rd_ok _ _ _ _ _ _ _ _ typed_ready)));
      [intros f Hf; discriminate Hf|exact (rd_initrd _ _ _ _ _ _ _ _ typed_ready)|exact Hl|exact Hfit|exact Hn]. }
  split; rewrite Hd.
  - unfold member_answer. rewrite lisp_found. vm_compute. reflexivity.
  - exact (proj2 (program_name lisp_elf_name (or_intror eq_refl))).
  - reflexivity.
  - split; [|reflexivity]. apply List.Forall_forall. intros c Hc. vm_compute in Hc. lia.
Defined.

(** ** The theorem at this machine *)

Lemma typed_program_witness :
  let console := console_turn (λ _, 0) demo_vol 0 0 both_programs 5 in
  ∃ w1 w2 w3, console typed_machine = Shell.Next w1 [] ∧ console w1 = Shell.Next w3 [] ∧
    steady typed_machine w3 ∧ keystrokes (core w3) (str "dir") ∧
    volume demo_vol (disk (core w3)) (<[format_fat_name (str "sq") := script]> ∅) ∧
    line_read (λ _, 0) demo_vol 0 0 both_programs w1 (command_line "lisp" (str "sq")) w2 ∧
    screen (core w3) =
      Vga.vga_print (λ _, 0) (Vga.vga_print (λ _, 0) (screen (core w2)) entering) lisp_text.
Proof.
  apply (typed_program (λ _, 0) demo_vol 0 0 both_programs demo_layout 0 4198400 (mk_regs 0 0 0 0) 20
    (conj (conj (Z.le_refl 0) eq_refl) (conj (Z.le_refl 0) eq_refl)) demo_layout_ok
    members editor_member lisp_member eq_refl editor_image_ok eq_refl lisp_file_image both_editor both_lisp
    5 typed_machine ∅ (str "sq") [LispProofs.demo_defun; LispProofs.demo_call] lisp_text (str "dir")).
  - exact typed_ready.
  - exact typed_sq.
  - apply lookup_empty.
  - exact typed_names.
  - exact script_printable.
  - exact (proj1 script_length).
  - exact (proj2 script_length).
  - exact typed_space.
  - exact typed_prints.
  - exact typed_keystrokes.
Defined.
